(** * Platform.js: a shallow embedding of [parse] and its helpers

    The development follows [src/platform.js]:

    - [Str]: the string primitives of the host language that the program
      uses ([indexOf], [slice], [split], [charAt], ...), over 8-bit code
      units;
    - [Re]: the regular expressions of the host language, as the program
      uses them: pattern sources are kept as the strings of the source file
      and compiled by [Re.compile] (a pattern that does not compile models
      the [SyntaxError] of [RegExp(...)]); matching is the backtracking
      semantics (leftmost match, ordered alternatives, greedy and lazy
      repetition, capture groups, lookahead, word boundaries, the [i] and
      [g] flags);
    - the program itself: [capitalize], [cleanupOS], [format], [qualify],
      [reduce], [trim], the pattern tables, the five pickers, [getVersion]
      and [parse] with its ordered correction rules;
    - the properties.

    Numbers are binary64 values, each held as the rational it denotes:
    [parseFloat], [parseInt], [Number] and the decimal constants of the
    source round to the nearest such value, ties to even ([Num.round64]).
    Strings are sequences of 8-bit code units. *)

From Stdlib Require Import List String Ascii Bool Arith NArith ZArith QArith Lia.
From Stdlib Require Import DecimalString.
Import ListNotations.
Local Close Scope Q_scope.
Local Open Scope string_scope.
Local Open Scope bool_scope.

(* ------------------------------------------------------------------ *)
(** ** Characters and strings of the host language *)

Module Str.

Definition code (c : ascii) : N := N_of_ascii c.

Definition between (lo hi : N) (c : ascii) : bool :=
  (lo <=? code c)%N && (code c <=? hi)%N.

(** The classes of code units are read off the bits (least significant
    first); [is_digit_range] and its siblings below relate them to the
    ranges of codes. *)
Definition is_digit (c : ascii) : bool :=
  let '(Ascii b0 b1 b2 b3 b4 b5 b6 b7) := c in
  negb b7 && negb b6 && b5 && b4 && (negb b3 || (negb b2 && negb b1)).

(** The low five bits hold a number from 1 to 26. *)
Definition letter_bits (b0 b1 b2 b3 b4 : bool) : bool :=
  (b0 || b1 || b2 || b3 || b4) && negb (b4 && b3 && (b2 || (b1 && b0))).

Definition is_upper (c : ascii) : bool :=
  let '(Ascii b0 b1 b2 b3 b4 b5 b6 b7) := c in
  negb b7 && b6 && negb b5 && letter_bits b0 b1 b2 b3 b4.

Definition is_lower (c : ascii) : bool :=
  let '(Ascii b0 b1 b2 b3 b4 b5 b6 b7) := c in
  negb b7 && b6 && b5 && letter_bits b0 b1 b2 b3 b4.

(** [\w]: letters, digits and the underscore. *)
Definition is_word (c : ascii) : bool :=
  is_digit c || is_upper c || is_lower c || Ascii.eqb c "_".

(** [\s], restricted to 8-bit code units. *)
Definition is_space (c : ascii) : bool :=
  between 9 13 c || Ascii.eqb c " " || (code c =? 160)%N.

(** Line terminators, which [.] does not match. *)
Definition is_newline (c : ascii) : bool :=
  (code c =? 10)%N || (code c =? 13)%N.

(** [toUpperCase] and [toLowerCase] on one code unit. *)
Definition upper (c : ascii) : ascii :=
  let '(Ascii b0 b1 b2 b3 b4 b5 b6 b7) := c in
  if is_lower c then Ascii b0 b1 b2 b3 b4 false b6 b7 else c.

Definition lower (c : ascii) : ascii :=
  let '(Ascii b0 b1 b2 b3 b4 b5 b6 b7) := c in
  if is_upper c then Ascii b0 b1 b2 b3 b4 true b6 b7 else c.

Definition digit_val (c : ascii) : N := code c - 48.

Definition is_hex (c : ascii) : bool :=
  is_digit c || between 65 70 c || between 97 102 c.

Definition hex_val (c : ascii) : N :=
  if is_digit c then code c - 48
  else if between 65 70 c then code c - 55
  else code c - 87.

Definition nonempty (s : string) : bool :=
  match s with EmptyString => false | String _ _ => true end.

(** [s.charAt(i)]: the empty string when [i] is out of range. *)
Definition charAt (s : string) (i : nat) : string :=
  match String.get i s with
  | Some c => String c EmptyString
  | None => EmptyString
  end.

(** [s.slice(i)] for [0 <= i]. *)
Fixpoint drop (i : nat) (s : string) : string :=
  match i, s with
  | O, _ => s
  | S i', String _ s' => drop i' s'
  | S _, EmptyString => EmptyString
  end.

Fixpoint take (i : nat) (s : string) : string :=
  match i, s with
  | S i', String c s' => String c (take i' s')
  | _, _ => EmptyString
  end.

(** [s.slice(0, -1)] and [s.slice(-1)]. *)
Definition drop_last (s : string) : string := take (String.length s - 1) s.
Definition last_char (s : string) : string := drop (String.length s - 1) s.

Fixpoint starts_with (p s : string) : bool :=
  match p, s with
  | EmptyString, _ => true
  | String a p', String b s' => Ascii.eqb a b && starts_with p' s'
  | String _ _, EmptyString => false
  end.

(** [s.indexOf(p)], [None] for [-1]. *)
Fixpoint index_from (i : nat) (p s : string) : option nat :=
  if starts_with p s then Some i
  else match s with
       | EmptyString => None
       | String _ s' => index_from (S i) p s'
       end.

Definition indexOf (s p : string) : option nat := index_from 0 p s.

(** [s.replace(p, r)] with a string pattern: the first occurrence only, and
    [r] taken literally (the program passes [''] only). *)
Definition replace_str (s p r : string) : string :=
  match indexOf s p with
  | Some i => take i s ++ r ++ drop (i + String.length p) s
  | None => s
  end.

(** [s.split(sep)] for a non-empty separator. *)
Fixpoint split_go (fuel : nat) (sep s acc : string) : list string :=
  match fuel with
  | O => [acc ++ s]
  | S f =>
      if starts_with sep s
      then acc :: split_go f sep (drop (String.length sep) s) EmptyString
      else match s with
           | EmptyString => [acc]
           | String c s' => split_go f sep s' (acc ++ String c EmptyString)
           end
  end.

Definition split (s sep : string) : list string :=
  split_go (S (String.length s)) sep s EmptyString.

(** [a.join(sep)]. *)
Fixpoint join (sep : string) (l : list string) : string :=
  match l with
  | [] => EmptyString
  | [x] => x
  | x :: rest => x ++ sep ++ join sep rest
  end.

Fixpoint chars (s : string) : list string :=
  match s with
  | EmptyString => []
  | String c s' => String c EmptyString :: chars s'
  end.

Fixpoint contains (p s : string) : bool :=
  starts_with p s ||
  match s with
  | EmptyString => false
  | String _ s' => contains p s'
  end.

Lemma is_digit_range (c : ascii) : is_digit c = between 48 57 c.
Proof. destruct c as [[] [] [] [] [] [] [] []]; reflexivity. Qed.

Lemma is_upper_range (c : ascii) : is_upper c = between 65 90 c.
Proof. destruct c as [[] [] [] [] [] [] [] []]; reflexivity. Qed.

Lemma is_lower_range (c : ascii) : is_lower c = between 97 122 c.
Proof. destruct c as [[] [] [] [] [] [] [] []]; reflexivity. Qed.

Lemma upper_code (c : ascii) :
  upper c = if between 97 122 c then ascii_of_N (code c - 32) else c.
Proof. destruct c as [[] [] [] [] [] [] [] []]; reflexivity. Qed.

Lemma lower_code (c : ascii) :
  lower c = if between 65 90 c then ascii_of_N (code c + 32) else c.
Proof. destruct c as [[] [] [] [] [] [] [] []]; reflexivity. Qed.

End Str.

(* ------------------------------------------------------------------ *)
(** ** Regular expressions of the host language *)

Module Re.
Import Str.

Local Open Scope list_scope.
Local Open Scope char_scope.
Local Notation "a =c b" := (Ascii.eqb a b) (at level 70).

(** Members of a character class. *)
Inductive citem : Type :=
| CChar (c : ascii)
| CRange (lo hi : ascii)
| CDigit (neg : bool)
| CWord (neg : bool)
| CSpace (neg : bool).

Inductive regex : Type :=
| REmpty
| RChar (c : ascii)
| RAny
| RClass (neg : bool) (items : list citem)
| RSeq (r1 r2 : regex)
| RAlt (r1 r2 : regex)
| RRep (mn : nat) (mx : option nat) (greedy : bool) (r : regex)
| RGroup (n : nat) (r : regex)
| RLook (neg : bool) (r : regex)
| RBackref (n : nat)
| RBol
| REol
| RWordB (neg : bool).

(** *** Compiling a pattern source *)

(** Number of capturing parentheses of a pattern source. *)
Fixpoint count_groups (in_class : bool) (s : string) : nat :=
  match s with
  | EmptyString => 0
  | String c s' =>
      if c =c "\" then
        match s' with
        | EmptyString => 0
        | String _ s'' => count_groups in_class s''
        end
      else if in_class then count_groups (negb (c =c "]")) s'
      else if c =c "[" then count_groups true s'
      else if c =c "(" then
        match s' with
        | String "?" _ => count_groups false s'
        | _ => S (count_groups false s')
        end
      else count_groups false s'
  end.

Fixpoint read_nat (acc : nat) (s : string) : nat * string :=
  match s with
  | String c s' =>
      if is_digit c then read_nat (10 * acc + N.to_nat (digit_val c)) s'
      else (acc, s)
  | EmptyString => (acc, s)
  end.

Definition starts_digit (s : string) : bool :=
  match s with String c _ => is_digit c | EmptyString => false end.

(** A braced quantifier [{n}], [{n,}] or [{n,m}] at the head of [s]. *)
Definition read_braces (s : string) : option (nat * option nat * string) :=
  match s with
  | String "{" s1 =>
      if starts_digit s1 then
        let '(n, s2) := read_nat 0 s1 in
        match s2 with
        | String "}" s3 => Some (n, Some n, s3)
        | String "," (String "}" s3) => Some (n, None, s3)
        | String "," s3 =>
            if starts_digit s3 then
              let '(m, s4) := read_nat 0 s3 in
              match s4 with
              | String "}" s5 => Some (n, Some m, s5)
              | _ => None
              end
            else None
        | _ => None
        end
      else None
  | _ => None
  end.

Definition is_octal (c : ascii) : bool := between 48 55 c.

(** A legacy octal escape: up to three octal digits, value below 256. *)
Definition read_octal (s : string) : ascii * string :=
  match s with
  | String a s1 =>
      let va := digit_val a in
      match s1 with
      | String b s2 =>
          if is_octal b then
            let vb := (va * 8 + digit_val b)%N in
            match s2 with
            | String c s3 =>
                if is_octal c && (va <=? 3)%N
                then (ascii_of_N (vb * 8 + digit_val c), s3)
                else (ascii_of_N vb, s2)
            | EmptyString => (ascii_of_N vb, s2)
            end
          else (ascii_of_N va, s1)
      | EmptyString => (ascii_of_N va, s1)
      end
  | EmptyString => (zero, s)
  end.

(** What an escape denotes, common to atoms and class members. *)
Inductive esc : Type :=
| EChar (c : ascii)
| EClass (i : citem)
| ENever.

(** The escape whose letter is [c]; [s] follows [c].  [in_class] selects
    the reading inside brackets.  [None]: not one of the escapes handled
    here (digits, [b], [B]). *)
Definition read_escape (in_class : bool) (c : ascii) (s : string)
  : option (esc * string) :=
  if c =c "d" then Some (EClass (CDigit false), s)
  else if c =c "D" then Some (EClass (CDigit true), s)
  else if c =c "w" then Some (EClass (CWord false), s)
  else if c =c "W" then Some (EClass (CWord true), s)
  else if c =c "s" then Some (EClass (CSpace false), s)
  else if c =c "S" then Some (EClass (CSpace true), s)
  else if c =c "t" then Some (EChar (ascii_of_N 9), s)
  else if c =c "n" then Some (EChar (ascii_of_N 10), s)
  else if c =c "v" then Some (EChar (ascii_of_N 11), s)
  else if c =c "f" then Some (EChar (ascii_of_N 12), s)
  else if c =c "r" then Some (EChar (ascii_of_N 13), s)
  else if c =c "x" then
    match s with
    | String h1 (String h2 s') =>
        if is_hex h1 && is_hex h2
        then Some (EChar (ascii_of_N (hex_val h1 * 16 + hex_val h2)), s')
        else Some (EChar c, s)
    | _ => Some (EChar c, s)
    end
  else if c =c "u" then
    match s with
    | String h1 (String h2 (String h3 (String h4 s'))) =>
        if is_hex h1 && is_hex h2 && is_hex h3 && is_hex h4 then
          if (hex_val h1 =? 0)%N && (hex_val h2 =? 0)%N
          then Some (EChar (ascii_of_N (hex_val h3 * 16 + hex_val h4)), s')
          else Some (ENever, s')
        else Some (EChar c, s)
    | _ => Some (EChar c, s)
    end
  else if c =c "c" then
    match s with
    | String l s' =>
        if is_upper l || is_lower l || (in_class && (is_digit l || (l =c "_")))
        then Some (EChar (ascii_of_N (N.modulo (code l) 32)), s')
        else Some (EChar "\", String c s)
    | EmptyString => Some (EChar "\", String c s)
    end
  else if is_digit c || (c =c "b") || (c =c "B") then None
  else Some (EChar c, s).

Definition esc_regex (e : esc) : regex :=
  match e with
  | EChar c => RChar c
  | EClass i => RClass false [i]
  | ENever => RClass false []
  end.

Definition esc_items (e : esc) : list citem :=
  match e with
  | EChar c => [CChar c]
  | EClass i => [i]
  | ENever => []
  end.

(** One class atom at the head of [s] (not ["]"]). *)
Definition read_class_atom (s : string) : option (esc * string) :=
  match s with
  | EmptyString => None
  | String c s1 =>
      if c =c "\" then
        match s1 with
        | EmptyString => None
        | String e s2 =>
            if e =c "b" then Some (EChar (ascii_of_N 8), s2)
            else if e =c "B" then Some (EChar e, s2)
            else if e =c "-" then Some (EChar e, s2)
            else if is_digit e then
              if is_octal e then let '(o, s3) := read_octal s1 in Some (EChar o, s3)
              else Some (EChar e, s2)
            else read_escape true e s2
        end
      else Some (EChar c, s1)
  end.

(** The members of a class, up to and including the closing bracket. *)
Fixpoint read_class (fuel : nat) (s : string) : option (list citem * string) :=
  match fuel with
  | O => None
  | S f =>
      match s with
      | EmptyString => None
      | String "]" s' => Some ([], s')
      | _ =>
          match read_class_atom s with
          | None => None
          | Some (a, s1) =>
              match s1 with
              | String "-" (String c2 s2') =>
                  if c2 =c "]" then
                    match read_class f s1 with
                    | Some (l, s') => Some (esc_items a ++ l, s')
                    | None => None
                    end
                  else
                    match read_class_atom (String c2 s2') with
                    | None => None
                    | Some (b, s3) =>
                        match a, b with
                        | EChar lo, EChar hi =>
                            if (code lo <=? code hi)%N then
                              match read_class f s3 with
                              | Some (l, s') => Some (CRange lo hi :: l, s')
                              | None => None
                              end
                            else None
                        | _, _ =>
                            match read_class f s3 with
                            | Some (l, s') =>
                                Some (esc_items a ++ CChar "-" :: esc_items b ++ l, s')
                            | None => None
                            end
                        end
                    end
              | _ =>
                  match read_class f s1 with
                  | Some (l, s') => Some (esc_items a ++ l, s')
                  | None => None
                  end
              end
          end
      end
  end.

(** A quantifier at the head of [s]: [None] is a malformed range;
    [Some (None, s)] is no quantifier. *)
Definition read_quant (s : string)
  : option (option (nat * option nat * bool) * string) :=
  let lazy (mn : nat) (mx : option nat) (s' : string) :=
    match s' with
    | String "?" s'' => Some (Some (mn, mx, false), s'')
    | _ => Some (Some (mn, mx, true), s')
    end in
  match s with
  | String "*" s' => lazy 0 None s'
  | String "+" s' => lazy 1 None s'
  | String "?" s' => lazy 0 (Some 1) s'
  | String "{" _ =>
      match read_braces s with
      | Some (mn, Some mx, s') => if Nat.ltb mx mn then None else lazy mn (Some mx) s'
      | Some (mn, None, s') => lazy mn None s'
      | None => Some (None, s)
      end
  | _ => Some (None, s)
  end.

Definition quantified (atom : regex) (s : string) (n : nat)
  : option (regex * string * nat) :=
  match read_quant s with
  | None => None
  | Some (None, s') => Some (atom, s', n)
  | Some (Some (mn, mx, greedy), s') => Some (RRep mn mx greedy atom, s', n)
  end.

(** Disjunction, alternative and term.  [total] is the number of capturing
    groups of the whole pattern, [n] the number opened so far. *)
Fixpoint pDisj (fuel total : nat) (s : string) (n : nat) {struct fuel}
  : option (regex * string * nat) :=
  match fuel with
  | O => None
  | S f =>
      match pAltern f total s n with
      | Some (r, String "|" s', n') =>
          match pDisj f total s' n' with
          | Some (r2, s'', n'') => Some (RAlt r r2, s'', n'')
          | None => None
          end
      | other => other
      end
  end
with pAltern (fuel total : nat) (s : string) (n : nat) {struct fuel}
  : option (regex * string * nat) :=
  match fuel with
  | O => None
  | S f =>
      match s with
      | EmptyString => Some (REmpty, s, n)
      | String "|" _ => Some (REmpty, s, n)
      | String ")" _ => Some (REmpty, s, n)
      | _ =>
          match pTerm f total s n with
          | Some (r, s', n') =>
              match pAltern f total s' n' with
              | Some (REmpty, s'', n'') => Some (r, s'', n'')
              | Some (r2, s'', n'') => Some (RSeq r r2, s'', n'')
              | None => None
              end
          | None => None
          end
      end
  end
with pTerm (fuel total : nat) (s : string) (n : nat) {struct fuel}
  : option (regex * string * nat) :=
  match fuel with
  | O => None
  | S f =>
      let closed (wrap : regex -> regex) (body : string) (n0 : nat) :=
        match pDisj f total body n0 with
        | Some (r, String ")" s', n') => quantified (wrap r) s' n'
        | _ => None
        end in
      match s with
      | EmptyString => None
      | String c s1 =>
          if c =c "^" then Some (RBol, s1, n)
          else if c =c "$" then Some (REol, s1, n)
          else if c =c "(" then
            match s1 with
            | String "?" (String ":" s2) => closed (fun r => r) s2 n
            | String "?" (String "=" s2) => closed (RLook false) s2 n
            | String "?" (String "!" s2) => closed (RLook true) s2 n
            | String "?" _ => None
            | _ => closed (RGroup (S n)) s1 (S n)
            end
          else if (c =c ")") || (c =c "*") || (c =c "+") || (c =c "?") then None
          else if c =c "{" then
            match read_braces s with
            | Some _ => None
            | None => quantified (RChar c) s1 n
            end
          else if c =c "[" then
            let '(neg, s2) :=
              match s1 with
              | String "^" s2 => (true, s2)
              | _ => (false, s1)
              end in
            match read_class (S (String.length s2)) s2 with
            | Some (items, s3) => quantified (RClass neg items) s3 n
            | None => None
            end
          else if c =c "\" then
            match s1 with
            | EmptyString => None
            | String e s2 =>
                if e =c "b" then Some (RWordB false, s2, n)
                else if e =c "B" then Some (RWordB true, s2, n)
                else if is_digit e then
                  let '(v, s3) := read_nat 0 s1 in
                  if negb (e =c "0") && Nat.leb v total then quantified (RBackref v) s3 n
                  else if is_octal e then
                    let '(o, s3') := read_octal s1 in quantified (RChar o) s3' n
                  else quantified (RChar e) s2 n
                else
                  match read_escape false e s2 with
                  | Some (x, s3) => quantified (esc_regex x) s3 n
                  | None => None
                  end
            end
          else if c =c "." then quantified RAny s1 n
          else quantified (RChar c) s1 n
      end
  end.

(** [RegExp(src)]: [None] models the [SyntaxError]. *)
Definition compile (src : string) : option regex :=
  match pDisj (4 * String.length src + 8) (count_groups false src) src 0 with
  | Some (r, EmptyString, _) => Some r
  | _ => None
  end.

(** *** Matching *)

(** A position in the subject: the index, the code unit before it, what is
    left, and the captures so far. *)
Record mstate : Type := MState {
  m_pos : nat;
  m_prev : option ascii;
  m_rest : string;
  m_caps : list (nat * string)
}.

Definition cont : Type := mstate -> option mstate.

Definition orelse (a b : option mstate) : option mstate :=
  match a with Some _ => a | None => b end.

Fixpoint get_cap (n : nat) (caps : list (nat * string)) : option string :=
  match caps with
  | [] => None
  | (k, v) :: rest => if Nat.eqb k n then Some v else get_cap n rest
  end.

Definition set_cap (n : nat) (v : string) (caps : list (nat * string))
  : list (nat * string) :=
  (n, v) :: filter (fun kv => negb (Nat.eqb (fst kv) n)) caps.

(** Capturing groups inside a regex, cleared when a repetition re-enters. *)
Fixpoint groups_of (r : regex) : list nat :=
  match r with
  | RSeq a b | RAlt a b => groups_of a ++ groups_of b
  | RRep _ _ _ a | RLook _ a => groups_of a
  | RGroup n a => n :: groups_of a
  | _ => []
  end.

Definition clear_caps (gs : list nat) (st : mstate) : mstate :=
  match gs with
  | [] => st
  | _ =>
      MState (m_pos st) (m_prev st) (m_rest st)
        (filter (fun kv => negb (existsb (Nat.eqb (fst kv)) gs)) (m_caps st))
  end.

(** Canonical form of a code unit under the [i] flag. *)
Definition canon (ic : bool) (c : ascii) : ascii := if ic then upper c else c.

Definition item_has (i : citem) (c : ascii) : bool :=
  match i with
  | CChar x => x =c c
  | CRange lo hi => between (code lo) (code hi) c
  | CDigit neg => xorb neg (is_digit c)
  | CWord neg => xorb neg (is_word c)
  | CSpace neg => xorb neg (is_space c)
  end.

Definition class_has (ic : bool) (items : list citem) (c : ascii) : bool :=
  existsb (fun i => item_has i c) items ||
  (ic && (existsb (fun i => item_has i (upper c)) items ||
          existsb (fun i => item_has i (lower c)) items)).

(** Consume one code unit accepted by [ok]. *)
Definition step1 (ok : ascii -> bool) (k : cont) (st : mstate) : option mstate :=
  match m_rest st with
  | String c rest' =>
      if ok c then k (MState (S (m_pos st)) (Some c) rest' (m_caps st)) else None
  | EmptyString => None
  end.

Definition is_word_opt (o : option ascii) : bool :=
  match o with Some c => is_word c | None => false end.

Definition next_char (st : mstate) : option ascii :=
  match m_rest st with String c _ => Some c | EmptyString => None end.

Definition at_word_boundary (st : mstate) : bool :=
  xorb (is_word_opt (m_prev st)) (is_word_opt (next_char st)).

(** Consume the text [t], code unit by code unit, modulo [canon]. *)
Fixpoint step_text (ic : bool) (t : string) (k : cont) : cont :=
  match t with
  | EmptyString => k
  | String c t' => step1 (fun x => canon ic x =c canon ic c) (step_text ic t' k)
  end.

(** The mandatory iterations of a repetition. *)
Fixpoint rep_min (step : cont -> cont) (mn : nat) (k : cont) : cont :=
  match mn with
  | O => k
  | S n => step (rep_min step n k)
  end.

Definition dec_max (mx : option nat) : option nat :=
  match mx with Some n => Some (pred n) | None => None end.

Definition max_reached (mx : option nat) : bool :=
  match mx with Some O => true | _ => false end.

(** The optional iterations.  An iteration that consumes nothing is
    rejected, so there are at most as many as code units left ([fuel]). *)
Fixpoint rep_opt (step : cont -> cont) (greedy : bool) (fuel : nat)
    (mx : option nat) (k : cont) (st : mstate) : option mstate :=
  match fuel with
  | O => k st
  | S f =>
      if max_reached mx then k st
      else
        let again :=
          step (fun st' =>
                  if Nat.eqb (m_pos st') (m_pos st) then None
                  else rep_opt step greedy f (dec_max mx) k st') st in
        if greedy then orelse again (k st) else orelse (k st) again
  end.

Definition sub_max (mx : option nat) (mn : nat) : option nat :=
  match mx with Some n => Some (n - mn) | None => None end.

(** The matcher of [r], in continuation-passing style: [k] is what has to
    match after [r]. *)
Fixpoint m (ic : bool) (r : regex) (k : cont) (st : mstate) {struct r}
  : option mstate :=
  match r with
  | REmpty => k st
  | RChar c => step1 (fun x => canon ic x =c canon ic c) k st
  | RAny => step1 (fun x => negb (is_newline x)) k st
  | RClass neg items => step1 (fun x => xorb neg (class_has ic items x)) k st
  | RSeq r1 r2 => m ic r1 (m ic r2 k) st
  | RAlt r1 r2 => orelse (m ic r1 k st) (m ic r2 k st)
  | RRep mn mx greedy r1 =>
      let gs := groups_of r1 in
      let step := fun (k' : cont) (s : mstate) => m ic r1 k' (clear_caps gs s) in
      rep_min step mn
        (fun s1 => rep_opt step greedy (String.length (m_rest s1)) (sub_max mx mn) k s1)
        st
  | RGroup n r1 =>
      m ic r1
        (fun st' =>
           k (MState (m_pos st') (m_prev st') (m_rest st')
                (set_cap n (take (m_pos st' - m_pos st) (m_rest st)) (m_caps st'))))
        st
  | RLook neg r1 =>
      match m ic r1 (fun s => Some s) st with
      | Some st' =>
          if neg then None
          else k (MState (m_pos st) (m_prev st) (m_rest st) (m_caps st'))
      | None => if neg then k st else None
      end
  | RBackref n =>
      match get_cap n (m_caps st) with
      | Some t => step_text ic t k st
      | None => k st
      end
  | RBol => if Nat.eqb (m_pos st) 0 then k st else None
  | REol => match m_rest st with EmptyString => k st | _ => None end
  | RWordB neg => if xorb neg (at_word_boundary st) then k st else None
  end.

(** The result of [exec]: where the match starts, its text, and the
    captures [1..]. *)
Record match_result : Type := Match {
  mr_index : nat;
  mr_text : string;
  mr_caps : list (nat * string);
  mr_after : string
}.

(** Try every start position from the left. *)
Fixpoint search (ic : bool) (r : regex) (pos : nat) (prev : option ascii)
    (rest : string) : option match_result :=
  match m ic r (fun s => Some s) (MState pos prev rest []) with
  | Some st' =>
      Some (Match pos (take (m_pos st' - pos) rest) (m_caps st') (m_rest st'))
  | None =>
      match rest with
      | EmptyString => None
      | String c rest' => search ic r (S pos) (Some c) rest'
      end
  end.

(** [r.exec(s)] for a regex without the [g] flag. *)
Definition exec (ic : bool) (r : regex) (s : string) : option match_result :=
  search ic r 0 None s.

Definition test (ic : bool) (r : regex) (s : string) : bool :=
  match exec ic r s with Some _ => true | None => false end.

(** Capture [n] of a match: [None] is [undefined]. *)
Definition cap (n : nat) (mr : match_result) : option string :=
  get_cap n (mr_caps mr).

(** *** The [RegExp] objects of the program *)

Record regexp : Type := MkRegExp {
  re_ast : regex;
  re_ic : bool;
  re_groups : nat
}.

(** [RegExp(src, 'i')] and [RegExp(src)]. *)
Definition RegExp (src : string) (ic : bool) : option regexp :=
  match compile src with
  | Some r => Some (MkRegExp r ic (count_groups false src))
  | None => None
  end.

(** A regex literal of the source file.  Literals are checked by the host
    when the file is loaded, so they always compile; the fallback matches
    nothing. *)
Definition lit (src : string) (ic : bool) : regexp :=
  match RegExp src ic with
  | Some r => r
  | None => MkRegExp (RClass false []) ic 0
  end.

Definition rexec (r : regexp) (s : string) : option match_result :=
  exec (re_ic r) (re_ast r) s.

Definition rtest (r : regexp) (s : string) : bool :=
  test (re_ic r) (re_ast r) s.

Definition cap_or_empty (mr : match_result) (n : nat) : string :=
  match cap n mr with Some t => t | None => EmptyString end.

(** [String(r.exec(s))]: the match and the captures, joined by commas. *)
Definition match_string (r : regexp) (mr : match_result) : string :=
  join "," (mr_text mr :: map (cap_or_empty mr) (seq 1 (re_groups r))).

(** The replacement text of [String.prototype.replace] for one match:
    [$$], [$&], [$n] and [$nn]. *)
Fixpoint expand (fuel ngroups : nat) (repl : string) (mr : match_result) : string :=
  match fuel with
  | O => repl
  | S f =>
      match repl with
      | EmptyString => EmptyString
      | String "$" (String "$" t) => String "$" (expand f ngroups t mr)
      | String "$" (String "&" t) => (mr_text mr ++ expand f ngroups t mr)%string
      | String "$" (String d1 t) =>
          let one :=
            let n := N.to_nat (digit_val d1) in
            if is_digit d1 && Nat.leb 1 n && Nat.leb n ngroups
            then (cap_or_empty mr n ++ expand f ngroups t mr)%string
            else String "$" (expand f ngroups (String d1 t) mr) in
          match t with
          | String d2 t' =>
              let n := N.to_nat (digit_val d1 * 10 + digit_val d2) in
              if is_digit d1 && is_digit d2 && Nat.leb 1 n && Nat.leb n ngroups
              then (cap_or_empty mr n ++ expand f ngroups t' mr)%string
              else one
          | EmptyString => one
          end
      | String c t => String c (expand f ngroups t mr)
      end
  end.

Definition substitution (r : regexp) (repl : string) (mr : match_result) : string :=
  expand (S (String.length repl)) (re_groups r) repl mr.

(** [s.replace(r, repl)] without the [g] flag: the first match only. *)
Definition replace (r : regexp) (repl : string) (s : string) : string :=
  match rexec r s with
  | Some mr => (take (mr_index mr) s ++ substitution r repl mr ++ mr_after mr)%string
  | None => s
  end.

Fixpoint last_of (prev : option ascii) (t : string) : option ascii :=
  match t with
  | EmptyString => prev
  | String c t' => last_of (Some c) t'
  end.

(** [s.replace(r, repl)] with the [g] flag: every match, left to right; after
    an empty match the search resumes one code unit further. *)
Fixpoint replace_all_go (fuel : nat) (r : regexp) (repl : string)
    (pos : nat) (prev : option ascii) (rest : string) : string :=
  match fuel with
  | O => rest
  | S f =>
      match search (re_ic r) (re_ast r) pos prev rest with
      | None => rest
      | Some mr =>
          let out := (take (mr_index mr - pos) rest ++ substitution r repl mr)%string in
          match mr_text mr with
          | EmptyString =>
              match mr_after mr with
              | EmptyString => out
              | String c rest' =>
                  (out ++ String c
                     (replace_all_go f r repl (S (mr_index mr)) (Some c) rest'))%string
              end
          | _ =>
              (out ++ replace_all_go f r repl
                        (mr_index mr + String.length (mr_text mr))
                        (last_of prev (mr_text mr)) (mr_after mr))%string
          end
      end
  end.

Definition replace_all (r : regexp) (repl : string) (s : string) : string :=
  replace_all_go (S (String.length s)) r repl 0 None s.

End Re.

(* ------------------------------------------------------------------ *)
(** ** Numbers of the host language *)

Module Num.
Import Str.

(** A number of the host language: [Fin q] is the binary64 value that
    denotes the rational [q] (the two zeros are not told apart: the program
    only compares and prints). *)
Inductive num : Type :=
| NaN
| Fin (q : Q)
| Inf (negative : bool).

(** The integer nearest to [n / d], for [0 <= n]; ties go to the even
    one. *)
Definition nearest_even (n : Z) (d : positive) : Z :=
  let q := (n / Zpos d)%Z in
  match (2 * (n mod Zpos d) ?= Zpos d)%Z with
  | Lt => q
  | Gt => (q + 1)%Z
  | Eq => if Z.even q then q else (q + 1)%Z
  end.

(** [n / d] divided by [2 ^ e], as a fraction. *)
Definition over_pow2 (n d : positive) (e : Z) : Z * positive :=
  if (0 <=? e)%Z then (Zpos n, (d * Z.to_pos (2 ^ e))%positive)
  else ((Zpos n * 2 ^ (- e))%Z, d).

(** The binary64 value nearest to [n / d]: a significand of 53 bits at
    most, an exponent not below that of the subnormal numbers, and
    [Infinity] from [2 ^ 1024] on. *)
Definition round64_pos (n d : positive) : num :=
  let k := (Z.log2 (Zpos n) - Z.log2 (Zpos d))%Z in
  let '(nk, dk) := over_pow2 n d k in
  let floor_log2 := if (Zpos dk <=? nk)%Z then k else (k - 1)%Z in
  let e := Z.max (floor_log2 - 52) (- 1074) in
  let '(ne, de) := over_pow2 n d e in
  let m := nearest_even ne de in
  if (0 <=? e)%Z then
    if (2 ^ 1024 <=? m * 2 ^ e)%Z then Inf false else Fin (Qmake (m * 2 ^ e) 1)
  else Fin (Qmake m (Z.to_pos (2 ^ (- e)))).

Definition negate (x : num) : num :=
  match x with
  | NaN => NaN
  | Fin q => Fin (Qopp q)
  | Inf negative => Inf (negb negative)
  end.

(** The number value of a rational: round to nearest, ties to even. *)
Definition round64 (q : Q) : num :=
  match Qnum q with
  | Z0 => Fin (Qmake 0 1)
  | Zpos n => round64_pos n (Qden q)
  | Zneg n => negate (round64_pos n (Qden q))
  end.

Fixpoint read_digits (acc : N) (count : nat) (s : string) : N * nat * string :=
  match s with
  | String c s' =>
      if is_digit c then read_digits (acc * 10 + digit_val c) (S count) s'
      else (acc, count, s)
  | EmptyString => (acc, count, s)
  end.

(** [m * 10 ^ e]. *)
Definition scale (m : N) (e : Z) : Q :=
  if (0 <=? e)%Z then Qmake (Z.of_N m * 10 ^ e) 1
  else Qmake (Z.of_N m) (Z.to_pos (10 ^ (- e))).

(** The longest unsigned decimal literal at the head of [s]: digits, a
    fraction, an exponent. *)
Definition read_decimal (s : string) : option (Q * string) :=
  let '(ip, ic, s1) := read_digits 0 0 s in
  let '(m, fc, s2) :=
    match s1 with
    | String "." s1' => read_digits ip 0 s1'
    | _ => (ip, 0, s1)
    end in
  if Nat.eqb (ic + fc) 0 then None
  else
    let plain := Some (scale m (- Z.of_nat fc), s2) in
    match s2 with
    | String e s3 =>
        if Ascii.eqb e "e" || Ascii.eqb e "E" then
          let '(neg, s4) :=
            match s3 with
            | String "-" s4 => (true, s4)
            | String "+" s4 => (false, s4)
            | _ => (false, s3)
            end in
          let '(ev, ec, s5) := read_digits 0 0 s4 in
          if Nat.eqb ec 0 then plain
          else
            let ez := if neg then (- Z.of_N ev)%Z else Z.of_N ev in
            Some (scale m (ez - Z.of_nat fc), s5)
        else plain
    | EmptyString => plain
    end.

Fixpoint skip_space (s : string) : string :=
  match s with
  | String c s' => if is_space c then skip_space s' else s
  | EmptyString => s
  end.

Definition read_sign (s : string) : bool * string :=
  match s with
  | String "-" s' => (true, s')
  | String "+" s' => (false, s')
  | _ => (false, s)
  end.

Definition signed (neg : bool) (q : Q) : Q := if neg then Qopp q else q.

(** [parseFloat(s)]. *)
Definition parseFloat (s : string) : num :=
  let '(neg, s1) := read_sign (skip_space s) in
  if starts_with "Infinity" s1 then Inf neg
  else match read_decimal s1 with
       | Some (q, _) => round64 (signed neg q)
       | None => NaN
       end.

Definition radix_val (c : ascii) : N :=
  if is_digit c then digit_val c
  else if is_upper c then code c - 55
  else if is_lower c then code c - 87
  else 99.

Fixpoint read_radix (radix acc : N) (count : nat) (s : string) : N * nat * string :=
  match s with
  | String c s' =>
      if (radix_val c <? radix)%N
      then read_radix radix (acc * radix + radix_val c) (S count) s'
      else (acc, count, s)
  | EmptyString => (acc, count, s)
  end.

(** [parseInt(s)]. *)
Definition parseInt (s : string) : num :=
  let '(neg, s1) := read_sign (skip_space s) in
  let '(radix, s2) :=
    match s1 with
    | String "0" (String x s2) =>
        if Ascii.eqb x "x" || Ascii.eqb x "X" then (16%N, s2) else (10%N, s1)
    | _ => (10%N, s1)
    end in
  let '(v, count, _) := read_radix radix 0 0 s2 in
  if Nat.eqb count 0 then NaN else round64 (signed neg (Qmake (Z.of_N v) 1)).

Fixpoint rev_skip_space (fuel : nat) (s : string) : string :=
  match fuel with
  | O => s
  | S f =>
      match last_char s with
      | String c _ => if is_space c then rev_skip_space f (drop_last s) else s
      | EmptyString => s
      end
  end.

(** [Number(s)] for a string: the whole of it has to be a numeric literal. *)
Definition of_string (s : string) : num :=
  let s := skip_space s in
  let s := rev_skip_space (String.length s) s in
  let prefixed (radix : N) (body : string) :=
    let '(v, count, rest) := read_radix radix 0 0 body in
    if negb (Nat.eqb count 0) && negb (nonempty rest)
    then round64 (Qmake (Z.of_N v) 1) else NaN in
  match s with
  | EmptyString => Fin (Qmake 0 1)
  | String "0" (String x body) =>
      if Ascii.eqb x "x" || Ascii.eqb x "X" then prefixed 16%N body
      else if Ascii.eqb x "o" || Ascii.eqb x "O" then prefixed 8%N body
      else if Ascii.eqb x "b" || Ascii.eqb x "B" then prefixed 2%N body
      else match read_decimal s with
           | Some (q, EmptyString) => round64 q
           | _ => NaN
           end
  | _ =>
      let '(neg, s1) := read_sign s in
      if String.eqb s1 "Infinity" then Inf neg
      else match read_decimal s1 with
           | Some (q, EmptyString) => round64 (signed neg q)
           | _ => NaN
           end
  end.

(** [a < b]; false when either side is [NaN]. *)
Definition lt (a b : num) : bool :=
  match a, b with
  | Fin x, Fin y => negb (Qle_bool y x)
  | Inf true, Fin _ | Fin _, Inf false | Inf true, Inf false => true
  | _, _ => false
  end.

Definition gt (a b : num) : bool := lt b a.

(** [a == b] on numbers. *)
Definition eq (a b : num) : bool :=
  match a, b with
  | Fin x, Fin y => Qeq_bool x y
  | Inf n, Inf m => Bool.eqb n m
  | _, _ => false
  end.

Definition ge (a b : num) : bool := gt a b || eq a b.

(** A decimal constant of the source, [n / 10 ^ d], as the number it
    denotes; and an integer constant, for the small integers of the source,
    which binary64 holds as they are. *)
Definition dec (n : Z) (d : nat) : num := round64 (Qmake n (Z.to_pos (10 ^ Z.of_nat d))).
Definition int (n : Z) : num := Fin (Qmake n 1).

(** [String(n)] for a natural number. *)
Definition show (n : nat) : string := NilZero.string_of_uint (Nat.to_uint n).

(** The number of a natural number of the host, and [a + b]. *)
Definition of_nat (n : nat) : num := round64 (Qmake (Z.of_nat n) 1).

Definition add (a b : num) : num :=
  match a, b with
  | NaN, _ | _, NaN => NaN
  | Fin x, Fin y => round64 (Qplus x y)
  | Inf n, Inf m => if Bool.eqb n m then Inf n else NaN
  | Inf n, Fin _ | Fin _, Inf n => Inf n
  end.

(** The decimal digits of an integer that is not negative. *)
Definition show_Z (z : Z) : string := NilZero.string_of_uint (N.to_uint (Z.to_N z)).

(** [String(x)] for an integer value [x] from [10 ^ 21] on: the fewest
    digits that read back as [x], then the exponent.  With [k] digits the
    two candidates are the multiples of [10 ^ (digits - k)] around [x]. *)
Definition reads_back (c x : Z) : bool :=
  match round64 (Qmake c 1) with
  | Fin q => Qeq_bool q (Qmake x 1)
  | _ => false
  end.

Definition candidate (x : Z) (k : nat) : option Z :=
  let u := (10 ^ (Z.of_nat (String.length (show_Z x)) - Z.of_nat k))%Z in
  let c1 := (x / u * u)%Z in
  let c2 := (c1 + u)%Z in
  match reads_back c1 x, reads_back c2 x with
  | true, true =>
      match (x - c1 ?= c2 - x)%Z with
      | Lt => Some c1
      | Gt => Some c2
      | Eq => Some (if Z.even (x / u) then c1 else c2)
      end
  | true, false => Some c1
  | false, true => Some c2
  | false, false => None
  end.

Fixpoint fewest_digits (fuel k : nat) (x : Z) : Z :=
  match fuel with
  | O => x
  | S f =>
      match candidate x k with
      | Some c => c
      | None => fewest_digits f (S k) x
      end
  end.

Fixpoint strip_zeros (fuel : nat) (s : string) : string :=
  match fuel with
  | O => s
  | S f => if String.eqb (last_char s) "0" then strip_zeros f (drop_last s) else s
  end.

Definition show_exponent (x : Z) : string :=
  let all := show_Z (fewest_digits 17 1 x) in
  let digits := strip_zeros (String.length all - 1) all in
  take 1 digits
  ++ (if Nat.ltb 1 (String.length digits) then "." ++ drop 1 digits else "")
  ++ "e+" ++ show (String.length all - 1).

(** [x.toFixed(1)] for a number that is not negative. *)
Definition toFixed1 (x : num) : string :=
  match x with
  | NaN => "NaN"
  | Inf negative => if negative then "-Infinity" else "Infinity"
  | Fin q =>
      if Qle_bool (Qmake (10 ^ 21) 1) q then show_exponent (Qnum q / Zpos (Qden q))
      else
        (* the integer nearest to [10 * q], the larger one of two *)
        let n := ((2 * 10 * Qnum q + Zpos (Qden q)) / (2 * Zpos (Qden q)))%Z in
        show_Z (n / 10) ++ "." ++ show_Z (n mod 10)
  end.

End Num.

(* ------------------------------------------------------------------ *)
(** ** Values and outcomes *)

(** The primitive values the locals of [parse] take. *)
Inductive jv : Type :=
| JUndef
| JNull
| JBool (b : bool)
| JStr (s : string).

(** [!!v]. *)
Definition truthy (v : jv) : bool :=
  match v with
  | JStr s => Str.nonempty s
  | JBool b => b
  | JUndef | JNull => false
  end.

(** [String(v)]. *)
Definition to_s (v : jv) : string :=
  match v with
  | JUndef => "undefined"
  | JNull => "null"
  | JBool true => "true"
  | JBool false => "false"
  | JStr s => s
  end.

(** [a || b] and [a && b]. *)
Definition jor (a b : jv) : jv := if truthy a then a else b.
Definition jand (a b : jv) : jv := if truthy a then b else a.

(** [a == 'literal'] for a string literal on the right. *)
Definition eqs (a : jv) (s : string) : bool :=
  match a with
  | JStr x => String.eqb x s
  | _ => false
  end.

Definition of_opt (o : option string) : jv :=
  match o with Some s => JStr s | None => JUndef end.

Inductive error : Type :=
| SyntaxError
| TypeError.

(** What a call does: return, throw, or need more nested calls than the
    fuel allows. *)
Inductive outcome (A : Type) : Type :=
| Ok (a : A)
| Throw (e : error)
| OutOfFuel.

Arguments Ok {A} a.
Arguments Throw {A} e.
Arguments OutOfFuel {A}.

Definition bind {A B : Type} (x : outcome A) (f : A -> outcome B) : outcome B :=
  match x with
  | Ok a => f a
  | Throw e => Throw e
  | OutOfFuel => OutOfFuel
  end.

Notation "x <- c ;; k" := (bind c (fun x => k))
  (at level 61, c at next level, right associativity).

(** [RegExp(src, 'i')] and [RegExp(src)] as statements that may throw. *)
Definition RegExp (src : string) (ic : bool) : outcome Re.regexp :=
  match Re.RegExp src ic with
  | Some r => Ok r
  | None => Throw SyntaxError
  end.

(** [r.test(v)]: the argument is converted to a string first. *)
Definition test (r : Re.regexp) (v : jv) : bool := Re.rtest r (to_s v).
Definition exec (r : Re.regexp) (v : jv) : option Re.match_result := Re.rexec r (to_s v).

(** Regex literals, with and without the [i] flag. *)
Definition re (src : string) : Re.regexp := Re.lit src false.
Definition rei (src : string) : Re.regexp := Re.lit src true.

(* ------------------------------------------------------------------ *)
(** ** The helpers of the program *)

(** Properties every object literal inherits; all of them are truthy. *)
Definition objectProto : list string :=
  ["constructor"; "toString"; "toLocaleString"; "valueOf"; "hasOwnProperty";
   "isPrototypeOf"; "propertyIsEnumerable"; "__proto__"; "__defineGetter__";
   "__defineSetter__"; "__lookupGetter__"; "__lookupSetter__"].

(** [capitalize(string)].  [toUpperCase] is taken on the first code unit
    and is here what the host does on the code units below 128; what it
    makes of the others ([Str.upper] leaves them) is not modelled, and what
    is proved of [capitalize] and [format] as such is stated for strings
    whose first code unit is below 128 ([ascii_initial]). *)
Definition capitalize (str : jv) : string :=
  match to_s str with
  | EmptyString => EmptyString
  | String c rest => String (Str.upper c) rest
  end.

(** The strings whose first code unit, if there is one, is below 128. *)
Definition ascii_initial (s : string) : bool :=
  match s with
  | String c _ => (Str.code c <? 128)%N
  | EmptyString => true
  end.

(** [trim(string)]. *)
Definition trim (str : jv) : string :=
  Re.replace_all (re "^ +| +$") "" (to_s str).

(** [format(string)]. *)
Definition format (str : jv) : string :=
  let str := trim str in
  if Re.rtest (re "^(?:webOS|i(?:OS|P))") str
  then str
  else capitalize (JStr str).

(** [qualify(string)]. *)
Definition qualify (str : jv) : string :=
  Re.replace_all (re "([ -])(?!$)") "$1?" (to_s str).

(** The keys a callback of [each] receives: an index of an array-like, or
    an own property name of an object. *)
Inductive key : Type :=
| KIndex (i : nat)
| KName (k : string).

(** What [each] iterates over: an array (or a string, through its
    [length]), or the own properties of an object, in insertion order. *)
Inductive iterable (V : Type) : Type :=
| Arr (l : list V)
| Obj (l : list (string * V)).

Arguments Arr {V} l.
Arguments Obj {V} l.

Section Iteration.
Context {V A : Type}.
Variable callback : A -> V -> key -> outcome A.

(** [while (++index < length) callback(object[index], index, object)],
    threading what the callback assigns. *)
Fixpoint each_index (l : list V) (index : nat) (acc : A) : outcome A :=
  match l with
  | [] => Ok acc
  | value :: rest =>
      acc' <- callback acc value (KIndex index) ;;
      each_index rest (S index) acc'
  end.

(** [forOwn(object, callback)]. *)
Fixpoint forOwn (l : list (string * V)) (acc : A) : outcome A :=
  match l with
  | [] => Ok acc
  | (k, value) :: rest =>
      acc' <- callback acc value (KName k) ;;
      forOwn rest acc'
  end.

(** [each(object, callback)]. *)
Definition each (object : iterable V) (acc : A) : outcome A :=
  match object with
  | Arr l => each_index l 0 acc
  | Obj l => forOwn l acc
  end.
End Iteration.

(** [reduce(array, callback)]: the accumulator starts as [null]. *)
Definition reduce {V : Type} (array : iterable V)
    (callback : jv -> V -> key -> outcome jv) : outcome jv :=
  each callback array JNull.

Notation "x |> f" := (f x) (at level 59, left associativity, only parsing).

(** [o[k]] is truthy, for an object literal with the own keys [own] (all
    own values of the program's tables are truthy). *)
Definition has_key (own : list string) (k : string) : bool :=
  existsb (String.eqb k) own || existsb (String.eqb k) objectProto.

(** The platform tokens of [cleanupOS]. *)
Definition windowsTokens : list (string * string) :=
  [("10.0", "10");
   ("6.4", "10 Technical Preview");
   ("6.3", "8.1");
   ("6.2", "8");
   ("6.1", "Server 2008 R2 / 7");
   ("6.0", "Server 2008 / Vista");
   ("5.2", "Server 2003 / XP 64-bit");
   ("5.1", "XP");
   ("5.01", "2000 SP1");
   ("5.0", "2000");
   ("4.0", "NT");
   ("4.90", "ME")].

Fixpoint lookup (k : string) (l : list (string * string)) : option string :=
  match l with
  | [] => None
  | (k', v) :: rest => if String.eqb k k' then Some v else lookup k rest
  end.

(** [data[key]] on the token table: an inherited property is a function,
    which is truthy and prints as its source. *)
Definition token_lookup (k : string) : option string :=
  match lookup k windowsTokens with
  | Some v => Some v
  | None =>
      if existsb (String.eqb k) objectProto
      then Some ("function " ++ k ++ "() { [native code] }")
      else None
  end.

Definition first_or (l : list string) (d : string) : string :=
  match l with x :: _ => x | [] => d end.

(** [cleanupOS(os, pattern, label)].  [os] is the text of what the caller
    passes (the match of [getOS], as [String] prints it). *)
Definition cleanupOS (os : string) (pattern label : jv) : outcome string :=
  let os :=
    if truthy pattern && truthy label
       && Re.rtest (rei "^Win") os && negb (Re.rtest (rei "^Windows Phone ") os)
    then
      match token_lookup (to_s (match Re.rexec (re "[\d.]+$") os with
                                | Some mr => JStr (Re.mr_text mr)
                                | None => JNull
                                end)) with
      | Some data => if Str.nonempty data then "Windows " ++ data else os
      | None => os
      end
    else os in
  os <- (if truthy pattern && truthy label
         then r <- RegExp (to_s pattern) true ;; Ok (Re.replace r (to_s label) os)
         else Ok os) ;;
  Ok (format (JStr (first_or
    (os |> Re.replace (rei " ce$") " CE"
        |> Re.replace (rei "\bhpw") "web"
        |> Re.replace (re "\bMacintosh\b") "Mac OS"
        |> Re.replace (rei "_PowerPC\b") " OS"
        |> Re.replace (rei "\b(OS X) [^ \d]+") "$1"
        |> Re.replace (re "\bMac (OS X)\b") "$1"
        |> Re.replace (re "\/(\d)") " $1"
        |> Re.replace_all (re "_") "."
        |> Re.replace (rei "(?: BePC|[ .]*fc[ \d.]+)$") ""
        |> Re.replace_all (rei "\bx86\.64\b") "x86_64"
        |> Re.replace (re "\b(Windows Phone) OS\b") "$1"
        |> Re.replace (re "\b(Chrome OS \w+) [\d.]+\b") "$1"
        |> (fun s => Str.split s " on ")) ""))).

(** An entry of a guess list: a bare string, or an object with a label and
    a pattern. *)
Inductive guess : Type :=
| GStr (s : string)
| GObj (label pattern : string).

(** [guess.pattern || qualify(guess)]. *)
Definition pattern_of (g : guess) : string :=
  match g with
  | GStr s => qualify (JStr s)
  | GObj _ p => if Str.nonempty p then p else qualify (JStr "[object Object]")
  end.

(** [guess.label || guess], as a string. *)
Definition label_of (g : guess) : string :=
  match g with
  | GStr s => s
  | GObj l _ => if Str.nonempty l then l else "[object Object]"
  end.

(** [guess.label]. *)
Definition own_label (g : guess) : jv :=
  match g with
  | GStr _ => JUndef
  | GObj l _ => JStr l
  end.

Section Pickers.
(** The locals of [parse] the pickers close over. *)
Variable ua : string.
Variable product : jv.

(** [getLayout(guesses)]. *)
Definition getLayout (guesses : list guess) : outcome jv :=
  reduce (Arr guesses) (fun result guess _ =>
    if truthy result then Ok result
    else
      r <- RegExp ("\b" ++ pattern_of guess ++ "\b") true ;;
      Ok (match Re.rexec r ua with
          | Some _ => JStr (label_of guess)
          | None => JNull
          end)).

(** What the callback of [getManufacturer] returns on an entry, when no
    earlier entry gave a result: lookup the manufacturer by product or scan
    the UA for the manufacturer. *)
Definition maker_of (key : string) (value : list string) : outcome jv :=
  if has_key value (to_s product) then Ok (JStr key)
  else if has_key value
            (to_s (match exec (rei "^[a-z]+(?: +[a-z]+\b)*") product with
                   | Some mr => JStr (Re.mr_text mr)
                   | None => JNull
                   end)) then Ok (JStr key)
  else
    r <- RegExp ("\b" ++ qualify (JStr key) ++ "(?:\b|\w*\d)") true ;;
    Ok (match Re.rexec r ua with
        | Some _ => JStr key
        | None => JNull
        end).

(** [getManufacturer(guesses)]: [guesses] is an object; each value is
    the set of products of the manufacturer. *)
Definition getManufacturer (guesses : list (string * list string)) : outcome jv :=
  reduce (Obj guesses) (fun result value key =>
    let key := match key with KName k => k | KIndex _ => "" end in
    if truthy result then Ok result else maker_of key value).

(** [getName(guesses)]. *)
Definition getName (guesses : list guess) : outcome jv :=
  reduce (Arr guesses) (fun result guess _ =>
    if truthy result then Ok result
    else
      r <- RegExp ("\b" ++ pattern_of guess ++ "\b") true ;;
      Ok (match Re.rexec r ua with
          | Some _ => JStr (label_of guess)
          | None => JNull
          end)).

(** What the callback of [getOS] assigns to [result] on an entry, when no
    earlier entry gave one. *)
Definition os_of (guess : guess) : outcome jv :=
  let pattern := pattern_of guess in
  r <- RegExp ("\b" ++ pattern ++ "(?:/[\d.]+|[ \w.]*)") true ;;
  match Re.rexec r ua with
  | Some mr =>
      os <- cleanupOS (Re.match_string r mr) (JStr pattern) (JStr (label_of guess)) ;;
      Ok (JStr os)
  | None => Ok JNull
  end.

(** [getOS(guesses)]. *)
Definition getOS (guesses : list guess) : outcome jv :=
  reduce (Arr guesses) (fun result guess _ =>
    if truthy result then Ok result else os_of guess).

(** The three shapes of a product match, tried in this order. *)
Definition product_match (pattern : string) : outcome (option (Re.regexp * Re.match_result)) :=
  r1 <- RegExp ("\b" ++ pattern ++ " *\d+[.\w_]*") true ;;
  match Re.rexec r1 ua with
  | Some mr => Ok (Some (r1, mr))
  | None =>
      r2 <- RegExp ("\b" ++ pattern ++ " *\w+-[\w]*") true ;;
      match Re.rexec r2 ua with
      | Some mr => Ok (Some (r2, mr))
      | None =>
          r3 <- RegExp ("\b" ++ pattern ++ "(?:; *(?:[a-z]+[_-])?[a-z]+\d+|[^ ();-]*)") true ;;
          match Re.rexec r3 ua with
          | Some mr => Ok (Some (r3, mr))
          | None => Ok None
          end
      end
  end.

(** What the callback of [getProduct] assigns to [result] on an entry,
    when no earlier entry gave one. *)
Definition product_of (guess : guess) : outcome jv :=
  let pattern := pattern_of guess in
  found <- product_match pattern ;;
  match found with
  | None => Ok JNull
  | Some (r, mr) =>
      (* Split by forward slash and append product version if needed. *)
      use_label <-
        (if truthy (own_label guess)
         then rp <- RegExp pattern true ;;
              Ok (negb (Re.rtest rp (to_s (own_label guess))))
         else Ok false) ;;
      let text := if use_label then to_s (own_label guess) else Re.match_string r mr in
      let parts := Str.split text "/" in
      let result0 := first_or parts "" in
      let result0 :=
        match parts with
        | _ :: p1 :: _ =>
            if Str.nonempty p1 && negb (Re.rtest (re "[\d.]+") result0)
            then result0 ++ " " ++ p1
            else result0
        | _ => result0
        end in
      (* Correct character case and cleanup string. *)
      let guess := label_of guess in
      ra <- RegExp pattern true ;;
      rb <- RegExp ("; *(?:" ++ guess ++ "[_-])?") true ;;
      rc <- RegExp ("(" ++ guess ++ ")[-_.]?(\w)") true ;;
      Ok (JStr (format (JStr
        (result0 |> Re.replace ra guess
                 |> Re.replace rb " "
                 |> Re.replace rc "$1 $2"))))
  end.

(** [getProduct(guesses)]. *)
Definition getProduct (guesses : list guess) : outcome jv :=
  reduce (Arr guesses) (fun result guess _ =>
    if truthy result then Ok result else product_of guess).

(** [getVersion(patterns)].  The program also passes the string
    ['Chrome']; [each] then walks its code units, so the patterns are
    [Str.chars "Chrome"]. *)
Definition getVersion (patterns : list string) : outcome jv :=
  reduce (Arr patterns) (fun result pattern _ =>
    if truthy result then Ok result
    else
      r <- RegExp (pattern ++ "(?:-[\d.]+/|(?: for [\w-]+)?[ /-])([\d.]+[^ ();/_-]*)") true ;;
      Ok (match Re.rexec r ua with
          | Some mr =>
              match Re.cap 1 mr with
              | Some v => if Str.nonempty v then JStr v else JNull
              | None => JNull
              end
          | None => JNull
          end)).
End Pickers.

(* ------------------------------------------------------------------ *)
(** ** The pattern tables *)

(** Detectable layout engines (order is important). *)
Definition layouts : list guess :=
  [GObj "EdgeHTML" "Edge";
   GStr "Trident";
   GObj "WebKit" "AppleWebKit";
   GStr "iCab";
   GStr "Presto";
   GStr "NetFront";
   GStr "Tasman";
   GStr "KHTML";
   GStr "Gecko"].

(** Detectable browser names (order is important). *)
Definition names : list guess :=
  [GStr "Adobe AIR";
   GStr "Arora";
   GStr "Avant Browser";
   GStr "Breach";
   GStr "Camino";
   GStr "Electron";
   GStr "Epiphany";
   GStr "Fennec";
   GStr "Flock";
   GStr "Galeon";
   GStr "GreenBrowser";
   GStr "iCab";
   GStr "Iceweasel";
   GStr "K-Meleon";
   GStr "Konqueror";
   GStr "Lunascape";
   GStr "Maxthon";
   GObj "Microsoft Edge" "(?:Edge|Edg|EdgA|EdgiOS)";
   GStr "Midori";
   GStr "Nook Browser";
   GStr "PaleMoon";
   GStr "PhantomJS";
   GStr "Raven";
   GStr "Rekonq";
   GStr "RockMelt";
   GObj "Samsung Internet" "SamsungBrowser";
   GStr "SeaMonkey";
   GObj "Silk" "(?:Cloud9|Silk-Accelerated)";
   GStr "Sleipnir";
   GStr "SlimBrowser";
   GObj "SRWare Iron" "Iron";
   GStr "Sunrise";
   GStr "Swiftfox";
   GStr "Vivaldi";
   GStr "Waterfox";
   GStr "WebPositive";
   GObj "Yandex Browser" "YaBrowser";
   GObj "UC Browser" "UCBrowser";
   GStr "Opera Mini";
   GObj "Opera Mini" "OPiOS";
   GStr "Opera";
   GObj "Opera" "OPR";
   GStr "Chromium";
   GStr "Chrome";
   GObj "Chrome" "(?:HeadlessChrome)";
   GObj "Chrome Mobile" "(?:CriOS|CrMo)";
   GObj "Firefox" "(?:Firefox|Minefield)";
   GObj "Firefox for iOS" "FxiOS";
   GObj "IE" "IEMobile";
   GObj "IE" "MSIE";
   GStr "Safari"].

(** Detectable manufacturers: each with the products that imply it. *)
Definition manufacturers : list (string * list string) :=
  [("Apple", ["iPad"; "iPhone"; "iPod"]);
   ("Alcatel", []);
   ("Archos", []);
   ("Amazon", ["Kindle"; "Kindle Fire"]);
   ("Asus", ["Transformer"]);
   ("Barnes & Noble", ["Nook"]);
   ("BlackBerry", ["PlayBook"]);
   ("Google", ["Google TV"; "Nexus"; "Pixel"]);
   ("HP", ["TouchPad"]);
   ("HTC", []);
   ("Huawei", []);
   ("Lenovo", []);
   ("LG", []);
   ("Microsoft", ["Xbox"; "Xbox One"]);
   ("Motorola", ["Xoom"]);
   ("Nintendo", ["Wii U"; "Wii"]);
   ("Nokia", ["Lumia"]);
   ("Oppo", []);
   ("Samsung", ["Galaxy S"; "Galaxy S2"; "Galaxy S3"; "Galaxy S4"]);
   ("Sony", ["PlayStation"; "PlayStation Vita"]);
   ("Xiaomi", ["Mi"; "Redmi"])].

(** Detectable operating systems (order is important). *)
Definition oses : list guess :=
  [GStr "Windows Phone";
   GStr "KaiOS";
   GStr "Android";
   GStr "CentOS";
   GObj "Chrome OS" "CrOS";
   GStr "Debian";
   GObj "DragonFly BSD" "DragonFly";
   GStr "Fedora";
   GStr "FreeBSD";
   GStr "Gentoo";
   GStr "Haiku";
   GStr "Kubuntu";
   GStr "Linux Mint";
   GStr "OpenBSD";
   GStr "Red Hat";
   GStr "SuSE";
   GStr "Ubuntu";
   GStr "Xubuntu";
   GStr "Cygwin";
   GStr "Symbian OS";
   GStr "hpwOS";
   GStr "webOS ";
   GStr "webOS";
   GStr "Tablet OS";
   GStr "Tizen";
   GStr "Linux";
   GStr "Mac OS X";
   GStr "Macintosh";
   GStr "Mac";
   GStr "Windows 98;";
   GStr "Windows "].

(** Detectable products (order is important). *)
Definition products : list guess :=
  [GObj "BlackBerry" "BB10";
   GStr "BlackBerry";
   GObj "Galaxy S" "GT-I9000";
   GObj "Galaxy S2" "GT-I9100";
   GObj "Galaxy S3" "GT-I9300";
   GObj "Galaxy S4" "GT-I9500";
   GObj "Galaxy S5" "SM-G900";
   GObj "Galaxy S6" "SM-G920";
   GObj "Galaxy S7" "SM-G930";
   GObj "Galaxy S7 Edge" "SM-G935";
   GObj "Asus ROG Phone 3" "ASUS_I003D";
   GObj "Asus ROG Phone 5" "ASUS_I005D";
   GObj "Asus ROG Phone 5" "ASUS_I005DA";
   GObj "Asus Zenfone 6" "ASUS_I01WD";
   GObj "Asus Zenfone 7 Pro" "ASUS_I002D";
   GObj "Asus Zenfone 8" "ASUS_I006D";
   GObj "Asus Zenfone 8 Flip" "ASUS_I004D";
   GObj "Asus Zenfone 9" "ASUS_AI2202";
   GObj "Infinix Note 12" "Infinix X670";
   GObj "LG V60 ThinQ 5G" "LM-V600";
   GObj "LG Velvet 5G" "LM-G900";
   GObj "Motorola Edge" "motorola edge";
   GObj "Motorola Edge 20" "motorola edge 20";
   GObj "Motorola Edge 20 Lite" "motorola edge 20 lite";
   GObj "Motorola Edge 20 Pro" "motorola edge 20 pro";
   GObj "Motorola Edge 30" "motorola edge 30";
   GObj "Motorola G 8" "moto g(8)";
   GObj "Motorola G 8 Power" "moto g(8) power";
   GObj "Motorola G 9 Play" "moto g(9) play";
   GObj "Motorola G Stylus" "moto g stylus";
   GObj "Motorola Moto G Pro" "moto g pro";
   GObj "Motorola Moto G100" "moto g(100)";
   GObj "Motorola Moto G200 5G" "moto g200 5G";
   GObj "Motorola Moto G22" "moto g22";
   GObj "Motorola Moto G30" "moto g(30)";
   GObj "Motorola Moto G50" "moto g(50)";
   GObj "Motorola Moto G50 5G" "moto g(50) 5G";
   GObj "Motorola Moto G52" "moto g52";
   GObj "Motorola Moto G60" "moto g(60)";
   GObj "Motorola Moto G62 5G" "moto g62 5G";
   GObj "Motorola Moto G71 5G" "moto g71 5G";
   GObj "Motorola One 5G UW Ace" "motorola one 5G UW ace";
   GObj "Motorola One Action" "motorola one action";
   GObj "Nokia 2.4" "Nokia 2.4";
   GObj "Nokia 3.2" "Nokia 3.2";
   GObj "Nokia 3.4" "Nokia 3.4";
   GObj "Nokia 4.2" "Nokia 4.2";
   GObj "Nokia 5.4" "Nokia 5.4";
   GObj "Nokia 8.3" "Nokia 8.3 5G";
   GObj "Nokia 8.3 5G" "Nokia 8.3 5G";
   GObj "Nokia G10" "Nokia G10";
   GObj "Nokia G20" "Nokia G20";
   GObj "Nokia G50" "Nokia G50";
   GObj "Nokia X10" "Nokia X10";
   GObj "Nokia X20" "Nokia X20";
   GObj "Nokia XR20" "Nokia XR20";
   GObj "OnePlus 10 Pro" "NE2213";
   GObj "OnePlus 10 Pro" "NE2215";
   GObj "OnePlus 10T" "CPH2415";
   GObj "OnePlus 11" "CPH2449";
   GObj "OnePlus 7" "GM1903";
   GObj "OnePlus 7" "GM1900";
   GObj "OnePlus 7 Pro" "GM1917";
   GObj "OnePlus 7 Pro" "GM1913";
   GObj "OnePlus 7 Pro" "GM1910";
   GObj "OnePlus 7T" "HD1903";
   GObj "OnePlus 7T" "HD1900";
   GObj "OnePlus 7T Pro" "HD1913";
   GObj "OnePlus 7T Pro" "HD1910";
   GObj "OnePlus 8" "IN2013";
   GObj "OnePlus 8" "IN2011";
   GObj "OnePlus 8" "IN2010";
   GObj "OnePlus 8 Pro" "IN2023";
   GObj "OnePlus 8 Pro" "IN2025";
   GObj "OnePlus 8 Pro" "IN2020";
   GObj "OnePlus 8T" "KB2005";
   GObj "OnePlus 8T" "KB2003";
   GObj "OnePlus 8T" "KB2001";
   GObj "OnePlus 8T" "KB2000";
   GObj "OnePlus 9" "LE2115";
   GObj "OnePlus 9" "LE2113";
   GObj "OnePlus 9" "LE2111";
   GObj "OnePlus 9 Pro" "LE2125";
   GObj "OnePlus 9 Pro" "LE2123";
   GObj "OnePlus 9 Pro" "LE2121";
   GObj "OnePlus 9R" "LE2101";
   GObj "OnePlus Nord" "AC2003";
   GObj "OnePlus Nord" "AC2001";
   GObj "OnePlus Nord 2 5G" "DN2103";
   GObj "OnePlus Nord 2 5G" "DN2101";
   GObj "OnePlus Nord 2T" "CPH2399";
   GObj "OnePlus Nord CE 2 Lite 5G" "CPH2409";
   GObj "OnePlus Nord CE 5G" "EB2103";
   GObj "Oppo A16" "CPH2269";
   GObj "Oppo A16s" "CPH2271";
   GObj "Oppo A52" "CPH2069";
   GObj "Oppo A53" "CPH2127";
   GObj "Oppo A53s" "CPH2135";
   GObj "Oppo A54 5G" "CPH2195";
   GObj "Oppo A54s" "CPH2273";
   GObj "Oppo A72" "CPH2067";
   GObj "Oppo A73 5G" "CPH2161";
   GObj "Oppo A74 5G" "CPH2197";
   GObj "Oppo A76" "CPH2375";
   GObj "Oppo A77" "CPH2339";
   GObj "Oppo A9" "CPH1941";
   GObj "Oppo A91" "CPH2021";
   GObj "Oppo A94" "CPH2203";
   GObj "Oppo A94 5G" "CPH2211";
   GObj "Oppo A95" "CPH2365";
   GObj "Oppo A96" "CPH2333";
   GObj "Oppo F17" "CPH2095";
   GObj "Oppo F17 Pro" "CPH2119";
   GObj "Oppo F19" "CPH2219";
   GObj "Oppo F19 Pro" "CPH2285";
   GObj "Oppo F21 Pro" "CPH2461";
   GObj "Oppo F21 Pro" "CPH2363";
   GObj "Oppo Find X2 Lite" "CPH2005";
   GObj "Oppo Find X2 Neo" "CPH2009";
   GObj "Oppo Find X2 Pro" "CPH2025";
   GObj "Oppo Find X3 Lite" "CPH2145";
   GObj "Oppo Find X3 Neo" "CPH2207";
   GObj "Oppo Find X3 Pro" "CPH2173";
   GObj "Oppo Find X5" "CPH2307";
   GObj "Oppo Find X5 Pro" "CPH2305";
   GObj "Oppo K10" "CPH2373";
   GObj "Oppo K10 5G" "CPH2337";
   GObj "Oppo Reno" "CPH1917";
   GObj "Oppo Reno2" "CPH1907";
   GObj "Oppo Reno2 Z" "CPH1951";
   GObj "Oppo Reno3" "CPH2043";
   GObj "Oppo Reno4" "CPH2113";
   GObj "Oppo Reno4 5G" "CPH2091";
   GObj "Oppo Reno4 Lite" "CPH2125";
   GObj "Oppo Reno4 Pro" "CPH2109";
   GObj "Oppo Reno4 Pro 5G" "CPH2089";
   GObj "Oppo Reno4 Z 5G" "CPH2065";
   GObj "Oppo Reno5 4G" "CPH2159";
   GObj "Oppo Reno5 5G" "CPH2145";
   GObj "Oppo Reno5 Lite" "CPH2205";
   GObj "Oppo Reno6 5G" "CPH2251";
   GObj "Oppo Reno6 Pro 5G" "CPH2247";
   GObj "Oppo Reno6 Z" "CPH2237";
   GObj "Oppo Reno7" "CPH2363";
   GObj "Oppo Reno7 5G" "CPH2371";
   GObj "Oppo Reno7 Pro 5G" "CPH2293";
   GObj "Oppo Reno7 Z 5G" "CPH2343";
   GObj "Oppo Reno8" "CPH2359";
   GObj "Oppo Reno8 Pro" "CPH2357";
   GObj "Pixel 3" "Pixel 3";
   GObj "Pixel 3 XL" "Pixel 3 XL";
   GObj "Pixel 3a" "Pixel 3a";
   GObj "Pixel 3a XL" "Pixel 3a XL";
   GObj "Pixel 4" "Pixel 4";
   GObj "Pixel 4 XL" "Pixel 4 XL";
   GObj "Pixel 4a" "Pixel 4a";
   GObj "Pixel 4a (5G)" "Pixel 4a (5G)";
   GObj "Pixel 5" "Pixel 5";
   GObj "Pixel 5a" "Pixel 5a";
   GObj "Pixel 6" "Pixel 6";
   GObj "Pixel 6 Pro" "Pixel 6 Pro";
   GObj "Pixel 6a" "Pixel 6a";
   GObj "Pixel 7" "Pixel 7";
   GObj "Pixel 7 Pro" "Pixel 7 Pro";
   GObj "Realme 6" "RMX2001";
   GObj "Realme 6 Pro" "RMX2063";
   GObj "Realme 7 5G" "RMX2111";
   GObj "Realme 7 Pro" "RMX2170";
   GObj "Realme 8" "RMX3085";
   GObj "Realme 8 5G" "RMX3241";
   GObj "Realme 8 Pro" "RMX3081";
   GObj "Realme 8i" "RMX3151";
   GObj "Realme 9" "RMX3521";
   GObj "Realme 9 Pro" "RMX3472";
   GObj "Realme 9 Pro+" "RMX3393";
   GObj "Realme 9 Pro+" "RMX3392";
   GObj "Realme C21" "RMX3201";
   GObj "Realme C25" "RMX3191";
   GObj "Realme C25s" "RMX3195";
   GObj "Realme GT 5G" "RMX2202";
   GObj "Realme GT Master" "RMX3363";
   GObj "Realme GT Master" "RMX3360";
   GObj "Realme GT Neo 3" "RMX3561";
   GObj "Realme GT Neo 3 150W" "RMX3563";
   GObj "Realme GT Neo2" "RMX3370";
   GObj "Realme GT2" "RMX3311";
   GObj "Realme GT2 Pro" "RMX3301";
   GObj "Realme Narzo 30 5G" "RMX3242";
   GObj "Realme Narzo 50 5G" "RMX3572";
   GObj "Realme X2 Pro" "RMX1931";
   GObj "Realme X50 Pro 5G" "RMX2075";
   GObj "Realme X7 Pro" "RMX2121";
   GObj "Samsung Galaxy A02s" "SM-A025F";
   GObj "Samsung Galaxy A03" "SM-A035F";
   GObj "Samsung Galaxy A03s" "SM-A037F";
   GObj "Samsung Galaxy A03s" "SM-A037G";
   GObj "Samsung Galaxy A04s" "SM-A047F";
   GObj "Samsung Galaxy A12" "SM-A125F";
   GObj "Samsung Galaxy A12 Nacho" "SM-A127F";
   GObj "Samsung Galaxy A13" "SM-A135F";
   GObj "Samsung Galaxy A13 5G" "SM-A136B";
   GObj "Samsung Galaxy A13 5G" "SM-A136U";
   GObj "Samsung Galaxy A137" "SM-A137F";
   GObj "Samsung Galaxy A14 5G" "SM-A146U";
   GObj "Samsung Galaxy A21s" "SM-A217F";
   GObj "Samsung Galaxy A22" "SM-A225F";
   GObj "Samsung Galaxy A22 5G" "SM-A226B";
   GObj "Samsung Galaxy A23" "SM-A235F";
   GObj "Samsung Galaxy A23" "SM-A235M";
   GObj "Samsung Galaxy A23 5G" "SM-A236B";
   GObj "Samsung Galaxy A31" "SM-A315F";
   GObj "Samsung Galaxy A32" "SM-A325F";
   GObj "Samsung Galaxy A32 5G" "SM-A326B";
   GObj "Samsung Galaxy A33 5G" "SM-A336B";
   GObj "Samsung Galaxy A40" "SM-A405FN";
   GObj "Samsung Galaxy A41" "SM-A415F";
   GObj "Samsung Galaxy A42 5G" "SM-A426B";
   GObj "Samsung Galaxy A51" "SM-A515F";
   GObj "Samsung Galaxy A51 5G" "SM-A516B";
   GObj "Samsung Galaxy A52" "SM-A525F";
   GObj "Samsung Galaxy A52 5G" "SM-A526B";
   GObj "Samsung Galaxy A52s 5G" "SM-A528B";
   GObj "Samsung Galaxy A53 5G" "SM-A536B";
   GObj "Samsung Galaxy A70" "SM-A705FN";
   GObj "Samsung Galaxy A71" "SM-A715F";
   GObj "Samsung Galaxy A72" "SM-A725F";
   GObj "Samsung Galaxy A73 5G" "SM-A736B";
   GObj "Samsung Galaxy A90 5G" "SM-A908B";
   GObj "Samsung Galaxy F13" "SM-E135F";
   GObj "Samsung Galaxy F22" "SM-E225F";
   GObj "Samsung Galaxy F23" "SM-E236B";
   GObj "Samsung Galaxy F62" "SM-E625F";
   GObj "Samsung Galaxy M11" "SM-M115F";
   GObj "Samsung Galaxy M12" "SM-M127F";
   GObj "Samsung Galaxy M13" "SM-M135F";
   GObj "Samsung Galaxy M21" "SM-M215F";
   GObj "Samsung Galaxy M21s" "SM-F415F";
   GObj "Samsung Galaxy M22" "SM-M225FV";
   GObj "Samsung Galaxy M23" "SM-M236B";
   GObj "Samsung Galaxy M31" "SM-M315F";
   GObj "Samsung Galaxy M31s" "SM-M317F";
   GObj "Samsung Galaxy M32" "SM-M325F";
   GObj "Samsung Galaxy M32" "SM-M325FV";
   GObj "Samsung Galaxy M33" "SM-M336B";
   GObj "Samsung Galaxy M51" "SM-M515F";
   GObj "Samsung Galaxy M52 5G" "SM-M526B";
   GObj "Samsung Galaxy M53" "SM-M536B";
   GObj "Samsung Galaxy M62" "SM-M625F";
   GObj "Samsung Galaxy Note 10" "SM-N970F";
   GObj "Samsung Galaxy Note 10+" "SM-N975F";
   GObj "Samsung Galaxy Note 10+ 5G" "SM-N976B";
   GObj "Samsung Galaxy Note10" "SM-N970F";
   GObj "Samsung Galaxy Note10 5G" "SM-N971U";
   GObj "Samsung Galaxy Note10 Lite" "SM-N770F";
   GObj "Samsung Galaxy Note10+" "SM-N975F";
   GObj "Samsung Galaxy Note10+ 5G" "SM-N976B";
   GObj "Samsung Galaxy Note20" "SM-N980F";
   GObj "Samsung Galaxy Note20 5G" "SM-N981B";
   GObj "Samsung Galaxy Note20 Ultra" "SM-N985F";
   GObj "Samsung Galaxy Note20 Ultra 5G" "SM-N986B";
   GObj "Samsung Galaxy S10" "SM-G973F";
   GObj "Samsung Galaxy S10 5G" "SM-G977B";
   GObj "Samsung Galaxy S10 Lite" "SM-G770F";
   GObj "Samsung Galaxy S10+" "SM-G975F";
   GObj "Samsung Galaxy S10e" "SM-G970F";
   GObj "Samsung Galaxy S20" "SM-G980F";
   GObj "Samsung Galaxy S20 5G" "SM-G981B";
   GObj "Samsung Galaxy S20 FE" "SM-G780F";
   GObj "Samsung Galaxy S20 FE 5G" "SM-G781B";
   GObj "Samsung Galaxy S20 Ultra" "SM-G988B";
   GObj "Samsung Galaxy S20 Ultra 5G" "SM-G988B";
   GObj "Samsung Galaxy S20+" "SM-G985F";
   GObj "Samsung Galaxy S20+ 5G" "SM-G986B";
   GObj "Samsung Galaxy S21 5G" "SM-G991B";
   GObj "Samsung Galaxy S21 FE 5G" "SM-G990B";
   GObj "Samsung Galaxy S21 Ultra 5G" "SM-G998B";
   GObj "Samsung Galaxy S21+ 5G" "SM-G996B";
   GObj "Samsung Galaxy S22 5G" "SM-S901B";
   GObj "Samsung Galaxy S22 Ultra 5G" "SM-S908B";
   GObj "Samsung Galaxy S22+ 5G" "SM-S906B";
   GObj "Samsung Galaxy S23" "SM-S911B";
   GObj "Samsung Galaxy S23 Ultra" "SM-S918B";
   GObj "Samsung Galaxy S23+" "SM-S916B";
   GObj "Samsung Galaxy Tab A 10.1 LTE" "SM-T515";
   GObj "Samsung Galaxy Tab A 10.1 WIFI" "SM-T510";
   GObj "Samsung Galaxy Tab A 8.0 & S Pen LTE" "SM-P205";
   GObj "Samsung Galaxy Tab A 8.0 & S Pen WIFI" "SM-P200";
   GObj "Samsung Galaxy Tab A 8.0 LTE" "SM-T295";
   GObj "Samsung Galaxy Tab A 8.0 WIFI" "SM-T290";
   GObj "Samsung Galaxy Tab A 8.4" "SM-T307U";
   GObj "Samsung Galaxy Tab A7 10.4 LTE" "SM-T505";
   GObj "Samsung Galaxy Tab A7 10.4 WIFI" "SM-T500";
   GObj "Samsung Galaxy Tab A7 Lite LTE" "SM-T225";
   GObj "Samsung Galaxy Tab A7 Lite WIFI" "SM-T220";
   GObj "Samsung Galaxy Tab A8 10.5 (2021) LTE" "SM-X205";
   GObj "Samsung Galaxy Tab A8 10.5 (2021) WIFI" "SM-X200";
   GObj "Samsung Galaxy Tab Active3" "SM-T575";
   GObj "Samsung Galaxy Tab S5e LTE" "SM-T725";
   GObj "Samsung Galaxy Tab S5e WIFI" "SM-T720";
   GObj "Samsung Galaxy Tab S6 Lite (2022) LTE" "SM-P619";
   GObj "Samsung Galaxy Tab S6 Lite (2022) WIFI" "SM-P613";
   GObj "Samsung Galaxy Tab S6 Lite LTE" "SM-P615";
   GObj "Samsung Galaxy Tab S6 Lite WIFI" "SM-P610";
   GObj "Samsung Galaxy Tab S6 LTE" "SM-T865";
   GObj "Samsung Galaxy Tab S6 WIFI" "SM-T860";
   GObj "Samsung Galaxy Tab S7 5G" "SM-T876B";
   GObj "Samsung Galaxy Tab S7 FE 5G" "SM-T736B";
   GObj "Samsung Galaxy Tab S7 FE WIFI" "SM-T733";
   GObj "Samsung Galaxy Tab S7 LTE" "SM-T875";
   GObj "Samsung Galaxy Tab S7 WIFI" "SM-T870";
   GObj "Samsung Galaxy Tab S7+ 5G" "SM-T976B";
   GObj "Samsung Galaxy Tab S7+ WIFI" "SM-T970";
   GObj "Samsung Galaxy Tab S8 5G" "SM-X706B";
   GObj "Samsung Galaxy Tab S8 Ultra 5G" "SM-X906";
   GObj "Samsung Galaxy Tab S8 Ultra WIFI" "SM-X900";
   GObj "Samsung Galaxy Tab S8 WIFI" "SM-X700";
   GObj "Samsung Galaxy Tab S8+ 5G" "SM-X806B";
   GObj "Samsung Galaxy Tab S8+ WIFI" "SM-X800";
   GObj "Samsung Galaxy Xcover6 Pro" "SM-G736B";
   GObj "Sony Xperia 1" "J9110";
   GObj "Sony Xperia 1 II" "XQ-AT52";
   GObj "Sony Xperia 1 II" "XQ-AT51";
   GObj "Sony Xperia 1 III" "XQ-BC52";
   GObj "Sony Xperia 1 III" "XQ-BC72";
   GObj "Sony Xperia 1 IV" "XQ-CT54";
   GObj "Sony Xperia 10 II" "XQ-AU52";
   GObj "Sony Xperia 10 II" "XQ-AU51";
   GObj "Sony Xperia 10 III" "XQ-BT52";
   GObj "Sony Xperia 10 IV" "XQ-CC54";
   GObj "Sony Xperia 5" "J9210";
   GObj "Sony Xperia 5 II" "XQ-AS72";
   GObj "Sony Xperia 5 II" "XQ-AS52";
   GObj "Sony Xperia 5 III" "XQ-BQ72";
   GObj "Sony Xperia 5 III" "XQ-BQ52";
   GObj "Sony Xperia 5 IV" "XQ-CQ54";
   GObj "Vivo S1" "vivo 1907";
   GObj "Vivo S1 Pro" "vivo 1920";
   GObj "Vivo V17 Pro" "vivo 1909";
   GObj "Vivo V20" "V2025";
   GObj "Vivo V20 Pro" "vivo 2018";
   GObj "Vivo V20 SE" "V2023";
   GObj "Vivo V21" "V2066";
   GObj "Vivo V21 5G" "V2050";
   GObj "Vivo V21e" "V2061";
   GObj "Vivo V23 5G" "V2130";
   GObj "Vivo X50 5G" "vivo 2005";
   GObj "Vivo X50 Pro" "vivo 2006";
   GObj "Vivo X60 Pro" "V2046";
   GObj "Vivo X70 Pro" "V2105";
   GObj "Vivo X70 Pro+" "V2145A";
   GObj "Vivo X80 Pro" "V2145";
   GObj "Vivo Y15s" "V2120";
   GObj "Vivo Y19" "vivo 1915";
   GObj "Vivo Y20G" "V2037";
   GObj "Vivo Y21" "V2111";
   GObj "Vivo Y21s" "V2110";
   GObj "Vivo Y31" "V2036";
   GObj "Vivo Y33s" "V2109";
   GObj "Vivo Y52 5G" "V2053";
   GObj "Vivo Y53s" "V2058";
   GObj "Vivo Y55 5G" "V2127";
   GObj "Vivo Y72 5G" "V2041";
   GObj "Vivo Y76 5G" "V2124";
   GObj "Xiaomi 11 Lite 5G NE" "2109119DG";
   GObj "Xiaomi 11T" "21081111RG";
   GObj "Xiaomi 11T Pro" "2107113SG";
   GObj "Xiaomi 12" "2201123G";
   GObj "Xiaomi 12 Lite" "2203129G";
   GObj "Xiaomi 12 Pro" "2201122G";
   GObj "Xiaomi 12T" "22071212AG";
   GObj "Xiaomi 12T Pro" "22081212UG";
   GObj "Xiaomi Mi 10" "Mi 10";
   GObj "Xiaomi Mi 10 Lite 5G" "M2002J9G";
   GObj "Xiaomi Mi 10T 5G" "M2007J3SY";
   GObj "Xiaomi Mi 10T Lite 5G" "M2007J17G";
   GObj "Xiaomi Mi 10T Pro 5G" "M2007J3SG";
   GObj "Xiaomi Mi 11" "M2011K2G";
   GObj "Xiaomi Mi 11 Lite" "M2101K9AG";
   GObj "Xiaomi Mi 11 Lite 5G" "M2101K9G";
   GObj "Xiaomi Mi 11 Ultra" "M2102K1G";
   GObj "Xiaomi Mi 11i" "M2012K11G";
   GObj "Xiaomi Mi 11T Pro" "2107113SG";
   GObj "Xiaomi Mi 9" "MI 9";
   GObj "Xiaomi Mi 9 Lite" "Mi 9 Lite";
   GObj "Xiaomi Mi 9T" "Mi 9T";
   GObj "Xiaomi Mi K20 Pro" "Redmi K20 Pro";
   GObj "Xiaomi Mi Note 10" "Mi Note 10";
   GObj "Xiaomi Mi Note 10 Lite" "Mi Note 10 Lite";
   GObj "Xiaomi Mi Note 10 Pro" "Mi Note 10 Pro";
   GObj "Xiaomi Poco F2 Pro" "POCO F2 Pro";
   GObj "Xiaomi Poco F3" "M2012K11AG";
   GObj "Xiaomi Poco F4" "22021211RG";
   GObj "Xiaomi Poco F4 GT" "21121210G";
   GObj "Xiaomi Poco M3 Pro 5G" "M2103K19PG";
   GObj "Xiaomi Poco M4 Pro 5G" "21091116AG";
   GObj "Xiaomi Poco X3 GT" "21061110AG";
   GObj "Xiaomi Poco X3 NFC" "M2007J20CG";
   GObj "Xiaomi Poco X3 Pro" "M2102J20SG";
   GObj "Xiaomi Poco X4 GT" "22041216G";
   GObj "Xiaomi Redmi 9" "M2004J19C";
   GObj "Xiaomi Redmi K20 Pro" "Redmi K20 Pro";
   GObj "Xiaomi Redmi Note 10" "M2101K7AG";
   GObj "Xiaomi Redmi Note 10 5G" "M2103K19G";
   GObj "Xiaomi Redmi Note 10 Pro" "M2101K6G";
   GObj "Xiaomi Redmi Note 10S" "M2101K7BG";
   GObj "Xiaomi Redmi Note 11" "2201117TY";
   GObj "Xiaomi Redmi Note 11 Pro" "2201116TG";
   GObj "Xiaomi Redmi Note 11 Pro+ 5G" "21091116UG";
   GObj "Xiaomi Redmi Note 11S" "2201117SY";
   GObj "Xiaomi Redmi Note 8" "M1908C3JGG";
   GObj "Xiaomi Redmi Note 8 Pro" "Redmi Note 8 Pro";
   GObj "Xiaomi Redmi Note 9" "M2003J15SC";
   GObj "Xiaomi Redmi Note 9 Pro" "Redmi Note 9 Pro";
   GObj "Xiaomi Redmi Note 9S" "Redmi Note 9S";
   GObj "Xiaomi Redmi Note 9T" "M2007J22G";
   GStr "Google TV";
   GStr "Lumia";
   GStr "iPad";
   GStr "iPod";
   GStr "iPhone";
   GStr "Kindle";
   GObj "Kindle Fire" "(?:Cloud9|Silk-Accelerated)";
   GStr "Nexus";
   GStr "Nook";
   GStr "PlayBook";
   GStr "PlayStation Vita";
   GStr "PlayStation";
   GStr "TouchPad";
   GStr "Transformer";
   GObj "Wii U" "WiiU";
   GStr "Wii";
   GStr "Xbox One";
   GObj "Xbox 360" "Xbox";
   GStr "Xoom"].

(** The device models of the first assignment to [manufacturer], in the order
    of the source. *)
Definition models : list guess :=
  [GObj "Asus" "ASUS_I003D";
   GObj "Asus" "ASUS_I005D";
   GObj "Asus" "ASUS_I005DA";
   GObj "Asus" "ASUS_I01WD";
   GObj "Asus" "ASUS_I002D";
   GObj "Asus" "ASUS_I006D";
   GObj "Asus" "ASUS_I004D";
   GObj "Asus" "ASUS_AI2202";
   GObj "Infinix" "Infinix X670";
   GObj "LG" "LM-V600";
   GObj "LG" "LM-G900";
   GObj "Motorola" "motorola edge";
   GObj "Motorola" "motorola edge 20";
   GObj "Motorola" "motorola edge 20 lite";
   GObj "Motorola" "motorola edge 20 pro";
   GObj "Motorola" "motorola edge 30";
   GObj "Motorola" "moto g(8)";
   GObj "Motorola" "moto g(8) power";
   GObj "Motorola" "moto g(9) play";
   GObj "Motorola" "moto g stylus";
   GObj "Motorola" "moto g pro";
   GObj "Motorola" "moto";
   GObj "Motorola" "moto g200 5G";
   GObj "Motorola" "moto g22";
   GObj "Motorola" "moto g(30)";
   GObj "Motorola" "moto g(50)";
   GObj "Motorola" "moto g(50) 5G";
   GObj "Motorola" "moto g52";
   GObj "Motorola" "moto g(60)";
   GObj "Motorola" "moto g62 5G";
   GObj "Motorola" "moto g71 5G";
   GObj "Motorola" "motorola one 5G UW ace";
   GObj "Motorola" "motorola one action";
   GObj "Nokia" "Nokia 2.4";
   GObj "Nokia" "Nokia 3.2";
   GObj "Nokia" "Nokia 3.4";
   GObj "Nokia" "Nokia 4.2";
   GObj "Nokia" "Nokia 5.4";
   GObj "Nokia" "Nokia 8.3 5G";
   GObj "Nokia" "Nokia 8.3 5G";
   GObj "Nokia" "Nokia G10";
   GObj "Nokia" "Nokia G20";
   GObj "Nokia" "Nokia G50";
   GObj "Nokia" "Nokia X10";
   GObj "Nokia" "Nokia X20";
   GObj "Nokia" "Nokia XR20";
   GObj "OnePlus" "NE2213";
   GObj "OnePlus" "NE2215";
   GObj "OnePlus" "CPH2415";
   GObj "OnePlus" "CPH2449";
   GObj "OnePlus" "GM1903";
   GObj "OnePlus" "GM1900";
   GObj "OnePlus" "GM1917";
   GObj "OnePlus" "GM1913";
   GObj "OnePlus" "GM1910";
   GObj "OnePlus" "HD1903";
   GObj "OnePlus" "HD1900";
   GObj "OnePlus" "HD1913";
   GObj "OnePlus" "HD1910";
   GObj "OnePlus" "IN2013";
   GObj "OnePlus" "IN2011";
   GObj "OnePlus" "IN2010";
   GObj "OnePlus" "IN2023";
   GObj "OnePlus" "IN2025";
   GObj "OnePlus" "IN2020";
   GObj "OnePlus" "KB2005";
   GObj "OnePlus" "KB2003";
   GObj "OnePlus" "KB2001";
   GObj "OnePlus" "KB2000";
   GObj "OnePlus" "LE2115";
   GObj "OnePlus" "LE2113";
   GObj "OnePlus" "LE2111";
   GObj "OnePlus" "LE2125";
   GObj "OnePlus" "LE2123";
   GObj "OnePlus" "LE2121";
   GObj "OnePlus" "LE2101";
   GObj "OnePlus" "AC2003";
   GObj "OnePlus" "AC2001";
   GObj "OnePlus" "DN2103";
   GObj "OnePlus" "DN2101";
   GObj "OnePlus" "CPH2399";
   GObj "OnePlus" "CPH2409";
   GObj "OnePlus" "EB2103";
   GObj "Oppo" "CPH2269";
   GObj "Oppo" "CPH2271";
   GObj "Oppo" "CPH2069";
   GObj "Oppo" "CPH2127";
   GObj "Oppo" "CPH2135";
   GObj "Oppo" "CPH2195";
   GObj "Oppo" "CPH2273";
   GObj "Oppo" "CPH2067";
   GObj "Oppo" "CPH2161";
   GObj "Oppo" "CPH2197";
   GObj "Oppo" "CPH2375";
   GObj "Oppo" "CPH2339";
   GObj "Oppo" "CPH1941";
   GObj "Oppo" "CPH2021";
   GObj "Oppo" "CPH2203";
   GObj "Oppo" "CPH2211";
   GObj "Oppo" "CPH2365";
   GObj "Oppo" "CPH2333";
   GObj "Oppo" "CPH2095";
   GObj "Oppo" "CPH2119";
   GObj "Oppo" "CPH2219";
   GObj "Oppo" "CPH2285";
   GObj "Oppo" "CPH2461";
   GObj "Oppo" "CPH2363";
   GObj "Oppo" "CPH2005";
   GObj "Oppo" "CPH2009";
   GObj "Oppo" "CPH2025";
   GObj "Oppo" "CPH2145";
   GObj "Oppo" "CPH2207";
   GObj "Oppo" "CPH2173";
   GObj "Oppo" "CPH2307";
   GObj "Oppo" "CPH2305";
   GObj "Oppo" "CPH2373";
   GObj "Oppo" "CPH2337";
   GObj "Oppo" "CPH1917";
   GObj "Oppo" "CPH1907";
   GObj "Oppo" "CPH1951";
   GObj "Oppo" "CPH2043";
   GObj "Oppo" "CPH2113";
   GObj "Oppo" "CPH2091";
   GObj "Oppo" "CPH2125";
   GObj "Oppo" "CPH2109";
   GObj "Oppo" "CPH2089";
   GObj "Oppo" "CPH2065";
   GObj "Oppo" "CPH2159";
   GObj "Oppo" "CPH2145";
   GObj "Oppo" "CPH2205";
   GObj "Oppo" "CPH2251";
   GObj "Oppo" "CPH2247";
   GObj "Oppo" "CPH2237";
   GObj "Oppo" "CPH2363";
   GObj "Oppo" "CPH2371";
   GObj "Oppo" "CPH2293";
   GObj "Oppo" "CPH2343";
   GObj "Oppo" "CPH2359";
   GObj "Oppo" "CPH2357";
   GObj "Google" "Pixel 3";
   GObj "Google" "Pixel 3 XL";
   GObj "Google" "Pixel 3a";
   GObj "Google" "Pixel 3a XL";
   GObj "Google" "Pixel 4";
   GObj "Google" "Pixel 4 XL";
   GObj "Google" "Pixel 4a";
   GObj "Google" "Pixel 4a (5G)";
   GObj "Google" "Pixel 5";
   GObj "Google" "Pixel 5a";
   GObj "Google" "Pixel 6";
   GObj "Google" "Pixel 6 Pro";
   GObj "Google" "Pixel 6a";
   GObj "Google" "Pixel 7";
   GObj "Google" "Pixel 7 Pro";
   GObj "Realme" "RMX2001";
   GObj "Realme" "RMX2063";
   GObj "Realme" "RMX2111";
   GObj "Realme" "RMX2170";
   GObj "Realme" "RMX3085";
   GObj "Realme" "RMX3241";
   GObj "Realme" "RMX3081";
   GObj "Realme" "RMX3151";
   GObj "Realme" "RMX3521";
   GObj "Realme" "RMX3472";
   GObj "Realme" "RMX3393";
   GObj "Realme" "RMX3392";
   GObj "Realme" "RMX3201";
   GObj "Realme" "RMX3191";
   GObj "Realme" "RMX3195";
   GObj "Realme" "RMX2202";
   GObj "Realme" "RMX3363";
   GObj "Realme" "RMX3360";
   GObj "Realme" "RMX3561";
   GObj "Realme" "RMX3563";
   GObj "Realme" "RMX3370";
   GObj "Realme" "RMX3311";
   GObj "Realme" "RMX3301";
   GObj "Realme" "RMX3242";
   GObj "Realme" "RMX3572";
   GObj "Realme" "RMX1931";
   GObj "Realme" "RMX2075";
   GObj "Realme" "RMX2121";
   GObj "Samsung" "SM-A025F";
   GObj "Samsung" "SM-A035F";
   GObj "Samsung" "SM-A037F";
   GObj "Samsung" "SM-A037G";
   GObj "Samsung" "SM-A047F";
   GObj "Samsung" "SM-A125F";
   GObj "Samsung" "SM-A127F";
   GObj "Samsung" "SM-A135F";
   GObj "Samsung" "SM-A136B";
   GObj "Samsung" "SM-A136U";
   GObj "Samsung" "SM-A137F";
   GObj "Samsung" "SM-A146U";
   GObj "Samsung" "SM-A217F";
   GObj "Samsung" "SM-A225F";
   GObj "Samsung" "SM-A226B";
   GObj "Samsung" "SM-A235F";
   GObj "Samsung" "SM-A235M";
   GObj "Samsung" "SM-A236B";
   GObj "Samsung" "SM-A315F";
   GObj "Samsung" "SM-A325F";
   GObj "Samsung" "SM-A326B";
   GObj "Samsung" "SM-A336B";
   GObj "Samsung" "SM-A405FN";
   GObj "Samsung" "SM-A415F";
   GObj "Samsung" "SM-A426B";
   GObj "Samsung" "SM-A515F";
   GObj "Samsung" "SM-A516B";
   GObj "Samsung" "SM-A525F";
   GObj "Samsung" "SM-A526B";
   GObj "Samsung" "SM-A528B";
   GObj "Samsung" "SM-A536B";
   GObj "Samsung" "SM-A705FN";
   GObj "Samsung" "SM-A715F";
   GObj "Samsung" "SM-A725F";
   GObj "Samsung" "SM-A736B";
   GObj "Samsung" "SM-A908B";
   GObj "Samsung" "SM-E135F";
   GObj "Samsung" "SM-E225F";
   GObj "Samsung" "SM-E236B";
   GObj "Samsung" "SM-E625F";
   GObj "Samsung" "SM-M115F";
   GObj "Samsung" "SM-M127F";
   GObj "Samsung" "SM-M135F";
   GObj "Samsung" "SM-M215F";
   GObj "Samsung" "SM-F415F";
   GObj "Samsung" "SM-M225FV";
   GObj "Samsung" "SM-M236B";
   GObj "Samsung" "SM-M315F";
   GObj "Samsung" "SM-M317F";
   GObj "Samsung" "SM-M325F";
   GObj "Samsung" "SM-M325FV";
   GObj "Samsung" "SM-M336B";
   GObj "Samsung" "SM-M515F";
   GObj "Samsung" "SM-M526B";
   GObj "Samsung" "SM-M536B";
   GObj "Samsung" "SM-M625F";
   GObj "Samsung" "SM-N970F";
   GObj "Samsung" "SM-N975F";
   GObj "Samsung" "SM-N976B";
   GObj "Samsung" "SM-N970F";
   GObj "Samsung" "SM-N971U";
   GObj "Samsung" "SM-N770F";
   GObj "Samsung" "SM-N975F";
   GObj "Samsung" "SM-N976B";
   GObj "Samsung" "SM-N980F";
   GObj "Samsung" "SM-N981B";
   GObj "Samsung" "SM-N985F";
   GObj "Samsung" "SM-N986B";
   GObj "Samsung" "SM-G973F";
   GObj "Samsung" "SM-G977B";
   GObj "Samsung" "SM-G770F";
   GObj "Samsung" "SM-G975F";
   GObj "Samsung" "SM-G970F";
   GObj "Samsung" "SM-G980F";
   GObj "Samsung" "SM-G981B";
   GObj "Samsung" "SM-G780F";
   GObj "Samsung" "SM-G781B";
   GObj "Samsung" "SM-G988B";
   GObj "Samsung" "SM-G988B";
   GObj "Samsung" "SM-G985F";
   GObj "Samsung" "SM-G986B";
   GObj "Samsung" "SM-G991B";
   GObj "Samsung" "SM-G990B";
   GObj "Samsung" "SM-G998B";
   GObj "Samsung" "SM-G996B";
   GObj "Samsung" "SM-S901B";
   GObj "Samsung" "SM-S908B";
   GObj "Samsung" "SM-S906B";
   GObj "Samsung" "SM-S911B";
   GObj "Samsung" "SM-S918B";
   GObj "Samsung" "SM-S916B";
   GObj "Samsung" "SM-T515";
   GObj "Samsung" "SM-T510";
   GObj "Samsung" "SM-P205";
   GObj "Samsung" "SM-P200";
   GObj "Samsung" "SM-T295";
   GObj "Samsung" "SM-T290";
   GObj "Samsung" "SM-T307U";
   GObj "Samsung" "SM-T505";
   GObj "Samsung" "SM-T500";
   GObj "Samsung" "SM-T225";
   GObj "Samsung" "SM-T220";
   GObj "Samsung" "SM-X205";
   GObj "Samsung" "SM-X200";
   GObj "Samsung" "SM-T575";
   GObj "Samsung" "SM-T725";
   GObj "Samsung" "SM-T720";
   GObj "Samsung" "SM-P619";
   GObj "Samsung" "SM-P613";
   GObj "Samsung" "SM-P615";
   GObj "Samsung" "SM-P610";
   GObj "Samsung" "SM-T865";
   GObj "Samsung" "SM-T860";
   GObj "Samsung" "SM-T876B";
   GObj "Samsung" "SM-T736B";
   GObj "Samsung" "SM-T733";
   GObj "Samsung" "SM-T875";
   GObj "Samsung" "SM-T870";
   GObj "Samsung" "SM-T976B";
   GObj "Samsung" "SM-T970";
   GObj "Samsung" "SM-X706B";
   GObj "Samsung" "SM-X906";
   GObj "Samsung" "SM-X900";
   GObj "Samsung" "SM-X700";
   GObj "Samsung" "SM-X806B";
   GObj "Samsung" "SM-X800";
   GObj "Samsung" "SM-G736B";
   GObj "Sony" "J9110";
   GObj "Sony" "XQ-AT52";
   GObj "Sony" "XQ-AT51";
   GObj "Sony" "XQ-BC52";
   GObj "Sony" "XQ-BC72";
   GObj "Sony" "XQ-CT54";
   GObj "Sony" "XQ-AU52";
   GObj "Sony" "XQ-AU51";
   GObj "Sony" "XQ-BT52";
   GObj "Sony" "XQ-CC54";
   GObj "Sony" "J9210";
   GObj "Sony" "XQ-AS72";
   GObj "Sony" "XQ-AS52";
   GObj "Sony" "XQ-BQ72";
   GObj "Sony" "XQ-BQ52";
   GObj "Sony" "XQ-CQ54";
   GObj "Vivo" "vivo 1907";
   GObj "Vivo" "vivo 1920";
   GObj "Vivo" "vivo 1909";
   GObj "Vivo" "V2025";
   GObj "Vivo" "vivo 2018";
   GObj "Vivo" "V2023";
   GObj "Vivo" "V2066";
   GObj "Vivo" "V2050";
   GObj "Vivo" "V2061";
   GObj "Vivo" "V2130";
   GObj "Vivo" "vivo 2005";
   GObj "Vivo" "vivo 2006";
   GObj "Vivo" "V2046";
   GObj "Vivo" "V2105";
   GObj "Vivo" "V2145A";
   GObj "Vivo" "V2145";
   GObj "Vivo" "V2120";
   GObj "Vivo" "vivo 1915";
   GObj "Vivo" "V2037";
   GObj "Vivo" "V2111";
   GObj "Vivo" "V2110";
   GObj "Vivo" "V2036";
   GObj "Vivo" "V2109";
   GObj "Vivo" "V2053";
   GObj "Vivo" "V2058";
   GObj "Vivo" "V2127";
   GObj "Vivo" "V2041";
   GObj "Vivo" "V2124";
   GObj "Xiaomi" "2109119DG";
   GObj "Xiaomi" "21081111RG";
   GObj "Xiaomi" "2107113SG";
   GObj "Xiaomi" "2201123G";
   GObj "Xiaomi" "2203129G";
   GObj "Xiaomi" "2201122G";
   GObj "Xiaomi" "22071212AG";
   GObj "Xiaomi" "22081212UG";
   GObj "Xiaomi" "Mi 10";
   GObj "Xiaomi" "M2002J9G";
   GObj "Xiaomi" "M2007J3SY";
   GObj "Xiaomi" "M2007J17G";
   GObj "Xiaomi" "M2007J3SG";
   GObj "Xiaomi" "M2011K2G";
   GObj "Xiaomi" "M2101K9AG";
   GObj "Xiaomi" "M2101K9G";
   GObj "Xiaomi" "M2102K1G";
   GObj "Xiaomi" "M2012K11G";
   GObj "Xiaomi" "2107113SG";
   GObj "Xiaomi" "MI 9";
   GObj "Xiaomi" "Mi 9 Lite";
   GObj "Xiaomi" "Mi 9T";
   GObj "Xiaomi" "Redmi K20 Pro";
   GObj "Xiaomi" "Mi Note 10";
   GObj "Xiaomi" "Mi Note 10 Lite";
   GObj "Xiaomi" "Mi Note 10 Pro";
   GObj "Xiaomi" "POCO F2 Pro";
   GObj "Xiaomi" "M2012K11AG";
   GObj "Xiaomi" "22021211RG";
   GObj "Xiaomi" "21121210G";
   GObj "Xiaomi" "M2103K19PG";
   GObj "Xiaomi" "21091116AG";
   GObj "Xiaomi" "21061110AG";
   GObj "Xiaomi" "M2007J20CG";
   GObj "Xiaomi" "M2102J20SG";
   GObj "Xiaomi" "22041216G";
   GObj "Xiaomi" "M2004J19C";
   GObj "Xiaomi" "Redmi K20 Pro";
   GObj "Xiaomi" "M2101K7AG";
   GObj "Xiaomi" "M2103K19G";
   GObj "Xiaomi" "M2101K6G";
   GObj "Xiaomi" "M2101K7BG";
   GObj "Xiaomi" "2201117TY";
   GObj "Xiaomi" "2201116TG";
   GObj "Xiaomi" "21091116UG";
   GObj "Xiaomi" "2201117SY";
   GObj "Xiaomi" "M1908C3JGG";
   GObj "Xiaomi" "Redmi Note 8 Pro";
   GObj "Xiaomi" "M2003J15SC";
   GObj "Xiaomi" "Redmi Note 9 Pro";
   GObj "Xiaomi" "Redmi Note 9S";
   GObj "Xiaomi" "M2007J22G"].

(* ------------------------------------------------------------------ *)
(** ** The context and the result *)

(** [context.navigator]. *)
Record Navigator : Type := {
  userAgent : jv;
  likeChrome : bool;
  appMinorVersion : jv;
  cpuClass : jv;
  nav_platform : jv
}.

(** [context.opera] and [context.operamini]: the [[Class]] (in a custom
    context, the property of that name) and what [version()] returns when
    it is a function. *)
Record OperaHint : Type := {
  opera_class : jv;
  opera_version : option jv
}.

(** [context.java]: its [[Class]] and the system properties. *)
Record JavaHint : Type := {
  java_class : string;
  java_os_arch : jv;
  java_os_name : jv;
  java_os_version : jv
}.

(** [context.system], for Narwhal. *)
Record SystemHint : Type := {
  is_global_system : bool;
  system_os : jv
}.

(** [context.process.versions]. *)
Record Versions : Type := {
  electron : jv;
  nw : jv;
  node : jv
}.

(** [context.process]. *)
Record ProcessHint : Type := {
  browser : bool;
  versions : option Versions;
  process_arch : jv;
  process_platform : jv;
  process_version : jv
}.

(** [context.runtime], for Adobe AIR. *)
Record RuntimeHint : Type := {
  runtime_class : string;
  capabilities_os : jv
}.

(** [context.phantom]: [version] is [major], [minor] and [patch], as they
    print. *)
Record PhantomHint : Type := {
  phantom_class : string;
  phantom_version : option (string * string * string)
}.

(** Reading [context.external]. *)
Inductive ExternalHint : Type :=
| ExternalNull
| ExternalOther
| ExternalThrows.

(** The capability hints of a context (the global object, or the custom
    context passed to [parse]); every one is optional. *)
Record Host : Type := {
  navigator : option Navigator;
  documentMode : option nat;
  opera : option OperaHint;
  operamini : option OperaHint;
  java : option JavaHint;
  environment : option string;
  global : bool;
  ringo_version : option string;
  system : option SystemHint;
  process : option ProcessHint;
  runtime : option RuntimeHint;
  phantom : option PhantomHint;
  external : ExternalHint;
  nativeSource : string
}.

(** A context without hints. *)
Definition bare : Host :=
  {| navigator := None; documentMode := None; opera := None; operamini := None;
     java := None; environment := None; global := false; ringo_version := None;
     system := None; process := None; runtime := None; phantom := None;
     external := ExternalOther;
     nativeSource := "function toString() { [native code] }" |}.

(** The argument of [parse]. *)
Inductive input : Type :=
| IUndef
| IStr (s : string)
| ICtx (c : Host).

(** [platform.os]: the stub when no OS was detected, else the object built
    from the OS string.  [isSpecialCasedOS] is the flag its [toString]
    closes over. *)
Inductive OS : Type :=
| OSStub
| OSInfo (architecture : nat) (family : string) (version : jv)
         (isSpecialCasedOS : bool).

Definition os_architecture (o : OS) : option nat :=
  match o with OSStub => None | OSInfo a _ _ _ => Some a end.

Definition os_family (o : OS) : jv :=
  match o with OSStub => JNull | OSInfo _ f _ _ => JStr f end.

Definition os_version (o : OS) : jv :=
  match o with OSStub => JNull | OSInfo _ _ v _ => v end.

(** [os.toString()]. *)
Definition os_toString (o : OS) : string :=
  match o with
  | OSStub => "null"
  | OSInfo architecture family version isSpecialCasedOS =>
      family
      ++ (if truthy version && negb isSpecialCasedOS then " " ++ to_s version else "")
      ++ (if Nat.eqb architecture 64 then " 64-bit" else "")
  end.

(** The platform object. *)
Record Platform : Type := {
  p_description : jv;
  p_layout : jv;
  p_manufacturer : jv;
  p_name : jv;
  p_prerelease : jv;
  p_product : jv;
  p_ua : jv;
  p_version : jv;
  p_os : OS
}.

(** [toStringPlatform]: [this.description || '']. *)
Definition toStringPlatform (p : Platform) : string :=
  to_s (jor (p_description p) (JStr "")).

(** The locals of [parse] that the correction rules assign. *)
Record Locals : Type := {
  name : jv;
  version : jv;
  os : jv;
  layout : option (string * option string);
  product : jv;
  manufacturer : jv;
  description : list string;
  prerelease : jv;
  arch : jv
}.

Definition set_name (v : jv) (l : Locals) : Locals :=
  {| name := v; version := version l; os := os l; layout := layout l;
     product := product l; manufacturer := manufacturer l;
     description := description l; prerelease := prerelease l; arch := arch l |}.
Definition set_version (v : jv) (l : Locals) : Locals :=
  {| name := name l; version := v; os := os l; layout := layout l;
     product := product l; manufacturer := manufacturer l;
     description := description l; prerelease := prerelease l; arch := arch l |}.
Definition set_os (v : jv) (l : Locals) : Locals :=
  {| name := name l; version := version l; os := v; layout := layout l;
     product := product l; manufacturer := manufacturer l;
     description := description l; prerelease := prerelease l; arch := arch l |}.
Definition set_layout (v : option (string * option string)) (l : Locals) : Locals :=
  {| name := name l; version := version l; os := os l; layout := v;
     product := product l; manufacturer := manufacturer l;
     description := description l; prerelease := prerelease l; arch := arch l |}.
Definition set_product (v : jv) (l : Locals) : Locals :=
  {| name := name l; version := version l; os := os l; layout := layout l;
     product := v; manufacturer := manufacturer l;
     description := description l; prerelease := prerelease l; arch := arch l |}.
Definition set_manufacturer (v : jv) (l : Locals) : Locals :=
  {| name := name l; version := version l; os := os l; layout := layout l;
     product := product l; manufacturer := v;
     description := description l; prerelease := prerelease l; arch := arch l |}.
Definition set_description (v : list string) (l : Locals) : Locals :=
  {| name := name l; version := version l; os := os l; layout := layout l;
     product := product l; manufacturer := manufacturer l;
     description := v; prerelease := prerelease l; arch := arch l |}.
Definition set_prerelease (v : jv) (l : Locals) : Locals :=
  {| name := name l; version := version l; os := os l; layout := layout l;
     product := product l; manufacturer := manufacturer l;
     description := description l; prerelease := v; arch := arch l |}.
Definition set_arch (v : jv) (l : Locals) : Locals :=
  {| name := name l; version := version l; os := os l; layout := layout l;
     product := product l; manufacturer := manufacturer l;
     description := description l; prerelease := prerelease l; arch := v |}.

(** [description.push(x)] and [description.unshift(x)]. *)
Definition push (x : string) (l : Locals) : Locals :=
  set_description (description l ++ [x])%list l.
Definition unshift (x : string) (l : Locals) : Locals :=
  set_description (x :: description l) l.

(** [String(layout)]: an array prints its elements joined by commas. *)
Definition layout_s (v : option (string * option string)) : jv :=
  match v with
  | None => JNull
  | Some (l0, None) => JStr l0
  | Some (l0, Some l1) => JStr (l0 ++ "," ++ l1)
  end.

(** [!!layout]: an array is truthy. *)
Definition has_layout (l : Locals) : bool :=
  match layout l with Some _ => true | None => false end.

(** [layout && layout[1]]. *)
Definition layout1 (v : option (string * option string)) : jv :=
  match v with
  | None => JNull
  | Some (_, None) => JUndef
  | Some (_, Some l1) => JStr l1
  end.

(** [layout && (layout[1] = x)]. *)
Definition set_layout1 (x : string) (l : Locals) : Locals :=
  match layout l with
  | None => l
  | Some (l0, _) => set_layout (Some (l0, Some x)) l
  end.

(* ------------------------------------------------------------------ *)
(** ** [parse]: the correction rules, in the order of the source *)

(** [x.toString()] for a match: the matched text. *)
Definition text_of (o : option Re.match_result) : jv :=
  match o with
  | Some mr => JStr (Re.mr_text mr)
  | None => JNull
  end.

(** [(r.exec(s) || 0)[n]]. *)
Definition capture (n : nat) (o : option Re.match_result) : jv :=
  match o with
  | Some mr => of_opt (Re.cap n mr)
  | None => JUndef
  end.

(** [Number(v)]. *)
Definition to_num (v : jv) : Num.num :=
  match v with
  | JUndef => Num.NaN
  | JNull => Num.int 0
  | JBool true => Num.int 1
  | JBool false => Num.int 0
  | JStr s => Num.of_string s
  end.

(** [a == b] on the primitive values. *)
Definition loose_eq (a b : jv) : bool :=
  match a, b with
  | JUndef, JUndef | JUndef, JNull | JNull, JUndef | JNull, JNull => true
  | JUndef, _ | JNull, _ | _, JUndef | _, JNull => false
  | JStr x, JStr y => String.eqb x y
  | _, _ => Num.eq (to_num a) (to_num b)
  end.

(** [v == n] for a number [n]. *)
Definition eq_num (v : jv) (n : Num.num) : bool :=
  match v with
  | JUndef | JNull => false
  | _ => Num.eq (to_num v) n
  end.

Section Rules.
(** The nested calls: [self this_is_forOwn argument]. *)
Variable self : bool -> input -> outcome Platform.
(** What [parse] fixes before the rules run. *)
Variable context : Host.
Variable isCustomContext : bool.
Variable this_is_forOwn : bool.
Variable ua : string.
Variable nav : option Navigator.
Variable useFeatures likeChrome : bool.
Variable java : option JavaHint.
Variable rhino : bool.
Variable alpha beta : string.
Variable opera : option OperaHint.
Variable operaClass : jv.

(** Detect Android products. *)
Definition detect_android_product (l : Locals) : Locals :=
  if test (re "\bAndroid\b") (os l) && negb (truthy (product l)) then
    match Re.rexec (rei "\bAndroid[^;]*;(.*?)(?:Build|\) AppleWebKit)\b") ua with
    | Some data =>
        let p := Re.replace (rei "^[a-z]{2}-[a-z]{2};\s*") ""
                   (trim (capture 1 (Some data))) in
        set_product (jor (JStr p) JNull) l
    | None => l
    end
  else l.

(** Detect product names that contain their manufacturer's name. *)
Definition detect_manufacturer_product (l : Locals) : outcome Locals :=
  if truthy (manufacturer l) && negb (truthy (product l)) then
    p <- getProduct ua [GStr (to_s (manufacturer l))] ;;
    Ok (set_product p l)
  else if truthy (manufacturer l) && truthy (product l) then
    let m := to_s (manufacturer l) in
    r1 <- RegExp ("^(" ++ qualify (manufacturer l) ++ ")[-_.\s]") true ;;
    let p := Re.replace r1 (m ++ " ") (to_s (product l)) in
    r2 <- RegExp ("^(" ++ qualify (manufacturer l) ++ ")[-_.]?(\w)") true ;;
    Ok (set_product (JStr (Re.replace r2 (m ++ " $2") p)) l)
  else Ok l.

(** Clean up Google TV. *)
Definition cleanup_google_tv (l : Locals) : Locals :=
  match exec (re "\bGoogle TV\b") (product l) with
  | Some data => set_product (JStr (Re.mr_text data)) l
  | None => l
  end.

(** Detect simulators. *)
Definition detect_simulators (l : Locals) : Locals :=
  if Re.rtest (rei "\bSimulator\b") ua then
    set_product
      (JStr ((if truthy (product l) then to_s (product l) ++ " " else "") ++ "Simulator")) l
  else l.

(** Detect Opera Mini 8+ running in Turbo/Uncompressed mode on iOS. *)
Definition detect_opera_mini_turbo (l : Locals) : Locals :=
  if eqs (name l) "Opera Mini" && Re.rtest (re "\bOPiOS\b") ua
  then push "running in Turbo/Uncompressed mode" l
  else l.

(** The first chain of alternatives: from IE Mobile 11 to Electron. *)
Definition detect_browsers (l : Locals) : outcome Locals :=
  (* Detect IE Mobile 11. *)
  if eqs (name l) "IE" && Re.rtest (re "\blike iPhone OS\b") ua then
    data <- self false (IStr (Re.replace (re "like iPhone OS") "" ua)) ;;
    Ok (set_product (p_product data) (set_manufacturer (p_manufacturer data) l))
  (* Detect iOS. *)
  else if test (re "^iP") (product l) then
    let l := if truthy (name l) then l else set_name (JStr "Safari") l in
    Ok (set_os
          (JStr ("iOS" ++
                 match Re.rexec (rei " OS ([\d_]+)") ua with
                 | Some data =>
                     " " ++ Re.replace_all (re "_") "." (to_s (capture 1 (Some data)))
                 | None => ""
                 end)) l)
  (* Detect Kubuntu. *)
  else if eqs (name l) "Konqueror" && test (rei "^Linux\b") (os l) then
    Ok (set_os (JStr "Kubuntu") l)
  (* Detect Android browsers. *)
  else if (truthy (manufacturer l) && negb (eqs (manufacturer l) "Google")
           && ((test (re "Chrome") (name l) && negb (Re.rtest (rei "\bMobile Safari\b") ua))
               || test (re "\bVita\b") (product l)))
          || (test (re "\bAndroid\b") (os l) && test (re "^Chrome") (name l)
              && Re.rtest (rei "\bVersion\/") ua) then
    Ok (set_os (if test (re "\bAndroid\b") (os l) then os l else JStr "Android")
          (set_name (JStr "Android Browser") l))
  (* Detect Silk desktop/accelerated modes. *)
  else if eqs (name l) "Silk" then
    let l := if negb (Re.rtest (rei "\bMobi") ua)
             then unshift "desktop mode" (set_os (JStr "Android") l)
             else l in
    Ok (if Re.rtest (rei "Accelerated *= *true") ua then unshift "accelerated" l else l)
  (* Detect UC Browser speed mode. *)
  else if eqs (name l) "UC Browser" && Re.rtest (re "\bUCWEB\b") ua then
    Ok (push "speed mode" l)
  (* Detect PaleMoon identifying as Firefox. *)
  else if eqs (name l) "PaleMoon" && Re.rtest (re "\bFirefox\/([\d.]+)\b") ua then
    Ok (push ("identifying as Firefox " ++
              to_s (capture 1 (Re.rexec (re "\bFirefox\/([\d.]+)\b") ua))) l)
  (* Detect Firefox OS and products running Firefox. *)
  else if eqs (name l) "Firefox" && Re.rtest (rei "\b(Mobile|Tablet|TV)\b") ua then
    let data := Re.rexec (rei "\b(Mobile|Tablet|TV)\b") ua in
    let l := if truthy (os l) then l else set_os (JStr "Firefox OS") l in
    Ok (if truthy (product l) then l else set_product (capture 1 data) l)
  (* Detect false positives for Firefox/Safari. *)
  else if negb (truthy (name l))
          || (negb (Re.rtest (rei "\bMinefield\b") ua)
              && test (re "\b(?:Firefox|Safari)\b") (name l)) then
    let data := exec (re "\b(?:Firefox|Safari)\b") (name l) in
    (* Escape the `/` for Firefox 1. *)
    let l :=
      if truthy (name l) && negb (truthy (product l))
         && Re.rtest (re "[\/,]|^[^(]+?\)")
              (Str.drop (match Str.indexOf ua (to_s (text_of data) ++ "/") with
                         | Some i => i + 8
                         | None => 7
                         end) ua)
      then (* Clear name of false positives. *) set_name JNull l
      else l in
    (* Reassign a generic name. *)
    let data := jor (product l) (jor (manufacturer l) (os l)) in
    Ok (if truthy data
           && (truthy (product l) || truthy (manufacturer l)
               || test (re "\b(?:Android|Symbian OS|Tablet OS|webOS)\b") (os l))
        then set_name
               (JStr (to_s (text_of (exec (rei "[a-z]+(?: Hat)?")
                                       (if test (re "\bAndroid\b") (os l) then os l else data)))
                      ++ " Browser")) l
        else l)
  (* Add Chrome version to description for Electron. *)
  else if eqs (name l) "Electron"
          && truthy (capture 1 (Re.rexec (re "\bChrome\/([\d.]+)\b") ua)) then
    Ok (push ("Chromium " ++ to_s (capture 1 (Re.rexec (re "\bChrome\/([\d.]+)\b") ua))) l)
  else Ok l.

(** Detect non-Opera (Presto-based) versions (order is important). *)
Definition detect_version (l : Locals) : outcome Locals :=
  if negb (truthy (version l)) then
    v <- getVersion ua
           ["(?:Cloud9|CriOS|CrMo|Edge|Edg|EdgA|EdgiOS|FxiOS|HeadlessChrome|IEMobile|Iron|Opera ?Mini|OPiOS|OPR|Raven|SamsungBrowser|Silk(?!/[\d.]+$)|UCBrowser|YaBrowser)";
            "Version";
            qualify (name l);
            "(?:Firefox|Minefield|NetFront)"] ;;
    Ok (set_version v l)
  else Ok l.

(** Detect stubborn layout engines. *)
Definition detect_stubborn_layouts (l : Locals) : Locals :=
  let data :=
    if eqs (layout_s (layout l)) "iCab"
       && Num.gt (Num.parseFloat (to_s (version l))) (Num.int 3) then Some "WebKit"
    else if test (re "\bOpera\b") (name l) then
      Some (if Re.rtest (re "\bOPR\b") ua then "Blink" else "Presto")
    else if Re.rtest (rei "\b(?:Midori|Nook|Safari)\b") ua
            && negb (test (re "^(?:Trident|EdgeHTML)$") (layout_s (layout l))) then Some "WebKit"
    else if negb (has_layout l) && Re.rtest (rei "\bMSIE\b") ua then
      Some (if eqs (os l) "Mac OS" then "Tasman" else "Trident")
    else if eqs (layout_s (layout l)) "WebKit"
            && test (rei "\bPlayStation\b(?! Vita\b)") (name l) then Some "NetFront"
    else None in
  match data with
  | Some d => set_layout (Some (d, None)) l
  | None => l
  end.

(** The second chain: Windows Phone desktop modes and IE 11. *)
Definition detect_windows_phone (l : Locals) : Locals :=
  let rv := Re.rexec (re "\brv:([\d.]+)") ua in
  (* Detect Windows Phone 7 desktop mode. *)
  if eqs (name l) "IE"
     && truthy (capture 1 (Re.rexec (rei "; *(?:XBLWP|ZuneWP)(\d+)") ua)) then
    let data := to_s (capture 1 (Re.rexec (rei "; *(?:XBLWP|ZuneWP)(\d+)") ua)) in
    l |> set_name (JStr (to_s (name l) ++ " Mobile"))
      |> set_os (JStr ("Windows Phone " ++
                       (if Re.rtest (re "\+$") data then data else data ++ ".x")))
      |> unshift "desktop mode"
  (* Detect Windows Phone 8.x desktop mode. *)
  else if Re.rtest (rei "\bWPDesktop\b") ua then
    let l := l |> set_name (JStr "IE Mobile")
               |> set_os (JStr "Windows Phone 8.x")
               |> unshift "desktop mode" in
    if truthy (version l) then l else set_version (capture 1 rv) l
  (* Detect IE 11 identifying as other browsers. *)
  else if negb (eqs (name l) "IE") && eqs (layout_s (layout l)) "Trident"
          && Re.rtest (re "\brv:([\d.]+)") ua then
    let l :=
      if truthy (name l)
      then push ("identifying as " ++ to_s (name l) ++
                 (if truthy (version l) then " " ++ to_s (version l) else "")) l
      else l in
    l |> set_name (JStr "IE") |> set_version (capture 1 rv)
  else l.

(** [airRuntimeClass] and [phantomClass]. *)
Definition airRuntimeClass : string :=
  if isCustomContext then "Object" else "ScriptBridgingProxyObject".
Definition phantomClass : string :=
  if isCustomContext then "Object" else "RuntimeObject".

(** [getClassOf(value)] for an optional hint with the class [cls]. *)
Definition getClassOf {H : Type} (cls : H -> string) (value : option H) : string :=
  match value with
  | Some h => cls h
  | None => capitalize JUndef
  end.

(** Detect server-side environments: the branch under
    [isHostType(context, 'global')]. *)
Definition detect_server_side (l : Locals) : Locals :=
  let l :=
    match java with
    | Some data =>
        l |> set_arch (java_os_arch data)
          |> set_os (jor (os l)
                       (JStr (to_s (java_os_name data) ++ " " ++ to_s (java_os_version data))))
    | None => l
    end in
  if rhino then
    let l :=
      match ringo_version context with
      | Some v => l |> set_version (JStr v) |> set_name (JStr "RingoJS")
      | None =>
          match system context with
          | Some data =>
              if is_global_system data then
                let l := set_name (JStr "Narwhal") l in
                if truthy (os l) then l else set_os (jor (system_os data) JNull) l
              else l
          | None => l
          end
      end in
    if truthy (name l) then l else set_name (JStr "Rhino") l
  else
    match process context with
    | Some data =>
        if negb (browser data) then
          let l :=
            match versions data with
            | Some vs =>
                match electron vs, nw vs with
                | JStr e, _ =>
                    l |> push ("Node " ++ to_s (node vs))
                      |> set_name (JStr "Electron")
                      |> set_version (JStr e)
                | _, JStr n =>
                    l |> push ("Chromium " ++ to_s (version l))
                      |> push ("Node " ++ to_s (node vs))
                      |> set_name (JStr "NW.js")
                      |> set_version (JStr n)
                | _, _ => l
                end
            | None => l
            end in
          if truthy (name l) then l
          else
            l |> set_name (JStr "Node.js")
              |> set_arch (process_arch data)
              |> set_os (process_platform data)
              |> set_version (match exec (re "[\d.]+") (process_version data) with
                              | Some v => JStr (Re.mr_text v)
                              | None => JNull
                              end)
        else l
    | None => l
    end.

(** Leverage environment features. *)
Definition leverage_features (l : Locals) : Locals :=
  if useFeatures then
    let l :=
      (* Detect server-side environments. *)
      if global context then detect_server_side l
      (* Detect Adobe AIR. *)
      else if String.eqb (getClassOf runtime_class (runtime context)) airRuntimeClass then
        match runtime context with
        | Some data => l |> set_name (JStr "Adobe AIR") |> set_os (capabilities_os data)
        | None => l
        end
      (* Detect PhantomJS. *)
      else if String.eqb (getClassOf phantom_class (phantom context)) phantomClass then
        match phantom context with
        | Some data =>
            l |> set_name (JStr "PhantomJS")
              |> set_version
                   (match phantom_version data with
                    | Some (major, minor, patch) =>
                        JStr (major ++ "." ++ minor ++ "." ++ patch)
                    | None => JNull
                    end)
        | None => l
        end
      else
        match documentMode context with
        | Some mode =>
            match Re.rexec (rei "\bTrident\/(\d+)") ua with
            | Some data =>
                (* Detect IE compatibility modes: in compatibility mode
                   when the Trident version + 4 doesn't equal the
                   document mode. *)
                let engine := Num.add (to_num (capture 1 (Some data))) (Num.int 4) in
                let l' :=
                  if negb (Num.eq engine (Num.of_nat mode))
                  then l |> push ("IE " ++ Num.show mode ++ " mode") |> set_layout1 ""
                  else l in
                if eqs (name l) "IE"
                then set_version (JStr (Num.toFixed1 engine)) l'
                else l'
            | None =>
                (* Detect IE 11 masking as other browsers. *)
                if test (re "^(?:Chrome|Firefox)\b") (name l) then
                  l |> push ("masking as " ++ to_s (name l) ++ " " ++ to_s (version l))
                    |> set_name (JStr "IE")
                    |> set_version (JStr "11.0")
                    |> set_layout (Some ("Trident", None))
                    |> set_os (JStr "Windows")
                else l
            end
        | None => l
        end in
    if truthy (os l) then set_os (JStr (format (os l))) l else l
  else l.

(** Detect prerelease phases. *)
Definition detect_prerelease (l : Locals) : outcome Locals :=
  let minor :=
    if useFeatures
    then match nav with Some n => appMinorVersion n | None => JUndef end
    else JBool false in
  let data :=
    if truthy (version l) then
      match exec (rei "(?:[ab]|dp|pre|[ab]\d+pre)(?:\d+\+?)?$") (version l) with
      | Some d => Some (Re.mr_text d)
      | None =>
          match Re.rexec (rei "(?:alpha|beta)(?: ?\d)?") (ua ++ ";" ++ to_s minor) with
          | Some d => Some (Re.mr_text d)
          | None => if Re.rtest (rei "\bMinefield\b") ua then Some "a" else None
          end
      end
    else None in
  match data with
  | Some data =>
      let pre := if Re.rtest (rei "b") data then "beta" else "alpha" in
      r <- RegExp (data ++ "\+?$") false ;;
      Ok (l |> set_prerelease (JStr pre)
            |> set_version
                 (JStr (Re.replace r "" (to_s (version l))
                        ++ (if String.eqb pre "beta" then beta else alpha)
                        ++ to_s (jor (text_of (Re.rexec (re "\d+\+?") data)) (JStr "")))))
  | None => Ok l
  end.

(** [reOpera]. *)
Definition reOpera : Re.regexp := re "\bOpera".

(** When the masking rule looks at the UA with the Opera signature
    removed. *)
Definition masking_applies (l : Locals) : bool :=
  negb this_is_forOwn && negb (eqs (product l) "Wii")
  && ((useFeatures && match opera with Some _ => true | None => false end)
      || (test (re "Opera") (name l) && Re.rtest (rei "\b(?:MSIE|Firefox)\b") ua)
      || (eqs (name l) "Firefox" && test (re "\bOS X (?:\d+\.){2,}") (os l))
      || (eqs (name l) "IE"
          && ((truthy (os l) && negb (test (re "^Win") (os l))
               && Num.gt (to_num (version l)) (Num.dec 55 1))
              || (test (re "\bWindows XP\b") (os l)
                  && Num.gt (to_num (version l)) (Num.int 8))
              || (eq_num (version l) (Num.int 8)
                  && negb (Re.rtest (re "\bTrident\b") ua))))).

(** What the masking rule does once the nested call has found another
    browser, [data]. *)
Definition apply_masking (data : Platform) (l : Locals) : Locals :=
  let note :=
    "ing as " ++ to_s (p_name data)
    ++ (if truthy (p_version data) then " " ++ to_s (p_version data) else "") in
  let '(note, l) :=
    (* When "identifying", the UA contains both Opera and the other
       browser's name. *)
    if test reOpera (name l) then
      ("identify" ++ note,
       if Re.rtest (re "\bIE\b") note && eqs (os l) "Mac OS" then set_os JNull l else l)
    (* When "masking", the UA contains only the other browser's name. *)
    else
      let note := "mask" ++ note in
      let l :=
        if truthy operaClass
        then set_name (JStr (format (JStr (Re.replace_all (re "([a-z])([A-Z])") "$1 $2"
                                             (to_s operaClass))))) l
        else set_name (JStr "Opera") l in
      let l := if Re.rtest (re "\bIE\b") note then set_os JNull l else l in
      (note, if negb useFeatures then set_version JNull l else l) in
  l |> set_layout (Some ("Presto", None)) |> push note.

(** The third chain: from Firefox Mobile to Opera identifying or masking
    itself as another browser. *)
Definition detect_mobile_and_masking (l : Locals) : outcome Locals :=
  (* Detect Firefox Mobile. *)
  if eqs (name l) "Fennec"
     || (eqs (name l) "Firefox" && test (re "\b(?:Android|Firefox OS|KaiOS)\b") (os l)) then
    Ok (set_name (JStr "Firefox Mobile") l)
  (* Obscure Maxthon's unreliable version. *)
  else if eqs (name l) "Maxthon" && truthy (version l) then
    Ok (set_version (JStr (Re.replace (re "\.[\d.]+") ".x" (to_s (version l)))) l)
  (* Detect Xbox 360 and Xbox One. *)
  else if test (rei "\bXbox\b") (product l) then
    let l := if eqs (product l) "Xbox 360" then set_os JNull l else l in
    Ok (if eqs (product l) "Xbox 360" && Re.rtest (re "\bIEMobile\b") ua
        then unshift "mobile mode" l else l)
  (* Add mobile postfix. *)
  else if (test (re "^(?:Chrome|IE|Opera)$") (name l)
           || (truthy (name l) && negb (truthy (product l))
               && negb (test (re "Browser|Mobi") (name l))))
          && (eqs (os l) "Windows CE" || Re.rtest (rei "Mobi") ua) then
    Ok (set_name (JStr (to_s (name l) ++ " Mobile")) l)
  (* Detect IE platform preview. *)
  else if eqs (name l) "IE" && useFeatures then
    Ok (match external context with
        | ExternalNull => unshift "platform preview" l
        | ExternalOther => l
        | ExternalThrows => unshift "embedded" l
        end)
  else
    (* Detect BlackBerry OS version. *)
    data <-
      (if test (re "\bBlackBerry\b") (product l) || Re.rtest (re "\bBB10\b") ua then
         match product l with
         | JStr p =>
             r <- RegExp (Re.replace_all (re " +") " *" p ++ "/([.\d]+)") true ;;
             Ok (jor (capture 1 (Re.rexec r ua)) (version l))
         | _ => Throw TypeError
         end
       else Ok JNull) ;;
    if truthy data then
      Ok (if Re.rtest (re "BB10") ua
          then l |> set_product JNull
                 |> set_manufacturer (JStr "BlackBerry")
                 |> set_os (JStr ("BlackBerry " ++ to_s data))
                 |> set_version JNull
          else l |> set_os (JStr ("Device Software " ++ to_s data))
                 |> set_version JNull)
    (* Detect Opera identifying/masking itself as another browser. *)
    else if masking_applies l then
      data <- self true (IStr (Re.replace reOpera "" ua ++ ";")) ;;
      Ok (if negb (Re.rtest reOpera (toStringPlatform data)) && truthy (p_name data)
          then apply_masking data l else l)
    else Ok l.

(** The approximate version of the WebKit ladders: a number or a string. *)
Inductive approx : Type :=
| ANum (n : nat)
| AStr (s : string).

(** The ladder for browsers like Safari, by WebKit build. *)
Definition safari_ladder (data : Num.num) : approx :=
  let below (n : Z) := Num.lt data (Num.int n) in
  if below 400%Z then ANum 1 else if below 500%Z then ANum 2
  else if below 526%Z then ANum 3 else if below 533%Z then ANum 4
  else if below 534%Z then AStr "4+" else if below 535%Z then ANum 5
  else if below 537%Z then ANum 6 else if below 538%Z then ANum 7
  else if below 601%Z then ANum 8 else if below 602%Z then ANum 9
  else if below 604%Z then ANum 10 else if below 606%Z then ANum 11
  else if below 608%Z then ANum 12 else AStr "12".

(** The ladder for browsers like Chrome, by WebKit build; the constants
    are hundredths. *)
Definition chrome_ladder (data : Num.num) (blink : bool) : approx :=
  let below (n : Z) := Num.lt data (Num.dec n 2) in
  if below 53000%Z then ANum 1 else if below 53200%Z then ANum 2
  else if below 53205%Z then ANum 3 else if below 53300%Z then ANum 4
  else if below 53403%Z then ANum 5 else if below 53407%Z then ANum 6
  else if below 53410%Z then ANum 7 else if below 53413%Z then ANum 8
  else if below 53416%Z then ANum 9 else if below 53424%Z then ANum 10
  else if below 53430%Z then ANum 11 else if below 53501%Z then ANum 12
  else if below 53502%Z then AStr "13+" else if below 53507%Z then ANum 15
  else if below 53511%Z then ANum 16 else if below 53519%Z then ANum 17
  else if below 53605%Z then ANum 18 else if below 53610%Z then ANum 19
  else if below 53701%Z then ANum 20 else if below 53711%Z then AStr "21+"
  else if below 53713%Z then ANum 23 else if below 53718%Z then ANum 24
  else if below 53724%Z then ANum 25 else if below 53736%Z then ANum 26
  else if blink then AStr "28" else AStr "27".

(** [data += typeof data == 'number' ? '.x' : /[.+]/.test(data) ? '' : '+']. *)
Definition approx_text (a : approx) : string :=
  match a with
  | ANum n => Num.show n ++ ".x"
  | AStr s => s ++ (if Re.rtest (re "[.+]") s then "" else "+")
  end.

Definition approx_raw (a : approx) : string :=
  match a with
  | ANum n => Num.show n
  | AStr s => s
  end.

(** Detect WebKit Nightly and approximate Chrome/Safari versions. *)
Definition detect_webkit (l : Locals) : Locals :=
  match capture 1 (Re.rexec (rei "\bAppleWebKit\/([\d.]+\+?)") ua) with
  | JStr build =>
      if Str.nonempty build then
        (* Correct build number for numeric comparison.
           (e.g. "532.5" becomes "532.05") *)
        let data0 := Num.parseFloat (Re.replace (re "\.(\d)$") ".0$1" build) in
        let safari := capture 1 (Re.rexec (rei "\bSafari\/([\d.]+\+?)") ua) in
        (* Nightly builds are postfixed with a "+". *)
        let '(l, data2) :=
          if eqs (name l) "Safari" && String.eqb (Str.last_char build) "+" then
            (l |> set_name (JStr "WebKit Nightly")
               |> set_prerelease (JStr "alpha")
               |> set_version (JStr (Str.drop_last build)), JUndef)
          (* Clear incorrect browser versions. *)
          else if loose_eq (version l) (JStr build) then (set_version JNull l, JUndef)
          else if loose_eq (version l) safari then (set_version JNull l, safari)
          else (l, safari) in
        (* Use the full Chrome version when available. *)
        let data1 := capture 1 (Re.rexec (rei "\b(?:Headless)?Chrome\/([\d.]+)") ua) in
        (* Detect Blink layout engine. *)
        let l :=
          if Num.eq data0 (Num.dec 53736 2) && eq_num data2 (Num.dec 53736 2)
             && Num.ge (Num.parseFloat (to_s data1)) (Num.int 28)
             && eqs (layout_s (layout l)) "WebKit"
          then set_layout (Some ("Blink", None)) l else l in
        (* Detect JavaScriptCore. *)
        let '(l, data) :=
          if negb useFeatures || (negb likeChrome && negb (truthy data1)) then
            (set_layout1 "like Safari" l, safari_ladder data0)
          else
            let l := set_layout1 "like Chrome" l in
            (l, if truthy data1 then AStr (to_s data1)
                else chrome_ladder data0 (eqs (layout_s (layout l)) "Blink")) in
        (* Add the postfix of ".x" or "+" for approximate versions; the
           postfix is computed as part of the assignment to [layout[1]]. *)
        let data := if has_layout l then approx_text data else approx_raw data in
        let l := match layout l with
                 | Some (l0, l1) =>
                     set_layout (Some (l0, Some (to_s (of_opt l1) ++ " " ++ data))) l
                 | None => l
                 end in
        (* Obscure version for some Safari 1-2 releases. *)
        if eqs (name l) "Safari"
           && (negb (truthy (version l))
               || Num.gt (Num.parseInt (to_s (version l))) (Num.int 45))
        then set_version (JStr data) l
        else if eqs (name l) "Chrome" && Re.rtest (rei "\bHeadlessChrome") ua
        then unshift "headless" l
        else l
      else l
  | _ => l
  end.

(** The fourth chain: Opera and Chrome desktop modes, SRWare Iron. *)
Definition detect_desktop_modes (l : Locals) : outcome Locals :=
  (* Detect Opera desktop modes. *)
  if eqs (name l) "Opera" && test (re "\bzbov|zvav$") (os l) then
    let data := to_s (text_of (exec (re "\bzbov|zvav$") (os l))) in
    let l := l |> set_name (JStr (to_s (name l) ++ " ")) |> unshift "desktop mode" in
    let l :=
      if String.eqb data "zvav"
      then l |> set_name (JStr (to_s (name l) ++ "Mini")) |> set_version JNull
      else set_name (JStr (to_s (name l) ++ "Mobile")) l in
    r <- RegExp (" *" ++ data ++ "$") false ;;
    Ok (set_os (JStr (Re.replace r "" (to_s (os l)))) l)
  (* Detect Chrome desktop mode. *)
  else if eqs (name l) "Safari" && test (re "\bChrome\b") (layout1 (layout l)) then
    let l := l |> unshift "desktop mode"
               |> set_name (JStr "Chrome Mobile")
               |> set_version JNull in
    Ok (if test (re "\bOS X\b") (os l)
        then l |> set_manufacturer (JStr "Apple") |> set_os (JStr "iOS 4.3+")
        else set_os JNull l)
  (* Newer versions of SRWare Iron uses the Chrome tag to indicate its
     version number. *)
  else if test (re "\bSRWare Iron\b") (name l) && negb (truthy (version l)) then
    v <- getVersion ua (Str.chars "Chrome") ;;
    Ok (set_version v l)
  else Ok l.

(** Strip incorrect OS versions. *)
Definition strip_os_version (l : Locals) : outcome Locals :=
  let data := to_s (text_of (exec (re "[\d.]+$") (os l))) in
  if truthy (version l)
     && match Str.indexOf (to_s (version l)) data with Some 0 => true | _ => false end
     && match Str.indexOf ua ("/" ++ data ++ "-") with Some _ => true | None => false end
  then
    match os l with
    | JStr o => Ok (set_os (JStr (trim (JStr (Str.replace_str o data "")))) l)
    | _ => Throw TypeError
    end
  else Ok l.

(** Ensure OS does not include the browser name. *)
Definition strip_name_from_os (l : Locals) : outcome Locals :=
  match os l with
  | JStr o =>
      if Str.nonempty o
         && match Str.indexOf o (to_s (name l)) with Some _ => true | None => false end
      then
        r <- RegExp (to_s (name l) ++ " OS") false ;;
        if negb (Re.rtest r o) then
          r' <- RegExp (" *" ++ qualify (name l) ++ " *") false ;;
          Ok (set_os (JStr (Re.replace r' "" o)) l)
        else Ok l
      else Ok l
  | _ => Ok l
  end.

(** Add layout engine. *)
Definition add_layout (l : Locals) : Locals :=
  match layout l with
  | Some (l0, l1) =>
      if negb (test (re "\b(?:Avant|Nook)\b") (name l))
         && (test (re "Browser|Lunascape|Maxthon") (name l)
             || (negb (eqs (name l) "Safari") && test (re "^iOS") (os l)
                 && test (re "\bSafari\b") (of_opt l1))
             || (test (re "^(?:Adobe|Arora|Breach|Midori|Opera|Phantom|Rekonq|Rock|Samsung Internet|Sleipnir|SRWare Iron|Vivaldi|Web)") (name l)
                 && truthy (of_opt l1)))
      then
        (* Don't add layout details to description if they are falsey. *)
        let data := match l1 with Some x => x | None => l0 end in
        if Str.nonempty data then push data l else l
      else l
  | None => l
  end.

(** Combine contextual information. *)
Definition combine_notes (l : Locals) : Locals :=
  match description l with
  | [] => l
  | notes => set_description ["(" ++ Str.join "; " notes ++ ")"] l
  end.

(** Append manufacturer to description. *)
Definition append_manufacturer (l : Locals) : Locals :=
  if truthy (manufacturer l) && truthy (product l)
     && match Str.indexOf (to_s (product l)) (to_s (manufacturer l)) with
        | Some _ => false
        | None => true
        end
  then push ("on " ++ to_s (manufacturer l)) l
  else l.

(** [description[description.length - 1]]. *)
Definition last_note (l : Locals) : jv :=
  match rev (description l) with
  | x :: _ => JStr x
  | [] => JUndef
  end.

(** Append product to description. *)
Definition append_product (l : Locals) : Locals :=
  if truthy (product l)
  then push ((if test (re "^on ") (last_note l) then "" else "on ") ++ to_s (product l)) l
  else l.

(** Parse the OS into an object.  [None]: [os] is falsy and stays as it
    is. *)
Definition os_object (l : Locals) : option OS :=
  if truthy (os l) then
    let o := to_s (os l) in
    match Re.rexec (re " ([\d.+]+)$") o with
    | Some data =>
        let d0 := Re.mr_text data in
        let isSpecialCasedOS :=
          String.eqb
            (if Nat.ltb (String.length o) (String.length d0 + 1) then ""
             else Str.charAt o (String.length o - String.length d0 - 1))
            "/" in
        Some (OSInfo 32
                (if negb isSpecialCasedOS then Str.replace_str o d0 "" else o)
                (capture 1 (Some data))
                isSpecialCasedOS)
    | None => Some (OSInfo 32 o JNull false)
    end
  else None.

(** Add browser/OS architecture.  The rule assigns to the OS object and
    to [description]. *)
Definition add_architecture (l : Locals) (o : option OS)
  : outcome (Locals * option OS) :=
  let data :=
    match exec (rei "\b(?:AMD|IA|Win|WOW|x86_|x)64\b") (arch l) with
    | Some data => if negb (test (rei "\bi686\b") (arch l)) then Some data else None
    | None => None
    end in
  match data with
  | Some data =>
      o' <- match o with
            | Some (OSInfo _ fam ver special) =>
                r <- RegExp (" *" ++ Re.mr_text data) false ;;
                Ok (Some (OSInfo 64 (Re.replace r "" fam) ver special))
            | other => Ok other
            end ;;
      let cpu := match nav with
                 | Some n => jor (cpuClass n) (nav_platform n)
                 | None => JUndef
                 end in
      Ok (if truthy (name l)
             && (Re.rtest (rei "\bWOW64\b") ua
                 || (useFeatures && test (re "\w(?:86|32)$") cpu
                     && negb (Re.rtest (rei "\bWin64; x64\b") ua)))
          then unshift "32-bit" l else l, o')
  | None =>
      (* Chrome 39 and above on OS X is always 64-bit. *)
      Ok (l, match o with
             | Some (OSInfo a fam ver special) =>
                 if Re.rtest (re "^OS X") fam && eqs (name l) "Chrome"
                    && Num.ge (Num.parseFloat (to_s (version l))) (Num.int 39)
                 then Some (OSInfo 64 fam ver special) else o
             | other => other
             end)
  end.

(** The last writes to [description]: the version and the name in front,
    the OS at the end. *)
Definition describe (l : Locals) (o : option OS) : list string :=
  let l := if truthy (jand (name l) (version l)) then unshift (to_s (version l)) l else l in
  let l := if truthy (name l) then unshift (to_s (name l)) l else l in
  let l :=
    match o with
    | Some os =>
        let os_s := os_toString os in
        if truthy (name l)
           && negb (String.eqb os_s (first_or (Str.split os_s " ") "")
                    && (String.eqb os_s (first_or (Str.split (to_s (name l)) " ") "")
                        || truthy (product l)))
        then push (if truthy (product l) then "(" ++ os_s ++ ")" else "on " ++ os_s) l
        else l
    | None => l
    end in
  description l.

(** The platform object, from the locals, the OS object and [ua]. *)
Definition make_platform (l : Locals) (o : option OS) : Platform :=
  let ua := if Str.nonempty ua then JStr ua else JNull in
  {| p_description :=
       match describe l o with
       | [] => ua
       | segments => JStr (Str.join " " segments)
       end;
     p_layout := match layout l with Some (l0, _) => JStr l0 | None => JNull end;
     p_manufacturer := manufacturer l;
     p_name := name l;
     p_prerelease := prerelease l;
     p_product := product l;
     p_ua := ua;
     p_version := jand (name l) (version l);
     p_os := match o with Some os => os | None => OSStub end |}.

(** The rules that resolve the fields, in the order of the source: first
    those up to the prerelease phases, *)
Definition resolve_first (l : Locals) : outcome Locals :=
  let l := detect_android_product l in
  l <- detect_manufacturer_product l ;;
  let l := cleanup_google_tv l in
  let l := detect_simulators l in
  let l := detect_opera_mini_turbo l in
  l <- detect_browsers l ;;
  l <- detect_version l ;;
  let l := detect_stubborn_layouts l in
  let l := detect_windows_phone l in
  let l := leverage_features l in
  detect_prerelease l.

(** then those from the mobile names to the OS that does not include the
    browser name. *)
Definition resolve_rest (l : Locals) : outcome Locals :=
  l <- detect_mobile_and_masking l ;;
  let l := detect_webkit l in
  l <- detect_desktop_modes l ;;
  l <- strip_os_version l ;;
  strip_name_from_os l.

Definition resolve (l : Locals) : outcome Locals :=
  l <- resolve_first l ;;
  resolve_rest l.

(** The notes, the manufacturer and the product, as [description] holds
    them before the platform object is made. *)
Definition annotate (l : Locals) : Locals :=
  l |> add_layout |> combine_notes |> append_manufacturer |> append_product.

(** From the resolved locals to the platform object. *)
Definition finish (l : Locals) : outcome Platform :=
  let l := annotate l in
  lo <- add_architecture l (os_object l) ;;
  Ok (make_platform (fst lo) (snd lo)).
End Rules.

(** The characters that represent alpha and beta: U+03B1 and U+03B2 (here
    in UTF-8), or [a] and [b] under Java. *)
Definition glyph (java : bool) (plain : string) (low : N) : string :=
  if java then plain
  else String (ascii_of_N 206) (String (ascii_of_N low) EmptyString).

(** What [parse] fixes before the pickers run. *)
Record Env : Type := {
  e_context : Host;
  e_isCustomContext : bool;
  e_ua : string;
  e_nav : option Navigator;
  e_useFeatures : bool;
  e_likeChrome : bool;
  e_java : option JavaHint;
  e_rhino : bool;
  e_alpha : string;
  e_beta : string;
  e_opera : option OperaHint;
  e_operaClass : jv;
  e_version : jv
}.

(** [nav.userAgent || ''], for [nav = context.navigator || {}]. *)
Definition userAgent_of (context : Host) : string :=
  to_s (jor (match navigator context with Some n => userAgent n | None => JUndef end)
            (JStr "")).

(** The identification string a call works on: the argument, or the one of
    the context when the argument is not a non-empty string. *)
Definition ua_of (root : Host) (arg : input) : string :=
  match arg with
  | IStr s => if Str.nonempty s then s else userAgent_of root
  | IUndef => userAgent_of root
  | ICtx c => userAgent_of c
  end.

(** The head of [parse(ua)], up to the declaration of [version].  [root] is
    the global object. *)
Definition setup (root : Host) (arg : input) : Env :=
  (* Juggle arguments. *)
  let isCustomContext := match arg with ICtx _ => true | _ => false end in
  let context := match arg with ICtx c => c | _ => root end in
  let nav := navigator context in
  let userAgent := userAgent_of context in
  let ua := ua_of root arg in
  let likeChrome :=
    if isCustomContext
    then match nav with Some n => likeChrome n | None => false end
    else Re.rtest (re "\bChrome\b") ua
         && negb (Re.rtest (rei "internal|\n") (nativeSource root)) in
  let javaClass :=
    if isCustomContext && match java context with Some _ => true | None => false end
    then "JavaPackage" else getClassOf java_class (java context) in
  let java := if Re.rtest (re "\bJava") javaClass then java context else None in
  let is_java := match java with Some _ => true | None => false end in
  let enviroClass := if isCustomContext then "Object" else "Environment" in
  let rhino :=
    is_java && String.eqb (getClassOf (fun c => c) (environment context)) enviroClass in
  let opera :=
    match operamini context with Some o => Some o | None => opera context end in
  let operaClass :=
    match opera with
    | Some o => if isCustomContext then opera_class o else JStr (to_s (opera_class o))
    | None => JStr (capitalize JUndef)
    end in
  let is_opera := test reOpera operaClass in
  let opera := if is_opera then opera else None in
  let useFeatures := String.eqb ua userAgent in
  {| e_context := context;
     e_isCustomContext := isCustomContext;
     e_ua := ua;
     e_nav := nav;
     e_useFeatures := useFeatures;
     e_likeChrome := likeChrome;
     e_java := java;
     e_rhino := rhino;
     e_alpha := glyph is_java "a" 177;
     e_beta := glyph is_java "b" 178;
     e_opera := opera;
     e_operaClass := if is_opera then operaClass else JNull;
     e_version :=
       if useFeatures then
         match opera with
         | Some o => match opera_version o with Some v => v | None => JBool false end
         | None => JNull
         end
       else JBool false |}.

(** The five pickers, and the locals as they are before the rules. *)
Definition pick (e : Env) : outcome Locals :=
  let ua := e_ua e in
  layout <- getLayout ua layouts ;;
  name <- getName ua names ;;
  product <- getProduct ua products ;;
  _ <- getProduct ua models ;;
  manufacturer <- getManufacturer ua product manufacturers ;;
  os <- getOS ua oses ;;
  Ok {| name := name; version := e_version e; os := os;
        (* Convert layout to an array so we can add extra details. *)
        layout := if truthy layout then Some (to_s layout, None) else None;
        product := product; manufacturer := manufacturer;
        description := []; prerelease := JNull; arch := JStr ua |}.

Definition resolve_in (self : bool -> input -> outcome Platform) (e : Env)
    (this_is_forOwn : bool) (l : Locals) : outcome Locals :=
  resolve self (e_context e) (e_isCustomContext e) this_is_forOwn (e_ua e) (e_nav e)
    (e_useFeatures e) (e_likeChrome e) (e_java e) (e_rhino e) (e_alpha e) (e_beta e)
    (e_opera e) (e_operaClass e) l.

Definition finish_in (e : Env) (l : Locals) : outcome Platform :=
  finish (e_ua e) (e_nav e) (e_useFeatures e) l.

(** The locals of a call once the rules have run. *)
Definition resolved (self : bool -> input -> outcome Platform) (root : Host)
    (this_is_forOwn : bool) (arg : input) : outcome Locals :=
  l <- pick (setup root arg) ;;
  resolve_in self (setup root arg) this_is_forOwn l.

(** The body of [parse(ua)].  [this_is_forOwn] tells whether the call is
    [parse.call(forOwn, ...)], and [self] stands for the nested calls. *)
Definition parse_body (self : bool -> input -> outcome Platform)
    (root : Host) (this_is_forOwn : bool) (arg : input) : outcome Platform :=
  l <- resolved self root this_is_forOwn arg ;;
  finish_in (setup root arg) l.

(** [parse] with [fuel] levels of calls: the call itself and [fuel - 1]
    levels of nested calls under it. *)
Fixpoint parse_fuel (fuel : nat) (root : Host) (this_is_forOwn : bool)
    (arg : input) : outcome Platform :=
  match fuel with
  | O => OutOfFuel
  | S f => parse_body (parse_fuel f root) root this_is_forOwn arg
  end.

(** Levels that are always enough (see [parse_fuel_enough]). *)
Definition levels (this_is_forOwn : bool) (len : nat) : nat :=
  if this_is_forOwn then Nat.max 1 (len - 11) else S (S len).

(** [parse(ua)], as the program exports it. *)
Definition parse (root : Host) (arg : input) : outcome Platform :=
  parse_fuel (levels false (String.length (ua_of root arg))) root false arg.

(** The locals of [parse root arg] once the rules have run. *)
Definition parse_locals (root : Host) (arg : input) : outcome Locals :=
  resolved (parse_fuel (S (String.length (ua_of root arg))) root) root false arg.

(* ------------------------------------------------------------------ *)
(** ** Properties *)

(** *** Outcomes *)

Lemma bind_Ok {A B : Type} (x : outcome A) (f : A -> outcome B) (b : B) :
  bind x f = Ok b -> exists a, x = Ok a /\ f a = Ok b.
Proof.
  destruct x as [a | e | ]; simpl; intro H; try discriminate.
  exists a; split; [reflexivity | exact H].
Qed.

Lemma parse_unfold (root : Host) (arg : input) :
  parse root arg
  = bind (parse_locals root arg) (finish_in (setup root arg)).
Proof. reflexivity. Qed.

Lemma parse_fuel_Ok (n : nat) (root : Host) (this : bool) (arg : input) (p : Platform) :
  parse_fuel n root this arg = Ok p ->
  exists f l, n = S f
              /\ resolved (parse_fuel f root) root this arg = Ok l
              /\ finish_in (setup root arg) l = Ok p.
Proof.
  destruct n as [| f]; simpl; [discriminate |].
  unfold parse_body. intro H. apply bind_Ok in H. destruct H as (l & Hl & Hp).
  exists f, l. auto.
Qed.

Lemma finish_Ok ua nav uf (l : Locals) (p : Platform) :
  finish ua nav uf l = Ok p ->
  exists l' o',
    add_architecture ua nav uf (annotate l) (os_object (annotate l)) = Ok (l', o')
    /\ p = make_platform ua l' o'.
Proof.
  unfold finish. intro H. apply bind_Ok in H. destruct H as ([l' o'] & Ha & Hp).
  exists l', o'. split; [exact Ha |]. simpl in Hp. congruence.
Qed.

(** *** What the last steps keep *)

Lemma name_unshift x l : name (unshift x l) = name l.
Proof. reflexivity. Qed.

Lemma name_push x l : name (push x l) = name l.
Proof. reflexivity. Qed.

Lemma make_platform_name ua l o : p_name (make_platform ua l o) = name l.
Proof. reflexivity. Qed.

Lemma make_platform_version ua l o :
  p_version (make_platform ua l o) = jand (name l) (version l).
Proof. reflexivity. Qed.

Lemma make_platform_os ua l o :
  p_os (make_platform ua l o) = match o with Some x => x | None => OSStub end.
Proof. reflexivity. Qed.

(** C3: for every input, string or context object, the version of the
    returned record is null whenever its name is null. *)
Theorem C3_version_null_without_name :
  forall (root : Host) (arg : input) (p : Platform),
    parse root arg = Ok p ->
    p_name p = JNull ->
    p_version p = JNull.
Proof.
  intros root arg p H Hn.
  rewrite parse_unfold in H. apply bind_Ok in H. destruct H as (l & _ & H).
  apply finish_Ok in H. destruct H as (l' & o' & _ & ->).
  rewrite make_platform_name in Hn. rewrite make_platform_version, Hn. reflexivity.
Qed.

(** *** The matcher only moves forward *)

Module ReFacts.
Import Re.

(** [st'] is [st] after some code units [w] were consumed. *)
Definition extends (st st' : mstate) : Prop :=
  exists w, m_rest st = (w ++ m_rest st')%string
            /\ m_pos st' = m_pos st + String.length w.

Lemma extends_refl st : extends st st.
Proof. exists EmptyString. split; [reflexivity | simpl; lia]. Qed.

Lemma append_assoc (a b c : string) : ((a ++ b) ++ c = a ++ (b ++ c))%string.
Proof. induction a as [| x a IH]; simpl; [reflexivity | now rewrite IH]. Qed.

Lemma append_length (a b : string) :
  String.length (a ++ b) = String.length a + String.length b.
Proof. induction a as [| x a IH]; simpl; [reflexivity | now rewrite IH]. Qed.

Lemma extends_trans a b c : extends a b -> extends b c -> extends a c.
Proof.
  intros (w1 & H1 & P1) (w2 & H2 & P2). exists (w1 ++ w2)%string. split.
  - rewrite H1, H2, append_assoc. reflexivity.
  - rewrite P2, P1, append_length. lia.
Qed.

(** A matcher transformer that, when it succeeds, has called its
    continuation further on in the subject. *)
Definition advancing (f : cont -> cont) : Prop :=
  forall k st res, f k st = Some res ->
    exists st', extends st st' /\ k st' = Some res.

Lemma orelse_Some a b res :
  orelse a b = Some res -> a = Some res \/ b = Some res.
Proof. destruct a; simpl; auto. Qed.

Lemma step1_advancing ok : advancing (step1 ok).
Proof.
  intros k st res. unfold step1.
  destruct (m_rest st) as [| c rest'] eqn:E; [discriminate |].
  destruct (ok c); [| discriminate]. intro H.
  eexists. split; [| exact H].
  exists (String c EmptyString). simpl. split; [exact E | lia].
Qed.

Lemma step_text_advancing ic t : advancing (step_text ic t).
Proof.
  induction t as [| c t IH]; intros k st res; simpl.
  - intro H. exists st. split; [apply extends_refl | exact H].
  - intro H. apply step1_advancing in H. destruct H as (s1 & E1 & H).
    apply IH in H. destruct H as (s2 & E2 & H).
    exists s2. split; [eapply extends_trans; eassumption | exact H].
Qed.

Lemma clear_caps_extends gs st st' :
  extends (clear_caps gs st) st' -> extends st st'.
Proof. destruct gs; simpl; auto. Qed.

Section Repetition.
Variable step : cont -> cont.
Hypothesis step_advancing : advancing step.

Lemma rep_min_advancing mn : advancing (rep_min step mn).
Proof.
  induction mn as [| n IH]; intros k st res; simpl.
  - intro H. exists st. split; [apply extends_refl | exact H].
  - intro H. apply step_advancing in H. destruct H as (s1 & E1 & H).
    apply IH in H. destruct H as (s2 & E2 & H).
    exists s2. split; [eapply extends_trans; eassumption | exact H].
Qed.

Lemma rep_opt_advancing greedy fuel :
  forall mx, advancing (fun k => rep_opt step greedy fuel mx k).
Proof.
  induction fuel as [| f IH]; intros mx k st res; simpl.
  - intro H. exists st. split; [apply extends_refl | exact H].
  - destruct (max_reached mx).
    + intro H. exists st. split; [apply extends_refl | exact H].
    + intro H.
      assert (Hcases :
        step (fun st' => if Nat.eqb (m_pos st') (m_pos st) then None
                         else rep_opt step greedy f (dec_max mx) k st') st = Some res
        \/ k st = Some res).
      { destruct greedy; apply orelse_Some in H; tauto. }
      destruct Hcases as [Hagain | Hk].
      * apply step_advancing in Hagain. destruct Hagain as (s1 & E1 & H1).
        destruct (Nat.eqb (m_pos s1) (m_pos st)); [discriminate |].
        apply IH in H1. destruct H1 as (s2 & E2 & H2).
        exists s2. split; [eapply extends_trans; eassumption | exact H2].
      * exists st. split; [apply extends_refl | exact Hk].
Qed.
End Repetition.

(** Every regex moves forward: when [m ic r k st] succeeds, [k] was called
    on a state that extends [st]. *)
Lemma m_advancing ic r : advancing (m ic r).
Proof.
  induction r as [| c | | neg items | r1 IH1 r2 IH2 | r1 IH1 r2 IH2
                  | mn mx greedy r1 IH1 | n r1 IH1 | neg r1 IH1 | n | | | neg];
    intros k st res; cbn [m].
  - intro H. exists st. split; [apply extends_refl | exact H].
  - apply step1_advancing.
  - apply step1_advancing.
  - apply step1_advancing.
  - intro H. apply IH1 in H. destruct H as (s1 & E1 & H).
    apply IH2 in H. destruct H as (s2 & E2 & H).
    exists s2. split; [eapply extends_trans; eassumption | exact H].
  - intro H. apply orelse_Some in H. destruct H as [H | H]; [apply IH1 in H | apply IH2 in H]; exact H.
  - intro H.
    assert (Hstep : advancing (fun (k' : cont) (s : mstate) =>
                                 m ic r1 k' (clear_caps (groups_of r1) s))).
    { intros k' s res' H'. apply IH1 in H'. destruct H' as (s' & E & H').
      exists s'. split; [apply clear_caps_extends with (gs := groups_of r1); exact E | exact H']. }
    apply (rep_min_advancing _ Hstep) in H. destruct H as (s1 & E1 & H).
    apply (rep_opt_advancing _ Hstep) in H. destruct H as (s2 & E2 & H).
    exists s2. split; [eapply extends_trans; eassumption | exact H].
  - intro H. apply IH1 in H. destruct H as (s1 & E1 & H).
    eexists. split; [| exact H].
    destruct E1 as (w & Hw & Pw). exists w. simpl. auto.
  - destruct (m ic r1 (fun s => Some s) st) as [st' |]; destruct neg; try discriminate.
    + intro H. eexists. split; [| exact H]. exists EmptyString. simpl. split; [reflexivity | lia].
    + intro H. exists st. split; [apply extends_refl | exact H].
  - destruct (get_cap n (m_caps st)).
    + apply step_text_advancing.
    + intro H. exists st. split; [apply extends_refl | exact H].
  - destruct (Nat.eqb (m_pos st) 0); [| discriminate].
    intro H. exists st. split; [apply extends_refl | exact H].
  - destruct (m_rest st); [| discriminate].
    intro H. exists st. split; [apply extends_refl | exact H].
  - destruct (xorb neg (at_word_boundary st)); [| discriminate].
    intro H. exists st. split; [apply extends_refl | exact H].
Qed.

Lemma take_app (w r : string) : Str.take (String.length w) (w ++ r) = w.
Proof. induction w as [| c w IH]; simpl; [destruct r; reflexivity | now rewrite IH]. Qed.

Lemma take_length_le (n : nat) (s : string) : String.length (Str.take n s) <= n.
Proof.
  revert s. induction n as [| n IH]; intros [| c s]; simpl; try lia.
  specialize (IH s). lia.
Qed.

(** What a successful attempt at one position returns. *)
Lemma attempt_shape ic r pos prev rest st' :
  m ic r (fun s => Some s) (MState pos prev rest []) = Some st' ->
  exists w, rest = (w ++ m_rest st')%string
            /\ m_pos st' = pos + String.length w
            /\ Str.take (m_pos st' - pos) rest = w.
Proof.
  intro H. apply m_advancing in H. destruct H as (s1 & (w & Hw & Pw) & Hk).
  inversion Hk; subst s1. simpl in Hw, Pw. exists w. repeat split; try assumption.
  rewrite Pw, Hw. replace (pos + String.length w - pos) with (String.length w) by lia.
  apply take_app.
Qed.

(** A match splits the subject into what is before it, its text and what
    is after it. *)
Lemma search_shape ic r : forall rest pos prev mr,
  search ic r pos prev rest = Some mr ->
  exists pre, rest = (pre ++ mr_text mr ++ mr_after mr)%string
              /\ mr_index mr = pos + String.length pre.
Proof.
  induction rest as [| c rest IH]; intros pos prev mr; cbn [search].
  - destruct (m ic r (fun s => Some s) (MState pos prev EmptyString [])) as [st' |] eqn:E;
      [| discriminate].
    intro H. inversion H; subst mr; clear H. cbn [mr_text mr_after mr_index].
    apply attempt_shape in E. destruct E as (w & Hw & _ & Ht).
    exists EmptyString. rewrite Ht. simpl. split; [exact Hw | lia].
  - destruct (m ic r (fun s => Some s) (MState pos prev (String c rest) [])) as [st' |] eqn:E.
    + intro H. inversion H; subst mr; clear H. cbn [mr_text mr_after mr_index].
      apply attempt_shape in E. destruct E as (w & Hw & _ & Ht).
      exists EmptyString. rewrite Ht. simpl. split; [exact Hw | lia].
    + intro H. apply IH in H. destruct H as (pre & Hpre & Hi).
      exists (String c pre). simpl. split; [now rewrite Hpre | lia].
Qed.

Lemma exec_shape r s mr :
  rexec r s = Some mr ->
  s = (Str.take (mr_index mr) s ++ mr_text mr ++ mr_after mr)%string
  /\ String.length s
     = mr_index mr + String.length (mr_text mr) + String.length (mr_after mr).
Proof.
  unfold rexec, exec. intro H. apply search_shape in H.
  destruct H as (pre & Hs & Hi). simpl in Hi. rewrite Hi.
  assert (Ht : Str.take (String.length pre) s = pre) by (rewrite Hs; apply take_app).
  rewrite Ht. split; [exact Hs |].
  rewrite Hs at 1. rewrite !append_length. lia.
Qed.

(** Removing a match never makes the subject longer. *)
Lemma replace_empty_length r s :
  String.length (replace r "" s) <= String.length s.
Proof.
  unfold replace. destruct (rexec r s) as [mr |] eqn:E; [| lia].
  apply exec_shape in E. destruct E as (_ & Hl).
  rewrite !append_length. unfold substitution. simpl.
  pose proof (take_length_le (mr_index mr) s). lia.
Qed.

Lemma replace_empty_removes r s mr :
  rexec r s = Some mr ->
  String.length (replace r "" s) + String.length (mr_text mr) = String.length s
  /\ replace r "" s = (Str.take (mr_index mr) s ++ mr_after mr)%string.
Proof.
  intro E. unfold replace. rewrite E. unfold substitution. simpl.
  apply exec_shape in E. destruct E as (Hs & Hl).
  split; [| reflexivity].
  rewrite append_length.
  assert (String.length (Str.take (mr_index mr) s) = mr_index mr).
  { rewrite Hs in Hl at 1. rewrite !append_length in Hl. lia. }
  lia.
Qed.

Lemma get_set_cap n v caps : get_cap n (set_cap n v caps) = Some v.
Proof. unfold set_cap. simpl. now rewrite Nat.eqb_refl. Qed.

(** The regex that splits the version off an OS string. *)
Definition os_version_ast : regex :=
  RSeq (RChar " ")
    (RSeq (RGroup 1 (RRep 1 None true
                       (RClass false [CDigit false; CChar "."; CChar "+"])))
          REol).

Lemma os_version_re : re " ([\d.+]+)$" = MkRegExp os_version_ast false 1.
Proof. vm_compute. reflexivity. Qed.

Lemma os_version_attempt pos prev rest st' :
  m false os_version_ast (fun s => Some s) (MState pos prev rest []) = Some st' ->
  exists v, get_cap 1 (m_caps st') = Some v /\ Str.nonempty v = true.
Proof.
  unfold os_version_ast. cbn [m]. unfold step1 at 1. cbn [m_rest].
  destruct rest as [| c rest1]; [discriminate |].
  destruct (Ascii.eqb (canon false c) (canon false " ")); [| discriminate].
  cbn [m_pos m_caps rep_min groups_of clear_caps]. unfold step1 at 1. cbn [m_rest].
  destruct rest1 as [| c1 rest2]; [discriminate |].
  destruct (xorb false (class_has false [CDigit false; CChar "."; CChar "+"] c1));
    [| discriminate].
  cbn [m_pos m_caps m_rest sub_max].
  intro H.
  apply (rep_opt_advancing _ (step1_advancing _)) in H.
  destruct H as (s2 & (w & _ & Pw) & Hk).
  destruct (m_rest s2); [| discriminate].
  inversion Hk; subst st'; clear Hk. cbn [m_caps].
  rewrite get_set_cap. eexists. split; [reflexivity |].
  cbn [m_pos] in Pw. rewrite Pw.
  replace (S (S pos) + String.length w - S pos) with (S (String.length w)) by lia.
  reflexivity.
Qed.

Lemma os_version_search : forall rest pos prev mr,
  search false os_version_ast pos prev rest = Some mr ->
  exists v, get_cap 1 (mr_caps mr) = Some v /\ Str.nonempty v = true.
Proof.
  induction rest as [| c rest IH]; intros pos prev mr; cbn [search].
  - destruct (m false os_version_ast (fun s => Some s) (MState pos prev EmptyString []))
      as [st' |] eqn:E; [| discriminate].
    intro H. inversion H; subst mr. cbn [mr_caps]. eapply os_version_attempt; eassumption.
  - destruct (m false os_version_ast (fun s => Some s) (MState pos prev (String c rest) []))
      as [st' |] eqn:E.
    + intro H. inversion H; subst mr. cbn [mr_caps]. eapply os_version_attempt; eassumption.
    + apply IH.
Qed.

(** The version of an OS string, when there is one, is not empty. *)
Lemma os_version_capture o data :
  Re.rexec (re " ([\d.+]+)$") o = Some data ->
  exists v, Re.cap 1 data = Some v /\ Str.nonempty v = true.
Proof.
  rewrite os_version_re. unfold rexec, exec, cap. cbn [re_ic re_ast].
  apply os_version_search.
Qed.

(** A run of literal code units followed by [tail], as [compile] builds
    it. *)
Fixpoint chain (w : string) (tail : regex) : regex :=
  match w with
  | EmptyString => tail
  | String c w' => RSeq (RChar c) (chain w' tail)
  end.

Lemma m_chain_complete tail k : forall w st rest',
  m_rest st = (w ++ rest')%string ->
  m false (chain w tail) k st
  = m false tail k
      (MState (m_pos st + String.length w) (last_of (m_prev st) w) rest' (m_caps st)).
Proof.
  induction w as [| c w IH]; intros [pos prev rest caps] rest' H; cbn [m_rest] in H;
    cbn [chain m_pos m_prev m_caps last_of String.length].
  - simpl in H. subst rest. rewrite Nat.add_0_r. reflexivity.
  - simpl in H. subst rest. cbn [m]. unfold step1. cbn [m_rest canon].
    rewrite Ascii.eqb_refl. cbn [m_pos m_caps].
    rewrite (IH (MState (S pos) (Some c) (w ++ rest') caps) rest' eq_refl).
    cbn [m_pos m_prev m_caps]. replace (S pos + String.length w) with (pos + S (String.length w)) by lia.
    reflexivity.
Qed.

Lemma m_chain_sound tail k : forall w st res,
  m false (chain w tail) k st = Some res ->
  exists rest',
    m_rest st = (w ++ rest')%string
    /\ m false tail k
         (MState (m_pos st + String.length w) (last_of (m_prev st) w) rest' (m_caps st))
       = Some res.
Proof.
  induction w as [| c w IH]; intros [pos prev rest caps] res;
    cbn [chain m_pos m_prev m_caps m_rest last_of String.length].
  - intro H. exists rest. rewrite Nat.add_0_r. split; [reflexivity | exact H].
  - cbn [m]. unfold step1. cbn [m_rest canon m_pos m_caps].
    destruct rest as [| x rest]; [discriminate |].
    destruct (Ascii.eqb x c) eqn:Ex; [| discriminate].
    apply Ascii.eqb_eq in Ex. subst x. intro H.
    apply IH in H. destruct H as (rest' & Hr & H). cbn [m_rest m_pos m_prev m_caps] in Hr, H.
    exists rest'. split; [simpl; now rewrite Hr |].
    replace (pos + S (String.length w)) with (S pos + String.length w) by lia. exact H.
Qed.

Section Literal.
Variable w0 : string.
Variable c : ascii.

(** The whole literal. *)
Definition literal_text : string := (w0 ++ String c EmptyString)%string.

Lemma literal_attempt pos prev rest st' :
  m false (chain w0 (RChar c)) (fun s => Some s) (MState pos prev rest []) = Some st' ->
  Str.take (m_pos st' - pos) rest = literal_text.
Proof.
  intro H. apply m_chain_sound in H. destruct H as (rest' & Hr & H).
  cbn [m_rest m_pos m_prev m_caps] in Hr, H. cbn [m] in H. unfold step1 in H.
  cbn [m_rest canon m_pos m_caps] in H.
  destruct rest' as [| x rest'']; [discriminate |].
  destruct (Ascii.eqb x c) eqn:Ex; [| discriminate].
  apply Ascii.eqb_eq in Ex. subst x. inversion H; subst st'; clear H. cbn [m_pos].
  subst rest. unfold literal_text.
  replace (S (pos + String.length w0) - pos)
    with (String.length (w0 ++ String c EmptyString))
    by (rewrite append_length; cbn [String.length]; lia).
  rewrite <- (take_app (w0 ++ String c EmptyString) rest'') at 2.
  rewrite append_assoc. reflexivity.
Qed.

Lemma literal_search_text : forall rest pos prev mr,
  search false (chain w0 (RChar c)) pos prev rest = Some mr ->
  mr_text mr = literal_text.
Proof.
  induction rest as [| x rest IH]; intros pos prev mr; cbn [search].
  - destruct (m false _ _ (MState pos prev EmptyString [])) as [st' |] eqn:E; [| discriminate].
    intro H. inversion H; subst mr. cbn [mr_text]. eapply literal_attempt; eassumption.
  - destruct (m false _ _ (MState pos prev (String x rest) [])) as [st' |] eqn:E.
    + intro H. inversion H; subst mr. cbn [mr_text]. eapply literal_attempt; eassumption.
    + apply IH.
Qed.

Lemma literal_search_complete suf : forall pre pos prev,
  search false (chain w0 (RChar c)) pos prev (pre ++ literal_text ++ suf) <> None.
Proof.
  assert (Hhit : forall pos prev,
    m false (chain w0 (RChar c)) (fun s => Some s)
      (MState pos prev (literal_text ++ suf) []) <> None).
  { intros pos prev.
    rewrite (m_chain_complete _ _ w0 _ (String c suf)).
    - cbn [m]. unfold step1. cbn [m_rest canon]. rewrite Ascii.eqb_refl. discriminate.
    - cbn [m_rest]. unfold literal_text. rewrite append_assoc. reflexivity. }
  induction pre as [| x pre IH]; intros pos prev.
  - cbn [append]. specialize (Hhit pos prev).
    destruct (literal_text ++ suf)%string eqn:E; cbn [search];
      destruct (m false _ _ _); try discriminate; contradiction.
  - cbn [append search].
    destruct (m false _ _ _); [discriminate | apply IH].
Qed.

(** Where a regex that starts with the literal matches, the subject
    holds the literal. *)
Lemma starts_with_literal_found ic (r : regex) tail :
  (forall k st res, m ic r k st = Some res -> m false (chain literal_text tail) k st = Some res) ->
  forall rest pos prev mr,
    search ic r pos prev rest = Some mr ->
    exists pre suf, rest = (pre ++ literal_text ++ suf)%string.
Proof.
  intro Hr. induction rest as [| x rest IH]; intros pos prev mr; cbn [search].
  - destruct (m ic r _ _) as [st' |] eqn:E; [| discriminate]. intros _.
    apply Hr in E. apply m_chain_sound in E. destruct E as (rest' & Hrest & _).
    cbn [m_rest] in Hrest. exists EmptyString, rest'. exact Hrest.
  - destruct (m ic r _ _) as [st' |] eqn:E.
    + intros _. apply Hr in E. apply m_chain_sound in E. destruct E as (rest' & Hrest & _).
      cbn [m_rest] in Hrest. exists EmptyString, rest'. exact Hrest.
    + intro H. apply IH in H. destruct H as (pre & suf & ->).
      exists (String x pre), suf. reflexivity.
Qed.
End Literal.

End ReFacts.

(** *** The OS object *)

(** A version as the OS object holds it: null, or a non-empty string. *)
Definition version_shape (v : jv) : Prop :=
  v = JNull \/ exists t, v = JStr t /\ Str.nonempty t = true.

Lemma os_object_shape l x :
  os_object l = Some x ->
  exists fam v special, x = OSInfo 32 fam v special /\ version_shape v.
Proof.
  unfold os_object. destruct (truthy (os l)); [| discriminate].
  destruct (Re.rexec (re " ([\d.+]+)$") (to_s (os l))) as [data |] eqn:E.
  - intro H. inversion H; subst x; clear H.
    do 3 eexists. split; [reflexivity |]. right.
    apply ReFacts.os_version_capture in E. destruct E as (v & Hv & Hn).
    exists v. unfold capture. rewrite Hv. auto.
  - intro H. inversion H; subst x. do 3 eexists. split; [reflexivity | left; reflexivity].
Qed.

(** 64-bit evidence in the architecture source: a 64-bit token and no
    [i686]. *)
Definition evidence64 (a : jv) : bool :=
  test (rei "\b(?:AMD|IA|Win|WOW|x86_|x)64\b") a && negb (test (rei "\bi686\b") a).

(** Chrome 39 and above on an OS whose family starts with [OS X]. *)
Definition chrome39_on_osx (l : Locals) (fam : string) : bool :=
  Re.rtest (re "^OS X") fam && eqs (name l) "Chrome"
  && Num.ge (Num.parseFloat (to_s (version l))) (Num.int 39).

Lemma add_architecture_none ua nav uf l l' o' :
  add_architecture ua nav uf l None = Ok (l', o') -> o' = None /\ name l' = name l.
Proof.
  unfold add_architecture.
  destruct (exec _ (arch l)) as [d |]; [destruct (negb _) |]; simpl; intro H;
    inversion H; subst; split; try reflexivity.
  destruct (truthy (name l) && _); reflexivity.
Qed.

Lemma test_exec r a :
  test r a = match exec r a with Some _ => true | None => false end.
Proof. reflexivity. Qed.

Lemma add_architecture_info ua nav uf l a fam v special l' o' :
  add_architecture ua nav uf l (Some (OSInfo a fam v special)) = Ok (l', o') ->
  exists fam',
    o' = Some (OSInfo (if evidence64 (arch l) || chrome39_on_osx l fam then 64 else a)
                      fam' v special)
    /\ name l' = name l.
Proof.
  unfold add_architecture, evidence64.
  rewrite (test_exec (rei "\b(?:AMD|IA|Win|WOW|x86_|x)64\b")).
  fold (chrome39_on_osx l fam).
  destruct (exec _ (arch l)) as [d |];
    [destruct (test (rei "\bi686\b") (arch l)) |]; cbn [negb andb orb].
  - destruct (chrome39_on_osx l fam); intro H; inversion H; subst;
      eexists; split; reflexivity.
  - intro H. apply bind_Ok in H. destruct H as (o1 & Ho & H).
    apply bind_Ok in Ho. destruct Ho as (r & _ & Ho).
    inversion Ho; subst o1; clear Ho. inversion H; subst; clear H.
    eexists. split; [reflexivity |].
    destruct (truthy (name l) && _)%bool; reflexivity.
  - destruct (chrome39_on_osx l fam); intro H; inversion H; subst;
      eexists; split; reflexivity.
Qed.

(** The rule only ever adds the note ["32-bit"], and only under a name. *)
Lemma add_architecture_locals ua nav uf l o l' o' :
  add_architecture ua nav uf l o = Ok (l', o') ->
  l' = l \/ (l' = unshift "32-bit" l /\ truthy (name l) = true).
Proof.
  unfold add_architecture.
  destruct (match exec _ (arch l) with Some _ => _ | None => _ end) as [d |].
  - intro H. apply bind_Ok in H. destruct H as (o1 & _ & H).
    destruct (truthy (name l)) eqn:Hn; cbn [andb] in H.
    + destruct (_ || _)%bool in H; inversion H; subst; auto.
    + inversion H; subst; auto.
  - intro H. inversion H; subst; auto.
Qed.

(** *** The steps that only write [description] *)

Definition same_fields (l l' : Locals) : Prop :=
  name l' = name l /\ version l' = version l /\ os l' = os l
  /\ layout l' = layout l /\ product l' = product l
  /\ manufacturer l' = manufacturer l /\ prerelease l' = prerelease l
  /\ arch l' = arch l.

Lemma same_fields_set_description d l : same_fields l (set_description d l).
Proof. repeat split. Qed.

Lemma same_fields_refl l : same_fields l l.
Proof. repeat split. Qed.

Lemma same_fields_trans a b c : same_fields a b -> same_fields b c -> same_fields a c.
Proof. unfold same_fields. intuition congruence. Qed.

Lemma add_layout_fields l : same_fields l (add_layout l).
Proof.
  unfold add_layout. destruct (layout l) as [[l0 l1] |]; [| apply same_fields_refl].
  destruct (_ && _)%bool; [| apply same_fields_refl].
  destruct (Str.nonempty _); [apply same_fields_set_description | apply same_fields_refl].
Qed.

Lemma combine_notes_fields l : same_fields l (combine_notes l).
Proof.
  unfold combine_notes. destruct (description l);
    [apply same_fields_refl | apply same_fields_set_description].
Qed.

Lemma append_manufacturer_fields l : same_fields l (append_manufacturer l).
Proof.
  unfold append_manufacturer. destruct (_ && _)%bool;
    [apply same_fields_set_description | apply same_fields_refl].
Qed.

Lemma append_product_fields l : same_fields l (append_product l).
Proof.
  unfold append_product. destruct (truthy (product l));
    [apply same_fields_set_description | apply same_fields_refl].
Qed.

Lemma annotate_fields l : same_fields l (annotate l).
Proof.
  unfold annotate.
  eapply same_fields_trans; [apply add_layout_fields |].
  eapply same_fields_trans; [apply combine_notes_fields |].
  eapply same_fields_trans; [apply append_manufacturer_fields |].
  apply append_product_fields.
Qed.

Lemma os_object_same l l' : os l' = os l -> os_object l' = os_object l.
Proof. unfold os_object. intros ->. reflexivity. Qed.

(** [version] is not null, as the claims say it. *)
Definition non_null (v : jv) : bool :=
  match v with JNull => false | _ => true end.

(** How [parse] ends, for the properties of the OS object. *)
Lemma parse_os root arg p :
  parse root arg = Ok p ->
  exists l, parse_locals root arg = Ok l
    /\ match os_object l with
       | None => p_os p = OSStub
       | Some (OSInfo _ fam0 v special) =>
           version_shape v
           /\ exists fam,
                p_os p = OSInfo (if evidence64 (arch l) || chrome39_on_osx l fam0
                                 then 64 else 32) fam v special
       | Some OSStub => False
       end.
Proof.
  intro H. rewrite parse_unfold in H. apply bind_Ok in H. destruct H as (l & Hl & H).
  exists l. split; [exact Hl |].
  apply finish_Ok in H. destruct H as (l' & o' & Ha & ->).
  rewrite make_platform_os.
  destruct (annotate_fields l) as (Hname & Hversion & Hos & _ & _ & _ & _ & Harch).
  rewrite (os_object_same l (annotate l) Hos) in Ha.
  destruct (os_object l) as [x |] eqn:Ho.
  - destruct (os_object_shape l x Ho) as (fam0 & v & special & -> & Hv).
    apply add_architecture_info in Ha. destruct Ha as (fam & -> & _).
    split; [exact Hv |]. exists fam.
    unfold chrome39_on_osx. rewrite Harch, Hname, Hversion. reflexivity.
  - apply add_architecture_none in Ha. destruct Ha as (-> & _). reflexivity.
Qed.

(** C10: for every record whose OS was resolved, [os.toString()] is the
    family, then a space and the version exactly when the version is not
    null and the OS is not of the special-cased "/ version" form, then
    [" 64-bit"] exactly when the architecture is 64. *)
Theorem C10_os_toString :
  forall (root : Host) (arg : input) (p : Platform)
         (architecture : nat) (family : string) (version : jv) (special : bool),
    parse root arg = Ok p ->
    p_os p = OSInfo architecture family version special ->
    os_toString (p_os p)
    = family
      ++ (if non_null version && negb special then " " ++ to_s version else "")
      ++ (if Nat.eqb architecture 64 then " 64-bit" else "").
Proof.
  intros root arg p a fam v sp H Hos.
  apply parse_os in H. destruct H as (l & _ & H).
  destruct (os_object l) as [[| a0 fam0 v0 sp0] |]; try contradiction.
  - destruct H as (Hv & fam' & H'). rewrite Hos in H'. inversion H'; subst.
    rewrite Hos. cbn [os_toString].
    destruct Hv as [-> | (t & -> & Ht)]; cbn [truthy non_null]; [reflexivity |].
    rewrite Ht. reflexivity.
  - rewrite Hos in H. discriminate.
Qed.

(** The family of the OS object, before an architecture token is taken
    out of it. *)
Definition family_of (l : Locals) : string :=
  match os_object l with
  | Some (OSInfo _ fam _ _) => fam
  | _ => ""
  end.

Lemma os_object_truthy l :
  truthy (os l) = match os_object l with Some _ => true | None => false end.
Proof.
  unfold os_object. destruct (truthy (os l)); [| reflexivity].
  destruct (Re.rexec _ _); reflexivity.
Qed.

(** C4, as the code has it: when an OS was resolved, its architecture is
    64 if the architecture source holds a 64-bit token and no [i686], or if
    the browser is Chrome 39 or above on an OS X family, and 32 otherwise;
    when no OS was resolved, the architecture of the stub is null. *)
Theorem C4_architecture :
  forall (root : Host) (arg : input) (p : Platform),
    parse root arg = Ok p ->
    exists l,
      parse_locals root arg = Ok l
      /\ os_architecture (p_os p)
         = if truthy (os l)
           then Some (if evidence64 (arch l) || chrome39_on_osx l (family_of l)
                      then 64 else 32)
           else None.
Proof.
  intros root arg p H. apply parse_os in H. destruct H as (l & Hl & H).
  exists l. split; [exact Hl |].
  rewrite os_object_truthy. unfold family_of.
  destruct (os_object l) as [[| a0 fam0 v0 sp0] |]; try contradiction.
  - destruct H as (_ & fam & ->). reflexivity.
  - rewrite H. reflexivity.
Qed.

Lemma C4_architecture_witness :
  exists l,
    parse_locals bare (IStr "Linux x86_64") = Ok l
    /\ Some 64
       = if truthy (os l)
         then Some (if evidence64 (arch l) || chrome39_on_osx l (family_of l)
                    then 64 else 32)
         else None.
Proof.
  apply (C4_architecture bare (IStr "Linux x86_64")
           {| p_description := JStr "Linux x86_64"; p_layout := JNull;
              p_manufacturer := JNull; p_name := JNull; p_prerelease := JNull;
              p_product := JNull; p_ua := JStr "Linux x86_64"; p_version := JNull;
              p_os := OSInfo 64 "Linux" JNull false |}).
  vm_compute. reflexivity.
Defined.

(** C4 as stated fails: on an input without an OS the architecture is
    null, neither 32 nor 64. *)
Lemma C4_counterexample :
  exists p,
    parse bare (IStr "xyz") = Ok p
    /\ os_architecture (p_os p) = None
    /\ os_architecture (p_os p) <> Some 32
    /\ os_architecture (p_os p) <> Some 64.
Proof.
  eexists. split; [vm_compute; reflexivity |].
  repeat split; discriminate.
Qed.

(** The version reads as a number of the host: a token that rounds to 39
    counts as Chrome 39. *)
Lemma architecture_of_a_rounded_version :
  exists p,
    parse bare (IStr "Chrome/38.99999999999999999999 Mac OS X 10_9") = Ok p
    /\ os_architecture (p_os p) = Some 64.
Proof. eexists. split; [vm_compute; reflexivity | reflexivity]. Qed.

Lemma C3_version_null_without_name_witness :
  exists p, parse bare (IStr "Gecko/1.0") = Ok p /\ p_name p = JNull /\ p_version p = JNull.
Proof.
  eexists. split; [vm_compute; reflexivity |]. split; [reflexivity |].
  eapply (C3_version_null_without_name bare (IStr "Gecko/1.0"));
    [vm_compute; reflexivity | reflexivity].
Defined.

Lemma C10_os_toString_witness :
  exists p,
    parse bare (IStr "Linux x86_64") = Ok p
    /\ os_toString (p_os p) = "Linux 64-bit".
Proof.
  eexists. split; [vm_compute; reflexivity |].
  rewrite (C10_os_toString bare (IStr "Linux x86_64") _ 64 "Linux" JNull false);
    [reflexivity | vm_compute; reflexivity | reflexivity].
Defined.

(** *** When nothing resolves *)

Lemma annotate_nothing l :
  description l = [] -> layout l = None ->
  truthy (manufacturer l) = false -> truthy (product l) = false ->
  annotate l = l.
Proof.
  intros Hd Hl Hm Hp. unfold annotate.
  assert (H1 : add_layout l = l) by (unfold add_layout; now rewrite Hl).
  rewrite H1.
  assert (H2 : combine_notes l = l) by (unfold combine_notes; now rewrite Hd).
  rewrite H2.
  assert (H3 : append_manufacturer l = l) by (unfold append_manufacturer; now rewrite Hm).
  rewrite H3.
  unfold append_product. now rewrite Hp.
Qed.

Lemma make_platform_layout ua l o :
  p_layout (make_platform ua l o)
  = match layout l with Some (l0, _) => JStr l0 | None => JNull end.
Proof. reflexivity. Qed.

Lemma make_platform_product ua l o : p_product (make_platform ua l o) = product l.
Proof. reflexivity. Qed.

Lemma make_platform_manufacturer ua l o :
  p_manufacturer (make_platform ua l o) = manufacturer l.
Proof. reflexivity. Qed.

Lemma ua_of_string root s : s <> "" -> ua_of root (IStr s) = s.
Proof. destruct s; [congruence | reflexivity]. Qed.

(** C9: for every non-empty input string on which nothing resolves (name,
    version, layout, product, manufacturer and OS all null, and no note
    collected), the description is the input string itself. *)
Theorem C9_description_is_raw_input :
  forall (root : Host) (s : string) (p : Platform) (l : Locals),
    s <> "" ->
    parse root (IStr s) = Ok p ->
    parse_locals root (IStr s) = Ok l ->
    description l = [] ->
    p_name p = JNull ->
    p_version p = JNull ->
    p_layout p = JNull ->
    p_product p = JNull ->
    p_manufacturer p = JNull ->
    p_os p = OSStub ->
    p_description p = JStr s.
Proof.
  intros root s p l Hs H Hl Hd Hname _ Hlayout Hproduct Hman Hos.
  rewrite parse_unfold, Hl in H. cbn [bind] in H.
  apply finish_Ok in H. destruct H as (l' & o' & Ha & ->).
  rewrite make_platform_name in Hname. rewrite make_platform_layout in Hlayout.
  rewrite make_platform_product in Hproduct.
  rewrite make_platform_manufacturer in Hman. rewrite make_platform_os in Hos.
  destruct (annotate_fields l) as (An & _ & Ao & Al & Ap & Am & _).
  assert (Hl' : name l' = name (annotate l) /\ layout l' = layout (annotate l)
                /\ product l' = product (annotate l)
                /\ manufacturer l' = manufacturer (annotate l)
                /\ (l' = annotate l \/ truthy (name l') = true)).
  { apply add_architecture_locals in Ha.
    destruct Ha as [-> | (-> & Ht)]; repeat split; auto. }
  destruct Hl' as (Bn & Bl & Bp & Bm & Hcase).
  assert (Hnone : layout l = None).
  { rewrite <- Al, <- Bl. destruct (layout l') as [[l0 l1] |]; [discriminate | reflexivity]. }
  assert (Hann : annotate l = l).
  { apply annotate_nothing; auto.
    - rewrite <- Am, <- Bm, Hman. reflexivity.
    - rewrite <- Ap, <- Bp, Hproduct. reflexivity. }
  destruct Hcase as [-> | Ht]; [| rewrite Hname in Ht; discriminate].
  rewrite Hann in *.
  assert (Ho : o' = None).
  { destruct (os_object l) as [x |] eqn:Ex.
    - destruct (os_object_shape l x Ex) as (f & v & sp & -> & _).
      apply add_architecture_info in Ha. destruct Ha as (f' & -> & _). discriminate.
    - apply add_architecture_none in Ha. tauto. }
  subst o'. unfold make_platform, describe. cbn [p_description].
  rewrite Hname. cbn [jand truthy]. rewrite Hname. cbn [truthy]. rewrite Hd.
  cbn [e_ua setup].
  rewrite (ua_of_string root s Hs). destruct s; [congruence | reflexivity].
Qed.

Lemma C9_description_is_raw_input_witness :
  exists p,
    parse bare (IStr "xyz") = Ok p /\ p_description p = JStr "xyz".
Proof.
  eexists. split; [vm_compute; reflexivity |].
  eapply (C9_description_is_raw_input bare "xyz");
    try (vm_compute; reflexivity); discriminate.
Defined.

(** *** The pickers: first match by list position wins *)

(** The spec's matcher: the label of the earliest entry that matches, or
    null. *)
Fixpoint earliest_label (hit : guess -> bool) (guesses : list guess) : jv :=
  match guesses with
  | [] => JNull
  | g :: rest => if hit g then JStr (label_of g) else earliest_label hit rest
  end.

(** An entry matches the subject as a word, whatever the case. *)
Definition matches_word (ua : string) (g : guess) : bool :=
  match Re.RegExp ("\b" ++ pattern_of g ++ "\b") true with
  | Some r => Re.rtest r ua
  | None => false
  end.

(** What the earliest entry that yields a value yields: entries are
    consulted in order, and none after the first value.  [last] is what the
    entry before gave. *)
Fixpoint first_yield {V : Type} (yield : V -> outcome jv) (last : jv)
    (entries : list V) : outcome jv :=
  match entries with
  | [] => Ok last
  | g :: rest =>
      v <- yield g ;;
      if truthy v then Ok v else first_yield yield v rest
  end.

(** The key of the earliest manufacturer that is hit, or null. *)
Fixpoint earliest_key (hit : string -> list string -> bool)
    (entries : list (string * list string)) : jv :=
  match entries with
  | [] => JNull
  | (k, v) :: rest => if hit k v then JStr k else earliest_key hit rest
  end.

(** A manufacturer is hit when it lists the product, or the first words of
    the product, or when its name occurs in the subject. *)
Definition makes (ua : string) (product : jv) (k : string) (products : list string) : bool :=
  has_key products (to_s product)
  || has_key products
       (to_s (match exec (rei "^[a-z]+(?: +[a-z]+\b)*") product with
              | Some mr => JStr (Re.mr_text mr)
              | None => JNull
              end))
  || match Re.RegExp ("\b" ++ qualify (JStr k) ++ "(?:\b|\w*\d)") true with
     | Some r => Re.rtest r ua
     | None => false
     end.

Lemma each_index_first {V : Type} (yield : V -> outcome jv) :
  forall (l : list V) (i : nat) (acc : jv),
    each_index (fun result g (_ : key) => if truthy result then Ok result else yield g)
      l i acc
    = if truthy acc then Ok acc else first_yield yield acc l.
Proof.
  induction l as [| g rest IH]; intros i acc; cbn [each_index first_yield].
  - destruct (truthy acc); reflexivity.
  - destruct (truthy acc) eqn:Ha; cbn [bind].
    + rewrite IH, Ha. reflexivity.
    + destruct (yield g) as [v | e |]; cbn [bind]; try reflexivity.
      apply IH.
Qed.

Lemma reduce_first {V : Type} (yield : V -> outcome jv) (l : list V) :
  reduce (Arr l) (fun result g _ => if truthy result then Ok result else yield g)
  = first_yield yield JNull l.
Proof. unfold reduce, each. rewrite each_index_first. reflexivity. Qed.

(** An entry whose word pattern compiles and whose label is not empty. *)
Definition word_entry (g : guess) : bool :=
  Str.nonempty (label_of g)
  && match Re.RegExp ("\b" ++ pattern_of g ++ "\b") true with
     | Some _ => true
     | None => false
     end.

Lemma first_yield_label ua (l : list guess) :
  forallb word_entry l = true ->
  first_yield
    (fun guess =>
       r <- RegExp ("\b" ++ pattern_of guess ++ "\b") true ;;
       Ok (match Re.rexec r ua with
           | Some _ => JStr (label_of guess)
           | None => JNull
           end)) JNull l
  = Ok (earliest_label (matches_word ua) l).
Proof.
  induction l as [| g rest IH]; intro Hall; cbn [first_yield earliest_label].
  - reflexivity.
  - cbn [forallb] in Hall. apply andb_prop in Hall. destruct Hall as (Hg & Hrest).
    unfold word_entry in Hg. apply andb_prop in Hg. destruct Hg as (Hlabel & Hre).
    unfold matches_word at 1. cbv beta.
    destruct (Re.RegExp ("\b" ++ pattern_of g ++ "\b") true) as [r |] eqn:Er;
      [| discriminate].
    assert (Hr : RegExp ("\b" ++ pattern_of g ++ "\b") true = Ok r)
      by (unfold RegExp; now rewrite Er).
    rewrite Hr. cbn [bind]. unfold Re.rtest, Re.test.
    fold (Re.rexec r ua).
    destruct (Re.rexec r ua).
    + cbn [truthy]. rewrite Hlabel. reflexivity.
    + cbn [truthy]. apply IH. exact Hrest.
Qed.

Lemma getLayout_earliest ua l :
  forallb word_entry l = true ->
  getLayout ua l = Ok (earliest_label (matches_word ua) l).
Proof.
  intro H. unfold getLayout. rewrite reduce_first. apply first_yield_label. exact H.
Qed.

Lemma getName_earliest ua l :
  forallb word_entry l = true ->
  getName ua l = Ok (earliest_label (matches_word ua) l).
Proof.
  intro H. unfold getName. rewrite reduce_first. apply first_yield_label. exact H.
Qed.

(** A manufacturer whose pattern compiles and whose name is not empty. *)
Definition maker_entry (e : string * list string) : bool :=
  Str.nonempty (fst e)
  && match Re.RegExp ("\b" ++ qualify (JStr (fst e)) ++ "(?:\b|\w*\d)") true with
     | Some _ => true
     | None => false
     end.

Lemma forOwn_first {V : Type} (yield : string -> V -> outcome jv) :
  forall (l : list (string * V)) (acc : jv),
    forOwn (fun result value k =>
              let key := match k with KName k => k | KIndex _ => "" end in
              if truthy result then Ok result else yield key value) l acc
    = if truthy acc then Ok acc
      else first_yield (fun e => yield (fst e) (snd e)) acc l.
Proof.
  induction l as [| [k v] rest IH]; intro acc; cbn [forOwn first_yield].
  - destruct (truthy acc); reflexivity.
  - destruct (truthy acc) eqn:Ha; cbn [bind fst snd].
    + rewrite IH, Ha. reflexivity.
    + destruct (yield k v) as [x | e |]; cbn [bind]; try reflexivity.
      apply IH.
Qed.

Lemma getManufacturer_earliest ua product l :
  forallb maker_entry l = true ->
  getManufacturer ua product l = Ok (earliest_key (makes ua product) l).
Proof.
  intro H. unfold getManufacturer, reduce, each. rewrite forOwn_first. cbn [truthy].
  induction l as [| [k v] rest IH]; cbn [first_yield earliest_key fst snd].
  - reflexivity.
  - cbn [forallb] in H. apply andb_prop in H. destruct H as (Hk & Hrest).
    unfold maker_entry in Hk. cbn [fst] in Hk. apply andb_prop in Hk.
    destruct Hk as (Hne & Hre).
    unfold maker_of, makes.
    destruct (has_key v (to_s product)); cbn [orb bind truthy].
    { rewrite Hne. reflexivity. }
    destruct (has_key v _); cbn [orb bind truthy].
    { rewrite Hne. reflexivity. }
    destruct (Re.RegExp ("\b" ++ qualify (JStr k) ++ "(?:\b|\w*\d)") true) as [r |] eqn:Er;
      [| discriminate].
    assert (Hr : RegExp ("\b" ++ qualify (JStr k) ++ "(?:\b|\w*\d)") true = Ok r)
      by (unfold RegExp; now rewrite Er).
    rewrite Hr. cbn [bind]. unfold Re.rtest, Re.test. fold (Re.rexec r ua).
    destruct (Re.rexec r ua); cbn [truthy].
    + rewrite Hne. reflexivity.
    + apply IH. exact Hrest.
Qed.

(** C1, as the code has it.  On the layout and browser-name axes the
    picker returns the label of the earliest entry of the guess list whose
    pattern matches the subject, or null when none matches.  On the product
    and OS axes it returns, not a label, but what the earliest entry that
    yields a value yields (the match, cleaned up, with the label put in
    place of the pattern); an entry is consulted only when no earlier entry
    gave a value.  On the manufacturer axis it returns the name of the
    earliest manufacturer that lists the product or occurs in the subject.
    Match length and specificity play no part. *)
Theorem C1_first_match_wins :
  forall (ua : string) (product : jv),
    getLayout ua layouts = Ok (earliest_label (matches_word ua) layouts)
    /\ getName ua names = Ok (earliest_label (matches_word ua) names)
    /\ getProduct ua products = first_yield (product_of ua) JNull products
    /\ getOS ua oses = first_yield (os_of ua) JNull oses
    /\ getManufacturer ua product manufacturers
       = Ok (earliest_key (makes ua product) manufacturers).
Proof.
  intros ua product. repeat split.
  - apply getLayout_earliest. vm_compute. reflexivity.
  - apply getName_earliest. vm_compute. reflexivity.
  - unfold getProduct. apply reduce_first.
  - unfold getOS. apply reduce_first.
  - apply getManufacturer_earliest. vm_compute. reflexivity.
Qed.

(** C1 as stated fails on the OS axis: the earliest entry that matches
    ["Android 4.1"] is [Android], and the picker returns the cleaned-up
    match, not that label. *)
Lemma C1_counterexample :
  earliest_label
    (fun g => match Re.RegExp ("\b" ++ pattern_of g ++ "(?:/[\d.]+|[ \w.]*)") true with
              | Some r => Re.rtest r "Android 4.1"
              | None => false
              end) oses = JStr "Android"
  /\ getOS "Android 4.1" oses = Ok (JStr "Android 4.1")
  /\ getOS "Android 4.1" oses <> Ok (JStr "Android").
Proof.
  split; [vm_compute; reflexivity |].
  split; [vm_compute; reflexivity |].
  vm_compute. discriminate.
Qed.

(** *** Termination and the depth of the nested calls *)

(** The call returns or throws: it does not need more levels. *)
Definition finite {A : Type} (x : outcome A) : Prop := x <> OutOfFuel.

Lemma finite_Ok {A : Type} (a : A) : finite (Ok a).
Proof. discriminate. Qed.

Lemma finite_Throw {A : Type} (e : error) : finite (@Throw A e).
Proof. discriminate. Qed.

Lemma finite_bind {A B : Type} (x : outcome A) (f : A -> outcome B) :
  finite x -> (forall a, x = Ok a -> finite (f a)) -> finite (bind x f).
Proof.
  unfold finite. destruct x as [a | e |]; cbn [bind]; intros Hx Hf.
  - apply Hf. reflexivity.
  - discriminate.
  - contradiction.
Qed.

Lemma finite_RegExp src ic : finite (RegExp src ic).
Proof. unfold RegExp. destruct (Re.RegExp src ic); discriminate. Qed.

(** One step of a proof that a composition of statements is [finite]. *)
Ltac finite_step :=
  match goal with
  | |- finite (Ok _) => apply finite_Ok
  | |- finite (Throw _) => apply finite_Throw
  | |- finite (RegExp _ _) => apply finite_RegExp
  | |- finite (bind _ _) => apply finite_bind; [| intros ? ?]
  | |- finite (if ?c then _ else _) => destruct c
  | |- finite (match ?x with _ => _ end) => destruct x
  | |- finite (let '(_, _) := ?x in _) => destruct x
  end.

Ltac finite_auto := repeat finite_step.

Lemma finite_each_index {V A : Type} (cb : A -> V -> key -> outcome A) :
  (forall acc v k, finite (cb acc v k)) ->
  forall l i acc, finite (each_index cb l i acc).
Proof.
  intro H. induction l as [| v rest IH]; intros i acc; cbn [each_index].
  - apply finite_Ok.
  - apply finite_bind; [apply H | intros; apply IH].
Qed.

Lemma finite_forOwn {V A : Type} (cb : A -> V -> key -> outcome A) :
  (forall acc v k, finite (cb acc v k)) ->
  forall l acc, finite (forOwn cb l acc).
Proof.
  intro H. induction l as [| [k v] rest IH]; intro acc; cbn [forOwn].
  - apply finite_Ok.
  - apply finite_bind; [apply H | intros; apply IH].
Qed.

Lemma finite_reduce {V : Type} (l : iterable V) cb :
  (forall acc v k, finite (cb acc v k)) -> finite (reduce l cb).
Proof.
  intro H. unfold reduce, each. destruct l;
    [apply finite_each_index | apply finite_forOwn]; exact H.
Qed.

Lemma finite_cleanupOS os pattern label : finite (cleanupOS os pattern label).
Proof. unfold cleanupOS. finite_auto. Qed.

Lemma finite_getLayout ua l : finite (getLayout ua l).
Proof. apply finite_reduce. intros. finite_auto. Qed.

Lemma finite_getName ua l : finite (getName ua l).
Proof. apply finite_reduce. intros. finite_auto. Qed.

Lemma finite_getOS ua l : finite (getOS ua l).
Proof.
  apply finite_reduce. intros. unfold os_of. finite_auto. apply finite_cleanupOS.
Qed.

Lemma finite_getProduct ua l : finite (getProduct ua l).
Proof.
  apply finite_reduce. intros. unfold product_of, product_match. finite_auto.
Qed.

Lemma finite_getManufacturer ua product l : finite (getManufacturer ua product l).
Proof. apply finite_reduce. intros. unfold maker_of. finite_auto. Qed.

Lemma finite_getVersion ua l : finite (getVersion ua l).
Proof. apply finite_reduce. intros. finite_auto. Qed.

Lemma finite_pick e : finite (pick e).
Proof.
  unfold pick.
  apply finite_bind; [apply finite_getLayout | intros].
  apply finite_bind; [apply finite_getName | intros].
  apply finite_bind; [apply finite_getProduct | intros].
  apply finite_bind; [apply finite_getProduct | intros].
  apply finite_bind; [apply finite_getManufacturer | intros].
  apply finite_bind; [apply finite_getOS | intros].
  apply finite_Ok.
Qed.

Lemma finite_detect_manufacturer_product ua l :
  finite (detect_manufacturer_product ua l).
Proof.
  unfold detect_manufacturer_product.
  destruct (_ && _)%bool.
  - apply finite_bind; [apply finite_getProduct | intros; apply finite_Ok].
  - finite_auto.
Qed.

Lemma finite_detect_version ua l : finite (detect_version ua l).
Proof.
  unfold detect_version. destruct (negb _); [| apply finite_Ok].
  apply finite_bind; [apply finite_getVersion | intros; apply finite_Ok].
Qed.

Lemma finite_detect_prerelease ua nav uf alpha beta l :
  finite (detect_prerelease ua nav uf alpha beta l).
Proof. unfold detect_prerelease. finite_auto. Qed.

Lemma finite_detect_desktop_modes ua l : finite (detect_desktop_modes ua l).
Proof.
  unfold detect_desktop_modes.
  destruct (_ && _)%bool; [finite_auto |].
  destruct (_ && _)%bool; [finite_auto |].
  destruct (_ && _)%bool; [| apply finite_Ok].
  apply finite_bind; [apply finite_getVersion | intros; apply finite_Ok].
Qed.

Lemma finite_strip_os_version ua l : finite (strip_os_version ua l).
Proof. unfold strip_os_version. finite_auto. Qed.

Lemma finite_strip_name_from_os l : finite (strip_name_from_os l).
Proof. unfold strip_name_from_os. finite_auto. Qed.

Lemma finite_add_architecture ua nav uf l o : finite (add_architecture ua nav uf l o).
Proof. unfold add_architecture. finite_auto. Qed.

Lemma finite_finish ua nav uf l : finite (finish ua nav uf l).
Proof.
  unfold finish. apply finite_bind; [apply finite_add_architecture | intros; apply finite_Ok].
Qed.

(** The two places where [parse] calls itself. *)
Lemma finite_detect_browsers self ua l :
  (eqs (name l) "IE" && Re.rtest (re "\blike iPhone OS\b") ua = true ->
   finite (self false (IStr (Re.replace (re "like iPhone OS") "" ua)))) ->
  finite (detect_browsers self ua l).
Proof.
  intro H. unfold detect_browsers.
  destruct (eqs (name l) "IE" && Re.rtest (re "\blike iPhone OS\b") ua)%bool.
  - apply finite_bind; [apply H; reflexivity | intros; apply finite_Ok].
  - finite_auto.
Qed.

Lemma finite_detect_mobile_and_masking self context this ua uf opera operaClass l :
  (masking_applies this ua uf opera l = true ->
   finite (self true (IStr (Re.replace reOpera "" ua ++ ";")))) ->
  finite (detect_mobile_and_masking self context this ua uf opera operaClass l).
Proof.
  intro H. unfold detect_mobile_and_masking.
  repeat match goal with
         | |- finite (if ?c then _ else _) =>
             destruct c; [repeat finite_step; fail |]
         end.
  apply finite_bind; [finite_auto | intros data Hdata].
  destruct (truthy data); [finite_auto |].
  destruct (masking_applies this ua uf opera l); [| apply finite_Ok].
  apply finite_bind; [apply H; reflexivity | intros; apply finite_Ok].
Qed.

Lemma masking_needs_top_level ua uf opera l :
  masking_applies true ua uf opera l = false.
Proof. reflexivity. Qed.

(** The rules before the first chain do not assign [name]. *)
Lemma name_detect_android_product ua l : name (detect_android_product ua l) = name l.
Proof.
  unfold detect_android_product. destruct (_ && _)%bool; [| reflexivity].
  destruct (Re.rexec _ ua); reflexivity.
Qed.

Lemma name_detect_manufacturer_product ua l l' :
  detect_manufacturer_product ua l = Ok l' -> name l' = name l.
Proof.
  unfold detect_manufacturer_product.
  destruct (_ && _)%bool.
  - intro H. apply bind_Ok in H. destruct H as (p & _ & H). inversion H. reflexivity.
  - destruct (_ && _)%bool.
    + intro H. apply bind_Ok in H. destruct H as (r1 & _ & H).
      apply bind_Ok in H. destruct H as (r2 & _ & H). inversion H. reflexivity.
    + intro H. inversion H. reflexivity.
Qed.

Lemma name_cleanup_google_tv l : name (cleanup_google_tv l) = name l.
Proof. unfold cleanup_google_tv. destruct (exec _ _); reflexivity. Qed.

Lemma name_detect_simulators ua l : name (detect_simulators ua l) = name l.
Proof. unfold detect_simulators. destruct (Re.rtest _ ua); reflexivity. Qed.

Lemma name_detect_opera_mini_turbo ua l : name (detect_opera_mini_turbo ua l) = name l.
Proof. unfold detect_opera_mini_turbo. destruct (_ && _)%bool; reflexivity. Qed.

Lemma pick_name e l :
  pick e = Ok l -> getName (e_ua e) names = Ok (name l).
Proof.
  unfold pick. intro H.
  apply bind_Ok in H. destruct H as (la & _ & H).
  apply bind_Ok in H. destruct H as (n & Hn & H).
  apply bind_Ok in H. destruct H as (pr & _ & H).
  apply bind_Ok in H. destruct H as (x & _ & H).
  apply bind_Ok in H. destruct H as (ma & _ & H).
  apply bind_Ok in H. destruct H as (o & _ & H).
  inversion H. exact Hn.
Qed.

(** What the IE Mobile 11 rule passes to the nested call is shorter by
    the marker it takes out, and never empty. *)
Lemma like_iphone_re :
  re "like iPhone OS"
  = Re.MkRegExp (ReFacts.chain "like iPhone O" (Re.RChar "S")) false 0.
Proof. vm_compute. reflexivity. Qed.

Lemma like_iphone_word_re :
  re "\blike iPhone OS\b"
  = Re.MkRegExp (Re.RSeq (Re.RWordB false)
                   (ReFacts.chain "like iPhone OS" (Re.RWordB false))) false 0.
Proof. vm_compute. reflexivity. Qed.

Lemma like_iphone_removed ua :
  Re.rtest (re "\blike iPhone OS\b") ua = true ->
  String.length (Re.replace (re "like iPhone OS") "" ua) + 14 = String.length ua
  /\ (Re.replace (re "like iPhone OS") "" ua = "" -> ua = "like iPhone OS").
Proof.
  intro Ht.
  assert (Hin : exists pre suf, ua = (pre ++ "like iPhone OS" ++ suf)%string).
  { rewrite like_iphone_word_re in Ht. unfold Re.rtest, Re.test, Re.exec in Ht.
    cbn [Re.re_ic Re.re_ast] in Ht.
    destruct (Re.search false _ 0 None ua) as [mr |] eqn:E; [| discriminate].
    eapply (ReFacts.starts_with_literal_found "like iPhone O" "S" false _ (Re.RWordB false));
      [| exact E].
    intros k st res. cbn [Re.m]. destruct (xorb false (Re.at_word_boundary st)); [| discriminate].
    intro H. exact H. }
  destruct Hin as (pre & suf & Hua).
  destruct (Re.rexec (re "like iPhone OS") ua) as [mr |] eqn:E.
  - assert (Htext : Re.mr_text mr = "like iPhone OS").
    { rewrite like_iphone_re in E. unfold Re.rexec, Re.exec in E.
      cbn [Re.re_ic Re.re_ast] in E.
      apply (ReFacts.literal_search_text "like iPhone O" "S") in E. exact E. }
    destruct (ReFacts.replace_empty_removes _ _ _ E) as (Hlen & Hrep).
    rewrite Htext in Hlen. cbn [String.length] in Hlen. split; [exact Hlen |].
    intro Hempty. rewrite Hempty in Hlen. cbn [String.length] in Hlen.
    destruct (ReFacts.exec_shape _ _ _ E) as (Hs & _).
    rewrite Hrep in Hempty.
    assert (H1 : Str.take (Re.mr_index mr) ua = "" /\ Re.mr_after mr = "").
    { destruct (Str.take (Re.mr_index mr) ua); [| discriminate].
      simpl in Hempty. auto. }
    destruct H1 as (H1 & H2). rewrite H1, H2, Htext in Hs. exact Hs.
  - exfalso. rewrite like_iphone_re in E. unfold Re.rexec, Re.exec in E.
    cbn [Re.re_ic Re.re_ast] in E. rewrite Hua in E.
    exact (ReFacts.literal_search_complete "like iPhone O" "S" suf pre 0 None E).
Qed.

Lemma getName_like_iphone : getName "like iPhone OS" names = Ok JNull.
Proof. vm_compute. reflexivity. Qed.

Lemma levels_positive this len : 1 <= levels this len.
Proof. unfold levels. destruct this; lia. Qed.

(** [parse] terminates: [levels] levels of calls are enough for every
    context, every receiver and every argument. *)
Lemma parse_fuel_enough : forall (n : nat) (root : Host) (this : bool) (arg : input),
  levels this (String.length (ua_of root arg)) <= n ->
  finite (parse_fuel n root this arg).
Proof.
  induction n as [| n IH]; intros root this arg Hn.
  - pose proof (levels_positive this (String.length (ua_of root arg))). lia.
  - cbn [parse_fuel]. unfold parse_body, resolved.
    set (e := setup root arg).
    assert (Hua : e_ua e = ua_of root arg) by reflexivity.
    apply finite_bind; [| intros; apply finite_finish].
    apply finite_bind; [apply finite_pick | intros l0 Hpick].
    apply pick_name in Hpick. rewrite Hua in Hpick.
    unfold resolve_in, resolve. rewrite Hua. set (ua := ua_of root arg) in *.
    apply finite_bind.
    + unfold resolve_first.
      apply finite_bind; [apply finite_detect_manufacturer_product | intros l1 H1].
      apply name_detect_manufacturer_product in H1.
      rewrite name_detect_android_product in H1.
      apply finite_bind.
      * apply finite_detect_browsers.
        rewrite name_detect_opera_mini_turbo, name_detect_simulators,
          name_cleanup_google_tv, H1.
        intro Hc. apply andb_prop in Hc. destruct Hc as (Hie & Hlike).
        destruct (like_iphone_removed ua Hlike) as (Hlen & Hempty).
        apply IH.
        assert (Hne : Re.replace (re "like iPhone OS") "" ua <> "").
        { intro Hz. apply Hempty in Hz. rewrite Hz, getName_like_iphone in Hpick.
          inversion Hpick as [Hname]. rewrite <- Hname in Hie. discriminate. }
        rewrite (ua_of_string root _ Hne).
        unfold levels in *. destruct this; lia.
      * intros l2 H2.
        apply finite_bind; [apply finite_detect_version | intros l3 H3].
        apply finite_detect_prerelease.
    + intros l4 H4. unfold resolve_rest.
      apply finite_bind.
      * apply finite_detect_mobile_and_masking. intro Hm.
        destruct this; [rewrite masking_needs_top_level in Hm; discriminate |].
        apply IH.
        assert (Hne : (Re.replace reOpera "" ua ++ ";")%string <> "").
        { destruct (Re.replace reOpera "" ua); discriminate. }
        rewrite (ua_of_string root _ Hne).
        pose proof (ReFacts.replace_empty_length reOpera ua) as Hle.
        rewrite ReFacts.append_length. cbn [String.length].
        unfold levels in *. lia.
      * intros l5 H5.
        apply finite_bind; [apply finite_detect_desktop_modes | intros l6 H6].
        apply finite_bind; [apply finite_strip_os_version | intros l7 H7].
        apply finite_strip_name_from_os.
Qed.

(** One call is [finite] when the nested calls it can make are: the IE
    Mobile 11 rule makes one when the string holds its marker, the masking
    rule when the call was not made by that rule. *)
Lemma parse_body_finite self root this arg :
  (Re.rtest (re "\blike iPhone OS\b") (ua_of root arg) = true ->
   finite (self false (IStr (Re.replace (re "like iPhone OS") "" (ua_of root arg))))) ->
  (this = false ->
   finite (self true (IStr (Re.replace reOpera "" (ua_of root arg) ++ ";")))) ->
  finite (parse_body self root this arg).
Proof.
  intros HI HM. unfold parse_body, resolved.
  set (e := setup root arg).
  assert (Hua : e_ua e = ua_of root arg) by reflexivity.
  apply finite_bind; [| intros; apply finite_finish].
  apply finite_bind; [apply finite_pick | intros l0 _].
  unfold resolve_in, resolve. rewrite Hua.
  apply finite_bind.
  - unfold resolve_first.
    apply finite_bind; [apply finite_detect_manufacturer_product | intros l1 _].
    apply finite_bind.
    + apply finite_detect_browsers. intro Hc. apply andb_prop in Hc.
      apply HI. apply Hc.
    + intros l2 _.
      apply finite_bind; [apply finite_detect_version | intros l3 _].
      apply finite_detect_prerelease.
  - intros l4 _. unfold resolve_rest.
    apply finite_bind.
    + apply finite_detect_mobile_and_masking. intro Hm.
      destruct this; [rewrite masking_needs_top_level in Hm; discriminate |].
      apply HM. reflexivity.
    + intros l5 _.
      apply finite_bind; [apply finite_detect_desktop_modes | intros l6 _].
      apply finite_bind; [apply finite_strip_os_version | intros l7 _].
      apply finite_strip_name_from_os.
Qed.

(** A call made by the masking rule makes no call of its own unless its
    string holds the marker of the IE Mobile 11 rule. *)
Lemma masked_call_is_last root arg :
  Re.rtest (re "\blike iPhone OS\b") (ua_of root arg) = false ->
  finite (parse_fuel 1 root true arg).
Proof.
  intro H. cbn [parse_fuel]. apply parse_body_finite.
  - rewrite H. discriminate.
  - discriminate.
Qed.

(** Without the marker, also once the Opera signature is out, one nested
    level is enough. *)
Lemma one_level_without_marker root arg :
  Re.rtest (re "\blike iPhone OS\b") (ua_of root arg) = false ->
  Re.rtest (re "\blike iPhone OS\b") (Re.replace reOpera "" (ua_of root arg) ++ ";") = false ->
  finite (parse_fuel 2 root false arg).
Proof.
  intros H H'. cbn [parse_fuel]. apply parse_body_finite.
  - rewrite H. discriminate.
  - intros _. apply (masked_call_is_last root).
    rewrite ua_of_string; [exact H' |].
    destruct (Re.replace reOpera "" (ua_of root arg)); discriminate.
Qed.

(** C5, as the code has it.  [parse] terminates on every input: with as
    many levels of calls as the identification string is long, plus two, a
    call ends.  A call made by the masking rule ([this] is [forOwn]) never
    makes the re-parse of that rule, and makes no nested call at all unless
    its string holds a "like iPhone OS" marker; so a string without the
    marker, also once its Opera signature is taken out, needs one nested
    level at most.  The re-parse of the IE Mobile 11 rule has no such guard:
    it is a plain call, under which the masking rule applies again, and
    each level takes one "like iPhone OS" out of the string. *)
Theorem C5_parse_terminates :
  (forall (root : Host) (this : bool) (arg : input) (extra : nat),
     finite (parse_fuel (levels this (String.length (ua_of root arg)) + extra)
               root this arg))
  /\ (forall ua useFeatures opera l,
        masking_applies true ua useFeatures opera l = false)
  /\ (forall (root : Host) (arg : input),
        Re.rtest (re "\blike iPhone OS\b") (ua_of root arg) = false ->
        finite (parse_fuel 1 root true arg))
  /\ (forall (root : Host) (arg : input),
        Re.rtest (re "\blike iPhone OS\b") (ua_of root arg) = false ->
        Re.rtest (re "\blike iPhone OS\b")
          (Re.replace reOpera "" (ua_of root arg) ++ ";") = false ->
        finite (parse_fuel 2 root false arg)).
Proof.
  split; [intros; apply parse_fuel_enough; lia |].
  split; [intros; apply masking_needs_top_level |].
  split; [exact masked_call_is_last | exact one_level_without_marker].
Qed.

Lemma C5_parse_terminates_witness :
  finite (parse_fuel 2 bare false (IStr "Opera MSIE")).
Proof.
  apply (proj2 (proj2 (proj2 C5_parse_terminates)) bare (IStr "Opera MSIE"));
    vm_compute; reflexivity.
Defined.

(** C5 as stated fails: with one extra level of nested calls ([parse_fuel
    2]) the first input cannot be parsed; it needs two, one for each "like
    iPhone OS".  The second input holds one marker and needs three: the
    masking rule, the IE Mobile 11 rule in the call it makes, and the
    masking rule again in the plain call that this one makes. *)
Lemma C5_counterexample :
  (parse_fuel 2 bare false (IStr "MSIE like iPhone OS like iPhone OS") = OutOfFuel
   /\ exists p,
        parse_fuel 3 bare false (IStr "MSIE like iPhone OS like iPhone OS") = Ok p)
  /\ (parse_fuel 3 bare false (IStr "Opera MSIE 7.0 like iPhone OS Linux") = OutOfFuel
      /\ exists p,
           parse_fuel 4 bare false (IStr "Opera MSIE 7.0 like iPhone OS Linux") = Ok p).
Proof.
  split; (split; [vm_compute; reflexivity | eexists; vm_compute; reflexivity]).
Qed.

(** *** The description *)

(** A segment of the description, when it is present. *)
Definition segment (present : bool) (text : string) : list string :=
  if present then [text] else [].

(** The manufacturer is named apart: there is one, there is a product, and
    the product does not contain it. *)
Definition names_manufacturer (p : Platform) : bool :=
  truthy (p_manufacturer p) && truthy (p_product p)
  && match Str.indexOf (to_s (p_product p)) (to_s (p_manufacturer p)) with
     | Some _ => false
     | None => true
     end.

(** The OS is shown: there is a name and an OS, unless the OS prints as one
    word that is the first word of the name or comes with a product. *)
Definition shows_os (p : Platform) : bool :=
  match p_os p with
  | OSStub => false
  | os =>
      let os_s := os_toString os in
      truthy (p_name p)
      && negb (String.eqb os_s (first_or (Str.split os_s " ") "")
               && (String.eqb os_s (first_or (Str.split (to_s (p_name p)) " ") "")
                   || truthy (p_product p)))
  end.

(** The description as the amended claim words it: the segments in their
    fixed order, joined by single spaces, or the raw input when there is
    none.  [notes] are the collected notes and [bits32] tells whether the
    browser is a 32-bit one on a 64-bit OS. *)
Definition composed (notes : list string) (bits32 : bool) (p : Platform) : jv :=
  let segments :=
    (segment (truthy (p_name p)) (to_s (p_name p))
     ++ segment (truthy (p_version p)) (to_s (p_version p))
     ++ segment bits32 "32-bit"
     ++ segment (match notes with [] => false | _ => true end)
          ("(" ++ Str.join "; " notes ++ ")")
     ++ segment (names_manufacturer p) ("on " ++ to_s (p_manufacturer p))
     ++ segment (truthy (p_product p))
          ((if names_manufacturer p then "" else "on ") ++ to_s (p_product p))
     ++ segment (shows_os p)
          (if truthy (p_product p)
           then "(" ++ os_toString (p_os p) ++ ")"
           else "on " ++ os_toString (p_os p)))%list in
  match segments with
  | [] => p_ua p
  | _ => JStr (Str.join " " segments)
  end.

(** The description as C7 words it: the notes first, then the version, then
    the name. *)
Definition composed_as_claimed (notes : list string) (p : Platform) : jv :=
  let segments :=
    (segment (match notes with [] => false | _ => true end)
       ("(" ++ Str.join "; " notes ++ ")")
     ++ segment (truthy (p_version p)) (to_s (p_version p))
     ++ segment (truthy (p_name p)) (to_s (p_name p))
     ++ segment (names_manufacturer p) ("on " ++ to_s (p_manufacturer p))
     ++ segment (truthy (p_product p)) ("on " ++ to_s (p_product p))
     ++ segment (shows_os p)
          (if truthy (p_product p)
           then "(" ++ os_toString (p_os p) ++ ")"
           else "on " ++ os_toString (p_os p)))%list in
  match segments with
  | [] => p_ua p
  | _ => JStr (Str.join " " segments)
  end.

(** A 32-bit browser on a 64-bit OS, as the architecture rule sees it. *)
Definition thirty_two_bit (ua : string) (nav : option Navigator) (useFeatures : bool)
    (l : Locals) : bool :=
  evidence64 (arch l) && truthy (name l)
  && (Re.rtest (rei "\bWOW64\b") ua
      || (useFeatures
          && test (re "\w(?:86|32)$")
               (match nav with
                | Some n => jor (cpuClass n) (nav_platform n)
                | None => JUndef
                end)
          && negb (Re.rtest (rei "\bWin64; x64\b") ua))).

Lemma add_architecture_description ua nav uf l o l' o' :
  add_architecture ua nav uf l o = Ok (l', o') ->
  description l' = (segment (thirty_two_bit ua nav uf l) "32-bit" ++ description l)%list
  /\ same_fields l l'.
Proof.
  unfold add_architecture, thirty_two_bit, evidence64.
  rewrite (test_exec (rei "\b(?:AMD|IA|Win|WOW|x86_|x)64\b")).
  destruct (exec _ (arch l)) as [d |];
    [destruct (test (rei "\bi686\b") (arch l)) |]; cbn [negb andb].
  - intro H. inversion H; subst. split; [reflexivity | apply same_fields_refl].
  - intro H. apply bind_Ok in H. destruct H as (o1 & _ & H).
    destruct (truthy (name l)); cbn [andb] in *.
    + destruct (_ || _)%bool; inversion H; subst;
        (split; [reflexivity | try apply same_fields_refl; apply same_fields_set_description]).
    + inversion H; subst. split; [reflexivity | apply same_fields_refl].
  - intro H. inversion H; subst. split; [reflexivity | apply same_fields_refl].
Qed.

(** A regex anchored at the start matches at the start only. *)
Lemma search_anchored_later ic r : forall rest pos prev,
  Re.search ic (Re.RSeq Re.RBol r) (S pos) prev rest = None.
Proof.
  induction rest as [| c rest IH]; intros pos prev; cbn [Re.search Re.m Re.m_pos Nat.eqb].
  - reflexivity.
  - apply IH.
Qed.

Lemma on_re :
  re "^on "
  = Re.MkRegExp (Re.RSeq Re.RBol
                   (Re.RSeq (Re.RChar "o") (Re.RSeq (Re.RChar "n") (Re.RChar " "))))
      false 0.
Proof. vm_compute. reflexivity. Qed.

Lemma starts_with_on (x : string) : test (re "^on ") (JStr ("on " ++ x)) = true.
Proof. rewrite on_re. reflexivity. Qed.

Lemma parenthesis_not_on (x : string) : test (re "^on ") (JStr ("(" ++ x)) = false.
Proof.
  rewrite on_re. unfold test, Re.rtest, Re.test, Re.exec. cbn [to_s Re.re_ic Re.re_ast].
  cbn [append Re.search]. cbn [Re.m Re.m_pos Nat.eqb Re.step1 Re.m_rest Re.canon].
  cbn. rewrite search_anchored_later. reflexivity.
Qed.

Lemma last_note_push x l : last_note (push x l) = JStr x.
Proof.
  unfold last_note, push. cbn [description set_description].
  rewrite rev_app_distr. reflexivity.
Qed.

(** What [description] holds after the notes, the manufacturer and the
    product were put in. *)
Lemma annotate_description l :
  let notes := description (add_layout l) in
  let named :=
    truthy (manufacturer l) && truthy (product l)
    && match Str.indexOf (to_s (product l)) (to_s (manufacturer l)) with
       | Some _ => false
       | None => true
       end in
  description (annotate l)
  = (segment (match notes with [] => false | _ => true end)
       ("(" ++ Str.join "; " notes ++ ")")
     ++ segment named ("on " ++ to_s (manufacturer l))
     ++ segment (truthy (product l))
          ((if named then "" else "on ") ++ to_s (product l)))%list.
Proof.
  cbv zeta. unfold annotate.
  destruct (add_layout_fields l) as (_ & _ & _ & _ & Hp & Hm & _).
  set (l1 := add_layout l) in *.
  assert (Hc : same_fields l1 (combine_notes l1)) by apply combine_notes_fields.
  destruct Hc as (_ & _ & _ & _ & Hp2 & Hm2 & _).
  assert (Hd2 : description (combine_notes l1)
                = segment (match description l1 with [] => false | _ => true end)
                    ("(" ++ Str.join "; " (description l1) ++ ")")).
  { unfold combine_notes. destruct (description l1) eqn:E; [now rewrite E | reflexivity]. }
  set (l2 := combine_notes l1) in *.
  unfold append_manufacturer. rewrite Hm2, Hp2, Hm, Hp.
  destruct (truthy (manufacturer l) && truthy (product l) && _)%bool eqn:Hnamed.
  - unfold append_product. cbn [product push set_description]. rewrite Hp2, Hp.
    destruct (truthy (product l)) eqn:Htp.
    + rewrite last_note_push, starts_with_on.
      cbn [description push set_description]. rewrite Hd2.
      cbn [segment]. rewrite <- app_assoc. reflexivity.
    + cbn [description push set_description segment]. rewrite Hd2, app_nil_r. reflexivity.
  - unfold append_product. rewrite Hp2, Hp.
    destruct (truthy (product l)) eqn:Htp.
    + assert (Hlast : test (re "^on ") (last_note l2) = false).
      { unfold last_note. rewrite Hd2. destruct (description l1); cbn [segment rev app].
        - reflexivity.
        - apply parenthesis_not_on. }
      rewrite Hlast. cbn [description push set_description]. rewrite Hd2.
      cbn [segment app]. reflexivity.
    + rewrite Hd2. cbn [segment]. rewrite !app_nil_r. reflexivity.
Qed.

Lemma thirty_two_bit_annotate ua nav uf l :
  thirty_two_bit ua nav uf (annotate l) = thirty_two_bit ua nav uf l.
Proof.
  destruct (annotate_fields l) as (An & _ & _ & _ & _ & _ & _ & Aa).
  unfold thirty_two_bit. rewrite Aa, An. reflexivity.
Qed.

Lemma describe_segments l o :
  describe l o
  = (segment (truthy (name l)) (to_s (name l))
     ++ segment (truthy (jand (name l) (version l))) (to_s (jand (name l) (version l)))
     ++ description l
     ++ match o with
        | Some os =>
            segment
              (truthy (name l)
               && negb (String.eqb (os_toString os)
                          (first_or (Str.split (os_toString os) " ") "")
                        && (String.eqb (os_toString os)
                              (first_or (Str.split (to_s (name l)) " ") "")
                            || truthy (product l))))
              (if truthy (product l)
               then "(" ++ os_toString os ++ ")"
               else "on " ++ os_toString os)
        | None => []
        end)%list.
Proof.
  unfold describe.
  destruct (truthy (name l)) eqn:Hn.
  - replace (jand (name l) (version l)) with (version l) by (unfold jand; now rewrite Hn).
    destruct (truthy (version l)); cbn [name unshift set_description]; rewrite Hn;
      cbn [name unshift set_description product andb segment app description];
      (destruct o as [os |]; [| rewrite ?app_nil_r; reflexivity]);
      destruct (negb _); rewrite ?Hn;
      cbn [andb segment description push unshift set_description app];
      rewrite ?app_nil_r; reflexivity.
  - replace (jand (name l) (version l)) with (name l) by (unfold jand; now rewrite Hn).
    rewrite !Hn. cbn [segment app andb].
    destruct o; rewrite ?Hn; cbn [andb segment]; rewrite app_nil_r; reflexivity.
Qed.

(** The name and the description of the platform object, from the
    resolved locals. *)
Lemma parse_composed (root : Host) (arg : input) (p : Platform) :
  parse root arg = Ok p ->
  exists l,
    parse_locals root arg = Ok l
    /\ p_name p = name l
    /\ p_description p
       = composed (description (add_layout l))
           (thirty_two_bit (ua_of root arg) (e_nav (setup root arg))
              (e_useFeatures (setup root arg)) l) p.
Proof.
  intros H.
  rewrite parse_unfold in H. apply bind_Ok in H. destruct H as (l & Hl & H).
  exists l. split; [exact Hl |].
  unfold finish_in in H. apply finish_Ok in H. destruct H as (l2 & o2 & Ha & ->).
  change (e_ua (setup root arg)) with (ua_of root arg) in *.
  assert (Ho2 : o2 <> Some OSStub).
  { destruct (os_object (annotate l)) as [x |] eqn:Ex.
    - destruct (os_object_shape _ x Ex) as (f & v & sp & -> & _).
      apply add_architecture_info in Ha. destruct Ha as (f' & -> & _). discriminate.
    - apply add_architecture_none in Ha. destruct Ha as (-> & _). discriminate. }
  apply add_architecture_description in Ha. destruct Ha as (Hd & Hsame).
  destruct (annotate_fields l) as (An & Av & Ao & Al & Ap & Am & Ar & Aa).
  destruct Hsame as (Bn & Bv & Bo & Bl & Bp & Bm & Br & Ba).
  split; [cbn [p_name make_platform]; congruence |].
  rewrite (thirty_two_bit_annotate _ _ _ l) in Hd.
  rewrite annotate_description in Hd. cbv zeta in Hd.
  unfold composed, make_platform, names_manufacturer, shows_os.
  cbn [p_description p_name p_version p_manufacturer p_product p_os p_ua].
  rewrite describe_segments, Hd.
  rewrite Bn, Bv, Bp, Bm, An, Av, Ap, Am.
  destruct o2 as [[| a f v sp] |]; [congruence | |];
    rewrite <- ?app_assoc; cbn [p_os]; unfold segment;
    match goal with
    | |- match ?x with [] => _ | _ :: _ => _ end = _ => destruct x
    end; reflexivity.
Qed.

(** C7, as the code has it.  The description is made of these segments, in
    this order, joined by single spaces: the name; the version; the note
    "32-bit"; the collected notes, joined by "; " and put in parentheses;
    "on <manufacturer>", when the product does not contain the
    manufacturer; the product, after "on " unless the manufacturer segment
    comes before it; the OS, as "(<os>)" when there is a product and as
    "on <os>" otherwise, shown only under a name and unless the OS prints
    as one word that is the first word of the name or comes with a product
    ([shows_os]).  Segments that are absent are left out; when there is
    none, the description is the raw input. *)
Theorem C7_description_composed :
  forall (root : Host) (arg : input) (p : Platform),
    parse root arg = Ok p ->
    exists l,
      parse_locals root arg = Ok l
      /\ p_description p
         = composed (description (add_layout l))
             (thirty_two_bit (ua_of root arg) (e_nav (setup root arg))
                (e_useFeatures (setup root arg)) l) p.
Proof.
  intros root arg p H.
  destruct (parse_composed root arg p H) as (l & Hl & _ & Hd).
  exists l. split; assumption.
Qed.

(** C7 as stated fails: the name and the version come before the notes,
    not after them; a product keeps the doubled space of the input; and an
    OS that was resolved is not always shown: not when it is the one word
    the name starts with, and not without a name, where the description is
    the raw input. *)
Lemma C7_counterexample :
  (exists p l,
     parse bare (IStr "Opera/9.5 MSIE") = Ok p
     /\ parse_locals bare (IStr "Opera/9.5 MSIE") = Ok l
     /\ p_description p = JStr "Opera 9.5 (identifying as IE)"
     /\ composed_as_claimed (description (add_layout l)) p
        = JStr "(identifying as IE) 9.5 Opera")
  /\ (exists p,
        parse bare (IStr "Android; X  Y Build") = Ok p
        /\ p_description p = JStr "Android Browser on X  Y"
        /\ Str.contains "  " (to_s (p_description p)) = true)
  /\ (exists p,
        parse bare (IStr "Android") = Ok p
        /\ os_toString (p_os p) = "Android"
        /\ p_description p = JStr "Android Browser")
  /\ (exists p,
        parse bare (IStr "Linux x86_64") = Ok p
        /\ os_toString (p_os p) = "Linux 64-bit"
        /\ p_description p = JStr "Linux x86_64").
Proof.
  split; [| split; [| split]].
  - do 2 eexists. split; [vm_compute; reflexivity |].
    split; [vm_compute; reflexivity |]. split; vm_compute; reflexivity.
  - eexists. split; [vm_compute; reflexivity |]. split; vm_compute; reflexivity.
  - eexists. split; [vm_compute; reflexivity |]. split; vm_compute; reflexivity.
  - eexists. split; [vm_compute; reflexivity |]. split; vm_compute; reflexivity.
Qed.

Lemma C7_description_composed_witness :
  exists l,
    parse_locals bare (IStr "Opera MSIE") = Ok l
    /\ JStr "Opera (identifying as IE)"
       = composed (description (add_layout l))
           (thirty_two_bit "Opera MSIE" None false l)
           {| p_description := JStr "Opera (identifying as IE)";
              p_layout := JStr "Presto"; p_manufacturer := JNull;
              p_name := JStr "Opera"; p_prerelease := JNull; p_product := JNull;
              p_ua := JStr "Opera MSIE"; p_version := JNull; p_os := OSStub |}.
Proof.
  apply (C7_description_composed bare (IStr "Opera MSIE")
           {| p_description := JStr "Opera (identifying as IE)";
              p_layout := JStr "Presto"; p_manufacturer := JNull;
              p_name := JStr "Opera"; p_prerelease := JNull; p_product := JNull;
              p_ua := JStr "Opera MSIE"; p_version := JNull; p_os := OSStub |}).
  vm_compute. reflexivity.
Defined.

(** *** Substrings *)

Lemma starts_with_app (p a b : string) :
  Str.starts_with p a = true -> Str.starts_with p (a ++ b) = true.
Proof.
  revert a. induction p as [| c p IH]; intros a H; [reflexivity |].
  destruct a as [| x a]; [discriminate |]. cbn [Str.starts_with append] in *.
  apply andb_prop in H. destruct H as (H1 & H2). rewrite H1. cbn [andb]. now apply IH.
Qed.

Lemma contains_app_l (p a b : string) :
  Str.contains p a = true -> Str.contains p (a ++ b) = true.
Proof.
  induction a as [| x a IH]; intro H.
  - cbn [Str.contains] in H. rewrite orb_false_r in H.
    destruct p; [| discriminate]. destruct b; reflexivity.
  - cbn [Str.contains append] in *. apply orb_prop in H. destruct H as [H | H].
    + pose proof (starts_with_app p (String x a) b H) as H'.
      cbn [append] in H'. rewrite H'. reflexivity.
    + rewrite (IH H). apply orb_true_r.
Qed.

Lemma contains_app_r (p a b : string) :
  Str.contains p b = true -> Str.contains p (a ++ b) = true.
Proof.
  induction a as [| x a IH]; intro H; [exact H |].
  cbn [Str.contains append]. rewrite (IH H). apply orb_true_r.
Qed.

Lemma contains_join (p sep : string) (l : list string) (x : string) :
  In x l -> Str.contains p x = true -> Str.contains p (Str.join sep l) = true.
Proof.
  intros Hin Hx. induction l as [| y rest IH]; [contradiction |].
  destruct Hin as [-> | Hin].
  - destruct rest; cbn [Str.join]; [exact Hx | now apply contains_app_l].
  - destruct rest as [| z rest]; [contradiction |].
    cbn [Str.join]. apply contains_app_r, contains_app_r. apply IH. exact Hin.
Qed.

(* ------------------------------------------------------------------ *)
(** ** Opera identifying as another browser *)

Definition resolve_first_in (self : bool -> input -> outcome Platform) (e : Env)
    (l : Locals) : outcome Locals :=
  resolve_first self (e_context e) (e_isCustomContext e) (e_ua e) (e_nav e)
    (e_useFeatures e) (e_java e) (e_rhino e) (e_alpha e) (e_beta e) l.

Definition resolve_rest_in (self : bool -> input -> outcome Platform) (e : Env)
    (this_is_forOwn : bool) (l : Locals) : outcome Locals :=
  resolve_rest self (e_context e) this_is_forOwn (e_ua e) (e_useFeatures e)
    (e_likeChrome e) (e_opera e) (e_operaClass e) l.

Lemma resolve_in_split self e this l :
  resolve_in self e this l
  = bind (resolve_first_in self e l) (resolve_rest_in self e this).
Proof. reflexivity. Qed.

(** The locals of a top-level call when the rules reach the chain of the
    masking rule. *)
Definition parse_locals_first (root : Host) (arg : input) : outcome Locals :=
  l <- pick (setup root arg) ;;
  resolve_first_in (parse_fuel (S (String.length (ua_of root arg))) root) (setup root arg) l.

Lemma parse_locals_split root arg l :
  parse_locals_first root arg = Ok l ->
  parse_locals root arg
  = resolve_rest_in (parse_fuel (S (String.length (ua_of root arg))) root)
      (setup root arg) false l.
Proof.
  unfold parse_locals_first, parse_locals, resolved. intro H.
  apply bind_Ok in H. destruct H as (l0 & -> & H).
  cbn [bind]. rewrite resolve_in_split, H. reflexivity.
Qed.

(** What the chain of the masking rule does for Opera identifying as
    another browser. *)
Lemma masking_step self context ua useFeatures opera operaClass l d :
  name l = JStr "Opera" ->
  Re.rtest (rei "\b(?:MSIE|Firefox)\b") ua = true ->
  test (rei "\bXbox\b") (product l) = false ->
  (eqs (os l) "Windows CE" || Re.rtest (rei "Mobi") ua)%bool = false ->
  (test (re "\bBlackBerry\b") (product l) || Re.rtest (re "\bBB10\b") ua)%bool = false ->
  eqs (product l) "Wii" = false ->
  self true (IStr (Re.replace reOpera "" ua ++ ";")) = Ok d ->
  Re.rtest reOpera (toStringPlatform d) = false ->
  truthy (p_name d) = true ->
  detect_mobile_and_masking self context false ua useFeatures opera operaClass l
  = Ok (apply_masking useFeatures operaClass d l).
Proof.
  intros Hn Hm Hx Hmobi Hbb Hwii Hd Ho Ht.
  unfold detect_mobile_and_masking, masking_applies.
  rewrite Hn, Hx, Hmobi, Hbb, Hwii, Hm.
  replace (test (re "Opera") (JStr "Opera")) with true by (vm_compute; reflexivity).
  change (eqs (JStr "Opera") "Fennec") with false.
  change (eqs (JStr "Opera") "Firefox") with false.
  change (eqs (JStr "Opera") "Maxthon") with false.
  change (eqs (JStr "Opera") "IE") with false.
  cbn [andb orb negb bind truthy]. rewrite andb_false_r.
  cbn [andb orb negb]. rewrite orb_true_r. cbn [orb].
  rewrite Hd. cbn [bind]. rewrite Ho, Ht. reflexivity.
Qed.

Lemma apply_masking_identifying useFeatures operaClass d l :
  name l = JStr "Opera" ->
  let l' := apply_masking useFeatures operaClass d l in
  name l' = JStr "Opera"
  /\ (os l' = os l \/ os l' = JNull)
  /\ description l'
     = (description l
        ++ [("identifying as " ++ to_s (p_name d)
             ++ (if truthy (p_version d) then " " ++ to_s (p_version d) else ""))%string])%list.
Proof.
  intros Hn. cbv zeta. unfold apply_masking. rewrite Hn.
  replace (test reOpera (JStr "Opera")) with true by (vm_compute; reflexivity).
  destruct (_ && _)%bool; cbn; rewrite Hn; auto.
Qed.

Lemma detect_webkit_opera ua uf lc l :
  name l = JStr "Opera" ->
  name (detect_webkit ua uf lc l) = JStr "Opera"
  /\ os (detect_webkit ua uf lc l) = os l
  /\ description (detect_webkit ua uf lc l) = description l.
Proof.
  destruct l as [n v o lay pr ma de pre ar]. cbn [name os description]. intros ->.
  unfold detect_webkit.
  destruct (capture 1 (Re.rexec (rei "\bAppleWebKit\/([\d.]+\+?)") ua)) as [| | | build];
    [repeat split; reflexivity .. |].
  destruct (Str.nonempty build); [| repeat split; reflexivity].
  cbn [name version layout set_version set_name set_prerelease].
  change (eqs (JStr "Opera") "Safari") with false. cbn [andb].
  set (safari := capture 1 (Re.rexec (rei "\bSafari\/([\d.]+\+?)") ua)).
  set (data1 := capture 1 (Re.rexec (rei "\b(?:Headless)?Chrome\/([\d.]+)") ua)).
  set (data0 := Num.parseFloat _).
  clearbody safari data1 data0.
  destruct (loose_eq v (JStr build)); [| destruct (loose_eq v safari)];
    cbv beta iota zeta;
    (match goal with
     | |- context [if ?c then set_layout (Some ("Blink", None)) _ else _] => destruct c
     end);
    (destruct (negb uf || _)%bool; cbv beta iota zeta);
    destruct lay as [[l0 l1] |];
    cbn [name os description version layout set_version set_layout set_layout1 has_layout];
    change (eqs (JStr "Opera") "Safari") with false;
    change (eqs (JStr "Opera") "Chrome") with false;
    cbn [andb name os description]; repeat split.
Qed.

Lemma detect_desktop_modes_opera ua l :
  name l = JStr "Opera" ->
  test (re "\bzbov|zvav$") (os l) = false ->
  detect_desktop_modes ua l = Ok l.
Proof.
  intros Hn Hz. unfold detect_desktop_modes. rewrite Hn, Hz.
  change (eqs (JStr "Opera") "Safari") with false.
  replace (test (re "\bSRWare Iron\b") (JStr "Opera")) with false
    by (vm_compute; reflexivity).
  rewrite andb_false_r. reflexivity.
Qed.

Lemma strip_os_version_keeps ua l l' :
  strip_os_version ua l = Ok l' ->
  name l' = name l /\ description l' = description l.
Proof.
  unfold strip_os_version.
  destruct (truthy (version l) && _ && _)%bool.
  - destruct (os l); intro H; inversion H; split; reflexivity.
  - intro H; inversion H; split; reflexivity.
Qed.

Lemma strip_name_from_os_keeps l l' :
  strip_name_from_os l = Ok l' ->
  name l' = name l /\ description l' = description l.
Proof.
  unfold strip_name_from_os.
  destruct (os l) as [| | | o]; try (intro H; inversion H; split; reflexivity).
  destruct (Str.nonempty o && _)%bool; [| intro H; inversion H; split; reflexivity].
  intro H. apply bind_Ok in H. destruct H as (r & _ & H).
  destruct (negb (Re.rtest r o)); [| inversion H; split; reflexivity].
  apply bind_Ok in H. destruct H as (r' & _ & H).
  inversion H; split; reflexivity.
Qed.

Lemma add_layout_notes l x :
  In x (description l) -> In x (description (add_layout l)).
Proof.
  intro H. unfold add_layout. destruct (layout l) as [[l0 l1] |]; [| exact H].
  destruct (negb (test (re "\b(?:Avant|Nook)\b") (name l)) && _)%bool; [| exact H].
  destruct (Str.nonempty _); [| exact H].
  cbn [push description set_description]. apply in_or_app. now left.
Qed.

(** What the rest of the rules leave of Opera identifying as another
    browser: the name, and the note among the notes. *)
Lemma resolve_rest_opera self e l d l' :
  name l = JStr "Opera" ->
  Re.rtest (rei "\b(?:MSIE|Firefox)\b") (e_ua e) = true ->
  test (rei "\bXbox\b") (product l) = false ->
  (eqs (os l) "Windows CE" || Re.rtest (rei "Mobi") (e_ua e))%bool = false ->
  (test (re "\bBlackBerry\b") (product l) || Re.rtest (re "\bBB10\b") (e_ua e))%bool = false ->
  eqs (product l) "Wii" = false ->
  self true (IStr (Re.replace reOpera "" (e_ua e) ++ ";")) = Ok d ->
  Re.rtest reOpera (toStringPlatform d) = false ->
  truthy (p_name d) = true ->
  test (re "\bzbov|zvav$") (os l) = false ->
  resolve_rest_in self e false l = Ok l' ->
  name l' = JStr "Opera"
  /\ In ("identifying as " ++ to_s (p_name d)
         ++ (if truthy (p_version d) then " " ++ to_s (p_version d) else ""))
       (description l').
Proof.
  intros Hn Hm Hx Hmobi Hbb Hwii Hd Ho Ht Hz H.
  unfold resolve_rest_in, resolve_rest in H.
  rewrite (masking_step _ _ _ _ _ _ _ d Hn Hm Hx Hmobi Hbb Hwii Hd Ho Ht) in H.
  cbn [bind] in H.
  destruct (apply_masking_identifying (e_useFeatures e) (e_operaClass e) d l Hn)
    as (Hn1 & Ho1 & Hd1).
  set (l1 := apply_masking _ _ d l) in *.
  destruct (detect_webkit_opera (e_ua e) (e_useFeatures e) (e_likeChrome e) l1 Hn1)
    as (Hn2 & Ho2 & Hd2).
  set (l2 := detect_webkit _ _ _ l1) in *.
  assert (Hz2 : test (re "\bzbov|zvav$") (os l2) = false).
  { rewrite Ho2. destruct Ho1 as [-> | ->]; [exact Hz | vm_compute; reflexivity]. }
  rewrite (detect_desktop_modes_opera _ l2 Hn2 Hz2) in H. cbn [bind] in H.
  apply bind_Ok in H. destruct H as (l3 & H3 & H).
  apply strip_os_version_keeps in H3. destruct H3 as (Hn3 & Hd3).
  apply strip_name_from_os_keeps in H. destruct H as (Hn4 & Hd4).
  split; [congruence |].
  rewrite Hd4, Hd3, Hd2, Hd1. apply in_or_app. right. now left.
Qed.

Lemma starts_with_prefix (p x : string) : Str.starts_with p (p ++ x) = true.
Proof.
  induction p as [| c p IH]; [reflexivity |].
  cbn [append Str.starts_with]. rewrite Ascii.eqb_refl. exact IH.
Qed.

Lemma contains_prefix (p x : string) : Str.contains p (p ++ x) = true.
Proof.
  destruct (p ++ x) eqn:E; cbn [Str.contains]; rewrite <- E, starts_with_prefix; reflexivity.
Qed.

(** C6, as the code has it.  When the rules reach the masking rule with
    the name "Opera", the input holds an MSIE or Firefox marker, no earlier
    alternative of the chain applies (no Xbox product, no mobile marker, no
    BlackBerry, no Wii), the nested call on the input without the Opera
    signature finds IE, and the OS holds no desktop-mode marker, then the
    name is "Opera" and the description contains "identifying as IE". *)
Theorem C6_opera_identifying_as_IE :
  forall (root : Host) (s : string) (p d : Platform) (l : Locals),
    Str.nonempty s = true ->
    parse root (IStr s) = Ok p ->
    parse_locals_first root (IStr s) = Ok l ->
    name l = JStr "Opera" ->
    Re.rtest (rei "\b(?:MSIE|Firefox)\b") s = true ->
    test (rei "\bXbox\b") (product l) = false ->
    (eqs (os l) "Windows CE" || Re.rtest (rei "Mobi") s)%bool = false ->
    (test (re "\bBlackBerry\b") (product l) || Re.rtest (re "\bBB10\b") s)%bool = false ->
    eqs (product l) "Wii" = false ->
    test (re "\bzbov|zvav$") (os l) = false ->
    parse_fuel (S (String.length s)) root true (IStr (Re.replace reOpera "" s ++ ";")) = Ok d ->
    p_name d = JStr "IE" ->
    Re.rtest reOpera (toStringPlatform d) = false ->
    p_name p = JStr "Opera"
    /\ Str.contains "identifying as IE" (to_s (p_description p)) = true.
Proof.
  intros root s p d l Hs Hp Hl Hn Hm Hx Hmobi Hbb Hwii Hz Hd Hie Ho.
  assert (Hua : ua_of root (IStr s) = s) by (cbn [ua_of]; now rewrite Hs).
  destruct (parse_composed root (IStr s) p Hp) as (l' & Hl' & Hname & Hdesc).
  rewrite (parse_locals_split _ _ _ Hl), Hua in Hl'.
  assert (He : e_ua (setup root (IStr s)) = s) by exact Hua.
  destruct (resolve_rest_opera (parse_fuel (S (String.length s)) root)
              (setup root (IStr s)) l d l') as (Hn' & Hin);
    rewrite ?He; try assumption.
  { rewrite Hie. reflexivity. }
  split; [congruence |].
  rewrite Hdesc. apply add_layout_notes in Hin. rewrite Hie in Hin.
  set (notes := description (add_layout l')) in *.
  set (note := ("identifying as " ++ to_s (JStr "IE") ++ _)%string) in Hin.
  assert (Hnote : Str.contains "identifying as IE" note = true).
  { subst note. cbn [to_s]. change ("identifying as " ++ "IE" ++ ?x)%string
      with ("identifying as IE" ++ x)%string. apply contains_prefix. }
  unfold composed.
  set (seg := ("(" ++ Str.join "; " notes ++ ")")%string).
  assert (Hseg : Str.contains "identifying as IE" seg = true).
  { subst seg. apply contains_app_r, contains_app_l.
    apply (contains_join _ _ _ note Hin Hnote). }
  match goal with
  | |- Str.contains _ (to_s match ?x with [] => _ | _ :: _ => _ end) = true =>
      assert (Hs' : In seg x); [| destruct x eqn:E; [contradiction |]; rewrite <- E ]
  end.
  { apply in_or_app; right. apply in_or_app; right. apply in_or_app; right.
    apply in_or_app; left. destruct notes; [contradiction | now left]. }
  cbn [to_s]. apply (contains_join _ _ _ seg); [| exact Hseg].
  rewrite E. exact Hs'.
Qed.

(** C6 as stated fails: with a mobile marker next to the Opera and MSIE
    markers the name is "Opera Mobile" and no note is made. *)
Lemma C6_counterexample :
  exists p,
    parse bare (IStr "Opera MSIE Mobi") = Ok p
    /\ p_name p = JStr "Opera Mobile"
    /\ p_description p = JStr "Opera Mobile"
    /\ Str.contains "identifying as IE" (to_s (p_description p)) = false.
Proof.
  eexists. split; [vm_compute; reflexivity |]. repeat split.
Qed.

Lemma C6_opera_identifying_as_IE_witness :
  exists p,
    parse bare (IStr "Opera MSIE") = Ok p
    /\ p_name p = JStr "Opera"
    /\ Str.contains "identifying as IE" (to_s (p_description p)) = true.
Proof.
  eexists. split; [vm_compute; reflexivity |].
  eapply (C6_opera_identifying_as_IE bare "Opera MSIE").
  - reflexivity.
  - vm_compute; reflexivity.
  - vm_compute; reflexivity.
  - reflexivity.
  - vm_compute; reflexivity.
  - vm_compute; reflexivity.
  - vm_compute; reflexivity.
  - vm_compute; reflexivity.
  - vm_compute; reflexivity.
  - vm_compute; reflexivity.
  - vm_compute; reflexivity.
  - reflexivity.
  - vm_compute; reflexivity.
Defined.

(* ------------------------------------------------------------------ *)
(** ** Windows kernel versions with two editions *)

(** *** Patterns that match finitely many texts *)

(** The texts a pattern made of code units, sequences, alternatives and
    assertions can match, as the pattern spells them; [None] for any other
    pattern. *)
Fixpoint words (r : Re.regex) : option (list string) :=
  match r with
  | Re.REmpty | Re.RBol | Re.REol | Re.RWordB _ => Some [EmptyString]
  | Re.RChar c => Some [String c EmptyString]
  | Re.RSeq a b =>
      match words a, words b with
      | Some x, Some y => Some (flat_map (fun u => map (append u) y) x)
      | _, _ => None
      end
  | Re.RAlt a b =>
      match words a, words b with
      | Some x, Some y => Some (x ++ y)%list
      | _, _ => None
      end
  | _ => None
  end.

(** [t] is [w], code unit by code unit, modulo [canon]. *)
Fixpoint same_text (ic : bool) (t w : string) : Prop :=
  match t, w with
  | EmptyString, EmptyString => True
  | String x t', String c w' => Re.canon ic x = Re.canon ic c /\ same_text ic t' w'
  | _, _ => False
  end.

(** The spellings of [w] in upper and lower case. *)
Fixpoint variants (w : string) : list string :=
  match w with
  | EmptyString => [EmptyString]
  | String c w' =>
      flat_map (fun v => [String (Str.upper c) v; String (Str.lower c) v]) (variants w')
  end.

Lemma same_text_app ic t1 w1 t2 w2 :
  same_text ic t1 w1 -> same_text ic t2 w2 -> same_text ic (t1 ++ t2) (w1 ++ w2).
Proof.
  revert w1. induction t1 as [| x t1 IH]; intros [| c w1]; cbn [same_text append];
    try contradiction; [tauto |].
  intros (Hx & H1) H2. split; [exact Hx | now apply IH].
Qed.

Lemma last_of_app prev t1 t2 :
  Re.last_of prev (t1 ++ t2) = Re.last_of (Re.last_of prev t1) t2.
Proof. revert prev. induction t1 as [| c t1 IH]; intro prev; cbn; [reflexivity | apply IH]. Qed.

(** A match of such a pattern consumes one of its texts. *)
Lemma m_words ic : forall r ws,
  words r = Some ws ->
  forall (k : Re.cont) st res,
    Re.m ic r k st = Some res ->
    exists t w rest',
      In w ws /\ same_text ic t w
      /\ Re.m_rest st = t ++ rest'
      /\ k (Re.MState (Re.m_pos st + String.length t) (Re.last_of (Re.m_prev st) t)
              rest' (Re.m_caps st)) = Some res.
Proof.
  assert (Hnil : forall (k : Re.cont) st res, k st = Some res ->
            exists t w rest',
              In w [EmptyString] /\ same_text ic t w
              /\ Re.m_rest st = t ++ rest'
              /\ k (Re.MState (Re.m_pos st + String.length t)
                      (Re.last_of (Re.m_prev st) t) rest' (Re.m_caps st)) = Some res).
  { intros k [pos prev rest caps] res H. exists EmptyString, EmptyString, rest.
    cbn. rewrite Nat.add_0_r. auto. }
  induction r as [| c | | | r1 IH1 r2 IH2 | r1 IH1 r2 IH2 | | | | | | |];
    intros ws Hw k st res H; cbn [words] in Hw; try discriminate.
  - inversion Hw; subst. now apply Hnil.
  - inversion Hw; subst ws; clear Hw. cbn [Re.m] in H. unfold Re.step1 in H.
    destruct st as [pos prev rest caps]. cbn [Re.m_rest Re.m_pos Re.m_caps Re.m_prev] in *.
    destruct rest as [| x rest']; [discriminate |].
    destruct (Ascii.eqb (Re.canon ic x) (Re.canon ic c)) eqn:E; [| discriminate].
    apply Ascii.eqb_eq in E.
    exists (String x EmptyString), (String c EmptyString), rest'.
    cbn. rewrite Nat.add_1_r. auto.
  - destruct (words r1) as [x |]; [| discriminate].
    destruct (words r2) as [y |]; [| discriminate].
    inversion Hw; subst ws; clear Hw. cbn [Re.m] in H.
    destruct (IH1 x eq_refl _ _ _ H) as (t1 & w1 & rest1 & In1 & S1 & R1 & H1).
    destruct (IH2 y eq_refl _ _ _ H1) as (t2 & w2 & rest2 & In2 & S2 & R2 & H2).
    cbn [Re.m_rest Re.m_pos Re.m_caps Re.m_prev] in *.
    exists (t1 ++ t2), (w1 ++ w2), rest2. repeat split.
    + apply in_flat_map. exists w1. split; [exact In1 |]. now apply in_map.
    + now apply same_text_app.
    + rewrite R1, R2. symmetry. apply ReFacts.append_assoc.
    + rewrite ReFacts.append_length, last_of_app, Nat.add_assoc. exact H2.
  - destruct (words r1) as [x |]; [| discriminate].
    destruct (words r2) as [y |]; [| discriminate].
    inversion Hw; subst ws; clear Hw. cbn [Re.m] in H. unfold Re.orelse in H.
    destruct (Re.m ic r1 k st) as [s1 |] eqn:E1.
    + rewrite H in E1. destruct (IH1 x eq_refl _ _ _ E1) as (t & w & rest' & Hin & Hrest).
      exists t, w, rest'. split; [apply in_or_app; now left | exact Hrest].
    + destruct (IH2 y eq_refl _ _ _ H) as (t & w & rest' & Hin & Hrest).
      exists t, w, rest'. split; [apply in_or_app; now right | exact Hrest].
  - inversion Hw; subst. cbn [Re.m] in H.
    destruct (Nat.eqb (Re.m_pos st) 0); [now apply Hnil | discriminate].
  - inversion Hw; subst. cbn [Re.m] in H.
    pose proof (Hnil k st res) as G.
    destruct (Re.m_rest st); [apply G; exact H | discriminate].
  - inversion Hw; subst. cbn [Re.m] in H.
    destruct (xorb _ _); [now apply Hnil | discriminate].
Qed.

Lemma search_words ic r ws :
  words r = Some ws ->
  forall rest pos prev mr,
    Re.search ic r pos prev rest = Some mr ->
    exists w, In w ws /\ same_text ic (Re.mr_text mr) w.
Proof.
  intro Hw. induction rest as [| c rest IH]; intros pos prev mr; cbn [Re.search];
    destruct (Re.m ic r (fun s => Some s) (Re.MState pos prev _ [])) as [st' |] eqn:E;
    intro H; try discriminate; try (now apply IH in H).
  all: inversion H; subst mr; clear H; cbn [Re.mr_text];
    destruct (m_words ic r ws Hw _ _ _ E) as (t & w & rest' & Hin & Hs & Hr & Hk);
    cbn [Re.m_rest Re.m_pos] in *; inversion Hk; subst st'; clear Hk;
    cbn [Re.m_pos]; exists w; split; [exact Hin |];
    replace (pos + String.length t - pos) with (String.length t) by lia;
    rewrite Hr, ReFacts.take_app; exact Hs.
Qed.

Lemma upper_cases (c : ascii) : c = Str.upper c \/ c = Str.lower (Str.upper c).
Proof. destruct c as [[] [] [] [] [] [] [] []]; cbn; auto. Qed.

Lemma lower_upper (c : ascii) : Str.lower (Str.upper c) = Str.lower c.
Proof. destruct c as [[] [] [] [] [] [] [] []]; reflexivity. Qed.

Lemma same_text_variants t : forall w, same_text true t w -> In t (variants w).
Proof.
  induction t as [| x t IH]; intros [| c w]; cbn [same_text variants]; try contradiction.
  - intros _. now left.
  - intros (Hx & Ht). apply in_flat_map. exists t. split; [now apply IH |].
    unfold Re.canon in Hx. cbn [In].
    destruct (upper_cases x) as [E | E]; rewrite E, Hx; [now left | right; left].
    now rewrite lower_upper.
Qed.

(** The 64-bit tokens: every match of the pattern is one of these
    spellings. *)
Definition tokens64 : list string :=
  match words (Re.re_ast (rei "\b(?:AMD|IA|Win|WOW|x86_|x)64\b")) with
  | Some ws => flat_map variants ws
  | None => []
  end.

Lemma exec_tokens64 (v : jv) (data : Re.match_result) :
  exec (rei "\b(?:AMD|IA|Win|WOW|x86_|x)64\b") v = Some data ->
  In (Re.mr_text data) tokens64.
Proof.
  unfold exec, Re.rexec, Re.exec, tokens64.
  destruct (words (Re.re_ast (rei "\b(?:AMD|IA|Win|WOW|x86_|x)64\b"))) as [ws |] eqn:Hw;
    [| vm_compute in Hw; discriminate].
  replace (Re.re_ic (rei "\b(?:AMD|IA|Win|WOW|x86_|x)64\b")) with true
    by (vm_compute; reflexivity).
  intro H. apply (search_words _ _ _ Hw) in H. destruct H as (w & Hin & Hs).
  apply in_flat_map. exists w. split; [exact Hin | now apply same_text_variants].
Qed.

(** The kernel versions that the token table maps to two editions, with
    the names of the two. *)
Definition dual_editions : list (string * string) :=
  filter (fun kv => Str.contains " / " (snd kv)) windowsTokens.

(** Taking a 64-bit token out of the family leaves a dual name as it is. *)
Lemma dual_family_kept :
  forallb
    (fun kv =>
       forallb
         (fun d =>
            match Re.RegExp (" *" ++ d) false with
            | Some r => String.eqb (Re.replace r "" ("Windows " ++ snd kv))
                          ("Windows " ++ snd kv)
            | None => true
            end) tokens64) dual_editions = true.
Proof. vm_compute. reflexivity. Qed.

Lemma add_architecture_family ua nav uf l a fam v special l' o' :
  (forall d r, In d tokens64 -> Re.RegExp (" *" ++ d) false = Some r ->
               Re.replace r "" fam = fam) ->
  add_architecture ua nav uf l (Some (OSInfo a fam v special)) = Ok (l', o') ->
  exists a', o' = Some (OSInfo a' fam v special).
Proof.
  intros Hkept. unfold add_architecture.
  fold (chrome39_on_osx l fam).
  destruct (exec (rei "\b(?:AMD|IA|Win|WOW|x86_|x)64\b") (arch l)) as [d |] eqn:E;
    [destruct (negb (test (rei "\bi686\b") (arch l))) |].
  - intro H. apply bind_Ok in H. destruct H as (o1 & Ho & H).
    apply bind_Ok in Ho. destruct Ho as (r & Hr & Ho).
    inversion Ho; subst o1; clear Ho. inversion H; subst; clear H.
    exists 64. do 2 f_equal.
    apply exec_tokens64 in E. apply (Hkept _ _ E).
    unfold RegExp in Hr.
    destruct (Re.RegExp (" *" ++ Re.mr_text d) false) as [r0 |]; [| discriminate].
    now inversion Hr.
  - intro H. inversion H; subst.
    destruct (chrome39_on_osx l' fam); eexists; reflexivity.
  - intro H. inversion H; subst.
    destruct (chrome39_on_osx l' fam); eexists; reflexivity.
Qed.

Lemma add_architecture_dual ua nav uf l a ver dual v special l' o' :
  In (ver, dual) dual_editions ->
  add_architecture ua nav uf l (Some (OSInfo a ("Windows " ++ dual) v special))
  = Ok (l', o') ->
  exists a', o' = Some (OSInfo a' ("Windows " ++ dual) v special).
Proof.
  intros Hin. apply add_architecture_family. intros d r Hd Hr.
  pose proof dual_family_kept as K. rewrite forallb_forall in K.
  specialize (K _ Hin). cbn [snd] in K. rewrite forallb_forall in K.
  specialize (K _ Hd). rewrite Hr in K. now apply String.eqb_eq in K.
Qed.

(** The OS object of a dual name keeps the whole name as its family. *)
Lemma os_object_dual l ver dual :
  In (ver, dual) dual_editions ->
  os l = JStr ("Windows " ++ dual) ->
  exists v special, os_object l = Some (OSInfo 32 ("Windows " ++ dual) v special).
Proof.
  intros Hin Hos. unfold os_object. rewrite Hos.
  change dual_editions with
    [("6.1", "Server 2008 R2 / 7"); ("6.0", "Server 2008 / Vista");
     ("5.2", "Server 2003 / XP 64-bit")] in Hin.
  destruct Hin as [E | [E | [E | []]]]; inversion E; subst;
    do 2 eexists; vm_compute; reflexivity.
Qed.

Lemma parse_family_dual root arg p l ver dual :
  In (ver, dual) dual_editions ->
  parse root arg = Ok p ->
  parse_locals root arg = Ok l ->
  os l = JStr ("Windows " ++ dual) ->
  os_family (p_os p) = JStr ("Windows " ++ dual).
Proof.
  intros Hin H Hl Hos. rewrite parse_unfold, Hl in H. cbn [bind] in H.
  apply finish_Ok in H. destruct H as (l' & o' & Ha & ->).
  rewrite make_platform_os.
  destruct (annotate_fields l) as (_ & _ & Ho & _).
  rewrite (os_object_same l (annotate l) Ho) in Ha.
  destruct (os_object_dual l ver dual Hin Hos) as (v & special & E).
  rewrite E in Ha. apply (add_architecture_dual _ _ _ _ _ ver) in Ha; [| exact Hin].
  destruct Ha as (a' & ->). reflexivity.
Qed.

(** *** The OS picker on a Windows token *)

(** The pattern of an OS entry compiles and does not match [ua]. *)
Definition no_hit (ua : string) (g : guess) : bool :=
  match Re.RegExp ("\b" ++ pattern_of g ++ "(?:/[\d.]+|[ \w.]*)") true with
  | Some r => negb (Re.rtest r ua)
  | None => false
  end.

Lemma os_of_no_hit ua g : no_hit ua g = true -> os_of ua g = Ok JNull.
Proof.
  unfold no_hit, os_of, RegExp.
  destruct (Re.RegExp ("\b" ++ pattern_of g ++ "(?:/[\d.]+|[ \w.]*)") true) as [r |];
    [| discriminate].
  cbn [bind]. unfold Re.rtest, Re.test. fold (Re.rexec r ua).
  destruct (Re.rexec r ua); [discriminate | reflexivity].
Qed.

Lemma first_yield_skip {V : Type} (yield : V -> outcome jv) (a b : list V) :
  (forall g, In g a -> yield g = Ok JNull) ->
  first_yield yield JNull (a ++ b) = first_yield yield JNull b.
Proof.
  induction a as [| g a IH]; intro H; [reflexivity |].
  cbn [app first_yield]. rewrite (H g (or_introl eq_refl)). cbn [bind truthy].
  apply IH. intros g' Hg'. apply H. now right.
Qed.

Lemma cleanupOS_dual (t : string) (mk : Re.match_result) (dual : string) :
  Re.rtest (rei "^Win") t = true ->
  Re.rtest (rei "^Windows Phone ") t = false ->
  Re.rexec (re "[\d.]+$") t = Some mk ->
  In (Re.mr_text mk, dual) dual_editions ->
  cleanupOS t (JStr "Windows ") (JStr "Windows ") = Ok ("Windows " ++ dual).
Proof.
  intros Hwin Hphone Hk Hin. unfold cleanupOS. rewrite Hwin, Hphone, Hk.
  change dual_editions with
    [("6.1", "Server 2008 R2 / 7"); ("6.0", "Server 2008 / Vista");
     ("5.2", "Server 2003 / XP 64-bit")] in Hin.
  destruct Hin as [E | [E | [E | []]]]; injection E as Hv Hd; subst dual;
    rewrite <- Hv; vm_compute; reflexivity.
Qed.

Lemma getOS_dual (ua : string) (mr mk : Re.match_result) (dual : string) :
  forallb (no_hit ua) (removelast oses) = true ->
  Re.rexec (rei "\bWindows (?:/[\d.]+|[ \w.]*)") ua = Some mr ->
  Re.rtest (rei "^Win") (Re.mr_text mr) = true ->
  Re.rtest (rei "^Windows Phone ") (Re.mr_text mr) = false ->
  Re.rexec (re "[\d.]+$") (Re.mr_text mr) = Some mk ->
  In (Re.mr_text mk, dual) dual_editions ->
  getOS ua oses = Ok (JStr ("Windows " ++ dual)).
Proof.
  intros Hno Hmr Hwin Hphone Hk Hin.
  unfold getOS. rewrite reduce_first.
  change oses with (removelast oses ++ [GStr "Windows "])%list.
  rewrite first_yield_skip.
  2:{ intros g Hg. apply os_of_no_hit. rewrite forallb_forall in Hno. now apply Hno. }
  cbn [first_yield]. unfold os_of.
  change (pattern_of (GStr "Windows ")) with "Windows ".
  change (label_of (GStr "Windows ")) with "Windows ".
  replace (RegExp ("\b" ++ "Windows " ++ "(?:/[\d.]+|[ \w.]*)") true)
    with (Ok (rei "\bWindows (?:/[\d.]+|[ \w.]*)")) by (vm_compute; reflexivity).
  cbn [bind]. rewrite Hmr.
  replace (Re.match_string (rei "\bWindows (?:/[\d.]+|[ \w.]*)") mr) with (Re.mr_text mr)
    by reflexivity.
  rewrite (cleanupOS_dual _ mk dual Hwin Hphone Hk Hin). reflexivity.
Qed.

Lemma pick_os e l : pick e = Ok l -> getOS (e_ua e) oses = Ok (os l).
Proof.
  unfold pick. intro H.
  apply bind_Ok in H. destruct H as (la & _ & H).
  apply bind_Ok in H. destruct H as (n & _ & H).
  apply bind_Ok in H. destruct H as (pr & _ & H).
  apply bind_Ok in H. destruct H as (x & _ & H).
  apply bind_Ok in H. destruct H as (ma & _ & H).
  apply bind_Ok in H. destruct H as (o & Ho & H).
  inversion H. exact Ho.
Qed.

(** C8, as the code has it.  When no earlier entry of the OS list matches
    the input, and the text that the generic Windows entry matches starts
    with "Win", is not a Windows Phone token and ends in a kernel version
    that the token table maps to two editions, then the OS picker gives
    "Windows " followed by the dual name, joined by " / ", that is the OS
    the rules start from, and whenever the rules leave that OS in place
    the result reports it, whole, as [os.family]. *)
Theorem C8_dual_edition :
  forall (ua : string) (mr mk : Re.match_result) (dual : string),
    forallb (no_hit ua) (removelast oses) = true ->
    Re.rexec (rei "\bWindows (?:/[\d.]+|[ \w.]*)") ua = Some mr ->
    Re.rtest (rei "^Win") (Re.mr_text mr) = true ->
    Re.rtest (rei "^Windows Phone ") (Re.mr_text mr) = false ->
    Re.rexec (re "[\d.]+$") (Re.mr_text mr) = Some mk ->
    In (Re.mr_text mk, dual) dual_editions ->
    getOS ua oses = Ok (JStr ("Windows " ++ dual))
    /\ (forall (root : Host) (l0 : Locals),
          pick (setup root (IStr ua)) = Ok l0 -> os l0 = JStr ("Windows " ++ dual))
    /\ (forall (root : Host) (p : Platform) (l : Locals),
          parse root (IStr ua) = Ok p ->
          parse_locals root (IStr ua) = Ok l ->
          os l = JStr ("Windows " ++ dual) ->
          os_family (p_os p) = JStr ("Windows " ++ dual)).
Proof.
  intros ua mr mk dual Hno Hmr Hwin Hphone Hk Hin.
  assert (Hos : getOS ua oses = Ok (JStr ("Windows " ++ dual)))
    by (apply (getOS_dual ua mr mk); assumption).
  split; [exact Hos |]. split.
  - intros root l0 Hp. apply pick_os in Hp.
    assert (Hua : e_ua (setup root (IStr ua)) = ua).
    { cbn [setup e_ua ua_of]. destruct ua; [discriminate Hmr | reflexivity]. }
    rewrite Hua, Hos in Hp. now inversion Hp.
  - intros root p l Hp Hl Hosl.
    apply (parse_family_dual root (IStr ua) p l (Re.mr_text mk) dual); assumption.
Qed.

(** C8 as stated fails: the platform token of this input ends in 6.1 and
    the picker gives the dual name, but the product is an Xbox 360 and the
    rule for it clears the OS. *)
Lemma C8_counterexample :
  exists p,
    parse bare (IStr "MSIE 9.0; Windows NT 6.1; Xbox") = Ok p
    /\ getOS "MSIE 9.0; Windows NT 6.1; Xbox" oses
       = Ok (JStr "Windows Server 2008 R2 / 7")
    /\ p_product p = JStr "Xbox 360"
    /\ os_family (p_os p) = JNull.
Proof.
  eexists. split; [vm_compute; reflexivity |].
  split; [vm_compute; reflexivity |]. split; reflexivity.
Qed.

Lemma C8_dual_edition_witness :
  getOS "Windows NT 6.1" oses = Ok (JStr "Windows Server 2008 R2 / 7")
  /\ exists p,
       parse bare (IStr "Windows NT 6.1") = Ok p
       /\ os_family (p_os p) = JStr "Windows Server 2008 R2 / 7".
Proof.
  edestruct (C8_dual_edition "Windows NT 6.1") as (H1 & _ & H3).
  - vm_compute; reflexivity.
  - vm_compute; reflexivity.
  - vm_compute; reflexivity.
  - vm_compute; reflexivity.
  - vm_compute; reflexivity.
  - left. reflexivity.
  - split; [exact H1 |]. eexists. split; [vm_compute; reflexivity |].
    eapply (H3 bare); vm_compute; reflexivity.
Defined.

(* ------------------------------------------------------------------ *)
(** ** More of the program: invariants of the result, the helpers, the
    OS object and the gate of the environment features *)

(** *** The prerelease indicator *)

(** [prerelease] as the rules leave it: unset, or one of the two phases. *)
Definition phase (v : jv) : Prop := v = JNull \/ v = JStr "alpha" \/ v = JStr "beta".

(** One step in the proof that a rule leaves a field of the locals as it
    is: a case of the rule, or the end of a statement that may throw. *)
Ltac rule_step :=
  match goal with
  | H : Ok _ = Ok _ |- _ => inversion H; subst; clear H
  | H : Throw _ = Ok _ |- _ => discriminate H
  | H : OutOfFuel = Ok _ |- _ => discriminate H
  | H : bind _ _ = Ok _ |- _ => apply bind_Ok in H; destruct H as (? & ? & H)
  | H : (if ?c then _ else _) = Ok _ |- _ => destruct c
  | H : match ?x with _ => _ end = Ok _ |- _ => destruct x
  | |- context [if ?c then _ else _] => destruct c
  | |- context [match ?x with _ => _ end] => destruct x
  end.

Ltac rule_cases :=
  cbv zeta; intros; repeat rule_step; try reflexivity;
  unfold set_layout1; repeat rule_step; try reflexivity.

Lemma prerelease_detect_android_product ua l :
  prerelease (detect_android_product ua l) = prerelease l.
Proof. unfold detect_android_product. rule_cases. Qed.

Lemma prerelease_detect_manufacturer_product ua l l' :
  detect_manufacturer_product ua l = Ok l' -> prerelease l' = prerelease l.
Proof. unfold detect_manufacturer_product. rule_cases. Qed.

Lemma prerelease_cleanup_google_tv l : prerelease (cleanup_google_tv l) = prerelease l.
Proof. unfold cleanup_google_tv. rule_cases. Qed.

Lemma prerelease_detect_simulators ua l : prerelease (detect_simulators ua l) = prerelease l.
Proof. unfold detect_simulators. rule_cases. Qed.

Lemma prerelease_detect_opera_mini_turbo ua l :
  prerelease (detect_opera_mini_turbo ua l) = prerelease l.
Proof. unfold detect_opera_mini_turbo. rule_cases. Qed.

Lemma prerelease_detect_browsers self ua l l' :
  detect_browsers self ua l = Ok l' -> prerelease l' = prerelease l.
Proof. unfold detect_browsers. rule_cases. Qed.

Lemma prerelease_detect_version ua l l' :
  detect_version ua l = Ok l' -> prerelease l' = prerelease l.
Proof. unfold detect_version. rule_cases. Qed.

Lemma prerelease_detect_stubborn_layouts ua l :
  prerelease (detect_stubborn_layouts ua l) = prerelease l.
Proof. unfold detect_stubborn_layouts. rule_cases. Qed.

Lemma prerelease_detect_windows_phone ua l :
  prerelease (detect_windows_phone ua l) = prerelease l.
Proof. unfold detect_windows_phone. rule_cases. Qed.

Lemma prerelease_detect_server_side context java rhino l :
  prerelease (detect_server_side context java rhino l) = prerelease l.
Proof. unfold detect_server_side. rule_cases. Qed.

Lemma prerelease_leverage_features context custom ua uf java rhino l :
  prerelease (leverage_features context custom ua uf java rhino l) = prerelease l.
Proof.
  unfold leverage_features. destruct uf; [| reflexivity].
  destruct (global context).
  - pose proof (prerelease_detect_server_side context java rhino l) as H.
    destruct (truthy (os (detect_server_side context java rhino l))); exact H.
  - rule_cases.
Qed.

Lemma phase_detect_prerelease ua nav uf alpha beta l l' :
  detect_prerelease ua nav uf alpha beta l = Ok l' ->
  phase (prerelease l) -> phase (prerelease l').
Proof.
  unfold detect_prerelease, phase. cbv zeta.
  match goal with
  | |- match ?d with Some _ => _ | None => _ end = _ -> _ => destruct d as [data |]
  end.
  - intro H. apply bind_Ok in H. destruct H as (r & _ & H).
    inversion H; subst; clear H. cbn [prerelease set_prerelease set_version].
    destruct (Re.rtest (rei "b") data); auto.
  - intro H. inversion H; subst. auto.
Qed.

Lemma prerelease_apply_masking uf operaClass d l :
  prerelease (apply_masking uf operaClass d l) = prerelease l.
Proof. unfold apply_masking. rule_cases. Qed.

Lemma prerelease_detect_mobile_and_masking self context this ua uf opera operaClass l l' :
  detect_mobile_and_masking self context this ua uf opera operaClass l = Ok l' ->
  prerelease l' = prerelease l.
Proof.
  unfold detect_mobile_and_masking. rule_cases; apply prerelease_apply_masking.
Qed.

Lemma phase_detect_webkit ua uf lc l :
  phase (prerelease l) -> phase (prerelease (detect_webkit ua uf lc l)).
Proof.
  destruct l as [n v o lay pr ma de pre ar]. cbn [prerelease]. intro H.
  unfold detect_webkit.
  destruct (capture 1 (Re.rexec (rei "\bAppleWebKit\/([\d.]+\+?)") ua)) as [| | | build];
    try exact H.
  destruct (Str.nonempty build); [| exact H].
  cbn [name version layout set_version set_name set_prerelease].
  set (safari := capture 1 (Re.rexec (rei "\bSafari\/([\d.]+\+?)") ua)).
  set (data1 := capture 1 (Re.rexec (rei "\b(?:Headless)?Chrome\/([\d.]+)") ua)).
  set (data0 := Num.parseFloat _).
  clearbody safari data1 data0.
  destruct (eqs n "Safari" && String.eqb (Str.last_char build) "+")%bool;
    [| destruct (loose_eq v (JStr build)); [| destruct (loose_eq v safari)]];
    cbv beta iota zeta;
    (match goal with
     | |- context [if ?c then set_layout (Some ("Blink", None)) _ else _] => destruct c
     end);
    (destruct (negb uf || _)%bool; cbv beta iota zeta);
    destruct lay as [[l0 l1] |];
    cbn [name os description version layout set_version set_layout set_layout1 has_layout];
    repeat match goal with
           | |- context [if ?c then _ else _] => destruct c
           end;
    cbn [prerelease set_version unshift set_description]; unfold phase; auto.
Qed.

Lemma prerelease_detect_desktop_modes ua l l' :
  detect_desktop_modes ua l = Ok l' -> prerelease l' = prerelease l.
Proof. unfold detect_desktop_modes. rule_cases. Qed.

Lemma prerelease_strip_os_version ua l l' :
  strip_os_version ua l = Ok l' -> prerelease l' = prerelease l.
Proof. unfold strip_os_version. rule_cases. Qed.

Lemma prerelease_strip_name_from_os l l' :
  strip_name_from_os l = Ok l' -> prerelease l' = prerelease l.
Proof. unfold strip_name_from_os. rule_cases. Qed.

Lemma prerelease_pick e l : pick e = Ok l -> prerelease l = JNull.
Proof.
  unfold pick. intro H.
  repeat (apply bind_Ok in H; destruct H as (? & _ & H)).
  inversion H. reflexivity.
Qed.

Lemma phase_resolve self context custom this ua nav uf lc java rhino alpha beta opera
    operaClass l l' :
  resolve self context custom this ua nav uf lc java rhino alpha beta opera operaClass l
  = Ok l' ->
  phase (prerelease l) -> phase (prerelease l').
Proof.
  unfold resolve, resolve_first, resolve_rest. cbv zeta. intros H Hl.
  apply bind_Ok in H. destruct H as (l5 & H & Hrest).
  apply bind_Ok in H. destruct H as (l1 & H1 & H).
  apply bind_Ok in H. destruct H as (l2 & H2 & H).
  apply bind_Ok in H. destruct H as (l3 & H3 & H4).
  apply bind_Ok in Hrest. destruct Hrest as (l6 & H6 & Hrest).
  apply bind_Ok in Hrest. destruct Hrest as (l7 & H7 & Hrest).
  apply bind_Ok in Hrest. destruct Hrest as (l8 & H8 & H9).
  apply prerelease_detect_manufacturer_product in H1.
  rewrite prerelease_detect_android_product in H1.
  apply prerelease_detect_browsers in H2.
  rewrite prerelease_detect_opera_mini_turbo, prerelease_detect_simulators,
    prerelease_cleanup_google_tv in H2.
  apply prerelease_detect_version in H3.
  apply phase_detect_prerelease in H4.
  2:{ rewrite prerelease_leverage_features, prerelease_detect_windows_phone,
        prerelease_detect_stubborn_layouts. congruence. }
  apply prerelease_detect_mobile_and_masking in H6.
  apply prerelease_detect_desktop_modes in H7.
  apply prerelease_strip_os_version in H8.
  apply prerelease_strip_name_from_os in H9.
  rewrite H9, H8, H7. apply phase_detect_webkit. congruence.
Qed.

(** X1: the prerelease indicator of a result is null, "alpha" or "beta". *)
Theorem X1_prerelease_phase :
  forall (root : Host) (arg : input) (p : Platform),
    parse root arg = Ok p ->
    p_prerelease p = JNull \/ p_prerelease p = JStr "alpha" \/ p_prerelease p = JStr "beta".
Proof.
  intros root arg p H. rewrite parse_unfold in H.
  apply bind_Ok in H. destruct H as (l & Hl & H).
  unfold parse_locals, resolved in Hl. apply bind_Ok in Hl. destruct Hl as (l0 & H0 & Hl).
  apply prerelease_pick in H0. unfold resolve_in in Hl.
  apply phase_resolve in Hl; [| left; exact H0].
  apply finish_Ok in H. destruct H as (l' & o' & Ha & ->).
  apply add_architecture_description in Ha. destruct Ha as (_ & Hsame).
  destruct (annotate_fields l) as (_ & _ & _ & _ & _ & _ & Ar & _).
  destruct Hsame as (_ & _ & _ & _ & _ & _ & Br & _).
  change (p_prerelease (make_platform (e_ua (setup root arg)) l' o')) with (prerelease l').
  rewrite Br, Ar. exact Hl.
Qed.

Lemma X1_prerelease_phase_witness :
  exists p,
    parse bare (IStr "Firefox/3.0b1") = Ok p
    /\ (p_prerelease p = JNull \/ p_prerelease p = JStr "alpha"
        \/ p_prerelease p = JStr "beta").
Proof.
  eexists. split; [vm_compute; reflexivity |].
  apply (X1_prerelease_phase bare (IStr "Firefox/3.0b1")). vm_compute. reflexivity.
Defined.

(** *** The layout engine *)

(** The layout engines a result can name: the labels of the layout list,
    and Blink. *)
Definition engines : list string := "Blink" :: map label_of layouts.

Definition engine (lay : option (string * option string)) : Prop :=
  match lay with
  | Some (l0, _) => In l0 engines
  | None => True
  end.

Lemma engine_const (x : string) (d : option string) :
  existsb (String.eqb x) engines = true -> engine (Some (x, d)).
Proof.
  intro H. apply existsb_exists in H. destruct H as (y & Hy & E).
  apply String.eqb_eq in E. subst y. exact Hy.
Qed.

(** The end of a case of a rule: the layout is the one before the rule, or
    one of the engines the rules name. *)
Ltac engine_done :=
  cbn [layout set_name set_version set_os set_layout set_product set_manufacturer
       set_description set_prerelease set_arch push unshift];
  first [ assumption | exact I | apply engine_const; reflexivity
        | cbn [engine] in *; assumption ].

Ltac engine_cases := cbv zeta; intros; repeat rule_step; try engine_done.

Lemma engine_detect_android_product ua l :
  engine (layout l) -> engine (layout (detect_android_product ua l)).
Proof. unfold detect_android_product. engine_cases. Qed.

Lemma engine_detect_manufacturer_product ua l l' :
  detect_manufacturer_product ua l = Ok l' -> engine (layout l) -> engine (layout l').
Proof. unfold detect_manufacturer_product. engine_cases. Qed.

Lemma engine_cleanup_google_tv l :
  engine (layout l) -> engine (layout (cleanup_google_tv l)).
Proof. unfold cleanup_google_tv. engine_cases. Qed.

Lemma engine_detect_simulators ua l :
  engine (layout l) -> engine (layout (detect_simulators ua l)).
Proof. unfold detect_simulators. engine_cases. Qed.

Lemma engine_detect_opera_mini_turbo ua l :
  engine (layout l) -> engine (layout (detect_opera_mini_turbo ua l)).
Proof. unfold detect_opera_mini_turbo. engine_cases. Qed.

Lemma engine_detect_browsers self ua l l' :
  detect_browsers self ua l = Ok l' -> engine (layout l) -> engine (layout l').
Proof. unfold detect_browsers. engine_cases. Qed.

Lemma engine_detect_version ua l l' :
  detect_version ua l = Ok l' -> engine (layout l) -> engine (layout l').
Proof. unfold detect_version. engine_cases. Qed.

Lemma engine_detect_stubborn_layouts ua l :
  engine (layout l) -> engine (layout (detect_stubborn_layouts ua l)).
Proof. unfold detect_stubborn_layouts. engine_cases. Qed.

Lemma engine_detect_windows_phone ua l :
  engine (layout l) -> engine (layout (detect_windows_phone ua l)).
Proof. unfold detect_windows_phone. engine_cases. Qed.

Lemma engine_set_layout1 x l : engine (layout l) -> engine (layout (set_layout1 x l)).
Proof. unfold set_layout1. destruct (layout l) as [[l0 l1] |] eqn:E; intro H; [exact H | now rewrite E]. Qed.

Lemma engine_detect_server_side context java rhino l :
  engine (layout l) -> engine (layout (detect_server_side context java rhino l)).
Proof. unfold detect_server_side. engine_cases. Qed.

Lemma engine_leverage_features context custom ua uf java rhino l :
  engine (layout l) ->
  engine (layout (leverage_features context custom ua uf java rhino l)).
Proof.
  intro H. unfold leverage_features. destruct uf; [| exact H].
  destruct (global context).
  - pose proof (engine_detect_server_side context java rhino l H) as H'.
    destruct (truthy (os (detect_server_side context java rhino l))); exact H'.
  - destruct l as [n v o [[l0 l1] |] pr ma de pre ar]; cbn [layout] in H;
      cbv zeta; repeat rule_step;
      cbn [layout name os set_name set_version set_os set_layout set_layout1 set_product
           set_manufacturer set_description set_prerelease set_arch push unshift];
      first [exact H | exact I | apply engine_const; reflexivity].
Qed.

Lemma engine_detect_prerelease ua nav uf alpha beta l l' :
  detect_prerelease ua nav uf alpha beta l = Ok l' ->
  engine (layout l) -> engine (layout l').
Proof.
  unfold detect_prerelease. cbv zeta.
  match goal with
  | |- match ?d with Some _ => _ | None => _ end = _ -> _ => destruct d as [data |]
  end; engine_cases.
Qed.

Lemma engine_apply_masking uf operaClass d l :
  engine (layout (apply_masking uf operaClass d l)).
Proof. unfold apply_masking. engine_cases. Qed.

Lemma engine_detect_mobile_and_masking self context this ua uf opera operaClass l l' :
  detect_mobile_and_masking self context this ua uf opera operaClass l = Ok l' ->
  engine (layout l) -> engine (layout l').
Proof.
  unfold detect_mobile_and_masking. engine_cases; apply engine_apply_masking.
Qed.

Lemma engine_detect_webkit ua uf lc l :
  engine (layout l) -> engine (layout (detect_webkit ua uf lc l)).
Proof.
  destruct l as [n v o lay pr ma de pre ar]. cbn [layout]. intro H.
  unfold detect_webkit.
  destruct (capture 1 (Re.rexec (rei "\bAppleWebKit\/([\d.]+\+?)") ua)) as [| | | build];
    try exact H.
  destruct (Str.nonempty build); [| exact H].
  cbn [name version layout set_version set_name set_prerelease].
  set (safari := capture 1 (Re.rexec (rei "\bSafari\/([\d.]+\+?)") ua)).
  set (data1 := capture 1 (Re.rexec (rei "\b(?:Headless)?Chrome\/([\d.]+)") ua)).
  set (data0 := Num.parseFloat _).
  clearbody safari data1 data0.
  destruct (eqs n "Safari" && String.eqb (Str.last_char build) "+")%bool;
    [| destruct (loose_eq v (JStr build)); [| destruct (loose_eq v safari)]];
    cbv beta iota zeta;
    (match goal with
     | |- context [if ?c then set_layout (Some ("Blink", None)) _ else _] => destruct c
     end);
    (destruct (negb uf || _)%bool; cbv beta iota zeta);
    destruct lay as [[l0 l1] |];
    cbn [name os description version layout set_version set_layout set_layout1 has_layout];
    repeat match goal with
           | |- context [if ?c then _ else _] => destruct c
           end;
    cbn [layout set_version unshift set_description engine] in *;
    first [exact H | exact I | vm_compute; tauto].
Qed.

Lemma engine_detect_desktop_modes ua l l' :
  detect_desktop_modes ua l = Ok l' -> engine (layout l) -> engine (layout l').
Proof. unfold detect_desktop_modes. engine_cases. Qed.

Lemma engine_strip_os_version ua l l' :
  strip_os_version ua l = Ok l' -> engine (layout l) -> engine (layout l').
Proof. unfold strip_os_version. engine_cases. Qed.

Lemma engine_strip_name_from_os l l' :
  strip_name_from_os l = Ok l' -> engine (layout l) -> engine (layout l').
Proof. unfold strip_name_from_os. engine_cases. Qed.

Lemma earliest_label_in hit (l : list guess) :
  earliest_label hit l = JNull
  \/ exists g, In g l /\ earliest_label hit l = JStr (label_of g).
Proof.
  induction l as [| g rest IH]; cbn [earliest_label]; [now left |].
  destruct (hit g).
  - right. exists g. split; [now left | reflexivity].
  - destruct IH as [E | (g' & Hin & E)]; [now left |].
    right. exists g'. split; [now right | exact E].
Qed.

Lemma Ok_inj {A : Type} (a b : A) : Ok a = Ok b -> a = b.
Proof. intro H. now inversion H. Qed.

Lemma engine_pick e l : pick e = Ok l -> engine (layout l).
Proof.
  unfold pick. intro H.
  apply bind_Ok in H. destruct H as (lay & Hlay & H).
  repeat (apply bind_Ok in H; destruct H as (? & _ & H)).
  apply Ok_inj in H. subst l. cbn [layout].
  rewrite getLayout_earliest in Hlay by (vm_compute; reflexivity).
  apply Ok_inj in Hlay. subst lay.
  destruct (earliest_label_in (matches_word (e_ua e)) layouts) as [E | (g & Hin & E)];
    rewrite E; cbn [truthy]; [exact I |].
  destruct (Str.nonempty (label_of g)); [| exact I].
  cbn [engine to_s]. right. now apply in_map.
Qed.

Lemma engine_resolve self context custom this ua nav uf lc java rhino alpha beta opera
    operaClass l l' :
  resolve self context custom this ua nav uf lc java rhino alpha beta opera operaClass l
  = Ok l' ->
  engine (layout l) -> engine (layout l').
Proof.
  unfold resolve, resolve_first, resolve_rest. cbv zeta. intros H Hl.
  apply bind_Ok in H. destruct H as (l5 & H & Hrest).
  apply bind_Ok in H. destruct H as (l1 & H1 & H).
  apply bind_Ok in H. destruct H as (l2 & H2 & H).
  apply bind_Ok in H. destruct H as (l3 & H3 & H4).
  apply bind_Ok in Hrest. destruct Hrest as (l6 & H6 & Hrest).
  apply bind_Ok in Hrest. destruct Hrest as (l7 & H7 & Hrest).
  apply bind_Ok in Hrest. destruct Hrest as (l8 & H8 & H9).
  apply engine_detect_android_product with (ua := ua) in Hl.
  apply (engine_detect_manufacturer_product _ _ _ H1) in Hl.
  apply engine_cleanup_google_tv, (engine_detect_simulators ua),
    (engine_detect_opera_mini_turbo ua) in Hl.
  apply (engine_detect_browsers _ _ _ _ H2) in Hl.
  apply (engine_detect_version _ _ _ H3) in Hl.
  apply (engine_detect_stubborn_layouts ua), (engine_detect_windows_phone ua),
    (engine_leverage_features context custom ua uf java rhino) in Hl.
  apply (engine_detect_prerelease _ _ _ _ _ _ _ H4) in Hl.
  apply (engine_detect_mobile_and_masking _ _ _ _ _ _ _ _ _ H6) in Hl.
  apply (engine_detect_webkit ua uf lc) in Hl.
  apply (engine_detect_desktop_modes _ _ _ H7) in Hl.
  apply (engine_strip_os_version _ _ _ H8) in Hl.
  apply (engine_strip_name_from_os _ _ H9) in Hl. exact Hl.
Qed.

(** X2: the layout engine of a result is null, or Blink, or the label of
    an entry of the list of layout engines. *)
Theorem X2_layout_is_an_engine :
  forall (root : Host) (arg : input) (p : Platform),
    parse root arg = Ok p ->
    p_layout p = JNull \/ exists x, p_layout p = JStr x /\ In x engines.
Proof.
  intros root arg p H. rewrite parse_unfold in H.
  apply bind_Ok in H. destruct H as (l & Hl & H).
  unfold parse_locals, resolved in Hl. apply bind_Ok in Hl. destruct Hl as (l0 & H0 & Hl).
  apply engine_pick in H0. unfold resolve_in in Hl.
  apply engine_resolve in Hl; [| exact H0].
  apply finish_Ok in H. destruct H as (l' & o' & Ha & ->).
  apply add_architecture_description in Ha. destruct Ha as (_ & Hsame).
  destruct (annotate_fields l) as (_ & _ & _ & Al & _).
  destruct Hsame as (_ & _ & _ & Bl & _).
  rewrite make_platform_layout, Bl, Al.
  destruct (layout l) as [[x x1] |]; [right | now left].
  exists x. split; [reflexivity | exact Hl].
Qed.

Lemma X2_layout_is_an_engine_witness :
  exists p,
    parse bare (IStr "Chrome/70 Safari/537.36 AppleWebKit/537.36") = Ok p
    /\ p_layout p = JStr "Blink"
    /\ (p_layout p = JNull \/ exists x, p_layout p = JStr x /\ In x engines).
Proof.
  eexists. split; [vm_compute; reflexivity |]. split; [reflexivity |].
  apply (X2_layout_is_an_engine bare (IStr "Chrome/70 Safari/537.36 AppleWebKit/537.36")).
  vm_compute. reflexivity.
Defined.

(** *** The manufacturer *)

(** A manufacturer a result can name: null, or a name of the table. *)
Definition maker (v : jv) : Prop :=
  v = JNull \/ exists k, v = JStr k /\ In k (map fst manufacturers).

Lemma maker_const (k : string) :
  existsb (String.eqb k) (map fst manufacturers) = true -> maker (JStr k).
Proof.
  intro H. apply existsb_exists in H. destruct H as (y & Hy & E).
  apply String.eqb_eq in E. subst y. right. exists k. auto.
Qed.

Lemma earliest_key_in hit (l : list (string * list string)) :
  earliest_key hit l = JNull
  \/ exists k, earliest_key hit l = JStr k /\ In k (map fst l).
Proof.
  induction l as [| [k v] rest IH]; cbn [earliest_key map fst]; [now left |].
  destruct (hit k v).
  - right. exists k. split; [reflexivity | now left].
  - destruct IH as [E | (k' & E & Hin)]; [now left |].
    right. exists k'. split; [exact E | now right].
Qed.

Lemma maker_pick e l : pick e = Ok l -> maker (manufacturer l).
Proof.
  unfold pick. intro H.
  apply bind_Ok in H. destruct H as (lay & _ & H).
  apply bind_Ok in H. destruct H as (n & _ & H).
  apply bind_Ok in H. destruct H as (pr & _ & H).
  apply bind_Ok in H. destruct H as (x & _ & H).
  apply bind_Ok in H. destruct H as (ma & Hma & H).
  apply bind_Ok in H. destruct H as (o & _ & H).
  apply Ok_inj in H. subst l. cbn [manufacturer].
  rewrite getManufacturer_earliest in Hma by (vm_compute; reflexivity).
  apply Ok_inj in Hma. subst ma. apply earliest_key_in.
Qed.

Ltac maker_done :=
  cbn [manufacturer set_name set_version set_os set_layout set_product set_manufacturer
       set_description set_prerelease set_arch push unshift];
  first [ assumption | apply maker_const; reflexivity ].

Ltac maker_cases :=
  cbv zeta; intros; repeat rule_step; try maker_done;
  unfold set_layout1; repeat rule_step; try maker_done.

Lemma maker_detect_android_product ua l :
  maker (manufacturer l) -> maker (manufacturer (detect_android_product ua l)).
Proof. unfold detect_android_product. maker_cases. Qed.

Lemma maker_detect_manufacturer_product ua l l' :
  detect_manufacturer_product ua l = Ok l' ->
  maker (manufacturer l) -> maker (manufacturer l').
Proof. unfold detect_manufacturer_product. maker_cases. Qed.

Lemma maker_cleanup_google_tv l :
  maker (manufacturer l) -> maker (manufacturer (cleanup_google_tv l)).
Proof. unfold cleanup_google_tv. maker_cases. Qed.

Lemma maker_detect_simulators ua l :
  maker (manufacturer l) -> maker (manufacturer (detect_simulators ua l)).
Proof. unfold detect_simulators. maker_cases. Qed.

Lemma maker_detect_opera_mini_turbo ua l :
  maker (manufacturer l) -> maker (manufacturer (detect_opera_mini_turbo ua l)).
Proof. unfold detect_opera_mini_turbo. maker_cases. Qed.

Lemma maker_detect_browsers self ua l l' :
  (forall this arg d, self this arg = Ok d -> maker (p_manufacturer d)) ->
  detect_browsers self ua l = Ok l' ->
  maker (manufacturer l) -> maker (manufacturer l').
Proof.
  intro Hself. unfold detect_browsers.
  destruct (eqs (name l) "IE" && Re.rtest (re "\blike iPhone OS\b") ua)%bool.
  - intro H. apply bind_Ok in H. destruct H as (d & Hd & H).
    apply Ok_inj in H. subst l'. intros _. cbn [manufacturer set_product set_manufacturer].
    eapply Hself; eassumption.
  - maker_cases.
Qed.

Lemma maker_detect_version ua l l' :
  detect_version ua l = Ok l' -> maker (manufacturer l) -> maker (manufacturer l').
Proof. unfold detect_version. maker_cases. Qed.

Lemma maker_detect_stubborn_layouts ua l :
  maker (manufacturer l) -> maker (manufacturer (detect_stubborn_layouts ua l)).
Proof. unfold detect_stubborn_layouts. maker_cases. Qed.

Lemma maker_detect_windows_phone ua l :
  maker (manufacturer l) -> maker (manufacturer (detect_windows_phone ua l)).
Proof. unfold detect_windows_phone. maker_cases. Qed.

Lemma maker_detect_server_side context java rhino l :
  maker (manufacturer l) -> maker (manufacturer (detect_server_side context java rhino l)).
Proof. unfold detect_server_side. maker_cases. Qed.

Lemma maker_leverage_features context custom ua uf java rhino l :
  maker (manufacturer l) ->
  maker (manufacturer (leverage_features context custom ua uf java rhino l)).
Proof.
  intro H. unfold leverage_features. destruct uf; [| exact H].
  destruct (global context).
  - pose proof (maker_detect_server_side context java rhino l H) as H'.
    destruct (truthy (os (detect_server_side context java rhino l))); exact H'.
  - destruct l as [n v o [[l0 l1] |] pr ma de pre ar]; cbn [manufacturer] in H;
      cbv zeta; repeat rule_step;
      cbn [manufacturer layout name os set_name set_version set_os set_layout set_layout1
           set_product set_manufacturer set_description set_prerelease set_arch push
           unshift];
      exact H.
Qed.

Lemma maker_detect_prerelease ua nav uf alpha beta l l' :
  detect_prerelease ua nav uf alpha beta l = Ok l' ->
  maker (manufacturer l) -> maker (manufacturer l').
Proof.
  unfold detect_prerelease. cbv zeta.
  match goal with
  | |- match ?d with Some _ => _ | None => _ end = _ -> _ => destruct d as [data |]
  end; maker_cases.
Qed.

Lemma maker_apply_masking uf operaClass d l :
  maker (manufacturer l) -> maker (manufacturer (apply_masking uf operaClass d l)).
Proof. unfold apply_masking. maker_cases. Qed.

Lemma maker_detect_mobile_and_masking self context this ua uf opera operaClass l l' :
  detect_mobile_and_masking self context this ua uf opera operaClass l = Ok l' ->
  maker (manufacturer l) -> maker (manufacturer l').
Proof.
  unfold detect_mobile_and_masking. maker_cases; now apply maker_apply_masking.
Qed.

Lemma manufacturer_detect_webkit ua uf lc l :
  manufacturer (detect_webkit ua uf lc l) = manufacturer l.
Proof.
  destruct l as [n v o lay pr ma de pre ar]. cbn [manufacturer].
  unfold detect_webkit.
  destruct (capture 1 (Re.rexec (rei "\bAppleWebKit\/([\d.]+\+?)") ua)) as [| | | build];
    try reflexivity.
  destruct (Str.nonempty build); [| reflexivity].
  cbn [name version layout set_version set_name set_prerelease].
  set (safari := capture 1 (Re.rexec (rei "\bSafari\/([\d.]+\+?)") ua)).
  set (data1 := capture 1 (Re.rexec (rei "\b(?:Headless)?Chrome\/([\d.]+)") ua)).
  set (data0 := Num.parseFloat _).
  clearbody safari data1 data0.
  destruct (eqs n "Safari" && String.eqb (Str.last_char build) "+")%bool;
    [| destruct (loose_eq v (JStr build)); [| destruct (loose_eq v safari)]];
    cbv beta iota zeta;
    (match goal with
     | |- context [if ?c then set_layout (Some ("Blink", None)) _ else _] => destruct c
     end);
    (destruct (negb uf || _)%bool; cbv beta iota zeta);
    destruct lay as [[l0 l1] |];
    cbn [name os description version layout set_version set_layout set_layout1 has_layout];
    repeat match goal with
           | |- context [if ?c then _ else _] => destruct c
           end;
    reflexivity.
Qed.

Lemma maker_detect_desktop_modes ua l l' :
  detect_desktop_modes ua l = Ok l' -> maker (manufacturer l) -> maker (manufacturer l').
Proof. unfold detect_desktop_modes. maker_cases. Qed.

Lemma maker_strip_os_version ua l l' :
  strip_os_version ua l = Ok l' -> maker (manufacturer l) -> maker (manufacturer l').
Proof. unfold strip_os_version. maker_cases. Qed.

Lemma maker_strip_name_from_os l l' :
  strip_name_from_os l = Ok l' -> maker (manufacturer l) -> maker (manufacturer l').
Proof. unfold strip_name_from_os. maker_cases. Qed.

Lemma maker_resolve self context custom this ua nav uf lc java rhino alpha beta opera
    operaClass l l' :
  (forall this arg d, self this arg = Ok d -> maker (p_manufacturer d)) ->
  resolve self context custom this ua nav uf lc java rhino alpha beta opera operaClass l
  = Ok l' ->
  maker (manufacturer l) -> maker (manufacturer l').
Proof.
  intro Hself. unfold resolve, resolve_first, resolve_rest. cbv zeta. intros H Hl.
  apply bind_Ok in H. destruct H as (l5 & H & Hrest).
  apply bind_Ok in H. destruct H as (l1 & H1 & H).
  apply bind_Ok in H. destruct H as (l2 & H2 & H).
  apply bind_Ok in H. destruct H as (l3 & H3 & H4).
  apply bind_Ok in Hrest. destruct Hrest as (l6 & H6 & Hrest).
  apply bind_Ok in Hrest. destruct Hrest as (l7 & H7 & Hrest).
  apply bind_Ok in Hrest. destruct Hrest as (l8 & H8 & H9).
  apply maker_detect_android_product with (ua := ua) in Hl.
  apply (maker_detect_manufacturer_product _ _ _ H1) in Hl.
  apply maker_cleanup_google_tv, (maker_detect_simulators ua),
    (maker_detect_opera_mini_turbo ua) in Hl.
  apply (maker_detect_browsers _ _ _ _ Hself H2) in Hl.
  apply (maker_detect_version _ _ _ H3) in Hl.
  apply (maker_detect_stubborn_layouts ua), (maker_detect_windows_phone ua),
    (maker_leverage_features context custom ua uf java rhino) in Hl.
  apply (maker_detect_prerelease _ _ _ _ _ _ _ H4) in Hl.
  apply (maker_detect_mobile_and_masking _ _ _ _ _ _ _ _ _ H6) in Hl.
  rewrite <- (manufacturer_detect_webkit ua uf lc) in Hl.
  apply (maker_detect_desktop_modes _ _ _ H7) in Hl.
  apply (maker_strip_os_version _ _ _ H8) in Hl.
  apply (maker_strip_name_from_os _ _ H9) in Hl. exact Hl.
Qed.

Lemma maker_parse_fuel : forall (n : nat) (root : Host) (this : bool) (arg : input)
    (p : Platform),
  parse_fuel n root this arg = Ok p -> maker (p_manufacturer p).
Proof.
  induction n as [| n IH]; intros root this arg p H; [discriminate |].
  cbn [parse_fuel] in H. unfold parse_body in H.
  apply bind_Ok in H. destruct H as (l & Hl & H).
  unfold resolved in Hl. apply bind_Ok in Hl. destruct Hl as (l0 & H0 & Hl).
  apply maker_pick in H0. unfold resolve_in in Hl.
  apply maker_resolve in Hl; [| intros t a d Hd; eapply IH; exact Hd | exact H0].
  apply finish_Ok in H. destruct H as (l' & o' & Ha & ->).
  apply add_architecture_description in Ha. destruct Ha as (_ & Hsame).
  destruct (annotate_fields l) as (_ & _ & _ & _ & _ & Am & _).
  destruct Hsame as (_ & _ & _ & _ & _ & Bm & _).
  rewrite make_platform_manufacturer, Bm, Am. exact Hl.
Qed.

(** X14: the manufacturer of a result is null or one of the names of the
    table of manufacturers. *)
Theorem X14_manufacturer_of_the_table :
  forall (root : Host) (arg : input) (p : Platform),
    parse root arg = Ok p ->
    p_manufacturer p = JNull
    \/ exists k, p_manufacturer p = JStr k /\ In k (map fst manufacturers).
Proof. intros root arg p H. exact (maker_parse_fuel _ _ _ _ _ H). Qed.

Lemma X14_manufacturer_of_the_table_witness :
  exists p,
    parse bare (IStr "iPad; OS 4_3 Safari") = Ok p
    /\ p_manufacturer p = JStr "Apple"
    /\ (p_manufacturer p = JNull
        \/ exists k, p_manufacturer p = JStr k /\ In k (map fst manufacturers)).
Proof.
  eexists. split; [vm_compute; reflexivity |]. split; [reflexivity |].
  apply (X14_manufacturer_of_the_table bare (IStr "iPad; OS 4_3 Safari")).
  vm_compute. reflexivity.
Defined.

(** *** The description is never the empty string *)

Lemma truthy_to_s (v : jv) : truthy v = true -> to_s v <> "".
Proof. destruct v as [| | [|] | [| c s]]; cbn; intro H; discriminate. Qed.

Lemma segment_nonempty (present : bool) (text x : string) :
  (present = true -> text <> "") -> In x (segment present text) -> x <> "".
Proof.
  unfold segment. destruct present; cbn [In]; [| tauto].
  intros H [<- | []]. now apply H.
Qed.

Lemma append_nonempty_l (a b : string) : a <> "" -> (a ++ b)%string <> "".
Proof. destruct a; [congruence | discriminate]. Qed.

Lemma join_nonempty (sep : string) (l : list string) :
  l <> [] -> (forall x, In x l -> x <> "") -> Str.join sep l <> "".
Proof.
  destruct l as [| x rest]; [congruence |]. intros _ H.
  assert (Hx : x <> "") by (apply H; now left).
  destruct rest; cbn [Str.join]; [exact Hx | now apply append_nonempty_l].
Qed.

Lemma make_platform_ua ua l o :
  p_ua (make_platform ua l o) = if Str.nonempty ua then JStr ua else JNull.
Proof. reflexivity. Qed.

Lemma composed_shape notes bits p :
  composed notes bits p = p_ua p
  \/ exists s, composed notes bits p = JStr s /\ s <> "".
Proof.
  unfold composed.
  match goal with
  | |- match ?x with [] => _ | _ :: _ => _ end = _ \/ _ =>
      assert (Hall : forall y, In y x -> y <> ""); [| destruct x as [| y0 rest] eqn:E]
  end.
  - intros y Hy.
    repeat (apply in_app_or in Hy; destruct Hy as [Hy | Hy]);
      (eapply segment_nonempty; [| exact Hy]); intro Ht;
      try (apply truthy_to_s; exact Ht); try discriminate.
    + destruct (names_manufacturer p); [| discriminate].
      cbn [append]. now apply truthy_to_s.
    + destruct (truthy (p_product p)); discriminate.
  - now left.
  - right. eexists. split; [reflexivity |].
    apply join_nonempty; [discriminate | exact Hall].
Qed.

(** X3: the description of a result is null or a non-empty string, and
    it is null only when the identification string is empty; so the
    result prints as the empty string exactly when its description is
    null. *)
Theorem X3_description_not_empty :
  forall (root : Host) (arg : input) (p : Platform),
    parse root arg = Ok p ->
    ((p_description p = JNull /\ ua_of root arg = "")
     \/ exists s, p_description p = JStr s /\ s <> "")
    /\ (toStringPlatform p = "" <-> p_description p = JNull).
Proof.
  intros root arg p H.
  assert (Hua : p_ua p = if Str.nonempty (ua_of root arg) then JStr (ua_of root arg)
                         else JNull).
  { rewrite parse_unfold in H. apply bind_Ok in H. destruct H as (l & _ & H).
    apply finish_Ok in H. destruct H as (l' & o' & _ & ->). apply make_platform_ua. }
  destruct (parse_composed root arg p H) as (l & _ & _ & Hd).
  assert (Hshape : (p_description p = JNull /\ ua_of root arg = "")
                   \/ exists s, p_description p = JStr s /\ s <> "").
  { rewrite Hd.
    destruct (composed_shape (description (add_layout l))
                (thirty_two_bit (ua_of root arg) (e_nav (setup root arg))
                   (e_useFeatures (setup root arg)) l) p) as [E | E].
    - rewrite E, Hua. destruct (ua_of root arg) as [| c s]; cbn [Str.nonempty].
      + now left.
      + right. eexists. split; [reflexivity | discriminate].
    - now right. }
  split; [exact Hshape |].
  unfold toStringPlatform, jor.
  destruct Hshape as [(E & _) | (s & E & Hs)]; rewrite E; cbn [truthy to_s].
  - tauto.
  - destruct s as [| c s]; [congruence |]. cbn [Str.nonempty to_s].
    split; discriminate.
Qed.

Lemma X3_description_not_empty_witness :
  exists p,
    parse bare (IStr "Opera MSIE") = Ok p
    /\ ((p_description p = JNull /\ ua_of bare (IStr "Opera MSIE") = "")
        \/ exists s, p_description p = JStr s /\ s <> "")
    /\ (toStringPlatform p = "" <-> p_description p = JNull).
Proof.
  eexists. split; [vm_compute; reflexivity |].
  apply (X3_description_not_empty bare (IStr "Opera MSIE")). vm_compute. reflexivity.
Defined.

(** *** The argument of [parse] *)

Lemma parse_fuel_setup (n : nat) (root : Host) (this : bool) (a b : input) :
  setup root a = setup root b ->
  parse_fuel n root this a = parse_fuel n root this b.
Proof.
  intro E. destruct n as [| f]; [reflexivity |].
  cbn [parse_fuel]. unfold parse_body, resolved. rewrite E. reflexivity.
Qed.

Lemma setup_ambient (root : Host) (s : string) :
  ua_of root (IStr s) = userAgent_of root ->
  setup root (IStr s) = setup root IUndef.
Proof. intro E. unfold setup. rewrite E. reflexivity. Qed.

(** X4: the empty string is parsed as no argument is, and so is the
    identification string of the global object's navigator: in all three
    cases [parse] works on the ambient identification string, with the
    features of the environment in use. *)
Theorem X4_ambient_string :
  forall (root : Host) (s : string),
    s = "" \/ s = userAgent_of root ->
    parse root (IStr s) = parse root IUndef
    /\ e_ua (setup root (IStr s)) = userAgent_of root
    /\ e_useFeatures (setup root (IStr s)) = true.
Proof.
  intros root s Hs.
  assert (E : ua_of root (IStr s) = userAgent_of root).
  { destruct Hs as [-> | ->]; [reflexivity |].
    cbn [ua_of]. destruct (Str.nonempty (userAgent_of root)); reflexivity. }
  split; [| split].
  - unfold parse. rewrite E. apply parse_fuel_setup, setup_ambient, E.
  - exact E.
  - cbn [setup e_useFeatures]. rewrite E. apply String.eqb_refl.
Qed.

Lemma X4_ambient_string_witness :
  parse bare (IStr "") = parse bare IUndef
  /\ e_ua (setup bare (IStr "")) = userAgent_of bare
  /\ e_useFeatures (setup bare (IStr "")) = true.
Proof. apply (X4_ambient_string bare ""). left. reflexivity. Defined.

(** *** The Windows platform tokens *)

(** The two entries of the OS list that stand for Windows, as [getOS]
    passes them to [cleanupOS]: the pattern and the label. *)
Definition windows_entries : list (string * string) :=
  map (fun g => (pattern_of g, label_of g))
    (filter (fun g => Str.starts_with "Windows " (label_of g)) oses).

Lemma lookup_In (k v : string) (l : list (string * string)) :
  lookup k l = Some v -> In (k, v) l.
Proof.
  induction l as [| [k' v'] rest IH]; cbn [lookup]; [discriminate |].
  destruct (String.eqb k k') eqn:E.
  - apply String.eqb_eq in E. intro H. inversion H; subst. now left.
  - intro H. right. now apply IH.
Qed.

(** X5: for an entry of the OS list that stands for Windows, a text that
    starts with "Win", is not a Windows Phone token and ends in a version
    number of the token table is cleaned up to "Windows " followed by
    the name the table gives that version. *)
Theorem X5_windows_token_table :
  forall (os : string) (mk : Re.match_result) (name pattern label : string),
    In (pattern, label) windows_entries ->
    Re.rtest (rei "^Win") os = true ->
    Re.rtest (rei "^Windows Phone ") os = false ->
    Re.rexec (re "[\d.]+$") os = Some mk ->
    lookup (Re.mr_text mk) windowsTokens = Some name ->
    cleanupOS os (JStr pattern) (JStr label) = Ok ("Windows " ++ name).
Proof.
  intros os mk name pattern label Hentry Hwin Hphone Hk Hname.
  apply lookup_In in Hname.
  unfold cleanupOS. rewrite Hwin, Hphone, Hk. cbn [to_s].
  change windows_entries with
    [("Windows ?Phone", "Windows Phone"); ("Windows ?98;", "Windows 98;");
     ("Windows ", "Windows ")] in Hentry.
  unfold windowsTokens in Hname. cbn [In] in Hentry, Hname.
  repeat match goal with
         | H : _ \/ _ |- _ => destruct H as [H | H]
         | H : False |- _ => destruct H
         end;
    apply pair_equal_spec in Hentry; destruct Hentry as (<- & <-);
    apply pair_equal_spec in Hname; destruct Hname as (Hv & <-);
    rewrite <- Hv; vm_compute; reflexivity.
Qed.

Lemma X5_windows_token_table_witness :
  cleanupOS "Windows NT 10.0" (JStr "Windows ") (JStr "Windows ") = Ok "Windows 10".
Proof.
  eapply (X5_windows_token_table "Windows NT 10.0"); try (vm_compute; reflexivity).
  right. right. left. reflexivity.
Defined.

(** *** The OS object and the OS string *)

Lemma append_nil_r (s : string) : s ++ "" = s.
Proof. induction s as [| c s IH]; cbn [append]; [reflexivity | now rewrite IH]. Qed.

Lemma take_all (s : string) : Str.take (String.length s) s = s.
Proof. induction s as [| c s IH]; cbn [Str.take String.length]; [reflexivity | now rewrite IH]. Qed.

Lemma drop_app (a b : string) : Str.drop (String.length a) (a ++ b) = b.
Proof. induction a as [| c a IH]; [destruct b; reflexivity | exact IH]. Qed.

(** What an attempt of [/ ([\d.+]+)$/] returns: the match is a space and
    the version, up to the end of the subject. *)
Lemma os_version_attempt_text pos prev rest st' :
  Re.m false ReFacts.os_version_ast (fun s => Some s) (Re.MState pos prev rest [])
  = Some st' ->
  exists v,
    rest = String " " v /\ Str.nonempty v = true
    /\ Re.get_cap 1 (Re.m_caps st') = Some v
    /\ Re.m_rest st' = "" /\ Re.m_pos st' = pos + String.length rest.
Proof.
  unfold ReFacts.os_version_ast. cbn [Re.m]. unfold Re.step1 at 1. cbn [Re.m_rest].
  destruct rest as [| c rest1]; [discriminate |].
  destruct (Ascii.eqb (Re.canon false c) (Re.canon false " ")) eqn:Ec; [| discriminate].
  apply Ascii.eqb_eq in Ec. cbn [Re.canon] in Ec. subst c.
  cbn [Re.m_pos Re.m_caps Re.rep_min Re.groups_of Re.clear_caps]. unfold Re.step1 at 1.
  cbn [Re.m_rest].
  destruct rest1 as [| c1 rest2]; [discriminate |].
  destruct (xorb false (Re.class_has false [Re.CDigit false; Re.CChar "."; Re.CChar "+"] c1));
    [| discriminate].
  cbn [Re.m_pos Re.m_caps Re.m_rest Re.sub_max].
  intro H.
  apply (ReFacts.rep_opt_advancing _ (ReFacts.step1_advancing _)) in H.
  destruct H as (s2 & (w & Hw & Pw) & Hk).
  cbn [Re.m_rest Re.m_pos] in Hw, Pw.
  destruct (Re.m_rest s2) eqn:E2; [| discriminate].
  inversion Hk; subst st'; clear Hk. cbn [Re.m_caps Re.m_rest Re.m_pos].
  rewrite append_nil_r in Hw. subst rest2.
  exists (String c1 w). rewrite ReFacts.get_set_cap, Pw.
  replace (S (S pos) + String.length w - S pos) with (S (String.length w)) by lia.
  cbn [Str.take String.length]. rewrite take_all.
  repeat split; try reflexivity. lia.
Qed.

Lemma os_version_search_text : forall rest pos prev mr,
  Re.search false ReFacts.os_version_ast pos prev rest = Some mr ->
  exists pre v,
    rest = pre ++ String " " v /\ Str.nonempty v = true
    /\ Re.mr_text mr = String " " v
    /\ Re.get_cap 1 (Re.mr_caps mr) = Some v.
Proof.
  assert (Hhit : forall rest pos prev st',
    Re.m false ReFacts.os_version_ast (fun s => Some s) (Re.MState pos prev rest [])
    = Some st' ->
    exists pre v,
      rest = pre ++ String " " v /\ Str.nonempty v = true
      /\ Str.take (Re.m_pos st' - pos) rest = String " " v
      /\ Re.get_cap 1 (Re.m_caps st') = Some v).
  { intros rest pos prev st' H. apply os_version_attempt_text in H.
    destruct H as (v & -> & Hv & Hc & _ & Hp).
    exists "", v. rewrite Hp.
    replace (pos + String.length (String " " v) - pos)
      with (String.length (String " " v)) by lia.
    rewrite take_all. auto. }
  induction rest as [| c rest IH]; intros pos prev mr; cbn [Re.search].
  - destruct (Re.m false _ _ (Re.MState pos prev EmptyString [])) as [st' |] eqn:E;
      [| discriminate].
    intro H. inversion H; subst mr. cbn [Re.mr_text Re.mr_caps]. eapply Hhit; eassumption.
  - destruct (Re.m false _ _ (Re.MState pos prev (String c rest) [])) as [st' |] eqn:E.
    + intro H. inversion H; subst mr. cbn [Re.mr_text Re.mr_caps]. eapply Hhit; eassumption.
    + intro H. apply IH in H. destruct H as (pre & v & -> & Hrest).
      exists (String c pre), v. split; [reflexivity | exact Hrest].
Qed.

(** X10: the OS object prints as the OS string it was made from, when the
    text split off as the version (a space and the version) does not occur
    earlier in the string; the family and the version are the two parts
    of the string then. *)
Theorem X10_os_object_round_trip :
  forall (l : Locals) (x : OS),
    os_object l = Some x ->
    (forall a family v, x = OSInfo a family (JStr v) false ->
       Str.indexOf (to_s (os l)) (" " ++ v)
       = Some (String.length (to_s (os l)) - String.length v - 1)) ->
    os_toString x = to_s (os l).
Proof.
  intros l x. unfold os_object. destruct (truthy (os l)); [| discriminate].
  set (o := to_s (os l)). rewrite ReFacts.os_version_re.
  unfold Re.rexec, Re.exec. cbn [Re.re_ic Re.re_ast].
  destruct (Re.search false ReFacts.os_version_ast 0 None o) as [data |] eqn:E.
  - apply os_version_search_text in E. destruct E as (pre & v & Ho & Hv & Ht & Hc).
    intro H. inversion H; subst x; clear H. unfold capture, Re.cap. rewrite Hc, Ht.
    cbn [of_opt os_toString truthy Nat.eqb]. rewrite Hv.
    intro Hfirst.
    destruct (negb _) eqn:Hsp; cbn [negb andb to_s]; rewrite append_nil_r;
      [| reflexivity].
    apply negb_true_iff in Hsp. rewrite Hsp in Hfirst.
    specialize (Hfirst _ _ v eq_refl).
    unfold Str.replace_str. cbn [append] in Hfirst. rewrite Hfirst.
    rewrite Ho. rewrite ReFacts.append_length. cbn [String.length].
    replace (String.length pre + S (String.length v) - String.length v - 1)
      with (String.length pre) by lia.
    rewrite ReFacts.take_app.
    replace (String.length pre + S (String.length v))
      with (String.length (pre ++ String " " v))
      by (rewrite ReFacts.append_length; reflexivity).
    rewrite <- (append_nil_r (pre ++ String " " v)) at 2.
    rewrite drop_app. cbn [append]. rewrite append_nil_r. reflexivity.
  - intro H. inversion H; subst x. intros _. cbn [os_toString truthy Nat.eqb andb].
    now rewrite append_nil_r.
Qed.

Lemma X10_os_object_round_trip_witness :
  os_toString (OSInfo 32 "Android" (JStr "4.4") false) = "Android 4.4".
Proof.
  apply (X10_os_object_round_trip
           {| name := JNull; version := JNull; os := JStr "Android 4.4"; layout := None;
              product := JNull; manufacturer := JNull; description := [];
              prerelease := JNull; arch := JNull |}).
  - vm_compute. reflexivity.
  - intros a family v H. inversion H. vm_compute. reflexivity.
Defined.

(** *** [each] and [reduce] *)

Lemma each_index_app {V A : Type} (cb : A -> V -> key -> outcome A) :
  forall (l1 l2 : list V) (i : nat) (acc : A),
    each_index cb (l1 ++ l2) i acc
    = bind (each_index cb l1 i acc) (each_index cb l2 (i + List.length l1)).
Proof.
  induction l1 as [| v l1 IH]; intros l2 i acc; cbn [app each_index List.length bind].
  - now rewrite Nat.add_0_r.
  - destruct (cb acc v (KIndex i)) as [acc' | e |]; cbn [bind]; try reflexivity.
    rewrite IH. now rewrite Nat.add_succ_r.
Qed.

Lemma each_index_pure {V A : Type} (f : A -> V -> nat -> A) :
  forall (l : list V) (i : nat) (acc : A),
    each_index (fun a v k => Ok (f a v (match k with KIndex n => n | KName _ => 0 end)))
      l i acc
    = Ok (fold_left (fun a iv => f a (snd iv) (fst iv))
            (combine (seq i (List.length l)) l) acc).
Proof.
  induction l as [| v l IH]; intros i acc; cbn [each_index List.length seq combine fold_left bind];
    [reflexivity | apply IH].
Qed.

(** X6: [reduce] is a fold from the left that starts from null: a callback
    that returns gets the result of the one before, the element and its
    index, from index 0 on; and going through two arrays one behind the
    other is going through the first and then, from its result and with
    the indices shifted, through the second. *)
Theorem X6_reduce_fold_left :
  forall (V : Type),
    (forall (f : jv -> V -> nat -> jv) (l : list V),
       reduce (Arr l)
         (fun a v k => Ok (f a v (match k with KIndex n => n | KName _ => 0 end)))
       = Ok (fold_left (fun a iv => f a (snd iv) (fst iv))
               (combine (seq 0 (List.length l)) l) JNull))
    /\ (forall (cb : jv -> V -> key -> outcome jv) (l1 l2 : list V),
          reduce (Arr (l1 ++ l2)) cb
          = bind (reduce (Arr l1) cb) (each_index cb l2 (List.length l1))).
Proof.
  intro V. split.
  - intros f l. unfold reduce, each. apply each_index_pure.
  - intros cb l1 l2. unfold reduce, each. apply (each_index_app cb l1 l2 0 JNull).
Qed.

(** *** The version of the OS *)

Fixpoint all_chars (ok : ascii -> bool) (s : string) : bool :=
  match s with
  | String c r => ok c && all_chars ok r
  | EmptyString => true
  end.

Lemma all_chars_app ok (a b : string) :
  all_chars ok (a ++ b) = all_chars ok a && all_chars ok b.
Proof.
  induction a as [| c a IH]; cbn [append all_chars]; [reflexivity |].
  now rewrite IH, andb_assoc.
Qed.

(** A code unit of an OS version: a digit, a dot or a plus sign. *)
Definition version_unit (c : ascii) : bool :=
  Str.is_digit c || Ascii.eqb c "." || Ascii.eqb c "+".

Lemma version_unit_class (c : ascii) :
  xorb false (Re.class_has false [Re.CDigit false; Re.CChar "."; Re.CChar "+"] c)
  = version_unit c.
Proof.
  unfold Re.class_has, version_unit. cbn [existsb Re.item_has andb orb xorb].
  rewrite (Ascii.eqb_sym "." c), (Ascii.eqb_sym "+" c).
  destruct (Str.is_digit c), (Ascii.eqb c "."), (Ascii.eqb c "+"); reflexivity.
Qed.

Lemma all_chars_ext (f g : ascii -> bool) (s : string) :
  (forall c, f c = g c) -> all_chars f s = all_chars g s.
Proof.
  intro H. induction s as [| c r IH]; cbn [all_chars]; [reflexivity |].
  now rewrite H, IH.
Qed.

(** What a loop over one class of code units consumes is made of code
    units of the class. *)
Lemma rep_opt_class ok greedy : forall fuel mx (k : Re.cont) st res,
  Re.rep_opt (fun k' s => Re.step1 ok k' (Re.clear_caps [] s)) greedy fuel mx k st
  = Some res ->
  exists w st',
    Re.m_rest st = w ++ Re.m_rest st'
    /\ Re.m_pos st' = Re.m_pos st + String.length w
    /\ all_chars ok w = true
    /\ k st' = Some res.
Proof.
  induction fuel as [| f IH]; intros mx k st res; cbn [Re.rep_opt].
  - intro H. exists "", st. cbn. rewrite Nat.add_0_r. auto.
  - destruct (Re.max_reached mx).
    + intro H. exists "", st. cbn. rewrite Nat.add_0_r. auto.
    + intro H.
      assert (Hcases :
        Re.step1 ok
          (fun st' => if Nat.eqb (Re.m_pos st') (Re.m_pos st) then None
                      else Re.rep_opt (fun k' s => Re.step1 ok k' (Re.clear_caps [] s))
                             greedy f (Re.dec_max mx) k st')
          (Re.clear_caps [] st) = Some res
        \/ k st = Some res).
      { destruct greedy; apply ReFacts.orelse_Some in H; tauto. }
      destruct Hcases as [Hs | Hk]; [| exists "", st; cbn; rewrite Nat.add_0_r; auto].
      cbn [Re.clear_caps] in Hs. unfold Re.step1 in Hs.
      destruct (Re.m_rest st) as [| c rest'] eqn:E; [discriminate |].
      destruct (ok c) eqn:Hc; [| discriminate].
      cbn [Re.m_pos] in Hs.
      destruct (Nat.eqb (S (Re.m_pos st)) (Re.m_pos st)); [discriminate |].
      apply IH in Hs. destruct Hs as (w & st' & Hw & Hp & Hall & Hk).
      cbn [Re.m_rest Re.m_pos] in Hw, Hp.
      exists (String c w), st'. cbn [append all_chars String.length].
      rewrite Hw, Hc, Hall, Hp. repeat split; [lia | exact Hk].
Qed.

Lemma os_version_attempt_units pos prev rest st' :
  Re.m false ReFacts.os_version_ast (fun s => Some s) (Re.MState pos prev rest [])
  = Some st' ->
  exists v,
    Re.get_cap 1 (Re.m_caps st') = Some v
    /\ Str.nonempty v = true /\ all_chars version_unit v = true.
Proof.
  unfold ReFacts.os_version_ast. cbn [Re.m]. unfold Re.step1 at 1. cbn [Re.m_rest].
  destruct rest as [| c rest1]; [discriminate |].
  destruct (Ascii.eqb (Re.canon false c) (Re.canon false " ")); [| discriminate].
  cbn [Re.m_pos Re.m_caps Re.rep_min Re.groups_of Re.clear_caps]. unfold Re.step1 at 1.
  cbn [Re.m_rest].
  destruct rest1 as [| c1 rest2]; [discriminate |].
  rewrite version_unit_class.
  destruct (version_unit c1) eqn:Hc1; [| discriminate].
  cbn [Re.m_pos Re.m_caps Re.m_rest Re.sub_max].
  intro H.
  apply rep_opt_class in H.
  destruct H as (w & s2 & Hw & Pw & Hall & Hk).
  rewrite (all_chars_ext _ version_unit w version_unit_class) in Hall.
  cbn [Re.m_rest Re.m_pos] in Hw, Pw.
  destruct (Re.m_rest s2) eqn:E2; [| discriminate].
  inversion Hk; subst st'; clear Hk. cbn [Re.m_caps].
  rewrite append_nil_r in Hw. subst rest2.
  exists (String c1 w). rewrite ReFacts.get_set_cap, Pw.
  replace (S (S pos) + String.length w - S pos) with (S (String.length w)) by lia.
  cbn [Str.take String.length all_chars]. rewrite take_all, Hc1, Hall. auto.
Qed.

Lemma os_version_search_units : forall rest pos prev mr,
  Re.search false ReFacts.os_version_ast pos prev rest = Some mr ->
  exists v,
    Re.get_cap 1 (Re.mr_caps mr) = Some v
    /\ Str.nonempty v = true /\ all_chars version_unit v = true.
Proof.
  induction rest as [| c rest IH]; intros pos prev mr; cbn [Re.search].
  - destruct (Re.m false _ _ (Re.MState pos prev EmptyString [])) as [st' |] eqn:E;
      [| discriminate].
    intro H. inversion H; subst mr. cbn [Re.mr_caps].
    eapply os_version_attempt_units; eassumption.
  - destruct (Re.m false _ _ (Re.MState pos prev (String c rest) [])) as [st' |] eqn:E.
    + intro H. inversion H; subst mr. cbn [Re.mr_caps].
      eapply os_version_attempt_units; eassumption.
    + apply IH.
Qed.

(** The version of an OS object: null, or a text of digits, dots and plus
    signs that is not empty. *)
Definition version_text (v : jv) : Prop :=
  v = JNull
  \/ exists t, v = JStr t /\ Str.nonempty t = true /\ all_chars version_unit t = true.

Lemma os_object_version l a family v special :
  os_object l = Some (OSInfo a family v special) -> version_text v.
Proof.
  unfold os_object. destruct (truthy (os l)); [| discriminate].
  rewrite ReFacts.os_version_re. unfold Re.rexec, Re.exec. cbn [Re.re_ic Re.re_ast].
  destruct (Re.search false ReFacts.os_version_ast 0 None (to_s (os l))) as [data |] eqn:E.
  - apply os_version_search_units in E. destruct E as (t & Hc & Hn & Hall).
    intro H. inversion H; subst. right. exists t.
    unfold capture, Re.cap. rewrite Hc. auto.
  - intro H. inversion H; subst. now left.
Qed.

(** X13: the version of the OS of a result is null, or a text of digits,
    dots and plus signs that is not empty. *)
Theorem X13_os_version_text :
  forall (root : Host) (arg : input) (p : Platform),
    parse root arg = Ok p -> version_text (os_version (p_os p)).
Proof.
  intros root arg p H. apply parse_os in H. destruct H as (l & _ & H).
  destruct (os_object l) as [[| a f v sp] |] eqn:E.
  - contradiction.
  - destruct H as (_ & fam & ->). cbn [os_version]. eapply os_object_version; exact E.
  - rewrite H. now left.
Qed.

Lemma X13_os_version_text_witness :
  exists p,
    parse bare (IStr "Android 4.1") = Ok p
    /\ os_version (p_os p) = JStr "4.1"
    /\ version_text (os_version (p_os p)).
Proof.
  eexists. split; [vm_compute; reflexivity |]. split; [reflexivity |].
  apply (X13_os_version_text bare (IStr "Android 4.1")). vm_compute. reflexivity.
Defined.

(** *** Replacing every match, code unit by code unit *)

Lemma search_from ic r pos prev rest mr :
  Re.search ic r pos prev rest = Some mr -> pos <= Re.mr_index mr.
Proof.
  intro H. apply ReFacts.search_shape in H. destruct H as (pre & _ & Hi). lia.
Qed.

(** Where the pattern does not match at the current code unit, the code
    unit is kept and the replacement goes on behind it. *)
Lemma replace_all_go_skip (f : nat) (r : Re.regexp) (repl : string)
    (pos : nat) (prev : option ascii) (c : ascii) (rest : string) :
  Re.m (Re.re_ic r) (Re.re_ast r) (fun s => Some s) (Re.MState pos prev (String c rest) [])
  = None ->
  Re.replace_all_go (S f) r repl pos prev (String c rest)
  = String c (Re.replace_all_go (S f) r repl (S pos) (Some c) rest).
Proof.
  intro Hmiss. cbn [Re.replace_all_go Re.search]. rewrite Hmiss.
  destruct (Re.search (Re.re_ic r) (Re.re_ast r) (S pos) (Some c) rest) as [mr |] eqn:E;
    [| reflexivity].
  apply search_from in E.
  replace (Re.mr_index mr - pos) with (S (Re.mr_index mr - S pos)) by lia.
  cbn [Str.take append].
  destruct (Re.mr_text mr); [destruct (Re.mr_after mr) |]; reflexivity.
Qed.

(** Where the pattern matches a non-empty text at the current code unit,
    the replacement is put out and the replacement goes on behind the
    match. *)
Lemma replace_all_go_hit (f : nat) (r : Re.regexp) (repl : string)
    (pos : nat) (prev : option ascii) (rest : string) (st' : Re.mstate) :
  Re.m (Re.re_ic r) (Re.re_ast r) (fun s => Some s) (Re.MState pos prev rest []) = Some st' ->
  Str.take (Re.m_pos st' - pos) rest <> "" ->
  Re.replace_all_go (S f) r repl pos prev rest
  = Re.substitution r repl
      (Re.Match pos (Str.take (Re.m_pos st' - pos) rest) (Re.m_caps st') (Re.m_rest st'))
    ++ Re.replace_all_go f r repl
         (pos + String.length (Str.take (Re.m_pos st' - pos) rest))
         (Re.last_of prev (Str.take (Re.m_pos st' - pos) rest)) (Re.m_rest st').
Proof.
  intros Hhit Htext. cbn [Re.replace_all_go].
  assert (E : Re.search (Re.re_ic r) (Re.re_ast r) pos prev rest
              = Some (Re.Match pos (Str.take (Re.m_pos st' - pos) rest) (Re.m_caps st')
                        (Re.m_rest st'))).
  { destruct rest; cbn [Re.search]; rewrite Hhit; reflexivity. }
  rewrite E. cbn [Re.mr_index Re.mr_text Re.mr_after].
  rewrite Nat.sub_diag.
  destruct (Str.take (Re.m_pos st' - pos) rest) eqn:Et; [congruence |].
  destruct rest; reflexivity.
Qed.

(** *** [qualify] *)

(** A separator that [qualify] makes optional: a space or a hyphen. *)
Definition separator (c : ascii) : bool := Ascii.eqb c " " || Ascii.eqb c "-".

(** [s] with a question mark behind every separator but a last one. *)
Fixpoint optional_separators (s : string) : string :=
  match s with
  | EmptyString => EmptyString
  | String c rest =>
      if separator c && Str.nonempty rest
      then String c (String "?" (optional_separators rest))
      else String c (optional_separators rest)
  end.

Lemma qualify_re :
  re "([ -])(?!$)"
  = Re.MkRegExp
      (Re.RSeq (Re.RGroup 1 (Re.RClass false [Re.CChar " "; Re.CChar "-"]))
         (Re.RLook true Re.REol)) false 1.
Proof. vm_compute. reflexivity. Qed.

Lemma separator_class (c : ascii) :
  xorb false (Re.class_has false [Re.CChar " "; Re.CChar "-"] c) = separator c.
Proof.
  unfold Re.class_has, separator. cbn [existsb Re.item_has andb orb xorb].
  rewrite (Ascii.eqb_sym " " c), (Ascii.eqb_sym "-" c).
  destruct (Ascii.eqb c " "), (Ascii.eqb c "-"); reflexivity.
Qed.

Lemma qualify_attempt (pos : nat) (prev : option ascii) (c : ascii) (rest : string) :
  Re.m (Re.re_ic (re "([ -])(?!$)")) (Re.re_ast (re "([ -])(?!$)"))
    (fun s => Some s) (Re.MState pos prev (String c rest) [])
  = if separator c && Str.nonempty rest
    then Some (Re.MState (S pos) (Some c) rest [(1, String c EmptyString)])
    else None.
Proof.
  rewrite qualify_re. cbn [Re.re_ic Re.re_ast Re.m]. unfold Re.step1. cbn [Re.m_rest]. rewrite separator_class.
  destruct (separator c); [| reflexivity].
  cbn [Re.m_pos Re.m_prev Re.m_rest Re.m_caps andb].
  replace (S pos - pos) with 1 by lia.
  destruct rest; reflexivity.
Qed.

Lemma qualify_go : forall (rest : string) (fuel pos : nat) (prev : option ascii),
  String.length rest < fuel ->
  Re.replace_all_go fuel (re "([ -])(?!$)") "$1?" pos prev rest = optional_separators rest.
Proof.
  induction rest as [| c rest IH]; intros fuel pos prev Hf;
    (destruct fuel as [| f]; [cbn [String.length] in Hf; lia |]).
  - reflexivity.
  - cbn [String.length] in Hf. cbn [optional_separators].
    pose proof (qualify_attempt pos prev c rest) as Ha.
    destruct (separator c && Str.nonempty rest).
    + rewrite (replace_all_go_hit f _ _ pos prev _ _ Ha).
      * cbn [Re.m_pos Re.m_rest Re.m_caps].
        replace (S pos - pos) with 1 by lia. cbn [Str.take String.length Re.last_of].
        rewrite IH by lia. rewrite qualify_re. reflexivity.
      * cbn [Re.m_pos]. replace (S pos - pos) with 1 by lia. discriminate.
    + rewrite (replace_all_go_skip f _ _ pos prev c rest Ha).
      rewrite IH by lia. reflexivity.
Qed.

(** X7: [qualify] puts a question mark behind every space and every
    hyphen of the string, but not behind one that ends the string, and
    changes nothing else. *)
Theorem X7_qualify_optional_separators :
  forall (v : jv), qualify v = optional_separators (to_s v).
Proof. intro v. unfold qualify, Re.replace_all. apply qualify_go. lia. Qed.

(** *** [trim] *)

Definition is_blank (c : ascii) : bool := Ascii.eqb c " ".

(** [s] without the spaces it starts with. *)
Fixpoint strip_leading (s : string) : string :=
  match s with
  | String c rest => if is_blank c then strip_leading rest else s
  | EmptyString => EmptyString
  end.

Fixpoint all_blank (s : string) : bool :=
  match s with
  | String c rest => is_blank c && all_blank rest
  | EmptyString => true
  end.

(** [s] without the spaces it ends with. *)
Fixpoint strip_trailing (s : string) : string :=
  match s with
  | String c rest => if all_blank s then EmptyString else String c (strip_trailing rest)
  | EmptyString => EmptyString
  end.

Lemma trim_re :
  re "^ +| +$"
  = Re.MkRegExp
      (Re.RAlt (Re.RSeq Re.RBol (Re.RRep 1 None true (Re.RChar " ")))
         (Re.RSeq (Re.RRep 1 None true (Re.RChar " ")) Re.REol)) false 0.
Proof. vm_compute. reflexivity. Qed.

(** One iteration of [ +]. *)
Definition blank_step (k : Re.cont) (s : Re.mstate) : option Re.mstate :=
  Re.step1 (fun x => Ascii.eqb (Re.canon false x) (Re.canon false " ")) k
    (Re.clear_caps (Re.groups_of (Re.RChar " ")) s).

Lemma blank_step_eq k pos prev rest caps :
  blank_step k (Re.MState pos prev rest caps)
  = match rest with
    | String c r => if is_blank c then k (Re.MState (S pos) (Some c) r caps) else None
    | EmptyString => None
    end.
Proof. destruct rest; reflexivity. Qed.

(** The state behind the spaces at the current position. *)
Fixpoint behind_blanks (pos : nat) (prev : option ascii) (rest : string)
    (caps : list (nat * string)) : Re.mstate :=
  match rest with
  | String c r => if is_blank c then behind_blanks (S pos) (Some c) r caps
                  else Re.MState pos prev rest caps
  | EmptyString => Re.MState pos prev rest caps
  end.

Lemma behind_blanks_rest : forall rest pos prev caps,
  Re.m_rest (behind_blanks pos prev rest caps) = strip_leading rest.
Proof.
  induction rest as [| c r IH]; intros; cbn [behind_blanks strip_leading]; [reflexivity |].
  destruct (is_blank c); [apply IH | reflexivity].
Qed.

Lemma behind_blanks_pos : forall rest pos prev caps,
  Re.m_pos (behind_blanks pos prev rest caps) + String.length (strip_leading rest)
  = pos + String.length rest.
Proof.
  induction rest as [| c r IH]; intros; cbn [behind_blanks strip_leading String.length];
    [reflexivity |].
  destruct (is_blank c); [rewrite IH; lia | reflexivity].
Qed.

(** The greedy loop takes all the spaces when what follows accepts
    anything. *)
Lemma blanks_greedy : forall rest fuel pos prev caps,
  String.length rest <= fuel ->
  Re.rep_opt blank_step true fuel None (fun s => Some s) (Re.MState pos prev rest caps)
  = Some (behind_blanks pos prev rest caps).
Proof.
  induction rest as [| c r IH]; intros fuel pos prev caps Hf.
  - destruct fuel; reflexivity.
  - destruct fuel as [| f]; [cbn [String.length] in Hf; lia |].
    cbn [Re.rep_opt Re.max_reached Re.dec_max String.length] in *.
    rewrite blank_step_eq. cbn [behind_blanks Re.m_pos].
    destruct (is_blank c); [| reflexivity].
    replace (Nat.eqb (S pos) pos) with false by (symmetry; apply Nat.eqb_neq; lia).
    rewrite IH by lia. reflexivity.
Qed.

(** The greedy loop before the end of the subject matches when nothing
    but spaces is left. *)
Lemma blanks_to_end : forall rest fuel pos prev caps,
  String.length rest <= fuel ->
  Re.rep_opt blank_step true fuel None
    (fun st => match Re.m_rest st with EmptyString => Some st | String _ _ => None end)
    (Re.MState pos prev rest caps)
  = if all_blank rest then Some (behind_blanks pos prev rest caps) else None.
Proof.
  induction rest as [| c r IH]; intros fuel pos prev caps Hf.
  - destruct fuel; reflexivity.
  - destruct fuel as [| f]; [cbn [String.length] in Hf; lia |].
    cbn [Re.rep_opt Re.max_reached Re.dec_max String.length] in *.
    rewrite blank_step_eq. cbn [behind_blanks all_blank Re.m_pos].
    destruct (is_blank c); [| reflexivity].
    replace (Nat.eqb (S pos) pos) with false by (symmetry; apply Nat.eqb_neq; lia).
    rewrite IH by lia. cbn [andb]. destruct (all_blank r); reflexivity.
Qed.

(** An attempt of the pattern of [trim] at one position. *)
Lemma trim_attempt (pos : nat) (prev : option ascii) (rest : string) :
  Re.m (Re.re_ic (re "^ +| +$")) (Re.re_ast (re "^ +| +$")) (fun s => Some s)
    (Re.MState pos prev rest [])
  = match rest with
    | String c r =>
        if is_blank c && (Nat.eqb pos 0 || all_blank r)
        then Some (behind_blanks pos prev rest [])
        else None
    | EmptyString => None
    end.
Proof.
  rewrite trim_re. cbn [Re.re_ic Re.re_ast Re.m Re.rep_min Re.sub_max].
  change (fun (k' : Re.cont) (s : Re.mstate) =>
            Re.step1 (fun x : ascii => Ascii.eqb (Re.canon false x) (Re.canon false " "))
              k' (Re.clear_caps (Re.groups_of (Re.RChar " ")) s))
    with blank_step.
  change (Re.step1 (fun x : ascii => Ascii.eqb (Re.canon false x) (Re.canon false " "))
            ?k (Re.clear_caps (Re.groups_of (Re.RChar " ")) ?s))
    with (blank_step k s).
  rewrite !blank_step_eq. cbn [Re.m_pos].
  destruct rest as [| c r]; [destruct (Nat.eqb pos 0); reflexivity |].
  cbn [behind_blanks]. destruct (is_blank c); cbn [andb];
    [| destruct (Nat.eqb pos 0); reflexivity].
  cbn [Re.m_rest]. rewrite blanks_greedy, blanks_to_end by lia.
  destruct (Nat.eqb pos 0); cbn [orb Re.orelse]; [reflexivity |].
  destruct (all_blank r); reflexivity.
Qed.

Lemma strip_leading_le (s : string) :
  String.length (strip_leading s) <= String.length s.
Proof.
  induction s as [| x r IH]; cbn [strip_leading String.length]; [lia |].
  destruct (is_blank x); cbn [String.length]; lia.
Qed.

Lemma trim_go_end (fuel pos : nat) (prev : option ascii) :
  Re.replace_all_go fuel (re "^ +| +$") "" pos prev "" = "".
Proof.
  destruct fuel as [| f]; [reflexivity |].
  cbn [Re.replace_all_go Re.search]. rewrite trim_attempt. reflexivity.
Qed.

Lemma all_blank_behind : forall rest pos prev caps,
  all_blank rest = true ->
  behind_blanks pos prev rest caps
  = Re.MState (pos + String.length rest) (Re.last_of prev rest) "" caps.
Proof.
  induction rest as [| c r IH]; intros pos prev caps H;
    cbn [behind_blanks String.length Re.last_of].
  - now rewrite Nat.add_0_r.
  - cbn [all_blank] in H. apply andb_prop in H. destruct H as (Hc & Hr).
    rewrite Hc, IH by exact Hr. f_equal. lia.
Qed.

(** Behind the first position, only the spaces at the end go. *)
Lemma trim_go : forall (rest : string) (fuel pos : nat) (prev : option ascii),
  String.length rest < fuel ->
  Re.replace_all_go fuel (re "^ +| +$") "" (S pos) prev rest = strip_trailing rest.
Proof.
  induction rest as [| c r IH]; intros fuel pos prev Hf;
    (destruct fuel as [| f]; [cbn [String.length] in Hf; lia |]).
  - apply trim_go_end.
  - cbn [String.length] in Hf.
    pose proof (trim_attempt (S pos) prev (String c r)) as Ha.
    cbn [Nat.eqb orb] in Ha. cbn [strip_trailing all_blank].
    destruct (is_blank c && all_blank r) eqn:Hb.
    + rewrite (replace_all_go_hit f _ _ (S pos) prev _ _ Ha).
      * rewrite all_blank_behind by (cbn [all_blank]; exact Hb).
        cbn [Re.m_rest]. rewrite trim_go_end. rewrite trim_re. reflexivity.
      * rewrite all_blank_behind by (cbn [all_blank]; exact Hb).
        cbn [Re.m_pos String.length].
        replace (S pos + S (String.length r) - S pos) with (S (String.length r)) by lia.
        discriminate.
    + rewrite (replace_all_go_skip f _ _ (S pos) prev c r Ha).
      rewrite IH by lia. reflexivity.
Qed.

Lemma trim_strips (v : jv) : trim v = strip_trailing (strip_leading (to_s v)).
Proof.
  unfold trim, Re.replace_all. generalize (to_s v) as s. intros [| c r].
  - cbn [Re.replace_all_go Re.search String.length]. rewrite trim_attempt. reflexivity.
  - pose proof (trim_attempt 0 None (String c r)) as Ha. cbn [Nat.eqb orb] in Ha.
    rewrite andb_true_r in Ha. cbn [strip_leading].
    destruct (is_blank c) eqn:Hc.
    + pose proof (behind_blanks_pos (String c r) 0 None []) as Hp.
      cbn [strip_leading] in Hp. rewrite Hc in Hp.
      pose proof (behind_blanks_rest (String c r) 0 None []) as Hr.
      cbn [strip_leading] in Hr. rewrite Hc in Hr.
      destruct (behind_blanks 0 None (String c r) []) as [p1 prev1 rest1 caps1] eqn:Eb.
      cbn [Re.m_pos Re.m_rest] in Hp, Hr. subst rest1.
      cbn [behind_blanks] in Eb. rewrite Hc in Eb.
      assert (Hpos : exists q, p1 = S q).
      { destruct p1 as [| q]; [| now exists q].
        pose proof (strip_leading_le r). cbn [String.length] in Hp. exfalso. lia. }
      destruct Hpos as (q & ->).
      rewrite (replace_all_go_hit _ _ _ 0 None _ _ Ha).
      * cbn [Re.m_pos Re.m_rest]. rewrite Nat.sub_0_r. cbn [Str.take String.length Nat.add].
        rewrite trim_go.
        -- rewrite trim_re. reflexivity.
        -- pose proof (strip_leading_le r). cbn [String.length] in *. lia.
      * cbn [Re.m_pos]. rewrite Nat.sub_0_r. discriminate.
    + rewrite (replace_all_go_skip _ _ _ 0 None c r Ha).
      rewrite trim_go by (cbn [String.length]; lia).
      cbn [strip_trailing all_blank]. rewrite Hc. reflexivity.
Qed.

(** X8: [trim] takes off the spaces the string starts with and the
    spaces it ends with, and nothing else. *)
Theorem X8_trim_strips_spaces :
  forall (v : jv), trim v = strip_trailing (strip_leading (to_s v)).
Proof. exact trim_strips. Qed.

(** *** [format] *)

Lemma strip_trailing_blank (s : string) : all_blank s = true -> strip_trailing s = "".
Proof. destruct s as [| c r]; cbn [strip_trailing]; [reflexivity |]. now intros ->. Qed.

Lemma strip_trailing_idem (s : string) : strip_trailing (strip_trailing s) = strip_trailing s.
Proof.
  induction s as [| c r IH]; [reflexivity |].
  cbn [strip_trailing]. destruct (all_blank (String c r)) eqn:E; [reflexivity |].
  cbn [strip_trailing]. rewrite IH.
  destruct (all_blank (String c (strip_trailing r))) eqn:E'; [| reflexivity].
  cbn [all_blank] in E, E'. apply andb_prop in E'. destruct E' as (Hc & Hr).
  rewrite Hc in E. cbn [andb] in E.
  assert (H : strip_trailing r = "").
  { rewrite <- IH. now apply strip_trailing_blank. }
  clear -E H. exfalso. induction r as [| x r IHr]; [discriminate |].
  cbn [strip_trailing] in H. rewrite E in H. discriminate.
Qed.

(** A string that [trim] leaves as it is: no space in front, none at the
    end. *)
Definition trimmed (s : string) : Prop :=
  strip_leading s = s /\ strip_trailing s = s.

Lemma strip_leading_trailing (s : string) :
  strip_leading s = s -> strip_leading (strip_trailing s) = strip_trailing s.
Proof.
  destruct s as [| c r]; [reflexivity |]. cbn [strip_leading strip_trailing].
  destruct (is_blank c) eqn:Hc.
  - intro H. exfalso. pose proof (strip_leading_le r) as Hle. rewrite H in Hle.
    cbn [String.length] in Hle. lia.
  - intros _. cbn [all_blank]. rewrite Hc. cbn [andb strip_leading]. now rewrite Hc.
Qed.

Lemma strip_leading_idem (s : string) : strip_leading (strip_leading s) = strip_leading s.
Proof.
  induction s as [| c r IH]; [reflexivity |]. cbn [strip_leading].
  destruct (is_blank c) eqn:Hc; [exact IH |]. cbn [strip_leading]. now rewrite Hc.
Qed.

Lemma trim_trimmed (v : jv) : trimmed (trim v).
Proof.
  rewrite trim_strips. split.
  - apply strip_leading_trailing, strip_leading_idem.
  - apply strip_trailing_idem.
Qed.

Lemma trimmed_trim (s : string) : trimmed s -> trim (JStr s) = s.
Proof. intros (Hl & Ht). rewrite trim_strips. cbn [to_s]. now rewrite Hl, Ht. Qed.

Lemma format_re :
  re "^(?:webOS|i(?:OS|P))"
  = Re.MkRegExp
      (Re.RSeq Re.RBol
         (Re.RAlt
            (Re.RSeq (Re.RChar "w")
               (Re.RSeq (Re.RChar "e")
                  (Re.RSeq (Re.RChar "b") (Re.RSeq (Re.RChar "O") (Re.RChar "S")))))
            (Re.RSeq (Re.RChar "i")
               (Re.RAlt (Re.RSeq (Re.RChar "O") (Re.RChar "S")) (Re.RChar "P")))))
      false 0.
Proof. vm_compute. reflexivity. Qed.

(** The names that [format] keeps in lower case start with [w] or [i]. *)
Lemma format_keeps_initial (c : ascii) (r : string) :
  Ascii.eqb c "w" = false -> Ascii.eqb c "i" = false ->
  Re.rtest (re "^(?:webOS|i(?:OS|P))") (String c r) = false.
Proof.
  intros Hw Hi. rewrite format_re. unfold Re.rtest, Re.test, Re.exec.
  cbn [Re.re_ic Re.re_ast Re.search Re.m Re.m_pos Nat.eqb]. unfold Re.step1 at 1 6.
  cbn [Re.m_rest Re.canon]. rewrite Hw, Hi. cbn [Re.orelse].
  rewrite search_anchored_later. reflexivity.
Qed.

Lemma upper_initial (c : ascii) :
  Ascii.eqb (Str.upper c) "w" = false /\ Ascii.eqb (Str.upper c) "i" = false.
Proof. destruct c as [[] [] [] [] [] [] [] []]; split; reflexivity. Qed.

Lemma upper_idem (c : ascii) : Str.upper (Str.upper c) = Str.upper c.
Proof. destruct c as [[] [] [] [] [] [] [] []]; reflexivity. Qed.

Lemma upper_blank (c : ascii) : is_blank (Str.upper c) = is_blank c.
Proof. destruct c as [[] [] [] [] [] [] [] []]; reflexivity. Qed.

Lemma capitalize_trimmed (s : string) : trimmed s -> trimmed (capitalize (JStr s)).
Proof.
  unfold capitalize. cbn [to_s]. destruct s as [| c r]; [auto |].
  intros (Hl & Ht). unfold trimmed. cbn [strip_leading strip_trailing all_blank] in *.
  rewrite upper_blank. destruct (is_blank c) eqn:Hc.
  - exfalso. pose proof (strip_leading_le r) as Hle. rewrite Hl in Hle.
    cbn [String.length] in Hle. lia.
  - cbn [andb] in *. split; [reflexivity |]. inversion Ht as [Hr]. now rewrite !Hr.
Qed.

Lemma format_trimmed (v : jv) : trimmed (format v).
Proof.
  unfold format. destruct (Re.rtest _ (trim v)).
  - apply trim_trimmed.
  - apply capitalize_trimmed, trim_trimmed.
Qed.

Lemma format_fixed (v : jv) : format (JStr (format v)) = format v.
Proof.
  unfold format at 1. rewrite (trimmed_trim _ (format_trimmed v)).
  unfold format. destruct (Re.rtest (re "^(?:webOS|i(?:OS|P))") (trim v)) eqn:E.
  - rewrite E. reflexivity.
  - unfold capitalize. cbn [to_s]. destruct (trim v) as [| c r]; [reflexivity |].
    destruct (upper_initial c) as (Hw & Hi).
    rewrite (format_keeps_initial _ r Hw Hi), upper_idem. reflexivity.
Qed.

(** X9: on a string that starts, behind its spaces, with a code unit
    below 128, [format] changes nothing in what it has formatted, and the
    formatted string neither starts nor ends with a space. *)
Theorem X9_format_idempotent :
  forall (v : jv),
    ascii_initial (trim v) = true ->
    format (JStr (format v)) = format v
    /\ strip_leading (format v) = format v
    /\ strip_trailing (format v) = format v.
Proof. intros v _. split; [apply format_fixed | exact (format_trimmed v)]. Qed.

Lemma X9_format_idempotent_witness :
  format (JStr (format (JStr "  mac os x "))) = format (JStr "  mac os x ")
  /\ strip_leading (format (JStr "  mac os x ")) = format (JStr "  mac os x ")
  /\ strip_trailing (format (JStr "  mac os x ")) = format (JStr "  mac os x ").
Proof. apply (X9_format_idempotent (JStr "  mac os x ")). vm_compute. reflexivity. Defined.

(** *** What the pickers of the OS and of the product return *)

(** Null, or a string as [format] leaves it. *)
Definition formatted (v : jv) : Prop :=
  v = JNull \/ exists x, v = JStr (format x).

Lemma JStr_inj (a b : string) : JStr a = JStr b -> a = b.
Proof. intro H. injection H as H. exact H. Qed.

Lemma first_yield_from {V : Type} (yield : V -> outcome jv) :
  forall (l : list V) (last v : jv),
    first_yield yield last l = Ok v ->
    v = last \/ exists g, In g l /\ yield g = Ok v.
Proof.
  induction l as [| g rest IH]; intros last v; cbn [first_yield].
  - intro H. inversion H. now left.
  - intro H. apply bind_Ok in H. destruct H as (v' & Hg & H).
    destruct (truthy v').
    + inversion H; subst v'. right. exists g. split; [now left | exact Hg].
    + apply IH in H. destruct H as [-> | (g' & Hin & Hg')].
      * right. exists g. split; [now left | exact Hg].
      * right. exists g'. split; [now right | exact Hg'].
Qed.

Lemma os_of_formatted ua g v : os_of ua g = Ok v -> formatted v.
Proof.
  unfold os_of. cbv zeta. intro H. apply bind_Ok in H. destruct H as (r & _ & H).
  destruct (Re.rexec r ua) as [mr |]; [| inversion H; now left].
  apply bind_Ok in H. destruct H as (o & Ho & H). inversion H; subst v; clear H.
  unfold cleanupOS in Ho. cbv zeta in Ho.
  apply bind_Ok in Ho. destruct Ho as (o1 & _ & Ho). inversion Ho.
  right. eexists. reflexivity.
Qed.

Lemma product_of_formatted ua g v : product_of ua g = Ok v -> formatted v.
Proof.
  unfold product_of. cbv zeta. intro H. apply bind_Ok in H. destruct H as (found & _ & H).
  destruct found as [[r mr] |]; [| inversion H; now left].
  apply bind_Ok in H. destruct H as (use_label & _ & H).
  apply bind_Ok in H. destruct H as (ra & _ & H).
  apply bind_Ok in H. destruct H as (rb & _ & H).
  apply bind_Ok in H. destruct H as (rc & _ & H).
  inversion H. right. eexists. reflexivity.
Qed.

(** X15: a string that the picker of the OS or the picker of the product
    returns, for any list of guesses, is one that [format] has made: when
    it starts with a code unit below 128, it neither starts nor ends with
    a space, and formatting it again, as the rules do, changes nothing. *)
Theorem X15_picked_is_formatted :
  forall (ua : string) (guesses : list guess) (s : string),
    getOS ua guesses = Ok (JStr s) \/ getProduct ua guesses = Ok (JStr s) ->
    ascii_initial s = true ->
    format (JStr s) = s /\ strip_leading s = s /\ strip_trailing s = s.
Proof.
  intros ua guesses s H _.
  assert (Hf : formatted (JStr s)).
  { destruct H as [H | H].
    - unfold getOS in H. rewrite reduce_first in H. apply first_yield_from in H.
      destruct H as [H | (g & _ & Hg)]; [discriminate | eapply os_of_formatted; exact Hg].
    - unfold getProduct in H. rewrite reduce_first in H. apply first_yield_from in H.
      destruct H as [H | (g & _ & Hg)];
        [discriminate | eapply product_of_formatted; exact Hg]. }
  destruct Hf as [Hf | (x & Hf)]; [discriminate |].
  apply JStr_inj in Hf. subst s.
  split; [apply format_fixed | exact (format_trimmed x)].
Qed.

Lemma X15_picked_is_formatted_witness :
  format (JStr "Android 4.1") = "Android 4.1"
  /\ strip_leading "Android 4.1" = "Android 4.1"
  /\ strip_trailing "Android 4.1" = "Android 4.1".
Proof.
  apply (X15_picked_is_formatted "Android 4.1" oses "Android 4.1");
    [left; vm_compute; reflexivity | reflexivity].
Defined.

(** *** The ladders of approximate versions *)

(** The major version an approximate version stands for. *)
Definition major (a : approx) : nat :=
  match a with
  | ANum n => n
  | AStr s => fst (Re.read_nat 0 s)
  end.

(** A ladder as a list of rungs: the first rung whose bound is above the
    build gives the version, else [top]. *)
Fixpoint climb (rungs : list (Num.num * approx)) (top : approx) (data : Num.num) : approx :=
  match rungs with
  | [] => top
  | (bound, a) :: rest => if Num.lt data bound then a else climb rest top data
  end.

Fixpoint rising (majors : list nat) : Prop :=
  match majors with
  | x :: ((y :: _) as rest) => x <= y /\ rising rest
  | _ => True
  end.

Lemma lt_Fin_le (a b : Q) (bound : Num.num) :
  Qle a b -> Num.lt (Num.Fin b) bound = true -> Num.lt (Num.Fin a) bound = true.
Proof.
  intros Hab. destruct bound as [| t | []]; cbn [Num.lt]; try tauto.
  intro H. apply negb_true_iff in H. apply negb_true_iff.
  destruct (Qle_bool t a) eqn:E; [| reflexivity].
  apply Qle_bool_iff in E. assert (Ht : Qle t b) by (eapply Qle_trans; eassumption).
  apply Qle_bool_iff in Ht. congruence.
Qed.

Lemma rising_head x rest y : rising (x :: rest) -> In y rest -> x <= y.
Proof.
  revert x. induction rest as [| z rest IH]; intros x H Hin; [contradiction |].
  destruct H as (Hxz & Hrest). destruct Hin as [<- | Hin]; [exact Hxz |].
  specialize (IH z Hrest Hin). lia.
Qed.

Lemma climb_in rungs top data :
  In (major (climb rungs top data)) (map (fun r => major (snd r)) rungs ++ [major top])%list.
Proof.
  induction rungs as [| [bound a] rest IH]; cbn [climb map app].
  - now left.
  - destruct (Num.lt data bound); [now left | right; exact IH].
Qed.

Lemma climb_monotone rungs top (a b : Q) :
  rising (map (fun r => major (snd r)) rungs ++ [major top])%list ->
  Qle a b ->
  major (climb rungs top (Num.Fin a)) <= major (climb rungs top (Num.Fin b)).
Proof.
  intros Hr Hab. induction rungs as [| [bound x] rest IH]; cbn [climb]; [lia |].
  cbn [map app snd] in Hr.
  destruct (Num.lt (Num.Fin b) bound) eqn:Eb.
  - now rewrite (lt_Fin_le a b bound Hab Eb).
  - assert (Hrest : rising (map (fun r => major (snd r)) rest ++ [major top])%list).
    { destruct (map (fun r => major (snd r)) rest ++ [major top])%list eqn:E;
        [exact I | apply Hr]. }
    destruct (Num.lt (Num.Fin a) bound).
    + apply (rising_head _ _ _ Hr). apply climb_in.
    + apply IH. exact Hrest.
Qed.

Definition safari_rungs : list (Num.num * approx) :=
  [(Num.int 400, ANum 1); (Num.int 500, ANum 2); (Num.int 526, ANum 3);
   (Num.int 533, ANum 4); (Num.int 534, AStr "4+"); (Num.int 535, ANum 5);
   (Num.int 537, ANum 6); (Num.int 538, ANum 7); (Num.int 601, ANum 8);
   (Num.int 602, ANum 9); (Num.int 604, ANum 10); (Num.int 606, ANum 11);
   (Num.int 608, ANum 12)].

Definition chrome_rungs : list (Num.num * approx) :=
  [(Num.dec 53000 2, ANum 1); (Num.dec 53200 2, ANum 2); (Num.dec 53205 2, ANum 3);
   (Num.dec 53300 2, ANum 4); (Num.dec 53403 2, ANum 5); (Num.dec 53407 2, ANum 6);
   (Num.dec 53410 2, ANum 7); (Num.dec 53413 2, ANum 8); (Num.dec 53416 2, ANum 9);
   (Num.dec 53424 2, ANum 10); (Num.dec 53430 2, ANum 11); (Num.dec 53501 2, ANum 12);
   (Num.dec 53502 2, AStr "13+"); (Num.dec 53507 2, ANum 15); (Num.dec 53511 2, ANum 16);
   (Num.dec 53519 2, ANum 17); (Num.dec 53605 2, ANum 18); (Num.dec 53610 2, ANum 19);
   (Num.dec 53701 2, ANum 20); (Num.dec 53711 2, AStr "21+"); (Num.dec 53713 2, ANum 23);
   (Num.dec 53718 2, ANum 24); (Num.dec 53724 2, ANum 25); (Num.dec 53736 2, ANum 26)].

Lemma safari_ladder_climb data :
  safari_ladder data = climb safari_rungs (AStr "12") data.
Proof. reflexivity. Qed.

Lemma chrome_ladder_climb data blink :
  chrome_ladder data blink
  = climb chrome_rungs (if blink then AStr "28" else AStr "27") data.
Proof. unfold chrome_ladder. cbn [climb chrome_rungs]. reflexivity. Qed.

(** X11: a later WebKit build never gives an earlier approximate version:
    both ladders rise with the build number. *)
Theorem X11_ladders_rise :
  forall (a b : Q) (blink : bool),
    Qle a b ->
    major (safari_ladder (Num.Fin a)) <= major (safari_ladder (Num.Fin b))
    /\ major (chrome_ladder (Num.Fin a) blink) <= major (chrome_ladder (Num.Fin b) blink).
Proof.
  intros a b blink Hab. rewrite !safari_ladder_climb, !chrome_ladder_climb. split.
  - apply climb_monotone; [| exact Hab]. vm_compute. repeat split; lia.
  - apply climb_monotone; [| exact Hab]. destruct blink; vm_compute; repeat split; lia.
Qed.

Lemma X11_ladders_rise_witness :
  major (safari_ladder (Num.Fin (Qmake 533 1))) <= major (safari_ladder (Num.Fin (Qmake 535 1)))
  /\ major (chrome_ladder (Num.Fin (Qmake 533 1)) true)
     <= major (chrome_ladder (Num.Fin (Qmake 535 1)) true).
Proof. apply (X11_ladders_rise (Qmake 533 1) (Qmake 535 1) true). discriminate. Defined.

(** *** Without [useFeatures], the hints of the environment are not read *)

Lemma leverage_features_off context custom ua java rhino l :
  leverage_features context custom ua false java rhino l = l.
Proof. reflexivity. Qed.

Lemma detect_prerelease_off ua nav alpha beta l :
  detect_prerelease ua nav false alpha beta l = detect_prerelease ua None false alpha beta l.
Proof. reflexivity. Qed.

Lemma masking_applies_off this ua opera l :
  masking_applies this ua false opera l = masking_applies this ua false None l.
Proof. reflexivity. Qed.

Lemma detect_browsers_ext self self' ua l :
  (eqs (name l) "IE" && Re.rtest (re "\blike iPhone OS\b") ua = true ->
   self false (IStr (Re.replace (re "like iPhone OS") "" ua))
   = self' false (IStr (Re.replace (re "like iPhone OS") "" ua))) ->
  detect_browsers self ua l = detect_browsers self' ua l.
Proof.
  intro H. unfold detect_browsers.
  destruct (eqs (name l) "IE" && Re.rtest (re "\blike iPhone OS\b") ua)%bool;
    [rewrite H by reflexivity |]; reflexivity.
Qed.

Lemma detect_mobile_and_masking_off self self' context context' this ua opera opera'
    operaClass l :
  (masking_applies this ua false None l = true ->
   self true (IStr (Re.replace reOpera "" ua ++ ";"))
   = self' true (IStr (Re.replace reOpera "" ua ++ ";"))) ->
  detect_mobile_and_masking self context this ua false opera operaClass l
  = detect_mobile_and_masking self' context' this ua false opera' operaClass l.
Proof.
  intro H. unfold detect_mobile_and_masking.
  rewrite !andb_false_r, (masking_applies_off this ua opera),
    (masking_applies_off this ua opera').
  destruct (masking_applies this ua false None l);
    [rewrite H by reflexivity |]; reflexivity.
Qed.

(** What the head of [parse] fixes for a string that is not the ambient
    one, when there is no ambient one. *)
Lemma setup_explicit (root : Host) (s : string) :
  s <> "" -> userAgent_of root = "" ->
  e_ua (setup root (IStr s)) = s
  /\ e_useFeatures (setup root (IStr s)) = false
  /\ e_version (setup root (IStr s)) = JBool false.
Proof.
  intros Hs Hroot. cbn [setup e_ua e_useFeatures e_version].
  rewrite (ua_of_string root s Hs), Hroot.
  destruct s as [| c r]; [congruence |]. auto.
Qed.

Lemma setup_same_hints (root root' : Host) (s : string) :
  java root = java root' -> operamini root = operamini root' -> opera root = opera root' ->
  e_alpha (setup root (IStr s)) = e_alpha (setup root' (IStr s))
  /\ e_beta (setup root (IStr s)) = e_beta (setup root' (IStr s))
  /\ e_operaClass (setup root (IStr s)) = e_operaClass (setup root' (IStr s)).
Proof.
  intros Hj Hm Ho. cbn [setup e_alpha e_beta e_operaClass andb].
  rewrite Hj, Hm, Ho. auto.
Qed.

Lemma pick_same (e e' : Env) :
  e_ua e = e_ua e' -> e_version e = e_version e' -> pick e = pick e'.
Proof. intros Hu Hv. unfold pick. rewrite Hu, Hv. reflexivity. Qed.

Section Gate.
Variables root root' : Host.
Hypothesis no_ambient : userAgent_of root = "".
Hypothesis no_ambient' : userAgent_of root' = "".
Hypothesis same_java : java root = java root'.
Hypothesis same_operamini : operamini root = operamini root'.
Hypothesis same_opera : opera root = opera root'.

Lemma parse_fuel_gate : forall (n : nat) (this : bool) (s : string),
  s <> "" ->
  parse_fuel n root this (IStr s) = parse_fuel n root' this (IStr s).
Proof.
  induction n as [| n IH]; intros this s Hs; [reflexivity |].
  cbn [parse_fuel]. unfold parse_body, resolved.
  destruct (setup_explicit root s Hs no_ambient) as (Hu & Hf & Hv).
  destruct (setup_explicit root' s Hs no_ambient') as (Hu' & Hf' & Hv').
  destruct (setup_same_hints root root' s same_java same_operamini same_opera)
    as (Ha & Hb & Hc).
  set (e := setup root (IStr s)) in *. set (e' := setup root' (IStr s)) in *.
  rewrite (pick_same e e') by congruence.
  destruct (pick e') as [l0 | err |] eqn:Hpick; cbn [bind]; try reflexivity.
  apply pick_name in Hpick. rewrite Hu' in Hpick.
  unfold finish_in, resolve_in, resolve, resolve_first, resolve_rest.
  rewrite Hu, Hu', Hf, Hf', <- Ha, <- Hb, <- Hc. cbv zeta.
  destruct (detect_manufacturer_product s (detect_android_product s l0)) as [l1 | err |] eqn:H1;
    cbn [bind]; try reflexivity.
  apply name_detect_manufacturer_product in H1.
  rewrite name_detect_android_product in H1.
  rewrite (detect_browsers_ext (parse_fuel n root) (parse_fuel n root')).
  2:{ rewrite name_detect_opera_mini_turbo, name_detect_simulators,
        name_cleanup_google_tv, H1.
      intro Hcond. apply andb_prop in Hcond. destruct Hcond as (Hie & Hlike).
      destruct (like_iphone_removed s Hlike) as (_ & Hempty).
      apply IH. intro Hz. apply Hempty in Hz. rewrite Hz, getName_like_iphone in Hpick.
      inversion Hpick as [Hname]. rewrite <- Hname in Hie. discriminate. }
  destruct (detect_browsers (parse_fuel n root') s _) as [l2 | err |];
    cbn [bind]; try reflexivity.
  destruct (detect_version s l2) as [l3 | err |]; cbn [bind]; try reflexivity.
  rewrite !leverage_features_off.
  rewrite (detect_prerelease_off s (e_nav e)), (detect_prerelease_off s (e_nav e')).
  destruct (detect_prerelease s None false (e_alpha e) (e_beta e) _) as [l4 | err |];
    cbn [bind]; try reflexivity.
  rewrite (detect_mobile_and_masking_off (parse_fuel n root) (parse_fuel n root')
             (e_context e) (e_context e') this s (e_opera e) (e_opera e')).
  2:{ intros _. apply IH. destruct (Re.replace reOpera "" s); discriminate. }
  destruct (detect_mobile_and_masking (parse_fuel n root') (e_context e') this s false
              (e_opera e') (e_operaClass e) l4) as [l5 | err |];
    cbn [bind]; try reflexivity.
Qed.
End Gate.

(** X12: when the string to parse is given and there is no ambient one,
    the hints of the environment are not read, but for the Java and Opera
    objects: two environments that agree on those give the same result,
    whatever their navigator, document, process, runtime and other hints
    are. *)
Theorem X12_features_gated :
  forall (root root' : Host) (s : string),
    s <> "" ->
    userAgent_of root = "" -> userAgent_of root' = "" ->
    java root = java root' ->
    operamini root = operamini root' ->
    opera root = opera root' ->
    parse root (IStr s) = parse root' (IStr s).
Proof.
  intros root root' s Hs Hr Hr' Hj Hm Ho. unfold parse.
  rewrite !(ua_of_string _ s Hs). now apply parse_fuel_gate.
Qed.

(** An environment with the hints of Node.js. *)
Definition node_host : Host :=
  {| navigator := None; documentMode := Some 11; opera := None; operamini := None;
     java := None; environment := None; global := true; ringo_version := None;
     system := None;
     process := Some {| browser := false; versions := None;
                        process_arch := JStr "x64"; process_platform := JStr "linux";
                        process_version := JStr "v12.0.0" |};
     runtime := None; phantom := None; external := ExternalNull;
     nativeSource := "function toString() { [native code] }" |}.

Lemma X12_features_gated_witness :
  parse node_host (IStr "Opera MSIE") = parse bare (IStr "Opera MSIE").
Proof. apply X12_features_gated; [discriminate | reflexivity ..]. Defined.

(* ------------------------------------------------------------------ *)
(** ** Totality of [parse] *)

(** *** What a regex consumes and what its groups capture *)

Module ReLang.
Import Re.

(** The words of a list, one after the other. *)
Fixpoint flat (ws : list string) : string :=
  match ws with
  | [] => EmptyString
  | w :: rest => w ++ flat rest
  end.

Lemma append_nil (a : string) : a ++ "" = a.
Proof. induction a as [| c a IH]; cbn [append]; [reflexivity | now rewrite IH]. Qed.

(** The texts a regex can consume (a backreference, whose text depends on
    the captures, stands for any text). *)
Fixpoint lang (ic : bool) (r : regex) (w : string) : Prop :=
  match r with
  | REmpty | RLook _ _ | RBol | REol | RWordB _ => w = EmptyString
  | RChar c =>
      exists x, w = String x EmptyString /\ Ascii.eqb (canon ic x) (canon ic c) = true
  | RAny => exists x, w = String x EmptyString /\ Str.is_newline x = false
  | RClass neg items =>
      exists x, w = String x EmptyString /\ xorb neg (class_has ic items x) = true
  | RSeq r1 r2 => exists a b, w = a ++ b /\ lang ic r1 a /\ lang ic r2 b
  | RAlt r1 r2 => lang ic r1 w \/ lang ic r2 w
  | RRep mn mx _ r1 =>
      exists ws, w = flat ws /\ Forall (lang ic r1) ws /\ mn <= List.length ws
                 /\ forall n, mx = Some n -> List.length ws <= Nat.max mn n
  | RGroup _ r1 => lang ic r1 w
  | RBackref _ => True
  end.

(** The capturing groups of a regex, with their bodies. *)
Fixpoint bodies (r : regex) : list (nat * regex) :=
  match r with
  | RSeq a b | RAlt a b => bodies a ++ bodies b
  | RRep _ _ _ a | RLook _ a => bodies a
  | RGroup n a => (n, a) :: bodies a
  | _ => []
  end.

Section Sound.
Variable ic : bool.
(** What the captures are to satisfy. *)
Variable P : nat -> string -> Prop.

Definition groups_sat (r : regex) : Prop :=
  forall g b w, In (g, b) (bodies r) -> lang ic b w -> P g w.

Definition caps_all (caps : list (nat * string)) : Prop :=
  Forall (fun kv => P (fst kv) (snd kv)) caps.

Lemma caps_all_filter f caps : caps_all caps -> caps_all (filter f caps).
Proof.
  unfold caps_all. rewrite !Forall_forall. intros H kv Hin.
  apply filter_In in Hin. apply H, Hin.
Qed.

Lemma caps_all_get g v caps : caps_all caps -> get_cap g caps = Some v -> P g v.
Proof.
  induction caps as [| [k x] rest IH]; cbn [get_cap]; [discriminate |].
  intros H. inversion H as [| ? ? Hk Hrest]; subst.
  destruct (Nat.eqb k g) eqn:E.
  - intro Hv. inversion Hv; subst. apply Nat.eqb_eq in E. subst. exact Hk.
  - apply IH, Hrest.
Qed.

Lemma caps_all_set g v caps : P g v -> caps_all caps -> caps_all (set_cap g v caps).
Proof.
  intros Hv H. unfold set_cap. constructor; [exact Hv | now apply caps_all_filter].
Qed.

Lemma caps_all_clear gs st : caps_all (m_caps st) -> caps_all (m_caps (clear_caps gs st)).
Proof.
  destruct gs; cbn [clear_caps m_caps]; [auto |]. apply caps_all_filter.
Qed.

(** A matcher transformer that, when it succeeds, has consumed a text of
    [L] before it called its continuation, and kept the captures in [P]. *)
Definition sound (L : string -> Prop) (f : cont -> cont) : Prop :=
  forall k st res, f k st = Some res -> caps_all (m_caps st) ->
    exists w st',
      L w /\ m_rest st = w ++ m_rest st'
      /\ m_pos st' = m_pos st + String.length w
      /\ caps_all (m_caps st') /\ k st' = Some res.

Lemma sound_here (L : string -> Prop) (k : cont) st res :
  L EmptyString -> k st = Some res -> caps_all (m_caps st) ->
  exists w st',
    L w /\ m_rest st = w ++ m_rest st'
    /\ m_pos st' = m_pos st + String.length w
    /\ caps_all (m_caps st') /\ k st' = Some res.
Proof.
  intros HL Hk Hc. exists EmptyString, st. cbn [append String.length].
  repeat split; auto.
Qed.

Lemma step1_sound ok :
  sound (fun w => exists x, w = String x EmptyString /\ ok x = true) (step1 ok).
Proof.
  intros k st res. unfold step1.
  destruct (m_rest st) as [| c rest'] eqn:E; [discriminate |].
  destruct (ok c) eqn:Hok; [| discriminate]. intros H Hc.
  exists (String c EmptyString), (MState (S (m_pos st)) (Some c) rest' (m_caps st)).
  cbn [m_rest m_pos m_caps append String.length].
  split; [(exists c); auto |]. split; [reflexivity |]. split; [lia |]. auto.
Qed.

Lemma sound_seq (L1 L2 : string -> Prop) (f1 f2 : cont -> cont) :
  sound L1 f1 -> sound L2 f2 ->
  sound (fun w => exists a b, w = a ++ b /\ L1 a /\ L2 b) (fun k => f1 (f2 k)).
Proof.
  intros H1 H2 k st res H Hc.
  apply (fun Y => H1 _ _ _ Y ltac:(exact Hc)) in H. destruct H as (a & s1 & La & Ra & Pa & Ca & H).
  apply (fun Y => H2 _ _ _ Y ltac:(exact Ca)) in H. destruct H as (b & s2 & Lb & Rb & Pb & Cb & H).
  exists (a ++ b), s2. split; [(exists a, b); auto |].
  split; [rewrite Ra, Rb, ReFacts.append_assoc; reflexivity |].
  split; [rewrite Pb, Pa, ReFacts.append_length; lia |]. auto.
Qed.

Lemma sound_weaken (L L' : string -> Prop) f :
  (forall w, L w -> L' w) -> sound L f -> sound L' f.
Proof.
  intros HL H k st res Hf Hc. apply (fun Y => H _ _ _ Y ltac:(exact Hc)) in Hf.
  destruct Hf as (w & s1 & Lw & rest). exists w, s1. split; [apply HL, Lw | exact rest].
Qed.

Lemma step_text_sound t : sound (fun _ => True) (step_text ic t).
Proof.
  induction t as [| c t IH]; intros k st res; cbn [step_text].
  - intros H Hc. now apply (sound_here (fun _ => True)).
  - intros H Hc.
    apply (fun Y => step1_sound _ _ _ _ Y Hc) in H.
    destruct H as (a & s1 & _ & Ra & Pa & Ca & H).
    apply (fun Y => IH _ _ _ Y Ca) in H.
    destruct H as (b & s2 & _ & Rb & Pb & Cb & H).
    exists (a ++ b), s2. split; [exact I |].
    split; [rewrite Ra, Rb, ReFacts.append_assoc; reflexivity |].
    split; [rewrite Pb, Pa, ReFacts.append_length; lia |]. auto.
Qed.

Section Quantified.
Variable step : cont -> cont.
Variable L : string -> Prop.
Hypothesis step_sound : sound L step.

Lemma rep_min_sound mn :
  sound (fun w => exists ws, w = flat ws /\ Forall L ws /\ List.length ws = mn)
    (rep_min step mn).
Proof.
  induction mn as [| n IH]; intros k st res; cbn [rep_min].
  - intros H Hc. apply sound_here; auto. exists []. auto.
  - intros H Hc.
    apply (fun Y => step_sound _ _ _ Y ltac:(exact Hc)) in H. destruct H as (a & s1 & La & Ra & Pa & Ca & H).
    apply (fun Y => IH _ _ _ Y ltac:(exact Ca)) in H.
    destruct H as (b & s2 & (ws & -> & Fws & Hlen) & Rb & Pb & Cb & H).
    exists (a ++ flat ws), s2. split.
    + exists (a :: ws). cbn [flat List.length]. auto.
    + split; [rewrite Ra, Rb, ReFacts.append_assoc; reflexivity |].
      split; [rewrite Pb, Pa, ReFacts.append_length; lia | auto].
Qed.

Lemma rep_opt_sound greedy fuel : forall mx,
  sound (fun w => exists ws, w = flat ws /\ Forall L ws
                             /\ forall n, mx = Some n -> List.length ws <= n)
    (fun k => rep_opt step greedy fuel mx k).
Proof.
  induction fuel as [| f IH]; intros mx k st res; cbn [rep_opt].
  - intros H Hc. apply sound_here; auto. exists []. cbn [List.length]. repeat split; auto.
    intros; lia.
  - destruct (max_reached mx) eqn:Hmax.
    + intros H Hc. apply sound_here; auto. exists []. cbn [List.length]. repeat split; auto.
      intros; lia.
    + intros H Hc.
      assert (Hcases :
        step (fun st' => if Nat.eqb (m_pos st') (m_pos st) then None
                         else rep_opt step greedy f (dec_max mx) k st') st = Some res
        \/ k st = Some res).
      { destruct greedy; apply ReFacts.orelse_Some in H; tauto. }
      destruct Hcases as [Hagain | Hk].
      * apply (fun Y => step_sound _ _ _ Y ltac:(exact Hc)) in Hagain.
        destruct Hagain as (a & s1 & La & Ra & Pa & Ca & H1).
        destruct (Nat.eqb (m_pos s1) (m_pos st)); [discriminate |].
        apply (fun Y => IH _ _ _ _ Y ltac:(exact Ca)) in H1.
        destruct H1 as (b & s2 & (ws & -> & Fws & Hlen) & Rb & Pb & Cb & H2).
        exists (a ++ flat ws), s2. split.
        -- exists (a :: ws). cbn [flat List.length]. repeat split; auto.
           intros n ->. destruct n as [| n]; [discriminate |].
           specialize (Hlen n eq_refl). lia.
        -- split; [rewrite Ra, Rb, ReFacts.append_assoc; reflexivity |].
           split; [rewrite Pb, Pa, ReFacts.append_length; lia | auto].
      * apply sound_here; auto. exists []. cbn [List.length]. repeat split; auto. intros; lia.
Qed.
End Quantified.

Lemma flat_app (a b : list string) : flat (a ++ b) = flat a ++ flat b.
Proof.
  induction a as [| w a IH]; cbn [flat app]; [reflexivity |].
  now rewrite IH, ReFacts.append_assoc.
Qed.

Lemma groups_sat_sub (r r' : regex) :
  (forall x, In x (bodies r') -> In x (bodies r)) -> groups_sat r -> groups_sat r'.
Proof. intros Hsub H g b w Hin. apply H, Hsub, Hin. Qed.

(** When [m ic r k st] succeeds, [r] has consumed a text of its language,
    and every capture is a text of the language of its group. *)
Lemma m_sound : forall r, groups_sat r -> sound (lang ic r) (m ic r).
Proof.
  induction r as [| c | | neg items | r1 IH1 r2 IH2 | r1 IH1 r2 IH2
                  | mn mx greedy r1 IH1 | n r1 IH1 | neg r1 IH1 | n | | | neg];
    intros Hg; cbn [lang].
  - intros k st res H Hc. cbn [m] in H. now apply sound_here.
  - apply step1_sound.
  - eapply sound_weaken; [| apply (step1_sound (fun x => negb (Str.is_newline x)))].
    intros w (x & -> & Hx). exists x. split; [reflexivity |].
    now destruct (Str.is_newline x).
  - apply step1_sound.
  - apply (sound_seq _ _ (m ic r1) (m ic r2)).
    + apply IH1. eapply groups_sat_sub; [| exact Hg]. intros x Hx. cbn [bodies].
      apply in_or_app. now left.
    + apply IH2. eapply groups_sat_sub; [| exact Hg]. intros x Hx. cbn [bodies].
      apply in_or_app. now right.
  - intros k st res H Hc. cbn [m] in H. apply ReFacts.orelse_Some in H.
    destruct H as [H | H].
    + assert (Hg1 : groups_sat r1).
      { eapply groups_sat_sub; [| exact Hg]. intros x Hx. cbn [bodies].
        apply in_or_app. now left. }
      apply (fun Y => IH1 Hg1 _ _ _ Y Hc) in H.
      destruct H as (w & s1 & Lw & rest). exists w, s1. split; [now left | exact rest].
    + assert (Hg2 : groups_sat r2).
      { eapply groups_sat_sub; [| exact Hg]. intros x Hx. cbn [bodies].
        apply in_or_app. now right. }
      apply (fun Y => IH2 Hg2 _ _ _ Y Hc) in H.
      destruct H as (w & s1 & Lw & rest). exists w, s1. split; [now right | exact rest].
  - intros k st res H Hc. cbn [m] in H.
    assert (Hstep : sound (lang ic r1)
                      (fun (k' : cont) (s : mstate) =>
                         m ic r1 k' (clear_caps (groups_of r1) s))).
    { intros k' s res' H' Hc'.
      apply (fun Y => (IH1 Hg) _ _ _ Y (caps_all_clear _ _ Hc')) in H'.
      destruct H' as (w & s' & Lw & Rw & Pw & Cw & H').
      exists w, s'. split; [exact Lw |].
      destruct (groups_of r1); cbn [clear_caps m_rest m_pos] in Rw, Pw; auto. }
    apply (fun Y => rep_min_sound _ _ Hstep _ _ _ _ Y ltac:(exact Hc)) in H.
    destruct H as (a & s1 & (wa & -> & Fa & Hla) & Ra & Pa & Ca & H).
    apply (fun Y => rep_opt_sound _ _ Hstep _ _ _ _ _ _ Y ltac:(exact Ca)) in H.
    destruct H as (b & s2 & (wb & -> & Fb & Hlb) & Rb & Pb & Cb & H).
    exists (flat wa ++ flat wb), s2. split.
    + exists (wa ++ wb)%list. rewrite flat_app, length_app. repeat split.
      * apply Forall_app. auto.
      * lia.
      * intros x ->. cbn [sub_max] in Hlb. specialize (Hlb (x - mn) eq_refl). lia.
    + split; [rewrite Ra, Rb, ReFacts.append_assoc; reflexivity |].
      split; [rewrite Pb, Pa, ReFacts.append_length; lia | auto].
  - intros k st res H Hc. cbn [m] in H.
    assert (Hg1 : groups_sat r1).
    { eapply groups_sat_sub; [| exact Hg]. intros x Hx. cbn [bodies]. now right. }
    apply (fun Y => (IH1 Hg1) _ _ _ Y ltac:(exact Hc)) in H.
    destruct H as (w & s1 & Lw & Rw & Pw & Cw & H).
    exists w. eexists. split; [exact Lw |].
    split; [| split; [| split; [| exact H]]]; cbn [m_rest m_pos m_caps].
    + exact Rw.
    + exact Pw.
    + apply caps_all_set; [| exact Cw].
      rewrite Pw, Rw. replace (m_pos st + String.length w - m_pos st) with (String.length w) by lia.
      rewrite ReFacts.take_app. apply (Hg n r1 w); [cbn [bodies]; now left | exact Lw].
  - intros k st res H Hc. cbn [m] in H.
    destruct (m ic r1 (fun s => Some s) st) as [st' |] eqn:E; destruct neg; try discriminate.
    + apply (fun Y => (IH1 Hg) _ _ _ Y ltac:(exact Hc)) in E.
      destruct E as (w & s1 & _ & _ & _ & Cw & E). inversion E; subst s1.
      exists EmptyString. eexists. split; [reflexivity |].
      split; [| split; [| split; [| exact H]]]; cbn [m_rest m_pos m_caps append String.length];
        [reflexivity | lia | exact Cw].
    + now apply sound_here.
  - intros k st res H Hc. cbn [m] in H.
    destruct (get_cap n (m_caps st)).
    + apply (fun Y => step_text_sound _ _ _ _ Y ltac:(exact Hc)) in H.
      destruct H as (w & s1 & _ & rest). exists w, s1. split; [exact I | exact rest].
    + now apply (sound_here (fun _ => True)).
  - intros k st res H Hc. cbn [m] in H.
    destruct (Nat.eqb (m_pos st) 0); [| discriminate]. now apply sound_here.
  - intros k st res H Hc. cbn [m] in H.
    destruct (m_rest st) eqn:E; [| discriminate]. rewrite <- E. now apply sound_here.
  - intros k st res H Hc. cbn [m] in H.
    destruct (xorb neg (at_word_boundary st)); [| discriminate]. now apply sound_here.
Qed.

(** What [exec] returns: the text of the match is of the language, and so
    are the captures. *)
Lemma search_sound r : groups_sat r ->
  forall rest pos prev mr,
    search ic r pos prev rest = Some mr ->
    lang ic r (mr_text mr) /\ caps_all (mr_caps mr).
Proof.
  intros Hg. induction rest as [| c rest IH]; intros pos prev mr; cbn [search].
  - destruct (m ic r (fun s => Some s) (MState pos prev EmptyString [])) as [st' |] eqn:E;
      [| discriminate].
    intro H. inversion H; subst mr; clear H. cbn [mr_text mr_caps].
    pose proof (m_sound r Hg _ _ _ E (Forall_nil _)) as E'. clear E. rename E' into E.
    destruct E as (w & s1 & Lw & Rw & Pw & Cw & E). inversion E; subst s1.
    cbn [m_rest m_pos] in Rw, Pw. rewrite Pw, Rw.
    replace (pos + String.length w - pos) with (String.length w) by lia.
    rewrite ReFacts.take_app. auto.
  - destruct (m ic r (fun s => Some s) (MState pos prev (String c rest) [])) as [st' |] eqn:E.
    + intro H. inversion H; subst mr; clear H. cbn [mr_text mr_caps].
      pose proof (m_sound r Hg _ _ _ E (Forall_nil _)) as E'. clear E. rename E' into E.
      destruct E as (w & s1 & Lw & Rw & Pw & Cw & E). inversion E; subst s1.
      cbn [m_rest m_pos] in Rw, Pw. rewrite Pw, Rw.
      replace (pos + String.length w - pos) with (String.length w) by lia.
      rewrite ReFacts.take_app. auto.
    + apply IH.
Qed.
End Sound.

(** The code units a regex can consume. *)
Fixpoint alpha (ic : bool) (r : regex) (c : ascii) : bool :=
  match r with
  | RChar x => Ascii.eqb (canon ic c) (canon ic x)
  | RAny => negb (Str.is_newline c)
  | RClass neg items => xorb neg (class_has ic items c)
  | RSeq a b | RAlt a b => alpha ic a c || alpha ic b c
  | RRep _ _ _ a | RGroup _ a => alpha ic a c
  | RBackref _ => true
  | _ => false
  end.

Lemma all_chars_impl (f g : ascii -> bool) (s : string) :
  (forall c, f c = true -> g c = true) -> all_chars f s = true -> all_chars g s = true.
Proof.
  intro H. induction s as [| c s IH]; cbn [all_chars]; [auto |].
  intro Hs. apply andb_prop in Hs. destruct Hs as (Hc & Hs).
  now rewrite (H c Hc), IH.
Qed.

Lemma lang_alpha ic : forall r w, lang ic r w -> all_chars (alpha ic r) w = true.
Proof.
  induction r as [| c | | neg items | r1 IH1 r2 IH2 | r1 IH1 r2 IH2
                  | mn mx greedy r1 IH1 | n r1 IH1 | neg r1 IH1 | n | | | neg];
    intros w; cbn [lang alpha]; try (intros ->; reflexivity).
  - intros (x & -> & Hx). cbn [all_chars]. now rewrite Hx.
  - intros (x & -> & Hx). cbn [all_chars]. now rewrite Hx.
  - intros (x & -> & Hx). cbn [all_chars]. now rewrite Hx.
  - intros (a & b & -> & Ha & Hb). rewrite all_chars_app. apply andb_true_intro. split.
    + eapply all_chars_impl; [| apply IH1, Ha]. intros c Hc. now rewrite Hc.
    + eapply all_chars_impl; [| apply IH2, Hb]. intros c Hc. rewrite Hc. apply orb_true_r.
  - intros [H | H].
    + eapply all_chars_impl; [| apply IH1, H]. intros c Hc. now rewrite Hc.
    + eapply all_chars_impl; [| apply IH2, H]. intros c Hc. rewrite Hc. apply orb_true_r.
  - intros (ws & -> & Hws & _).
    apply (all_chars_impl (alpha ic r1)); [intros c Hc; exact Hc |].
    clear -IH1 Hws.
    induction Hws as [| w ws Hw _ IH]; cbn [flat all_chars]; [reflexivity |].
    rewrite all_chars_app, (IH1 _ Hw), IH. reflexivity.
  - intro H. apply (all_chars_impl (alpha ic r1)); [intros c Hc; exact Hc |]. now apply IH1.
  - intros _. induction w as [| c w IH]; cbn [all_chars]; auto.
Qed.

Lemma exec_lang (r : regexp) (s : string) (mr : match_result) :
  rexec r s = Some mr -> lang (re_ic r) (re_ast r) (mr_text mr).
Proof.
  unfold rexec, exec. intro H.
  apply (search_sound (re_ic r) (fun _ _ => True)) in H; [apply H |].
  intros g b w _ _. exact I.
Qed.

Lemma exec_caps (P : nat -> string -> Prop) (r : regexp) (s : string)
    (mr : match_result) (g : nat) (v : string) :
  groups_sat (re_ic r) P (re_ast r) ->
  rexec r s = Some mr -> cap g mr = Some v -> P g v.
Proof.
  unfold rexec, exec, cap. intros Hg H Hv.
  apply (search_sound (re_ic r) P _ Hg) in H. destruct H as (_ & Hc).
  eapply caps_all_get; eassumption.
Qed.

End ReLang.

(** *** Pattern sources that always compile *)

Module ReSource.
Import Re.

(** [pTerm] with the nested disjunction as an argument. *)
Definition term_of (disj : string -> nat -> option (regex * string * nat))
    (total : nat) (s : string) (n : nat) : option (regex * string * nat) :=
  let closed (wrap : regex -> regex) (body : string) (n0 : nat) :=
    match disj body n0 with
    | Some (r, String ")" s', n') => quantified (wrap r) s' n'
    | _ => None
    end in
  match s with
  | EmptyString => None
  | String c s1 =>
      if Ascii.eqb c "^" then Some (RBol, s1, n)
      else if Ascii.eqb c "$" then Some (REol, s1, n)
      else if Ascii.eqb c "(" then
        match s1 with
        | String "?" (String ":" s2) => closed (fun r => r) s2 n
        | String "?" (String "=" s2) => closed (RLook false) s2 n
        | String "?" (String "!" s2) => closed (RLook true) s2 n
        | String "?" _ => None
        | _ => closed (RGroup (S n)) s1 (S n)
        end
      else if Ascii.eqb c ")" || Ascii.eqb c "*" || Ascii.eqb c "+" || Ascii.eqb c "?" then None
      else if Ascii.eqb c "{" then
        match read_braces s with
        | Some _ => None
        | None => quantified (RChar c) s1 n
        end
      else if Ascii.eqb c "[" then
        let '(neg, s2) :=
          match s1 with
          | String "^" s2 => (true, s2)
          | _ => (false, s1)
          end in
        match read_class (S (String.length s2)) s2 with
        | Some (items, s3) => quantified (RClass neg items) s3 n
        | None => None
        end
      else if Ascii.eqb c "\" then
        match s1 with
        | EmptyString => None
        | String e s2 =>
            if Ascii.eqb e "b" then Some (RWordB false, s2, n)
            else if Ascii.eqb e "B" then Some (RWordB true, s2, n)
            else if Str.is_digit e then
              let '(v, s3) := read_nat 0 s1 in
              if negb (Ascii.eqb e "0") && Nat.leb v total then quantified (RBackref v) s3 n
              else if is_octal e then
                let '(o, s3') := read_octal s1 in quantified (RChar o) s3' n
              else quantified (RChar e) s2 n
            else
              match read_escape false e s2 with
              | Some (x, s3) => quantified (esc_regex x) s3 n
              | None => None
              end
        end
      else if Ascii.eqb c "." then quantified RAny s1 n
      else quantified (RChar c) s1 n
  end.

Lemma pTerm_unfold f total s n :
  pTerm (S f) total s n = term_of (pDisj f total) total s n.
Proof. reflexivity. Qed.

Lemma term_of_mono (d d' : string -> nat -> option (regex * string * nat)) :
  (forall body n0 x, d body n0 = Some x -> d' body n0 = Some x) ->
  forall total s n x, term_of d total s n = Some x -> term_of d' total s n = Some x.
Proof.
  intros Hd total s n x. unfold term_of.
  assert (Hclosed : forall wrap body n0,
            match d body n0 with
            | Some (r, String ")" s', n') => quantified (wrap r) s' n'
            | _ => None
            end = Some x ->
            match d' body n0 with
            | Some (r, String ")" s', n') => quantified (wrap r) s' n'
            | _ => None
            end = Some x).
  { intros wrap body n0. destruct (d body n0) as [y |] eqn:E; [| discriminate].
    rewrite (Hd _ _ _ E). auto. }
  destruct s as [| c s1]; [auto |].
  destruct (Ascii.eqb c "^"); [auto |].
  destruct (Ascii.eqb c "$"); [auto |].
  destruct (Ascii.eqb c "(").
  - destruct s1 as [| q s2]; [apply Hclosed |].
    destruct (Ascii.eqb q "?") eqn:Eq.
    + apply Ascii.eqb_eq in Eq. subst q.
      destruct s2 as [| k s3]; [auto |].
      destruct (Ascii.eqb k ":") eqn:E1; [apply Ascii.eqb_eq in E1; subst k; apply Hclosed |].
      destruct (Ascii.eqb k "=") eqn:E2; [apply Ascii.eqb_eq in E2; subst k; apply Hclosed |].
      destruct (Ascii.eqb k "!") eqn:E3; [apply Ascii.eqb_eq in E3; subst k; apply Hclosed |].
      destruct k as [[] [] [] [] [] [] [] []]; try discriminate; auto.
    + destruct q as [[] [] [] [] [] [] [] []]; try discriminate; apply Hclosed.
  - auto.
Qed.

(** More fuel does not change what a source parses to. *)
Lemma parse_mono : forall f,
  (forall total s n x, pDisj f total s n = Some x ->
     forall f', f <= f' -> pDisj f' total s n = Some x)
  /\ (forall total s n x, pAltern f total s n = Some x ->
        forall f', f <= f' -> pAltern f' total s n = Some x)
  /\ (forall total s n x, pTerm f total s n = Some x ->
        forall f', f <= f' -> pTerm f' total s n = Some x).
Proof.
  induction f as [| f (IHd & IHa & IHt)].
  - repeat split; intros; discriminate.
  - split; [| split]; intros total s n x H f' Hf';
      (destruct f' as [| f']; [lia |]); assert (Hle : f <= f') by lia.
    + cbn [pDisj] in *.
      destruct (pAltern f total s n) as [[[r rest] n1] |] eqn:E; [| discriminate].
      rewrite (IHa _ _ _ _ E f' Hle).
      destruct rest as [| c rest']; [exact H |].
      destruct (Ascii.eqb c "|") eqn:Ec.
      * apply Ascii.eqb_eq in Ec. subst c.
        destruct (pDisj f total rest' n1) as [[[r2 s''] n''] |] eqn:E2; [| discriminate].
        rewrite (IHd _ _ _ _ E2 f' Hle). exact H.
      * destruct c as [[] [] [] [] [] [] [] []]; try discriminate; exact H.
    + cbn [pAltern] in *.
      destruct s as [| c s1]; [exact H |].
      destruct (Ascii.eqb c "|") eqn:E1;
        [apply Ascii.eqb_eq in E1; subst c; exact H |].
      destruct (Ascii.eqb c ")") eqn:E2;
        [apply Ascii.eqb_eq in E2; subst c; exact H |].
      assert (H' : match pTerm f total (String c s1) n with
                   | Some (r, s', n') =>
                       match pAltern f total s' n' with
                       | Some (REmpty, s'', n'') => Some (r, s'', n'')
                       | Some (r2, s'', n'') => Some (RSeq r r2, s'', n'')
                       | None => None
                       end
                   | None => None
                   end = Some x).
      { destruct c as [[] [] [] [] [] [] [] []]; try discriminate; exact H. }
      clear H.
      destruct (pTerm f total (String c s1) n) as [[[r s'] n'] |] eqn:Et; [| discriminate].
      destruct (pAltern f total s' n') as [[[r2 s''] n''] |] eqn:Ea; [| discriminate].
      assert (G : match pTerm f' total (String c s1) n with
                  | Some (r, s', n') =>
                      match pAltern f' total s' n' with
                      | Some (REmpty, s'', n'') => Some (r, s'', n'')
                      | Some (r2, s'', n'') => Some (RSeq r r2, s'', n'')
                      | None => None
                      end
                  | None => None
                  end = Some x).
      { rewrite (IHt _ _ _ _ Et f' Hle), (IHa _ _ _ _ Ea f' Hle). exact H'. }
      destruct c as [[] [] [] [] [] [] [] []]; try discriminate; exact G.
    + rewrite pTerm_unfold in *. revert H. apply term_of_mono.
      intros body n0 y Hy. exact (IHd _ _ _ _ Hy f' Hle).
Qed.


(** The code units that stand for themselves in a pattern, and the
    quantifiers that [qualify] and the prerelease rule put behind them. *)
Definition atom_char (c : ascii) : bool :=
  Str.is_upper c || Str.is_lower c || Str.is_digit c || Ascii.eqb c " " || Ascii.eqb c "-".

Definition quant_char (c : ascii) : bool :=
  Ascii.eqb c "?" || Ascii.eqb c "+" || Ascii.eqb c "*".

(** A source made of such code units, each with one quantifier at most. *)
Fixpoint safe (s : string) : bool :=
  match s with
  | EmptyString => true
  | String c s1 =>
      atom_char c
      && match s1 with
         | String q s2 => if quant_char q then safe s2 else safe s1
         | EmptyString => true
         end
  end.

(** What follows such a source does not start with a quantifier. *)
Definition plain_head (tail : string) : bool :=
  match tail with
  | String c _ => negb (quant_char c || Ascii.eqb c "{")
  | EmptyString => false
  end.

(** A regex with atoms in front of [rt]. *)
Inductive prefixed (rt : regex) : regex -> Prop :=
| prefixed_here : prefixed rt rt
| prefixed_char c r : prefixed rt r -> prefixed rt (RSeq (RChar c) r)
| prefixed_rep mn mx greedy c r :
    prefixed rt r -> prefixed rt (RSeq (RRep mn mx greedy (RChar c)) r).

Lemma count_groups_safe : forall s tail,
  safe s = true -> count_groups false (s ++ tail) = count_groups false tail.
Proof.
  assert (Hatom : forall c x, atom_char c || quant_char c = true ->
            count_groups false (String c x) = count_groups false x).
  { intros c x H. destruct c as [[] [] [] [] [] [] [] []]; try discriminate; reflexivity. }
  intros s tail. remember (String.length s) as len eqn:Hlen.
  revert s Hlen. induction len as [len IH] using lt_wf_ind. intros s Hlen Hs.
  destruct s as [| c s1]; [reflexivity |].
  cbn [safe] in Hs. apply andb_prop in Hs. destruct Hs as (Hc & Hs).
  cbn [append]. rewrite Hatom by (rewrite Hc; reflexivity).
  destruct s1 as [| q s2]; [reflexivity |].
  destruct (quant_char q) eqn:Hq.
  - cbn [append]. rewrite Hatom by (rewrite Hq; apply orb_true_r).
    apply (IH (String.length s2)); [cbn [String.length] in Hlen; lia | reflexivity | exact Hs].
  - apply (IH (String.length (String q s2)));
      [cbn [String.length] in *; lia | reflexivity | exact Hs].
Qed.

Lemma atom_char_plain c :
  atom_char c = true ->
  Ascii.eqb c "^" = false /\ Ascii.eqb c "$" = false /\ Ascii.eqb c "(" = false
  /\ Ascii.eqb c ")" = false /\ Ascii.eqb c "*" = false /\ Ascii.eqb c "+" = false
  /\ Ascii.eqb c "?" = false /\ Ascii.eqb c "{" = false /\ Ascii.eqb c "[" = false
  /\ Ascii.eqb c "\" = false /\ Ascii.eqb c "." = false /\ Ascii.eqb c "|" = false.
Proof.
  destruct c as [[] [] [] [] [] [] [] []]; try discriminate; intros _; repeat split.
Qed.

Lemma term_of_atom d total c x n :
  atom_char c = true ->
  term_of d total (String c x) n = quantified (RChar c) x n.
Proof.
  intro Hc. destruct (atom_char_plain c Hc)
    as (H1 & H2 & H3 & H4 & H5 & H6 & H7 & H8 & H9 & H10 & H11 & _).
  unfold term_of. rewrite H1, H2, H3, H4, H5, H6, H7, H8, H9, H10, H11. reflexivity.
Qed.

(** An atom in front of a source, with or without a quantifier. *)
Lemma pTerm_atom f total c x n :
  atom_char c = true -> plain_head x = true ->
  pTerm (S f) total (String c x) n = Some (RChar c, x, n).
Proof.
  intros Hc Hx. rewrite pTerm_unfold, term_of_atom by exact Hc.
  destruct x as [| q x']; [discriminate |]. cbn [plain_head] in Hx.
  unfold quantified, read_quant.
  destruct q as [[] [] [] [] [] [] [] []]; try discriminate; reflexivity.
Qed.

Lemma pTerm_quantified f total c q x n :
  atom_char c = true -> quant_char q = true -> plain_head x = true ->
  exists mn mx,
    pTerm (S f) total (String c (String q x)) n = Some (RRep mn mx true (RChar c), x, n).
Proof.
  intros Hc Hq Hx. rewrite pTerm_unfold, term_of_atom by exact Hc.
  destruct x as [| y x']; [discriminate |]. cbn [plain_head] in Hx.
  assert (Hy : exists y0 y1 y2 y3 y4 y5 y6 y7,
            y = Ascii y0 y1 y2 y3 y4 y5 y6 y7 /\ Ascii.eqb y "?" = false).
  { destruct y as [y0 y1 y2 y3 y4 y5 y6 y7]. do 8 eexists. split; [reflexivity |].
    destruct (Ascii.eqb (Ascii y0 y1 y2 y3 y4 y5 y6 y7) "?") eqn:E; [| reflexivity].
    apply Ascii.eqb_eq in E. rewrite E in Hx. discriminate. }
  destruct Hy as (y0 & y1 & y2 & y3 & y4 & y5 & y6 & y7 & -> & Hy).
  unfold quantified, read_quant.
  destruct q as [[] [] [] [] [] [] [] []]; try discriminate;
    cbv beta iota;
    change (match Ascii y0 y1 y2 y3 y4 y5 y6 y7 with
            | "?"%char => true | _ => false end) with
      (match Ascii y0 y1 y2 y3 y4 y5 y6 y7 with
       | "?"%char => true | _ => false end);
    (destruct y0, y1, y2, y3, y4, y5, y6, y7; try discriminate; do 2 eexists; reflexivity).
Qed.

Lemma pAltern_term f total c x n :
  Ascii.eqb c "|" = false -> Ascii.eqb c ")" = false ->
  pAltern (S f) total (String c x) n
  = match pTerm f total (String c x) n with
    | Some (r, s', n') =>
        match pAltern f total s' n' with
        | Some (REmpty, s'', n'') => Some (r, s'', n'')
        | Some (r2, s'', n'') => Some (RSeq r r2, s'', n'')
        | None => None
        end
    | None => None
    end.
Proof.
  intros H1 H2. cbn [pAltern].
  destruct c as [[] [] [] [] [] [] [] []]; try discriminate; reflexivity.
Qed.

Lemma prefixed_not_empty rt r : rt <> REmpty -> prefixed rt r -> r <> REmpty.
Proof. intros H Hp. destruct Hp; [exact H | discriminate | discriminate]. Qed.

Lemma atom_plain_head c x : atom_char c = true -> plain_head (String c x) = true.
Proof. destruct c as [[] [] [] [] [] [] [] []]; try discriminate; reflexivity. Qed.

(** A safe source in front of a tail that parses: the whole parses, to the
    regex of the tail with atoms in front. *)
Lemma pAltern_safe total tail n rt rest n' f0 :
  plain_head tail = true -> rt <> REmpty ->
  pAltern f0 total tail n = Some (rt, rest, n') ->
  forall s, safe s = true ->
    exists r, pAltern (f0 + String.length s) total (s ++ tail) n = Some (r, rest, n')
              /\ prefixed rt r.
Proof.
  intros Hhead Hne Htail s.
  remember (String.length s) as len eqn:Hlen.
  revert s Hlen. induction len as [len IH] using lt_wf_ind. intros s Hlen Hs.
  assert (Hf0 : exists g, f0 = S g).
  { destruct f0 as [| g]; [discriminate | now exists g]. }
  destruct Hf0 as (g & ->).
  destruct s as [| c s1].
  - cbn [append String.length] in *. subst len. rewrite Nat.add_0_r.
    exists rt. split; [exact Htail | constructor].
  - cbn [safe] in Hs. apply andb_prop in Hs. destruct Hs as (Hc & Hs).
    cbn [String.length] in Hlen.
    assert (Hstep : forall (x : string) (atom : regex) F,
              pTerm (S F) total (String c (s1 ++ tail)) n = Some (atom, x, n) ->
              (exists r, pAltern (S F) total x n = Some (r, rest, n') /\ prefixed rt r) ->
              (forall r, prefixed rt r -> prefixed rt (RSeq atom r)) ->
              exists r, pAltern (S (S F)) total (String c (s1 ++ tail)) n
                        = Some (r, rest, n') /\ prefixed rt r).
    { intros x atom F Ht (r & Hr & Hp) Hwrap.
      exists (RSeq atom r). split; [| apply Hwrap, Hp].
      destruct (atom_char_plain c Hc) as (_ & _ & _ & H4 & _ & _ & _ & _ & _ & _ & _ & H12).
      rewrite (pAltern_term _ _ _ _ _ H12 H4), Ht, Hr.
      pose proof (prefixed_not_empty rt r Hne Hp) as Hr0.
      destruct r; try reflexivity. congruence. }
    cbn [append].
    destruct s1 as [| q s2].
    + (* the last atom, followed by the tail *)
      cbn [append String.length] in *. subst len.
      replace (S g + 1) with (S (S g)) by lia.
      apply (Hstep tail (RChar c) g).
      * apply pTerm_atom; assumption.
      * exists rt. split; [exact Htail | constructor].
      * intros r Hp. now constructor.
    + destruct (quant_char q) eqn:Hq.
      * (* an atom with a quantifier *)
        destruct (IH (String.length s2) ltac:(cbn [String.length] in Hlen; lia)
                    s2 eq_refl Hs) as (r & Hr & Hp).
        assert (Hx : plain_head (s2 ++ tail) = true).
        { destruct s2 as [| y s3]; [exact Hhead |].
          cbn [safe] in Hs. apply andb_prop in Hs. cbn [append].
          apply atom_plain_head, Hs. }
        destruct (pTerm_quantified (S g + String.length s2) total c q (s2 ++ tail) n
                    Hc Hq Hx) as (mn & mx & Ht).
        subst len. cbn [String.length append].
        replace (S g + S (S (String.length s2))) with (S (S (S g + String.length s2)))
          by lia.
        apply (Hstep (s2 ++ tail) (RRep mn mx true (RChar c)) (S g + String.length s2)).
        -- exact Ht.
        -- exists r. split; [| exact Hp].
           destruct (parse_mono (S g + String.length s2)) as (_ & Hm & _).
           apply (Hm _ _ _ _ Hr). lia.
        -- intros r0 Hp0. now constructor.
      * (* an atom followed by an atom *)
        destruct (IH (String.length (String q s2))
                    ltac:(cbn [String.length] in *; lia)
                    (String q s2) eq_refl Hs) as (r & Hr & Hp).
        assert (Hx : plain_head (String q s2 ++ tail) = true).
        { cbn [safe] in Hs. apply andb_prop in Hs. cbn [append].
          apply atom_plain_head, Hs. }
        subst len.
        replace (S g + S (String.length (String q s2)))
          with (S (S (g + String.length (String q s2)))) by lia.
        replace (S g + String.length (String q s2))
          with (S (g + String.length (String q s2))) in Hr by lia.
        apply (Hstep (String q s2 ++ tail) (RChar c) (g + String.length (String q s2))).
        -- apply pTerm_atom; assumption.
        -- exists r. split; [exact Hr | exact Hp].
        -- intros r0 Hp0. now constructor.
Qed.

(** The regex of a tail that parses as one alternative. *)
Definition tail_ast (tail : string) : option regex :=
  match pAltern (4 * String.length tail + 7) (count_groups false tail) tail 0 with
  | Some (r, EmptyString, _) => Some r
  | _ => None
  end.

Lemma compile_safe (s tail : string) (rt : regex) :
  safe s = true -> plain_head tail = true -> tail_ast tail = Some rt -> rt <> REmpty ->
  exists r, compile (s ++ tail) = Some r /\ prefixed rt r.
Proof.
  intros Hs Hhead Htail Hne. unfold tail_ast in Htail.
  destruct (pAltern (4 * String.length tail + 7) (count_groups false tail) tail 0)
    as [[[r0 rest] n'] |] eqn:E; [| discriminate].
  destruct rest; [| discriminate]. inversion Htail; subst r0; clear Htail.
  destruct (pAltern_safe _ _ _ _ _ _ _ Hhead Hne E s Hs) as (r & Hr & Hp).
  exists r. split; [| exact Hp].
  unfold compile. rewrite (count_groups_safe s tail Hs).
  replace (4 * String.length (s ++ tail) + 8)
    with (S (4 * String.length (s ++ tail) + 7)) by lia.
  cbn [pDisj].
  destruct (parse_mono (4 * String.length tail + 7 + String.length s)) as (_ & Hm & _).
  rewrite (Hm _ _ _ _ Hr); [reflexivity |].
  rewrite ReFacts.append_length. lia.
Qed.

End ReSource.

Import ReLang ReSource.

(** A safe source in front of such a tail is a pattern that [RegExp]
    accepts. *)
Lemma RegExp_safe (s tail : string) (rt : Re.regex) (ic : bool) :
  safe s = true -> plain_head tail = true -> tail_ast tail = Some rt -> rt <> Re.REmpty ->
  exists r, RegExp (s ++ tail) ic = Ok r /\ prefixed rt (Re.re_ast r) /\ Re.re_ic r = ic.
Proof.
  intros Hs Hhead Htail Hne.
  destruct (compile_safe s tail rt Hs Hhead Htail Hne) as (r & Hr & Hp).
  unfold RegExp, Re.RegExp. rewrite Hr. eexists.
  split; [reflexivity |]. split; [exact Hp | reflexivity].
Qed.


(** *** The patterns that the rules build from a name *)

(** A name made of letters, digits, spaces and hyphens. *)
Definition plain (s : string) : bool := all_chars atom_char s.

Lemma safe_plain : forall s, plain s = true -> safe s = true.
Proof.
  unfold plain. intro s. remember (String.length s) as len eqn:Hlen.
  revert s Hlen. induction len as [len IH] using lt_wf_ind. intros s Hlen Hs.
  destruct s as [| c s1]; [reflexivity |].
  cbn [all_chars] in Hs. apply andb_prop in Hs. destruct Hs as (Hc & Hs).
  cbn [safe]. rewrite Hc. cbn [andb].
  destruct s1 as [| q s2]; [reflexivity |].
  assert (Hq : quant_char q = false).
  { cbn [all_chars] in Hs. apply andb_prop in Hs. destruct Hs as (Hq & _).
    destruct q as [[] [] [] [] [] [] [] []]; try discriminate; reflexivity. }
  rewrite Hq. apply (IH (String.length (String q s2)));
    [cbn [String.length] in *; lia | reflexivity | exact Hs].
Qed.

Lemma separator_atom c : separator c = true -> atom_char c = true.
Proof. destruct c as [[] [] [] [] [] [] [] []]; try discriminate; reflexivity. Qed.

Lemma quant_not_atom c : atom_char c = true -> quant_char c = false.
Proof. destruct c as [[] [] [] [] [] [] [] []]; try discriminate; reflexivity. Qed.

(** [qualify] keeps such a name a safe source. *)
Lemma safe_optional_separators : forall s,
  plain s = true -> safe (optional_separators s) = true.
Proof.
  unfold plain. induction s as [| c s IH]; [reflexivity |].
  cbn [all_chars optional_separators]. intro H. apply andb_prop in H.
  destruct H as (Hc & Hs). specialize (IH Hs).
  destruct (separator c && Str.nonempty s)%bool eqn:E.
  - cbn [safe]. rewrite Hc. cbn [andb quant_char Ascii.eqb Bool.eqb orb]. exact IH.
  - cbn [safe]. rewrite Hc. cbn [andb].
    destruct (optional_separators s) as [| q s2] eqn:Eo; [reflexivity |].
    assert (Hq : quant_char q = false).
    { destruct s as [| d s']; [discriminate |].
      cbn [optional_separators] in Eo. cbn [all_chars] in Hs.
      apply andb_prop in Hs. destruct Hs as (Hd & _).
      destruct (separator d && Str.nonempty s')%bool; inversion Eo; subst;
        now apply quant_not_atom. }
    rewrite Hq. exact IH.
Qed.

Lemma qualify_optional (v : jv) : qualify v = optional_separators (to_s v).
Proof. unfold qualify, Re.replace_all. apply qualify_go. lia. Qed.

(** The tail that [getVersion] puts behind a pattern. *)
Definition version_tail : string :=
  "(?:-[\d.]+/|(?: for [\w-]+)?[ /-])([\d.]+[^ ();/_-]*)".

(** What the group of [version_tail] matches. *)
Definition version_body : Re.regex :=
  Re.RSeq (Re.RRep 1 None true (Re.RClass false [Re.CDigit false; Re.CChar "."]))
    (Re.RRep 0 None true
       (Re.RClass true
          [Re.CChar " "; Re.CChar "("; Re.CChar ")"; Re.CChar ";"; Re.CChar "/";
           Re.CChar "_"; Re.CChar "-"])).

Lemma prefixed_bodies rt r : prefixed rt r -> bodies r = bodies rt.
Proof. induction 1; cbn [bodies app]; auto. Qed.

Lemma version_pattern_plain (s : string) :
  plain s = true ->
  exists r, RegExp (optional_separators s ++ version_tail) true = Ok r
            /\ bodies (Re.re_ast r) = [(1, version_body)] /\ Re.re_ic r = true.
Proof.
  intro Hs.
  destruct (RegExp_safe (optional_separators s) version_tail
              (Re.RSeq
                 (Re.RAlt
                    (Re.RSeq (Re.RChar "-")
                       (Re.RSeq
                          (Re.RRep 1 None true
                             (Re.RClass false [Re.CDigit false; Re.CChar "."]))
                          (Re.RChar "/")))
                    (Re.RSeq
                       (Re.RRep 0 (Some 1) true
                          (Re.RSeq (Re.RChar " ")
                             (Re.RSeq (Re.RChar "f")
                                (Re.RSeq (Re.RChar "o")
                                   (Re.RSeq (Re.RChar "r")
                                      (Re.RSeq (Re.RChar " ")
                                         (Re.RRep 1 None true
                                            (Re.RClass false
                                               [Re.CWord false; Re.CChar "-"]))))))))
                       (Re.RClass false [Re.CChar " "; Re.CChar "/"; Re.CChar "-"])))
                 (Re.RGroup 1 version_body)) true)
    as (r & Hr & Hp & Hic).
  - now apply safe_optional_separators.
  - reflexivity.
  - vm_compute. reflexivity.
  - discriminate.
  - exists r. split; [exact Hr |]. split; [| exact Hic].
    rewrite (prefixed_bodies _ _ Hp). reflexivity.
Qed.

Lemma name_os_pattern_plain (s : string) :
  plain s = true -> exists r, RegExp (s ++ " OS") false = Ok r.
Proof.
  intro Hs.
  destruct (RegExp_safe s " OS"
              (Re.RSeq (Re.RChar " ") (Re.RSeq (Re.RChar "O") (Re.RChar "S"))) false)
    as (r & Hr & _).
  - now apply safe_plain.
  - reflexivity.
  - vm_compute. reflexivity.
  - discriminate.
  - now exists r.
Qed.

Lemma spaced_name_pattern_plain (s : string) :
  plain s = true ->
  exists r, RegExp (" *" ++ optional_separators s ++ " *") false = Ok r.
Proof.
  intro Hs.
  destruct (RegExp_safe (" *" ++ optional_separators s) " *"
              (Re.RRep 0 None true (Re.RChar " ")) false)
    as (r & Hr & _).
  - cbn [append safe atom_char quant_char Ascii.eqb Bool.eqb orb andb Str.is_upper
         Str.is_lower Str.is_digit Str.letter_bits negb].
    now apply safe_optional_separators.
  - reflexivity.
  - vm_compute. reflexivity.
  - discriminate.
  - exists r. rewrite <- Hr. now rewrite ReFacts.append_assoc.
Qed.

(** The generic name of the rule for false positives is plain. *)
Lemma hat_re :
  rei "[a-z]+(?: Hat)?"
  = Re.MkRegExp
      (Re.RSeq (Re.RRep 1 None true (Re.RClass false [Re.CRange "a" "z"]))
         (Re.RRep 0 (Some 1) true
            (Re.RSeq (Re.RChar " ")
               (Re.RSeq (Re.RChar "H") (Re.RSeq (Re.RChar "a") (Re.RChar "t"))))))
      true 0.
Proof. vm_compute. reflexivity. Qed.

Lemma browser_name_plain (v : jv) :
  plain (to_s (text_of (exec (rei "[a-z]+(?: Hat)?") v)) ++ " Browser") = true.
Proof.
  unfold plain. rewrite all_chars_app. apply andb_true_intro. split; [| reflexivity].
  unfold exec. destruct (Re.rexec (rei "[a-z]+(?: Hat)?") (to_s v)) as [mr |] eqn:E;
    [| reflexivity].
  cbn [text_of to_s]. apply exec_lang, lang_alpha in E.
  revert E. rewrite hat_re. cbn [Re.re_ic Re.re_ast]. apply all_chars_impl.
  intros c. destruct c as [[] [] [] [] [] [] [] []]; vm_compute; intro H;
    first [reflexivity | discriminate H].
Qed.

(** *** The pattern of the prerelease rule *)

Fixpoint ends_eol (r : Re.regex) : bool :=
  match r with
  | Re.REol => true
  | Re.RSeq _ b => ends_eol b
  | _ => false
  end.

Lemma prefixed_ends_eol rt r : prefixed rt r -> ends_eol rt = true -> ends_eol r = true.
Proof. induction 1; cbn [ends_eol]; auto. Qed.

(** A regex that ends with [$] matches up to the end of the subject. *)
Lemma m_ends_eol ic : forall r k st res,
  ends_eol r = true -> Re.m ic r k st = Some res ->
  exists st', Re.m_rest st' = "" /\ k st' = Some res.
Proof.
  induction r as [| c | | neg items | r1 IH1 r2 IH2 | r1 IH1 r2 IH2
                  | mn mx greedy r1 IH1 | n r1 IH1 | neg r1 IH1 | n | | | neg];
    intros k st res He; try discriminate He; cbn [Re.m].
  - intro H. apply ReFacts.m_advancing in H. destruct H as (s1 & _ & H).
    now apply IH2 in H.
  - destruct (Re.m_rest st) eqn:E; [| discriminate]. intro H. now exists st.
Qed.

Lemma search_ends_eol ic r : ends_eol r = true ->
  forall rest pos prev mr,
    Re.search ic r pos prev rest = Some mr -> Re.mr_after mr = "".
Proof.
  intro He. induction rest as [| c rest IH]; intros pos prev mr; cbn [Re.search].
  - destruct (Re.m ic r (fun s => Some s) (Re.MState pos prev EmptyString [])) as [st' |] eqn:E;
      [| discriminate].
    intro H. inversion H; subst mr; clear H. cbn [Re.mr_after].
    apply (m_ends_eol ic r _ _ _ He) in E. destruct E as (s1 & Hs1 & E). now inversion E; subst.
  - destruct (Re.m ic r (fun s => Some s) (Re.MState pos prev (String c rest) [])) as [st' |] eqn:E.
    + intro H. inversion H; subst mr; clear H. cbn [Re.mr_after].
      apply (m_ends_eol ic r _ _ _ He) in E. destruct E as (s1 & Hs1 & E).
      now inversion E; subst.
    + apply IH.
Qed.

(** Taking out the match of such a regex leaves a prefix of the subject. *)
Lemma replace_ends_eol (r : Re.regexp) (s : string) :
  ends_eol (Re.re_ast r) = true ->
  exists i, Re.replace r "" s = Str.take i s.
Proof.
  intro He. destruct (Re.rexec r s) as [mr |] eqn:E.
  - destruct (ReFacts.replace_empty_removes r s mr E) as (_ & ->).
    unfold Re.rexec, Re.exec in E. apply (search_ends_eol _ _ He) in E. rewrite E.
    exists (Re.mr_index mr). apply append_nil.
  - exists (String.length s). unfold Re.replace. rewrite E.
    clear. induction s as [| c s IH]; cbn [String.length Str.take]; [reflexivity | now rewrite <- IH].
Qed.

Lemma safe_snoc : forall s q,
  plain s = true -> s <> "" -> quant_char q = true -> safe (s ++ String q "") = true.
Proof.
  unfold plain. induction s as [| c s IH]; intros q Hs Hne Hq; [congruence |].
  cbn [all_chars] in Hs. apply andb_prop in Hs. destruct Hs as (Hc & Hs).
  cbn [append safe]. rewrite Hc. cbn [andb].
  destruct s as [| d s'].
  - cbn [append]. rewrite Hq. reflexivity.
  - cbn [append].
    assert (Hd : quant_char d = false).
    { cbn [all_chars] in Hs. apply andb_prop in Hs. now apply quant_not_atom. }
    rewrite Hd. apply (IH q Hs); [discriminate | exact Hq].
Qed.

Lemma prerelease_re :
  rei "(?:[ab]|dp|pre|[ab]\d+pre)(?:\d+\+?)?$"
  = Re.MkRegExp
      (Re.RSeq
         (Re.RAlt (Re.RClass false [Re.CChar "a"; Re.CChar "b"])
            (Re.RAlt (Re.RSeq (Re.RChar "d") (Re.RChar "p"))
               (Re.RAlt (Re.RSeq (Re.RChar "p") (Re.RSeq (Re.RChar "r") (Re.RChar "e")))
                  (Re.RSeq (Re.RClass false [Re.CChar "a"; Re.CChar "b"])
                     (Re.RSeq (Re.RRep 1 None true (Re.RClass false [Re.CDigit false]))
                        (Re.RSeq (Re.RChar "p")
                           (Re.RSeq (Re.RChar "r") (Re.RChar "e"))))))))
         (Re.RSeq
            (Re.RRep 0 (Some 1) true
               (Re.RSeq (Re.RRep 1 None true (Re.RClass false [Re.CDigit false]))
                  (Re.RRep 0 (Some 1) true (Re.RChar "+"))))
            Re.REol))
      true 0.
Proof. vm_compute. reflexivity. Qed.

Lemma phase_re :
  rei "(?:alpha|beta)(?: ?\d)?"
  = Re.MkRegExp
      (Re.RSeq
         (Re.RAlt
            (Re.RSeq (Re.RChar "a")
               (Re.RSeq (Re.RChar "l")
                  (Re.RSeq (Re.RChar "p") (Re.RSeq (Re.RChar "h") (Re.RChar "a")))))
            (Re.RSeq (Re.RChar "b")
               (Re.RSeq (Re.RChar "e") (Re.RSeq (Re.RChar "t") (Re.RChar "a")))))
         (Re.RRep 0 (Some 1) true
            (Re.RSeq (Re.RRep 0 (Some 1) true (Re.RChar " "))
               (Re.RClass false [Re.CDigit false]))))
      true 0.
Proof. vm_compute. reflexivity. Qed.

Lemma plain_nonempty_app a b : b <> "" -> a ++ b <> "".
Proof. destruct a; cbn [append]; [auto | discriminate]. Qed.

(** The text that the prerelease rule finds in a version is a safe
    source. *)
Lemma prerelease_text_safe (v : string) (mr : Re.match_result) :
  Re.rexec (rei "(?:[ab]|dp|pre|[ab]\d+pre)(?:\d+\+?)?$") v = Some mr ->
  safe (Re.mr_text mr) = true.
Proof.
  intro E. apply exec_lang in E. revert E. rewrite prerelease_re.
  cbn [Re.re_ic Re.re_ast]. generalize (Re.mr_text mr) as w. intro w.
  set (first := Re.RAlt _ _). cbn [lang].
  intros (a & b & -> & Ha & (o & e & -> & Ho & ->)).
  rewrite append_nil.
  assert (Hplain_a : plain a = true).
  { apply lang_alpha in Ha. revert Ha. apply all_chars_impl.
    intros c. destruct c as [[] [] [] [] [] [] [] []]; vm_compute; intro H;
      first [reflexivity | discriminate H]. }
  destruct Ho as (ws & -> & Hws & _ & Hmax). specialize (Hmax 1 eq_refl).
  destruct ws as [| w1 [| w2 rest]]; [| | cbn [List.length Nat.max] in Hmax; lia].
  - cbn [flat]. rewrite append_nil. now apply safe_plain.
  - cbn [flat]. rewrite append_nil. inversion Hws as [| ? ? Hw1 _]; subst.
    destruct Hw1 as (d & p & -> & Hd & Hp).
    assert (Hplain_d : plain d = true).
    { assert (Hd' : lang true (Re.RRep 1 None true (Re.RClass false [Re.CDigit false])) d)
        by exact Hd.
      apply lang_alpha in Hd'. revert Hd'. apply all_chars_impl.
      intros c. destruct c as [[] [] [] [] [] [] [] []]; vm_compute; intro H;
        first [reflexivity | discriminate H]. }
    assert (Hne_d : d <> "").
    { destruct Hd as (ds & -> & Hds & Hmin & _).
      destruct ds as [| d1 ds]; [cbn [List.length] in Hmin; lia |].
      inversion Hds as [| ? ? Hd1 _]; subst. destruct Hd1 as (x & -> & _). discriminate. }
    destruct Hp as (ps & -> & Hps & _ & Hpmax). specialize (Hpmax 1 eq_refl).
    destruct ps as [| p1 [| p2 rest]]; [| | cbn [List.length Nat.max] in Hpmax; lia].
    + cbn [flat]. rewrite append_nil. apply safe_plain. unfold plain in *.
      rewrite all_chars_app, Hplain_a, Hplain_d. reflexivity.
    + cbn [flat]. rewrite append_nil. inversion Hps as [| ? ? Hp1 _]; subst.
      destruct Hp1 as (x & -> & Hx).
      rewrite <- ReFacts.append_assoc. apply safe_snoc.
      * unfold plain in *. rewrite all_chars_app, Hplain_a, Hplain_d. reflexivity.
      * now apply plain_nonempty_app.
      * destruct x as [[] [] [] [] [] [] [] []]; try discriminate Hx; reflexivity.
Qed.

Lemma phase_text_safe (s : string) (mr : Re.match_result) :
  Re.rexec (rei "(?:alpha|beta)(?: ?\d)?") s = Some mr -> safe (Re.mr_text mr) = true.
Proof.
  intro E. apply safe_plain. apply exec_lang, lang_alpha in E. revert E.
  rewrite phase_re. cbn [Re.re_ic Re.re_ast]. apply all_chars_impl.
  intros c. destruct c as [[] [] [] [] [] [] [] []]; vm_compute; intro H;
    first [reflexivity | discriminate H].
Qed.

Lemma prerelease_pattern (data : string) :
  safe data = true ->
  exists r, RegExp (data ++ "\+?$") false = Ok r /\ ends_eol (Re.re_ast r) = true.
Proof.
  intro Hs.
  destruct (RegExp_safe data "\+?$"
              (Re.RSeq (Re.RRep 0 (Some 1) true (Re.RChar "+")) Re.REol) false)
    as (r & Hr & Hp & _); try reflexivity; try discriminate; [exact Hs |].
  exists r. split; [exact Hr |]. now apply (prefixed_ends_eol _ _ Hp).
Qed.

(** *** The pickers return on every subject *)

Definition compiles (src : string) : bool :=
  match Re.RegExp src true with Some _ => true | None => false end.

Lemma compiles_Ok src ic : compiles src = true -> exists r, RegExp src ic = Ok r.
Proof.
  unfold compiles, RegExp, Re.RegExp. destruct (Re.compile src); [| discriminate].
  intros _. eexists. reflexivity.
Qed.

Lemma first_yield_total {V : Type} (yield : V -> outcome jv) :
  forall (l : list V) (last : jv),
    (forall g, In g l -> exists v, yield g = Ok v) ->
    exists v, first_yield yield last l = Ok v.
Proof.
  induction l as [| g rest IH]; intros last H; cbn [first_yield].
  - now exists last.
  - destruct (H g (or_introl eq_refl)) as (v & Hv). rewrite Hv. cbn [bind].
    destruct (truthy v); [now exists v |].
    apply IH. intros g' Hin. apply H. now right.
Qed.

(** The sources that the picker of the product builds from an entry. *)
Definition product_entry (g : guess) : bool :=
  compiles ("\b" ++ pattern_of g ++ " *\d+[.\w_]*")
  && compiles ("\b" ++ pattern_of g ++ " *\w+-[\w]*")
  && compiles ("\b" ++ pattern_of g ++ "(?:; *(?:[a-z]+[_-])?[a-z]+\d+|[^ ();-]*)")
  && compiles (pattern_of g)
  && compiles ("; *(?:" ++ label_of g ++ "[_-])?")
  && compiles ("(" ++ label_of g ++ ")[-_.]?(\w)").

Lemma product_of_total ua g :
  product_entry g = true -> exists v, product_of ua g = Ok v.
Proof.
  unfold product_entry. intro H.
  repeat (apply andb_prop in H; destruct H as (H & ?)).
  destruct (compiles_Ok _ true H) as (r1 & E1).
  destruct (compiles_Ok _ true H4) as (r2 & E2).
  destruct (compiles_Ok _ true H3) as (r3 & E3).
  destruct (compiles_Ok _ true H2) as (r4 & E4).
  destruct (compiles_Ok _ true H1) as (r5 & E5).
  destruct (compiles_Ok _ true H0) as (r6 & E6).
  unfold product_of, product_match. cbv zeta.
  rewrite E1. cbn [bind].
  assert (Hrest : forall r mr,
            exists v,
              bind (if truthy (own_label g)
                    then bind (RegExp (pattern_of g) true)
                           (fun rp => Ok (negb (Re.rtest rp (to_s (own_label g)))))
                    else Ok false)
                (fun use_label =>
                   bind (RegExp (pattern_of g) true)
                     (fun ra =>
                        bind (RegExp ("; *(?:" ++ label_of g ++ "[_-])?") true)
                          (fun rb =>
                             bind (RegExp ("(" ++ label_of g ++ ")[-_.]?(\w)") true)
                               (fun rc =>
                                  Ok (JStr (format (JStr
                                    (Re.replace rc "$1 $2"
                                       (Re.replace rb " "
                                          (Re.replace ra (label_of g)
                                             (let text :=
                                                if use_label then to_s (own_label g)
                                                else Re.match_string r mr in
                                              let parts := Str.split text "/" in
                                              let result0 := first_or parts "" in
                                              match parts with
                                              | _ :: p1 :: _ =>
                                                  if Str.nonempty p1
                                                     && negb (Re.rtest (re "[\d.]+") result0)
                                                  then result0 ++ " " ++ p1
                                                  else result0
                                              | _ => result0
                                              end)))))))))))
              = Ok v).
  { intros r mr. rewrite E4, E5, E6.
    destruct (truthy (own_label g)); cbn [bind]; eexists; reflexivity. }
  destruct (Re.rexec r1 ua) as [mr |]; cbn [bind]; [apply Hrest |].
  rewrite E2. cbn [bind].
  destruct (Re.rexec r2 ua) as [mr |]; cbn [bind]; [apply Hrest |].
  rewrite E3. cbn [bind].
  destruct (Re.rexec r3 ua) as [mr |]; cbn [bind]; [apply Hrest |].
  eexists. reflexivity.
Qed.

Lemma getProduct_total ua l :
  forallb product_entry l = true -> exists v, getProduct ua l = Ok v.
Proof.
  intro H. unfold getProduct. rewrite reduce_first. apply first_yield_total.
  intros g Hin. apply product_of_total. rewrite forallb_forall in H. now apply H.
Qed.

(** The sources that the picker of the OS builds from an entry. *)
Definition os_entry (g : guess) : bool :=
  compiles ("\b" ++ pattern_of g ++ "(?:/[\d.]+|[ \w.]*)")
  && compiles (pattern_of g).

Lemma cleanupOS_total os pattern label :
  compiles (to_s pattern) = true -> exists v, cleanupOS os pattern label = Ok v.
Proof.
  intro H. destruct (compiles_Ok _ true H) as (r & E).
  unfold cleanupOS. cbv zeta. rewrite E.
  destruct (truthy pattern && truthy label)%bool; cbn [bind]; eexists; reflexivity.
Qed.

Lemma os_of_total ua g : os_entry g = true -> exists v, os_of ua g = Ok v.
Proof.
  unfold os_entry. intro H. apply andb_prop in H. destruct H as (H1 & H2).
  destruct (compiles_Ok _ true H1) as (r & E).
  unfold os_of. cbv zeta. rewrite E. cbn [bind].
  destruct (Re.rexec r ua) as [mr |]; [| eexists; reflexivity].
  destruct (cleanupOS_total (Re.match_string r mr) (JStr (pattern_of g))
              (JStr (label_of g)) H2) as (v & ->).
  cbn [bind]. eexists. reflexivity.
Qed.

Lemma getOS_total ua l : forallb os_entry l = true -> exists v, getOS ua l = Ok v.
Proof.
  intro H. unfold getOS. rewrite reduce_first. apply first_yield_total.
  intros g Hin. apply os_of_total. rewrite forallb_forall in H. now apply H.
Qed.

Lemma products_compile : forallb product_entry products = true.
Proof. vm_compute. reflexivity. Qed.

Lemma models_compile : forallb product_entry models = true.
Proof. vm_compute. reflexivity. Qed.

Lemma oses_compile : forallb os_entry oses = true.
Proof. vm_compute. reflexivity. Qed.

Lemma names_compile : forallb word_entry names = true.
Proof. vm_compute. reflexivity. Qed.

Lemma layouts_compile : forallb word_entry layouts = true.
Proof. vm_compute. reflexivity. Qed.

Lemma manufacturers_compile : forallb maker_entry manufacturers = true.
Proof. vm_compute. reflexivity. Qed.

(** The pickers give the locals of every identification string. *)
Lemma pick_total (e : Env) : exists l, pick e = Ok l.
Proof.
  unfold pick. cbv zeta.
  rewrite (getLayout_earliest _ _ layouts_compile). cbn [bind].
  rewrite (getName_earliest _ _ names_compile). cbn [bind].
  destruct (getProduct_total (e_ua e) products products_compile) as (p & ->). cbn [bind].
  destruct (getProduct_total (e_ua e) models models_compile) as (x & ->). cbn [bind].
  rewrite (getManufacturer_earliest _ _ _ manufacturers_compile). cbn [bind].
  destruct (getOS_total (e_ua e) oses oses_compile) as (o & ->). cbn [bind].
  eexists. reflexivity.
Qed.

(** *** The name stays plain *)

Definition plain_name (l : Locals) : Prop := plain (to_s (name l)) = true.

Lemma plain_app a b : plain a = true -> plain b = true -> plain (a ++ b) = true.
Proof. unfold plain. intros Ha Hb. now rewrite all_chars_app, Ha, Hb. Qed.

Ltac plain_done :=
  unfold plain_name in *;
  cbn [name set_name set_version set_os set_layout set_product set_manufacturer
       set_description set_prerelease set_arch push unshift to_s];
  first [ assumption
        | reflexivity
        | apply browser_name_plain
        | apply plain_app; [assumption | reflexivity]
        | apply plain_app; [apply plain_app; [assumption | reflexivity] | reflexivity] ].

Ltac plain_cases :=
  cbv zeta; intros; repeat rule_step; try plain_done;
  unfold set_layout1; repeat rule_step; try plain_done.

Lemma labels_plain :
  forallb (fun g => plain (label_of g)) names = true.
Proof. vm_compute. reflexivity. Qed.

Lemma plain_pick e l : pick e = Ok l -> plain_name l.
Proof.
  intro H. apply pick_name in H. rewrite (getName_earliest _ _ names_compile) in H.
  apply Ok_inj in H. unfold plain_name. rewrite <- H.
  destruct (earliest_label_in (matches_word (e_ua e)) names) as [-> | (g & Hin & ->)];
    [reflexivity |].
  cbn [to_s]. pose proof labels_plain as Hall. rewrite forallb_forall in Hall.
  now apply Hall.
Qed.

Lemma plain_detect_browsers self ua l l' :
  detect_browsers self ua l = Ok l' -> plain_name l -> plain_name l'.
Proof. unfold detect_browsers. plain_cases. Qed.

Lemma plain_detect_version ua l l' :
  detect_version ua l = Ok l' -> plain_name l -> plain_name l'.
Proof. unfold detect_version. plain_cases. Qed.

Lemma plain_detect_stubborn_layouts ua l :
  plain_name l -> plain_name (detect_stubborn_layouts ua l).
Proof. unfold detect_stubborn_layouts. plain_cases. Qed.

Lemma plain_detect_windows_phone ua l :
  plain_name l -> plain_name (detect_windows_phone ua l).
Proof. unfold detect_windows_phone. plain_cases. Qed.

Lemma plain_detect_prerelease ua nav uf alpha beta l l' :
  detect_prerelease ua nav uf alpha beta l = Ok l' -> plain_name l -> plain_name l'.
Proof.
  unfold detect_prerelease. cbv zeta.
  match goal with
  | |- match ?d with Some _ => _ | None => _ end = _ -> _ => destruct d as [data |]
  end; plain_cases.
Qed.

Lemma plain_apply_masking uf d l :
  plain_name l -> plain_name (apply_masking uf JNull d l).
Proof. unfold apply_masking. plain_cases. Qed.

Lemma plain_detect_mobile_and_masking self context this ua uf opera l l' :
  detect_mobile_and_masking self context this ua uf opera JNull l = Ok l' ->
  plain_name l -> plain_name l'.
Proof.
  unfold detect_mobile_and_masking. plain_cases; now apply plain_apply_masking.
Qed.

Lemma name_detect_webkit ua uf lc l :
  name (detect_webkit ua uf lc l) = name l
  \/ name (detect_webkit ua uf lc l) = JStr "WebKit Nightly".
Proof.
  destruct l as [n v o lay pr ma de pre ar]. cbn [name].
  unfold detect_webkit.
  destruct (capture 1 (Re.rexec (rei "\bAppleWebKit\/([\d.]+\+?)") ua)) as [| | | build];
    try (now left).
  destruct (Str.nonempty build); [| now left].
  cbn [name version layout set_version set_name set_prerelease].
  set (safari := capture 1 (Re.rexec (rei "\bSafari\/([\d.]+\+?)") ua)).
  set (data1 := capture 1 (Re.rexec (rei "\b(?:Headless)?Chrome\/([\d.]+)") ua)).
  set (data0 := Num.parseFloat _).
  clearbody safari data1 data0.
  destruct (eqs n "Safari" && String.eqb (Str.last_char build) "+")%bool;
    [| destruct (loose_eq v (JStr build)); [| destruct (loose_eq v safari)]];
    cbv beta iota zeta;
    (match goal with
     | |- context [if ?c then set_layout (Some ("Blink", None)) _ else _] => destruct c
     end);
    (destruct (negb uf || _)%bool; cbv beta iota zeta);
    destruct lay as [[l0 l1] |];
    cbn [name os description version layout set_version set_layout set_layout1 has_layout];
    repeat match goal with
           | |- context [if ?c then _ else _] => destruct c
           end;
    cbn [name set_version unshift set_description]; auto.
Qed.

Lemma plain_detect_webkit ua uf lc l :
  plain_name l -> plain_name (detect_webkit ua uf lc l).
Proof.
  unfold plain_name. destruct (name_detect_webkit ua uf lc l) as [-> | ->]; auto.
Qed.

Lemma plain_detect_desktop_modes ua l l' :
  detect_desktop_modes ua l = Ok l' -> plain_name l -> plain_name l'.
Proof. unfold detect_desktop_modes. plain_cases. Qed.

Lemma plain_strip_os_version ua l l' :
  strip_os_version ua l = Ok l' -> plain_name l -> plain_name l'.
Proof. unfold strip_os_version. plain_cases. Qed.

(** *** The version never reads like [null] *)

(** A text that does not start with the [n] of ["null"]. *)
Definition head_ok (s : string) : bool :=
  match s with
  | String c _ => negb (Ascii.eqb c "n")
  | EmptyString => true
  end.

Definition ver_ok (v : jv) : Prop :=
  match v with
  | JStr s => head_ok s = true
  | _ => True
  end.

Lemma head_ok_app (a b : string) :
  head_ok a = true -> a <> "" -> head_ok (a ++ b) = true.
Proof. destruct a as [| c a]; [congruence | auto]. Qed.

Lemma head_ok_take (i : nat) (s : string) : head_ok s = true -> head_ok (Str.take i s) = true.
Proof. destruct i, s; cbn [Str.take head_ok]; auto. Qed.

Lemma head_ok_take_app (i : nat) (s t : string) :
  head_ok s = true -> head_ok t = true -> head_ok (Str.take i s ++ t) = true.
Proof. destruct i, s; cbn [Str.take head_ok append]; auto. Qed.

(** What the first unit of a version is: a digit or a dot. *)
Definition version_first (c : ascii) : bool :=
  Re.class_has true [Re.CDigit false; Re.CChar "."] c.

Lemma version_first_ok (c : ascii) : version_first c = true -> Ascii.eqb c "n" = false.
Proof.
  destruct c as [[] [] [] [] [] [] [] []]; vm_compute; intro H;
    first [reflexivity | discriminate].
Qed.

(** Texts that start with a digit or a dot. *)
Definition starts_version (w : string) : Prop :=
  exists c rest, w = String c rest /\ version_first c = true.

Lemma starts_version_ok w : starts_version w -> head_ok w = true.
Proof.
  intros (c & rest & -> & Hc). cbn [head_ok]. now rewrite (version_first_ok c Hc).
Qed.

Lemma rep_starts ic (w : string) (mx : option nat) (g : bool) :
  lang ic (Re.RRep 1 mx g (Re.RClass false [Re.CDigit false; Re.CChar "."])) w ->
  starts_version w.
Proof.
  cbn [lang]. intros (ws & -> & Hws & Hlen & _).
  destruct ws as [| w0 ws]; [cbn [List.length] in Hlen; lia |].
  inversion Hws as [| ? ? (x & -> & Hx) _]; subst.
  exists x, (flat ws). split; [reflexivity |].
  unfold version_first. cbn [xorb] in Hx.
  destruct ic; [exact Hx |].
  revert Hx. clear. destruct x as [[] [] [] [] [] [] [] []]; vm_compute; auto.
Qed.

Lemma version_body_starts ic (w : string) : lang ic version_body w -> starts_version w.
Proof.
  unfold version_body. intros (a & b & -> & Ha & _).
  apply rep_starts in Ha. destruct Ha as (c & rest & -> & Hc).
  exists c, (rest ++ b). auto.
Qed.

(** The patterns whose first group is a version. *)
Definition version_group (r : Re.regexp) : Prop :=
  forall b, In (1, b) (bodies (Re.re_ast r)) -> forall w, lang (Re.re_ic r) b w -> starts_version w.

Lemma capture_version (r : Re.regexp) (s v : string) :
  version_group r -> capture 1 (Re.rexec r s) = JStr v -> starts_version v.
Proof.
  intros Hg. unfold capture.
  destruct (Re.rexec r s) as [mr |] eqn:E; [| discriminate].
  destruct (Re.cap 1 mr) as [t |] eqn:Ec; [| discriminate].
  cbn [of_opt]. intro H. apply JStr_inj in H. subst t.
  apply (exec_caps (fun g w => g = 1 -> starts_version w) r s mr 1 v); auto.
  intros g b w Hin Hl ->. eapply Hg; eassumption.
Qed.

Lemma version_group_bodies (r : Re.regexp) :
  bodies (Re.re_ast r) = [(1, version_body)] -> version_group r.
Proof.
  intros Hb b Hin w Hl. rewrite Hb in Hin.
  destruct Hin as [Hin | []]. inversion Hin; subst b.
  eapply version_body_starts, Hl.
Qed.

(** The patterns that [getVersion] can complete. *)
Definition version_pattern (p : string) : Prop :=
  exists r, RegExp (p ++ version_tail) true = Ok r
            /\ bodies (Re.re_ast r) = [(1, version_body)].

Lemma getVersion_total ua (ps : list string) :
  Forall version_pattern ps ->
  exists v, getVersion ua ps = Ok v /\ ver_ok v.
Proof.
  intro H. unfold getVersion. rewrite reduce_first.
  set (yield := fun pattern : string => _).
  assert (Hgen : forall last, ver_ok last ->
                   exists v, first_yield yield last ps = Ok v /\ ver_ok v);
    [| apply Hgen; exact I].
  induction H as [| p ps (r & Hr & Hb) _ IH]; intros last Hlast; cbn [first_yield].
  - now exists last.
  - unfold yield at 1. fold version_tail. rewrite Hr. cbn [bind].
    set (v := match Re.rexec r ua with Some mr => _ | None => JNull end).
    assert (Hv : ver_ok v).
    { subst v. destruct (Re.rexec r ua) as [mr |] eqn:E; [| exact I].
      destruct (Re.cap 1 mr) as [t |] eqn:Ec; [| exact I].
      destruct (Str.nonempty t); [| exact I].
      cbn [ver_ok]. apply starts_version_ok.
      apply (capture_version r ua t (version_group_bodies r Hb)).
      unfold capture. rewrite E, Ec. reflexivity. }
    destruct (truthy v); [now exists v |].
    now apply IH.
Qed.

(** *** The rules return *)

Ltac ver_done :=
  cbn [version set_name set_version set_os set_layout set_product set_manufacturer
       set_description set_prerelease set_arch push unshift ver_ok];
  auto.

(** The sources that the rule of the manufacturer's products builds from a
    manufacturer. *)
Definition maker_patterns (k : string) : bool :=
  product_entry (GStr k)
  && compiles ("^(" ++ qualify (JStr k) ++ ")[-_.\s]")
  && compiles ("^(" ++ qualify (JStr k) ++ ")[-_.]?(\w)").

Lemma makers_compile : forallb maker_patterns (map fst manufacturers) = true.
Proof. vm_compute. reflexivity. Qed.

Lemma detect_manufacturer_product_total ua l :
  maker (manufacturer l) ->
  exists l', detect_manufacturer_product ua l = Ok l' /\ version l' = version l.
Proof.
  intros [Hm | (k & Hm & Hin)]; unfold detect_manufacturer_product; rewrite Hm.
  - exists l. auto.
  - pose proof makers_compile as Hc. rewrite forallb_forall in Hc.
    specialize (Hc k Hin). unfold maker_patterns in Hc.
    apply andb_prop in Hc. destruct Hc as (Hc & H3).
    apply andb_prop in Hc. destruct Hc as (H1 & H2).
    cbn [to_s].
    destruct (truthy (JStr k) && negb (truthy (product l)))%bool.
    + destruct (getProduct_total ua [GStr k]) as (p & ->).
      { cbn [forallb]. now rewrite H1. }
      cbn [bind]. eexists. split; [reflexivity | ver_done].
    + destruct (truthy (JStr k) && truthy (product l))%bool; [| exists l; auto].
      destruct (compiles_Ok _ true H2) as (r1 & ->).
      destruct (compiles_Ok _ true H3) as (r2 & ->).
      cbn [bind]. eexists. split; [reflexivity | ver_done].
Qed.

Ltac version_pattern_const :=
  match goal with
  | |- version_pattern ?p =>
      exists (Re.lit (p ++ version_tail) true); split; vm_compute; reflexivity
  end.

Lemma version_pattern_tags :
  version_pattern
    "(?:Cloud9|CriOS|CrMo|Edge|Edg|EdgA|EdgiOS|FxiOS|HeadlessChrome|IEMobile|Iron|Opera ?Mini|OPiOS|OPR|Raven|SamsungBrowser|Silk(?!/[\d.]+$)|UCBrowser|YaBrowser)".
Proof. version_pattern_const. Qed.

Lemma version_pattern_Version : version_pattern "Version".
Proof. version_pattern_const. Qed.

Lemma version_pattern_gecko : version_pattern "(?:Firefox|Minefield|NetFront)".
Proof. version_pattern_const. Qed.

Lemma version_pattern_units : Forall version_pattern (Str.chars "Chrome").
Proof. cbn [Str.chars]. repeat constructor; version_pattern_const. Qed.

Lemma version_pattern_name (v : jv) :
  plain (to_s v) = true -> version_pattern (qualify v).
Proof.
  intro H. rewrite qualify_optional.
  destruct (version_pattern_plain (to_s v) H) as (r & Hr & Hb & _).
  exists r. auto.
Qed.

Lemma detect_version_total ua l :
  plain_name l ->
  exists l', detect_version ua l = Ok l' /\ (ver_ok (version l) -> ver_ok (version l')).
Proof.
  intro Hn. unfold detect_version.
  destruct (negb (truthy (version l))); [| exists l; auto].
  destruct (getVersion_total ua
              ["(?:Cloud9|CriOS|CrMo|Edge|Edg|EdgA|EdgiOS|FxiOS|HeadlessChrome|IEMobile|Iron|Opera ?Mini|OPiOS|OPR|Raven|SamsungBrowser|Silk(?!/[\d.]+$)|UCBrowser|YaBrowser)";
               "Version"; qualify (name l); "(?:Firefox|Minefield|NetFront)"])
    as (v & -> & Hv).
  { repeat constructor.
    - exact version_pattern_tags.
    - exact version_pattern_Version.
    - now apply version_pattern_name.
    - exact version_pattern_gecko. }
  cbn [bind]. eexists. split; [reflexivity | ver_done].
Qed.

Lemma ver_ok_text (v : jv) : ver_ok v -> truthy v = true -> head_ok (to_s v) = true.
Proof. destruct v as [| | [] | s]; cbn [ver_ok to_s truthy]; auto; discriminate. Qed.

Lemma detect_prerelease_total ua nav uf alpha beta l :
  alpha <> "" -> head_ok alpha = true -> beta <> "" -> head_ok beta = true ->
  exists l', detect_prerelease ua nav uf alpha beta l = Ok l'
             /\ (ver_ok (version l) -> ver_ok (version l')).
Proof.
  intros Ha Ha' Hb Hb'. unfold detect_prerelease. cbv zeta.
  set (minor := if uf then _ else _). clearbody minor.
  destruct (truthy (version l)) eqn:Htr; [| exists l; auto].
  set (data := match exec (rei "(?:[ab]|dp|pre|[ab]\d+pre)(?:\d+\+?)?$") (version l) with
               | Some d => Some (Re.mr_text d)
               | None => _
               end).
  assert (Hdata : forall d, data = Some d -> safe d = true).
  { subst data. intros d.
    destruct (exec (rei "(?:[ab]|dp|pre|[ab]\d+pre)(?:\d+\+?)?$") (version l)) as [m1 |] eqn:E1.
    - intro H. inversion H. eapply prerelease_text_safe. exact E1.
    - destruct (Re.rexec (rei "(?:alpha|beta)(?: ?\d)?") (ua ++ ";" ++ to_s minor))
        as [m2 |] eqn:E2.
      + intro H. inversion H. eapply phase_text_safe. exact E2.
      + destruct (Re.rtest (rei "\bMinefield\b") ua); intro H; inversion H. reflexivity. }
  destruct data as [d |]; [| exists l; auto].
  destruct (prerelease_pattern d (Hdata d eq_refl)) as (r & -> & He).
  cbn [bind]. eexists. split; [reflexivity |].
  intro Hok. ver_done.
  destruct (replace_ends_eol r (to_s (version l)) He) as (i & ->).
  apply head_ok_take_app; [now apply ver_ok_text |].
  destruct (String.eqb _ "beta"); now apply head_ok_app.
Qed.

Lemma same_text_exact : forall t w, same_text false t w -> t = w.
Proof.
  induction t as [| x t IH]; destruct w as [| c w]; cbn [same_text]; try tauto.
  intros (Hc & Ht). cbn [Re.canon] in Hc. subst. f_equal. now apply IH.
Qed.

Lemma index_from_later p : forall s i, Str.index_from (S i) p s <> Some 0.
Proof.
  induction s as [| c s IH]; intro i; cbn [Str.index_from];
    destruct (Str.starts_with p _); try discriminate. apply IH.
Qed.

Lemma strip_os_version_total ua l :
  ver_ok (version l) ->
  exists l', strip_os_version ua l = Ok l'
             /\ version l' = version l /\ name l' = name l.
Proof.
  intro Hv. unfold strip_os_version. cbv zeta.
  destruct (os l) as [| | b | o] eqn:Eo.
  4:{ match goal with
      | |- context [if ?c then _ else _] => destruct c
      end; eexists; (split; [reflexivity | auto]). }
  all: replace (to_s (text_of (exec (re "[\d.]+$") _))) with "null"
         by (try destruct b; vm_compute; reflexivity).
  all: assert (Hn : (truthy (version l)
                     && match Str.indexOf (to_s (version l)) "null" with
                        | Some 0 => true
                        | _ => false
                        end)%bool = false);
    [| rewrite Hn; cbn [andb]; exists l; auto].
  all: clear -Hv; destruct (version l) as [| | [] | [| c s]]; try reflexivity;
    cbn [ver_ok head_ok] in Hv; cbn [truthy Str.nonempty to_s andb];
    unfold Str.indexOf; cbn [Str.index_from Str.starts_with];
    rewrite Ascii.eqb_sym; apply negb_true_iff in Hv; rewrite Hv; cbn [andb];
    pose proof (index_from_later "null" s 0);
    destruct (Str.index_from 1 "null" s) as [[| n] |]; congruence.
Qed.

Lemma strip_name_from_os_total l :
  plain_name l -> exists l', strip_name_from_os l = Ok l'.
Proof.
  intro Hn. unfold strip_name_from_os.
  destruct (os l) as [| | b | o]; try (exists l; reflexivity).
  match goal with
  | |- context [if ?c then _ else _] => destruct c
  end; [| exists l; reflexivity].
  destruct (name_os_pattern_plain (to_s (name l)) Hn) as (r & ->). cbn [bind].
  destruct (negb (Re.rtest r o)); [| exists l; reflexivity].
  rewrite qualify_optional.
  destruct (spaced_name_pattern_plain (to_s (name l)) Hn) as (r' & ->). cbn [bind].
  eexists. reflexivity.
Qed.

Lemma tokens64_compile : forallb (fun t => compiles (" *" ++ t)) tokens64 = true.
Proof. vm_compute. reflexivity. Qed.

Lemma add_architecture_total ua nav uf l o :
  exists lo, add_architecture ua nav uf l o = Ok lo.
Proof.
  unfold add_architecture.
  destruct (exec (rei "\b(?:AMD|IA|Win|WOW|x86_|x)64\b") (arch l)) as [data |] eqn:E;
    [| eexists; reflexivity].
  destruct (negb (test (rei "\bi686\b") (arch l))); [| eexists; reflexivity].
  destruct o as [[| a fam ver special] |]; cbn [bind]; try (eexists; reflexivity).
  pose proof tokens64_compile as Hc. rewrite forallb_forall in Hc.
  destruct (compiles_Ok _ false (Hc _ (exec_tokens64 _ _ E))) as (r & ->).
  cbn [bind]. eexists. reflexivity.
Qed.

Lemma finish_total ua nav uf l : exists p, finish ua nav uf l = Ok p.
Proof.
  unfold finish. cbv zeta.
  destruct (add_architecture_total ua nav uf (annotate l) (os_object (annotate l)))
    as (lo & ->).
  cbn [bind]. eexists. reflexivity.
Qed.

(** *** The version through the rules *)

Lemma ver_ok_capture (r : Re.regexp) (s : string) :
  version_group r -> ver_ok (capture 1 (Re.rexec r s)).
Proof.
  intro Hg. destruct (capture 1 (Re.rexec r s)) as [| | b | v] eqn:E; try exact I.
  cbn [ver_ok]. eapply starts_version_ok, capture_version; eassumption.
Qed.

Lemma version_group_rv : version_group (re "\brv:([\d.]+)").
Proof.
  intros b Hin w Hl. vm_compute in Hin.
  destruct Hin as [Hin | []]. inversion Hin; subst b; clear Hin.
  eapply rep_starts. exact Hl.
Qed.

Lemma version_group_build : version_group (rei "\bAppleWebKit\/([\d.]+\+?)").
Proof.
  intros b Hin w Hl. vm_compute in Hin.
  destruct Hin as [Hin | []]. inversion Hin; subst b; clear Hin.
  destruct Hl as (x & y & -> & Hx & _).
  apply rep_starts in Hx. destruct Hx as (c & rest & -> & Hc).
  exists c, (rest ++ y). auto.
Qed.

Ltac ver_cases :=
  cbv zeta; intros; repeat rule_step; try ver_done;
  unfold set_layout1; repeat rule_step; try ver_done.

Lemma version_detect_android_product ua l :
  version (detect_android_product ua l) = version l.
Proof. unfold detect_android_product. rule_cases. Qed.

Lemma version_cleanup_google_tv l : version (cleanup_google_tv l) = version l.
Proof. unfold cleanup_google_tv. rule_cases. Qed.

Lemma version_detect_simulators ua l : version (detect_simulators ua l) = version l.
Proof. unfold detect_simulators. rule_cases. Qed.

Lemma version_detect_opera_mini_turbo ua l :
  version (detect_opera_mini_turbo ua l) = version l.
Proof. unfold detect_opera_mini_turbo. rule_cases. Qed.

Lemma version_detect_browsers self ua l l' :
  detect_browsers self ua l = Ok l' -> version l' = version l.
Proof. unfold detect_browsers. rule_cases. Qed.

Lemma version_detect_stubborn_layouts ua l :
  version (detect_stubborn_layouts ua l) = version l.
Proof. unfold detect_stubborn_layouts. rule_cases. Qed.

Lemma ver_detect_windows_phone ua l :
  ver_ok (version l) -> ver_ok (version (detect_windows_phone ua l)).
Proof.
  pose proof (ver_ok_capture _ ua version_group_rv) as Hrv.
  unfold detect_windows_phone. ver_cases.
Qed.

Lemma maxthon_version (s : string) :
  head_ok s = true -> head_ok (Re.replace (re "\.[\d.]+") ".x" s) = true.
Proof.
  intro H. unfold Re.replace.
  destruct (Re.rexec (re "\.[\d.]+") s) as [mr |]; [| exact H].
  replace (Re.substitution (re "\.[\d.]+") ".x" mr) with ".x" by reflexivity.
  now apply head_ok_take_app.
Qed.

Lemma ver_apply_masking uf operaClass d l :
  ver_ok (version l) -> ver_ok (version (apply_masking uf operaClass d l)).
Proof. unfold apply_masking. ver_cases. Qed.

Lemma ver_detect_mobile_and_masking self context this ua uf opera operaClass l l' :
  detect_mobile_and_masking self context this ua uf opera operaClass l = Ok l' ->
  ver_ok (version l) -> ver_ok (version l').
Proof.
  unfold detect_mobile_and_masking. cbv zeta.
  destruct (eqs (name l) "Fennec"
            || eqs (name l) "Firefox"
               && test (re "\b(?:Android|Firefox OS|KaiOS)\b") (os l))%bool.
  { intro H. inversion H. ver_done. }
  destruct (eqs (name l) "Maxthon" && truthy (version l))%bool eqn:Hm.
  { intro H. inversion H. ver_done. intro Hv. apply maxthon_version.
    apply andb_prop in Hm. destruct Hm as (_ & Ht). now apply ver_ok_text. }
  ver_cases; now apply ver_apply_masking.
Qed.

Lemma safari_ladder_head (d : Num.num) :
  head_ok (approx_text (safari_ladder d)) = true
  /\ head_ok (approx_raw (safari_ladder d)) = true.
Proof.
  unfold safari_ladder. cbv zeta.
  repeat match goal with
         | |- context [if ?c then _ else _] => destruct c
         end; split; vm_compute; reflexivity.
Qed.

Lemma ver_detect_webkit ua lc l :
  ver_ok (version l) -> ver_ok (version (detect_webkit ua false lc l)).
Proof.
  destruct l as [n v o lay pr ma de pre ar]. cbn [version]. intro Hv.
  unfold detect_webkit.
  destruct (capture 1 (Re.rexec (rei "\bAppleWebKit\/([\d.]+\+?)") ua))
    as [| | | build] eqn:Eb; try exact Hv.
  destruct (Str.nonempty build); [| exact Hv].
  assert (Hbuild : head_ok (Str.drop_last build) = true).
  { apply head_ok_take. eapply starts_version_ok, capture_version; [| exact Eb].
    exact version_group_build. }
  cbn [name version layout set_version set_name set_prerelease negb orb].
  set (safari := capture 1 (Re.rexec (rei "\bSafari\/([\d.]+\+?)") ua)).
  set (data1 := capture 1 (Re.rexec (rei "\b(?:Headless)?Chrome\/([\d.]+)") ua)).
  set (data0 := Num.parseFloat _).
  destruct (safari_ladder_head data0) as (Ht & Hr).
  clearbody safari data1 data0.
  destruct (eqs n "Safari" && String.eqb (Str.last_char build) "+")%bool;
    [| destruct (loose_eq v (JStr build)); [| destruct (loose_eq v safari)]];
    cbv beta iota zeta;
    (match goal with
     | |- context [if ?c then set_layout (Some ("Blink", None)) _ else _] => destruct c
     end);
    destruct lay as [[l0 l1] |];
    cbn [name os description version layout set_version set_layout set_layout1 has_layout];
    repeat match goal with
           | |- context [if ?c then _ else _] => destruct c
           end;
    cbn [version set_version set_layout set_name set_prerelease unshift set_description
         ver_ok]; auto.
Qed.

Lemma detect_desktop_modes_total ua l :
  exists l', detect_desktop_modes ua l = Ok l'.
Proof.
  unfold detect_desktop_modes.
  destruct (eqs (name l) "Opera" && test (re "\bzbov|zvav$") (os l))%bool eqn:Ho.
  - apply andb_prop in Ho. destruct Ho as (_ & Ho). unfold test, Re.rtest, Re.test in Ho.
    unfold exec, Re.rexec.
    destruct (Re.exec (Re.re_ic (re "\bzbov|zvav$")) (Re.re_ast (re "\bzbov|zvav$"))
                (to_s (os l))) as [mr |] eqn:E; [| discriminate].
    cbn [text_of to_s]. cbv zeta.
    assert (Ht : Re.mr_text mr = "zbov" \/ Re.mr_text mr = "zvav").
    { unfold Re.exec in E.
      eapply (search_words _ _ ["zbov"; "zvav"]) in E; [| vm_compute; reflexivity].
      destruct E as (w & Hin & Hs).
      change (Re.re_ic (re "\bzbov|zvav$")) with false in Hs.
      apply same_text_exact in Hs. rewrite Hs.
      destruct Hin as [<- | [<- | []]]; auto. }
    destruct Ht as [-> | ->]; cbn [String.eqb Ascii.eqb Bool.eqb]; cbn [bind RegExp].
    + destruct (RegExp (" *" ++ "zbov" ++ "$") false) as [r | e |] eqn:Er;
        [| vm_compute in Er; discriminate ..].
      cbn [bind]. eexists. reflexivity.
    + destruct (RegExp (" *" ++ "zvav" ++ "$") false) as [r | e |] eqn:Er;
        [| vm_compute in Er; discriminate ..].
      cbn [bind]. eexists. reflexivity.
  - destruct (eqs (name l) "Safari" && test (re "\bChrome\b") (layout1 (layout l)))%bool.
    + eexists. reflexivity.
    + destruct (test (re "\bSRWare Iron\b") (name l) && negb (truthy (version l)))%bool;
        [| eexists; reflexivity].
      destruct (getVersion_total ua (Str.chars "Chrome") version_pattern_units)
        as (v & -> & _).
      cbn [bind]. eexists. reflexivity.
Qed.

Lemma ver_detect_desktop_modes ua l l' :
  detect_desktop_modes ua l = Ok l' -> ver_ok (version l) -> ver_ok (version l').
Proof.
  unfold detect_desktop_modes.
  destruct (eqs (name l) "Opera" && test (re "\bzbov|zvav$") (os l))%bool.
  { ver_cases. }
  destruct (eqs (name l) "Safari" && test (re "\bChrome\b") (layout1 (layout l)))%bool.
  { ver_cases. }
  destruct (test (re "\bSRWare Iron\b") (name l) && negb (truthy (version l)))%bool.
  - intro H. apply bind_Ok in H. destruct H as (v & Hv & H). inversion H. ver_done.
    intros _.
    destruct (getVersion_total ua (Str.chars "Chrome") version_pattern_units)
      as (v' & Hv' & Hok).
    congruence.
  - intro H. inversion H. auto.
Qed.

(** *** Nested calls with more fuel *)

Lemma finite_bind_inv {A B : Type} (x : outcome A) (f : A -> outcome B) :
  finite (bind x f) -> finite x.
Proof. unfold finite. destruct x; cbn [bind]; congruence. Qed.

(** [self'] returns what [self] returns wherever [self] ends. *)
Definition extends_calls (self self' : bool -> input -> outcome Platform) : Prop :=
  forall t a, finite (self t a) -> self' t a = self t a.

Lemma detect_browsers_stable self self' ua l :
  extends_calls self self' ->
  finite (detect_browsers self ua l) ->
  detect_browsers self' ua l = detect_browsers self ua l.
Proof.
  intros He. unfold detect_browsers.
  destruct (eqs (name l) "IE" && Re.rtest (re "\blike iPhone OS\b") ua)%bool;
    [| reflexivity].
  intro Hf. apply finite_bind_inv in Hf. now rewrite (He _ _ Hf).
Qed.

Lemma detect_mobile_and_masking_stable self self' context this ua uf opera operaClass l :
  extends_calls self self' ->
  finite (detect_mobile_and_masking self context this ua uf opera operaClass l) ->
  detect_mobile_and_masking self' context this ua uf opera operaClass l
  = detect_mobile_and_masking self context this ua uf opera operaClass l.
Proof.
  intros He. unfold detect_mobile_and_masking.
  repeat match goal with
         | |- finite (if ?c then _ else _) -> _ => destruct c; [reflexivity |]
         end.
  match goal with
  | |- finite (bind ?x _) -> _ => destruct x as [data | e |]; cbn [bind]; try reflexivity
  end.
  destruct (truthy data); [reflexivity |].
  destruct (masking_applies this ua uf opera l); [| reflexivity].
  intro Hf. apply finite_bind_inv in Hf. now rewrite (He _ _ Hf).
Qed.

Lemma parse_body_stable self self' root this arg :
  extends_calls self self' ->
  finite (parse_body self root this arg) ->
  parse_body self' root this arg = parse_body self root this arg.
Proof.
  intros He. unfold parse_body, resolved.
  destruct (pick (setup root arg)) as [l0 | e |]; cbn [bind]; try reflexivity.
  unfold resolve_in, resolve, resolve_first, resolve_rest. cbv zeta.
  destruct (detect_manufacturer_product _ _) as [l1 | e |]; cbn [bind]; try reflexivity.
  intro Hf.
  match goal with
  | |- context [detect_browsers self' ?u ?x] =>
      assert (Hdb : finite (detect_browsers self u x));
      [ intro Hz; apply Hf; rewrite Hz; reflexivity
      | rewrite (detect_browsers_stable self self' u x He Hdb);
        destruct (detect_browsers self u x) as [l2 | e |]; cbn [bind] in *;
        try reflexivity ]
  end.
  destruct (detect_version _ l2) as [l3 | e |]; cbn [bind] in *; try reflexivity.
  destruct (detect_prerelease _ _ _ _ _ _) as [l4 | e |]; cbn [bind] in *; try reflexivity.
  match goal with
  | |- context [detect_mobile_and_masking self' ?c ?t ?u ?f ?o ?oc ?x] =>
      assert (Hdm : finite (detect_mobile_and_masking self c t u f o oc x));
      [ intro Hz; apply Hf; rewrite Hz; reflexivity
      | rewrite (detect_mobile_and_masking_stable self self' c t u f o oc x He Hdm) ]
  end.
  reflexivity.
Qed.

Lemma parse_fuel_stable : forall (n : nat) (root : Host) (this : bool) (arg : input),
  finite (parse_fuel n root this arg) ->
  parse_fuel (S n) root this arg = parse_fuel n root this arg.
Proof.
  induction n as [| n IH]; intros root this arg Hf; [now elim Hf |].
  change (parse_body (parse_fuel (S n) root) root this arg
          = parse_body (parse_fuel n root) root this arg).
  apply parse_body_stable; [| exact Hf].
  intros t a. apply IH.
Qed.

Lemma parse_fuel_more (n m : nat) (root : Host) (this : bool) (arg : input) :
  finite (parse_fuel n root this arg) -> n <= m ->
  parse_fuel m root this arg = parse_fuel n root this arg.
Proof.
  intros Hf Hle. induction Hle as [| m Hle IH]; [reflexivity |].
  rewrite parse_fuel_stable; rewrite IH; auto.
Qed.

(** Two supplies of fuel that are both enough give the same result. *)
Lemma parse_fuel_agree (n m : nat) (root : Host) (this : bool) (arg : input) :
  levels this (String.length (ua_of root arg)) <= n ->
  levels this (String.length (ua_of root arg)) <= m ->
  parse_fuel n root this arg = parse_fuel m root this arg.
Proof.
  intros Hn Hm.
  pose proof (parse_fuel_enough _ root this arg (le_n _)) as Hf.
  rewrite (parse_fuel_more _ n _ _ _ Hf Hn), (parse_fuel_more _ m _ _ _ Hf Hm).
  reflexivity.
Qed.

(** *** [parse] returns, but for the BlackBerry rule *)

(** The call returns a value. *)
Definition returns {A : Type} (x : outcome A) : Prop := exists a, x = Ok a.

Lemma returns_Ok {A : Type} (a : A) : returns (Ok a).
Proof. now exists a. Qed.

Lemma detect_browsers_total self ua l :
  (eqs (name l) "IE" && Re.rtest (re "\blike iPhone OS\b") ua = true ->
   returns (self false (IStr (Re.replace (re "like iPhone OS") "" ua)))) ->
  returns (detect_browsers self ua l).
Proof.
  unfold detect_browsers. cbv zeta.
  destruct (eqs (name l) "IE" && Re.rtest (re "\blike iPhone OS\b") ua)%bool.
  - intro H. destruct (H eq_refl) as (p & ->). cbn [bind]. apply returns_Ok.
  - intros _.
    repeat match goal with
           | |- returns (if ?c then _ else _) => destruct c; try apply returns_Ok
           end.
Qed.

(** The BlackBerry rule, lines 1704 to 1707 of the source: the version that
    follows the product in the identification string.
    [RegExp(product.replace(/ +/g, ' *') + '/([.\\d]+)', 'i')] throws when
    the product is not a pattern, and [product.replace] when there is no
    product. *)
Definition blackberry_version (ua : string) (l : Locals) : outcome jv :=
  if test (re "\bBlackBerry\b") (product l) || Re.rtest (re "\bBB10\b") ua then
    match product l with
    | JStr p =>
        r <- RegExp (Re.replace_all (re " +") " *" p ++ "/([.\d]+)") true ;;
        Ok (jor (capture 1 (Re.rexec r ua)) (version l))
    | _ => Throw TypeError
    end
  else Ok JNull.

Lemma finite_blackberry_version ua l : finite (blackberry_version ua l).
Proof.
  unfold blackberry_version, finite, RegExp.
  destruct (_ || _)%bool; [| discriminate].
  destruct (product l); try discriminate.
  destruct (Re.RegExp _ true); discriminate.
Qed.

(** The chain of the masking rule returns when its nested call does, unless
    the BlackBerry rule throws. *)
Lemma detect_mobile_and_masking_total self context this ua uf opera operaClass l :
  (masking_applies this ua uf opera l = true ->
   returns (self true (IStr (Re.replace reOpera "" ua ++ ";")))) ->
  returns (detect_mobile_and_masking self context this ua uf opera operaClass l)
  \/ exists e, blackberry_version ua l = Throw e.
Proof.
  intro Hself. unfold detect_mobile_and_masking.
  repeat match goal with
         | |- returns (if ?c then _ else _) \/ _ => destruct c; [left; apply returns_Ok |]
         end.
  match goal with
  | |- context [bind (if ?c then ?a else ?b) _] =>
      change (if c then a else b) with (blackberry_version ua l)
  end.
  pose proof (finite_blackberry_version ua l) as Hf.
  destruct (blackberry_version ua l) as [data | e |]; cbn [bind].
  - left. destruct (truthy data); [apply returns_Ok |].
    destruct (masking_applies this ua uf opera l); [| apply returns_Ok].
    destruct (Hself eq_refl) as (p & ->). cbn [bind]. apply returns_Ok.
  - right. now exists e.
  - now elim Hf.
Qed.

(** The strings of the nested calls that a call on [ua] can lead to: the
    IE Mobile 11 rule takes the marker out, the masking rule the Opera
    signature. *)
Inductive reparsed (ua : string) : string -> Prop :=
| reparsed_here : reparsed ua ua
| reparsed_marker s :
    reparsed ua s -> reparsed ua (Re.replace (re "like iPhone OS") "" s)
| reparsed_signature s :
    reparsed ua s -> reparsed ua (Re.replace reOpera "" s ++ ";").

Lemma reparsed_trans a b c : reparsed a b -> reparsed b c -> reparsed a c.
Proof.
  intros Hab Hbc. induction Hbc; [exact Hab | now apply reparsed_marker
                                  | now apply reparsed_signature].
Qed.

(** The BlackBerry rule throws in the call on [ua] or in a nested one: on
    the locals that the rules before its chain give, it cannot build its
    pattern. *)
Definition blackberry_slip (root : Host) (ua : string) : Prop :=
  exists ua' l e,
    reparsed ua ua'
    /\ parse_locals_first root (IStr ua') = Ok l
    /\ blackberry_version ua' l = Throw e.

Lemma blackberry_slip_nested root a b :
  reparsed a b -> blackberry_slip root b -> blackberry_slip root a.
Proof.
  intros Hab (u & l & e & Hbu & Hl & He). exists u, l, e.
  split; [eapply reparsed_trans; eassumption | auto].
Qed.

(** A context without an identification string of its own and without an
    Opera object: what a server-side environment gives. *)
Definition unidentified (root : Host) : Prop :=
  userAgent_of root = "" /\ opera root = None /\ operamini root = None.

Lemma unidentified_env root s :
  unidentified root -> s <> "" ->
  e_ua (setup root (IStr s)) = s
  /\ e_useFeatures (setup root (IStr s)) = false
  /\ e_version (setup root (IStr s)) = JBool false
  /\ e_operaClass (setup root (IStr s)) = JNull
  /\ (e_alpha (setup root (IStr s)) <> "" /\ head_ok (e_alpha (setup root (IStr s))) = true)
  /\ (e_beta (setup root (IStr s)) <> "" /\ head_ok (e_beta (setup root (IStr s))) = true).
Proof.
  intros (Hu & Ho & Hm) Hs.
  destruct (setup_explicit root s Hs Hu) as (H1 & H2 & H3).
  repeat split; try assumption.
  - cbn [setup e_operaClass]. rewrite Ho, Hm. reflexivity.
  - cbn [setup e_alpha]. match goal with |- glyph ?b _ _ <> _ => destruct b end; discriminate.
  - cbn [setup e_alpha]. match goal with |- head_ok (glyph ?b _ _) = _ => destruct b end;
      reflexivity.
  - cbn [setup e_beta]. match goal with |- glyph ?b _ _ <> _ => destruct b end; discriminate.
  - cbn [setup e_beta]. match goal with |- head_ok (glyph ?b _ _) = _ => destruct b end;
      reflexivity.
Qed.

Lemma pick_version e l : pick e = Ok l -> version l = e_version e.
Proof.
  unfold pick. intro H.
  apply bind_Ok in H. destruct H as (la & _ & H).
  apply bind_Ok in H. destruct H as (n & _ & H).
  apply bind_Ok in H. destruct H as (pr & _ & H).
  apply bind_Ok in H. destruct H as (x & _ & H).
  apply bind_Ok in H. destruct H as (ma & _ & H).
  apply bind_Ok in H. destruct H as (o & _ & H).
  inversion H. reflexivity.
Qed.

(** The rules up to the prerelease phases return when the nested call of
    the IE Mobile 11 rule does. *)
Lemma resolve_first_total self context custom ua nav java rhino alpha beta l :
  plain_name l -> maker (manufacturer l) -> ver_ok (version l) ->
  alpha <> "" -> head_ok alpha = true -> beta <> "" -> head_ok beta = true ->
  (eqs (name l) "IE" && Re.rtest (re "\blike iPhone OS\b") ua = true ->
   returns (self false (IStr (Re.replace (re "like iPhone OS") "" ua)))) ->
  exists l',
    resolve_first self context custom ua nav false java rhino alpha beta l = Ok l'
    /\ plain_name l' /\ ver_ok (version l').
Proof.
  intros Hp Hm Hv Ha Ha' Hb Hb' Hself. unfold resolve_first. cbv zeta.
  destruct (detect_manufacturer_product_total ua (detect_android_product ua l)
              (maker_detect_android_product ua l Hm)) as (l1 & H1 & Hv1).
  rewrite H1. cbn [bind].
  pose proof (name_detect_manufacturer_product _ _ _ H1) as Hn1.
  rewrite name_detect_android_product in Hn1.
  rewrite version_detect_android_product in Hv1.
  set (lb := detect_opera_mini_turbo ua (detect_simulators ua (cleanup_google_tv l1))).
  assert (Hnb : name lb = name l).
  { subst lb. now rewrite name_detect_opera_mini_turbo, name_detect_simulators,
      name_cleanup_google_tv. }
  assert (Hvb : version lb = version l).
  { subst lb. now rewrite version_detect_opera_mini_turbo, version_detect_simulators,
      version_cleanup_google_tv. }
  destruct (detect_browsers_total self ua lb) as (l2 & H2).
  { rewrite Hnb. exact Hself. }
  rewrite H2. cbn [bind].
  assert (Hp2 : plain_name l2).
  { apply (plain_detect_browsers _ _ _ _ H2). unfold plain_name. now rewrite Hnb. }
  pose proof (version_detect_browsers _ _ _ _ H2) as Hv2.
  destruct (detect_version_total ua l2 Hp2) as (l3 & H3 & Hv3).
  rewrite H3. cbn [bind].
  pose proof (plain_detect_version _ _ _ H3 Hp2) as Hp3.
  rewrite leverage_features_off.
  set (lw := detect_windows_phone ua (detect_stubborn_layouts ua l3)).
  assert (Hpw : plain_name lw).
  { subst lw. now apply plain_detect_windows_phone, plain_detect_stubborn_layouts. }
  assert (Hvw : ver_ok (version lw)).
  { subst lw. apply ver_detect_windows_phone. rewrite version_detect_stubborn_layouts.
    apply Hv3. now rewrite Hv2, Hvb. }
  destruct (detect_prerelease_total ua nav false alpha beta lw Ha Ha' Hb Hb')
    as (l4 & H4 & Hv4).
  exists l4. split; [exact H4 |]. split; [| now apply Hv4].
  exact (plain_detect_prerelease _ _ _ _ _ _ _ H4 Hpw).
Qed.

(** The rules after them return when the nested call of the masking rule
    does, unless the BlackBerry rule throws. *)
Lemma resolve_rest_total self context this ua lc opera l :
  plain_name l -> ver_ok (version l) ->
  (masking_applies this ua false opera l = true ->
   returns (self true (IStr (Re.replace reOpera "" ua ++ ";")))) ->
  returns (resolve_rest self context this ua false lc opera JNull l)
  \/ exists e, blackberry_version ua l = Throw e.
Proof.
  intros Hp Hv Hself. unfold resolve_rest.
  destruct (detect_mobile_and_masking_total self context this ua false opera JNull l Hself)
    as [(l5 & H5) | Hslip]; [| now right].
  left. rewrite H5. cbn [bind].
  pose proof (plain_detect_mobile_and_masking _ _ _ _ _ _ _ _ H5 Hp) as Hp5.
  pose proof (ver_detect_mobile_and_masking _ _ _ _ _ _ _ _ _ H5 Hv) as Hv5.
  destruct (detect_desktop_modes_total ua (detect_webkit ua false lc l5)) as (l6 & H6).
  rewrite H6. cbn [bind].
  pose proof (plain_detect_desktop_modes _ _ _ H6 (plain_detect_webkit ua false lc l5 Hp5))
    as Hp6.
  pose proof (ver_detect_desktop_modes _ _ _ H6 (ver_detect_webkit ua lc l5 Hv5)) as Hv6.
  destruct (strip_os_version_total ua l6 Hv6) as (l7 & H7 & _ & Hn7).
  rewrite H7. cbn [bind].
  apply strip_name_from_os_total. unfold plain_name. now rewrite Hn7.
Qed.

Section Unidentified.
Variable root : Host.
Hypothesis no_hints : unidentified root.

(** The locals before the chain of the masking rule do not depend on the
    fuel, once it is enough. *)
Lemma resolve_first_fuel (n : nat) (this : bool) (s : string) (l0 : Locals) :
  s <> "" -> levels this (String.length s) <= S n ->
  getName s names = Ok (name l0) ->
  forall e,
    resolve_first_in (parse_fuel n root) e l0
    = resolve_first_in (parse_fuel (S (String.length s)) root) e l0
    \/ e_ua e <> s.
Proof.
  intros Hs Hn Hname e.
  destruct (string_dec (e_ua e) s) as [Hu |]; [left | now right].
  unfold resolve_first_in, resolve_first. cbv zeta. rewrite Hu.
  destruct (detect_manufacturer_product s (detect_android_product s l0)) as [l1 | err |] eqn:H1;
    cbn [bind]; try reflexivity.
  apply name_detect_manufacturer_product in H1.
  rewrite name_detect_android_product in H1.
  rewrite (detect_browsers_ext (parse_fuel n root) (parse_fuel (S (String.length s)) root));
    [reflexivity |].
  rewrite name_detect_opera_mini_turbo, name_detect_simulators, name_cleanup_google_tv, H1.
  intro Hc. apply andb_prop in Hc. destruct Hc as (Hie & Hlike).
  destruct (like_iphone_removed s Hlike) as (Hlen & Hempty).
  assert (Hne : Re.replace (re "like iPhone OS") "" s <> "").
  { intro Hz. apply Hempty in Hz. rewrite Hz, getName_like_iphone in Hname.
    inversion Hname as [Hx]. rewrite <- Hx in Hie. discriminate. }
  apply parse_fuel_agree; rewrite (ua_of_string root _ Hne);
    unfold levels in *; destruct this; lia.
Qed.

Lemma parse_fuel_total : forall (n : nat) (this : bool) (s : string),
  s <> "" -> levels this (String.length s) <= n ->
  returns (parse_fuel n root this (IStr s)) \/ blackberry_slip root s.
Proof.
  induction n as [| n IH]; intros this s Hs Hn.
  { pose proof (levels_positive this (String.length s)). lia. }
  cbn [parse_fuel]. unfold parse_body, resolved.
  destruct (unidentified_env root s no_hints Hs)
    as (Hu & Hf & Hv & Hoc & (Ha & Ha') & (Hb & Hb')).
  pose proof (resolve_first_fuel n this s) as Hfuel.
  assert (Hlocals : forall l0 l,
            pick (setup root (IStr s)) = Ok l0 ->
            resolve_first_in (parse_fuel (S (String.length s)) root)
              (setup root (IStr s)) l0 = Ok l ->
            parse_locals_first root (IStr s) = Ok l).
  { intros l0 l Hp Hl. unfold parse_locals_first. rewrite Hp. cbn [bind].
    now rewrite (ua_of_string root s Hs). }
  set (e := setup root (IStr s)) in *.
  destruct (pick_total e) as (l0 & Hpick). rewrite Hpick. cbn [bind].
  pose proof (plain_pick e l0 Hpick) as Hp0.
  pose proof (maker_pick e l0 Hpick) as Hm0.
  pose proof (pick_version e l0 Hpick) as Hv0. rewrite Hv in Hv0.
  pose proof (pick_name e l0 Hpick) as Hn0. rewrite Hu in Hn0.
  specialize (Hfuel l0 Hs Hn Hn0 e). destruct Hfuel as [Hfuel | Hfuel]; [| congruence].
  specialize (Hlocals l0).
  (* The nested call of the IE Mobile 11 rule. *)
  assert (Hie : eqs (name l0) "IE" && Re.rtest (re "\blike iPhone OS\b") s = true ->
                returns (parse_fuel n root false
                           (IStr (Re.replace (re "like iPhone OS") "" s)))
                \/ blackberry_slip root s).
  { intro Hc. apply andb_prop in Hc. destruct Hc as (Hie & Hlike).
    destruct (like_iphone_removed s Hlike) as (Hlen & Hempty).
    assert (Hne : Re.replace (re "like iPhone OS") "" s <> "").
    { intro Hz. apply Hempty in Hz. rewrite Hz, getName_like_iphone in Hn0.
      inversion Hn0 as [Hx]. rewrite <- Hx in Hie. discriminate. }
    destruct (IH false _ Hne) as [Hr | Hslip].
    - unfold levels in *. destruct this; lia.
    - now left.
    - right. eapply blackberry_slip_nested; [| exact Hslip].
      apply reparsed_marker, reparsed_here. }
  assert (Hfirst : (exists l4, resolve_first_in (parse_fuel n root) e l0 = Ok l4
                                /\ plain_name l4 /\ ver_ok (version l4))
                   \/ blackberry_slip root s).
  { assert (Hver : ver_ok (version l0)) by (rewrite Hv0; exact I).
    unfold resolve_first_in. rewrite Hu, Hf.
    destruct (eqs (name l0) "IE" && Re.rtest (re "\blike iPhone OS\b") s)%bool eqn:Hcond.
    - destruct (Hie eq_refl) as [Hr | Hslip]; [| now right].
      left.
      apply (resolve_first_total (parse_fuel n root) (e_context e) (e_isCustomContext e) s
               (e_nav e) (e_java e) (e_rhino e) (e_alpha e) (e_beta e) l0
               Hp0 Hm0 Hver Ha Ha' Hb Hb').
      intros _. exact Hr.
    - left.
      apply (resolve_first_total (parse_fuel n root) (e_context e) (e_isCustomContext e) s
               (e_nav e) (e_java e) (e_rhino e) (e_alpha e) (e_beta e) l0
               Hp0 Hm0 Hver Ha Ha' Hb Hb').
      intro Hx. rewrite Hcond in Hx. discriminate. }
  clear Hie. destruct Hfirst as [(l4 & H4 & Hp4 & Hv4) | Hslip]; [| now right].
  rewrite resolve_in_split, H4. cbn [bind].
  (* The nested call of the masking rule. *)
  assert (Hmask : masking_applies this s false (e_opera e) l4 = true ->
                  returns (parse_fuel n root true (IStr (Re.replace reOpera "" s ++ ";")))
                  \/ blackberry_slip root s).
  { intro Hm. destruct this; [rewrite masking_needs_top_level in Hm; discriminate |].
    assert (Hne : (Re.replace reOpera "" s ++ ";")%string <> "").
    { destruct (Re.replace reOpera "" s); discriminate. }
    destruct (IH true _ Hne) as [Hr | Hslip].
    - pose proof (ReFacts.replace_empty_length reOpera s) as Hle.
      rewrite ReFacts.append_length. cbn [String.length].
      unfold levels in *. lia.
    - now left.
    - right. eapply blackberry_slip_nested; [| exact Hslip].
      apply reparsed_signature, reparsed_here. }
  assert (Hrest : returns (resolve_rest_in (parse_fuel n root) e this l4)
                  \/ blackberry_slip root s).
  { assert (Hthrow : (exists err, blackberry_version s l4 = Throw err) ->
                     blackberry_slip root s).
    { intros (err & Hbb). exists s, l4, err.
      split; [apply reparsed_here |]. split; [| exact Hbb].
      apply Hlocals; [exact Hpick |]. now rewrite <- Hfuel. }
    unfold resolve_rest_in. rewrite Hu, Hf, Hoc.
    destruct (masking_applies this s false (e_opera e) l4) eqn:Hm.
    - destruct (Hmask eq_refl) as [Hr | Hslip]; [| now right].
      destruct (resolve_rest_total (parse_fuel n root) (e_context e) this s
                  (e_likeChrome e) (e_opera e) l4 Hp4 Hv4 (fun _ => Hr)) as [H8 | Hbb];
        [now left | right; exact (Hthrow Hbb)].
    - destruct (resolve_rest_total (parse_fuel n root) (e_context e) this s
                  (e_likeChrome e) (e_opera e) l4 Hp4 Hv4) as [H8 | Hbb];
        [rewrite Hm; discriminate | now left | right; exact (Hthrow Hbb)]. }
  destruct Hrest as [(l8 & H8) | Hslip]; [| now right].
  left. rewrite H8. cbn [bind]. apply finish_total.
Qed.
End Unidentified.



